(* ===== verification/_CoqProject ===== *)
-Q . S2P
Prelude.v
GoStrings.v
GoTime.v
GoNet.v
GoNetFacts.v
Sha256.v
Model.v
Config.v
Dns.v
Validate.v
ValidateFacts.v
Keys.v
KeysFacts.v
Inventory.v
Effects.v
Wp.v
Probe.v
ProbeFacts.v
Evidence.v
StateFile.v
StateFileFacts.v
Core.v
Rollover.v
Parent.v
Enroll.v
Reconcile.v
Waits.v
Operator.v
Report.v
Json.v
JsonCodec.v
JsonFacts.v
TimeText.v
StateJson.v
Http.v
Control.v
Cli.v
AutoDns.v
Pdns.v
Lmtp.v
Safety.v
TickSafety.v
Phases.v
Single.v
OperatorFacts.v
ControlFacts.v
Terminates.v
JsonIndent.v
StateJsonFacts.v
CliFacts.v
AutoDnsFacts.v
PdnsFacts.v
LmtpFacts.v
RequestEffects.v
Boundaries.v
Once.v
Completion.v
Reach.v
Reachable.v
Lifecycle.v
LifecycleFacts.v
Steps.v
ProbeBounds.v
EndToEnd.v
App.v
Wire.v
Durable.v
Progress.v
Sim.v
Instances.v
ProbeSim.v
ValidateSim.v
ProgressSim.v
HttpSim.v
StateFileSim.v
ControlSim.v
LifecycleSim.v
AutoDnsSim.v
ClientSim.v
WireSim.v
