(* ===== verification/Prelude.v ===== *)
(** * dnssec-keyrotation: a verification development

    The program (Go, under src/) rotates the DNSSEC keys of the zones a PowerDNS server
    signs.  A controller advances one persisted workflow per zone and kind of rotation, a
    phase at a time: it creates, activates, deactivates and deletes keys through the
    PowerDNS API, replaces the DS material at the registrar through AutoDNS, and takes no
    step before the DNS, asked on independent paths, shows that the step before has
    arrived everywhere.  This library is a model of that program, written as the code is
    written, and proofs of what makes it correct.

    ** Parts of the program and where they are modelled

    - src/internal/model/model.go, the persisted state: Model.v.
    - src/internal/config/config.go: Config.v (the records), Validate.v (defaults, [Validate],
      [Load], [ReadSecret]) and ValidateFacts.v (what a validated configuration guarantees).
    - src/internal/state/store.go: StateFile.v ([Open], [Close], [Update_], [writeAtomic] on a
      file system with faults and crashes) and StateFileFacts.v; StateJson.v and StateJsonFacts.v
      (the state as a JSON document, with the struct tags of model.go).
    - src/internal/dnsprobe/probe.go: Dns.v (records and names of the DNS library, key
      material), Probe.v (every query and check), ProbeFacts.v (what each check accepts),
      Evidence.v (what each result says of the exchanges).
    - src/internal/controller/controller.go, by function: Keys.v (the pure functions on key
      inventories), Core.v ([transition], [recordRetry], [block], [complete], [start],
      [bootstrap]), Rollover.v (the phases of ZSK, KSK and split rollovers), Parent.v (the
      registrar write and its job), Enroll.v (the enrollment phases), Reconcile.v ([advance],
      [reconcileZone], the outbox, [Tick]), Operator.v ([ArmEnrollment], [Trigger], [Resume],
      [ReconcileSplitSignerTransition]), Report.v ([Plan_], [Zones], [Status_], [Audit]).
    - src/internal/control/server.go and client.go: Control.v (request types, handlers, dispatch,
      the socket) and the client side in Cli.v; src/cmd/dnssecctl/main.go: Cli.v (the commands, from
      their arguments to the request and from the response to the output).
    - src/internal/autodns/client.go: AutoDns.v; src/internal/pdns/client.go: Pdns.v, both on the HTTP
      client of Http.v; src/internal/lmtp/client.go: Lmtp.v, with net/textproto's responses and
      dot writer and mime's Q encoding.
    - src/internal/app/app.go: App.v (the providers, and the controller on the clients, the probe, the
      notifier and the state file they make) and Lifecycle.v ([Run] with the server's Serve and
      controller.Run: the goroutines, their channel, contexts, hooks and deadlines, as a transition
      system).
    - The language and its standard library: GoStrings.v, GoTime.v, GoNet.v (with GoNetFacts.v),
      Sha256.v, Json.v (encoding/json: parsing and printing, on bytes), JsonCodec.v (decoding into Go
      values and the documents of the API), JsonFacts.v (a printed document parses
      to itself), JsonIndent.v (the same for indented output), TimeText.v (reading RFC 3339 times),
      Http.v (requests, responses, status codes, path escaping), and the machine
      integers, errors and records with update in this file.

    The controller calls the other parts through the interface [Services] of Effects.v:
    pdns.API, autodns.API, dnsprobe.Observer, the notifier, the clock, the write of the
    state file, and the iteration order of maps.  A computation of the monad [M] runs on a
    [World]: the services' state, the stored state, and the trace of every call with its
    answer.  Effects.v states what the controller may rely on; the theorems about the
    controller hold for every instance.  EndToEnd.v implements the observer by the probe of
    Probe.v ([probed]) and App.v the rest by the clients ([newController]), down to the HTTP
    requests, the DNS messages, the mail dialogue and the system calls.  A definition has the name
    of the Go function it translates; [query], [verifySignature] and the like keep their names in Probe.v, and what would clash
    carries a suffix or a prefix ([Update_], [Snapshot_], [probe_DSEvidence]).

    ** Tools

    Wp.v has the program logics: [wp] for symbolic execution with arbitrary answers, [emits],
    [justifies] and [keeps] for properties of the trace and of the stored state, each
    compositional with a tactic that follows the syntax of the program.  Steps.v gives the
    fourth: every run is a sequence of service calls ([runs]), and what is written keeps the
    version of the state.  Evidence.v has [collects], the
    logic of the probe, and StateFileFacts.v [does], the logic of the file system.

    ** What is proved

    - Writes: what must have been observed and recorded before a key is created, activated,
      deactivated or deleted and before the registrar is written (Safety.v, TickSafety.v, with
      the specification [evidence]); that the registrar is written at most once (Once.v); that
      observe mode, reports and requests write nothing outside (Boundaries.v, OperatorFacts.v).
    - The phase machine: [advance] refines an abstract machine per kind (Phases.v); completion is
      one atomic update (Completion.v); waits, TTL bounds and retries (Waits.v).
    - Invariants: one active workflow per zone (Single.v), well-formed entries, and both for
      every state reachable by any sequence of ticks and requests (Reach.v, Reachable.v).
    - Requests: what they check and change, and that repeating one changes nothing
      (RequestEffects.v, OperatorFacts.v).
    - Key inventories: what the validators accept (KeysFacts.v, Inventory.v).
    - The probe: its comparisons are equality of multisets of data; its results are what the
      servers answered, from the number of distinct servers the evidence needs (ProbeFacts.v,
      Evidence.v); and end to end, a key is deleted only when the log of the network already
      holds the answers that prove its replacement (Steps.v, EndToEnd.v).
    - The wired program: the logs of the HTTP exchanges are exactly what the trace of calls says, so
      every request other than a GET that PowerDNS or the registrar receives had its complete
      evidence before it was sent, and that evidence is in the log of the network (Wire.v).
    - Termination: every evidence operation ends after a bounded number of exchanges, whatever the
      servers answer (ProbeBounds.v), and a rollover comes to its end (Progress.v).
    - The process: every tick and, but for handlers the server gave up on, every request runs under
      the lock of the state file; a stop is bounded and never stuck; in every state of the process the
      stored state is well-formed (LifecycleFacts.v).
    - The state file: an update is all or nothing whatever fails and wherever a crash hits, and a
      restart decodes from its JSON text what the last successful update published
      (StateFileFacts.v, StateJsonFacts.v); the whole of it, from one boot of the wired process
      over any life and a crash at any moment to the next boot (Durable.v).
    - The configuration: what [Validate] guarantees, resolved paths included (ValidateFacts.v).
    - The control API: nothing changes without a POST in enforce mode with an idempotency key and a
      body that confirms, and an accepted request can be repeated (ControlFacts.v); every command
      of dnssecctl reaches the controller's operation with its own arguments (CliFacts.v).
    - The clients: what a registrar's answer must contain before its state is believed, that what is
      written there is read back, the pause between requests and the meaning of an unavailable
      job (AutoDnsFacts.v); which request a PowerDNS call sends, when it succeeds, and that a key's
      URL names that key (PdnsFacts.v); that a notification counts as sent only after every reply,
      that no text can add a command or a header, and that a receiver reads back the message
      (LmtpFacts.v).
    - Progress: while the inventory is in order and the services answer, every due step brings a
      ZSK rollover nearer to its end, and it is idle after at most fifteen (Progress.v).

    Sim.v is a simulated PowerDNS server, registrar, parent and clock, on which the program is
    evaluated; Instances.v, ProbeSim.v, StateFileSim.v, ValidateSim.v, ProgressSim.v,
    HttpSim.v, ControlSim.v, LifecycleSim.v, AutoDnsSim.v, ClientSim.v and WireSim.v, a whole tick down to the
    bytes, apply the theorems to concrete runs and record, as closed theorems, behaviours of the
    code that differ from its documentation.

    ** Bounds and fuel

    The loops of the program recurse on the lists they range over.  Fuel is carried only by parts of
    the standard library: the JSON scanner, the escaping of JSON strings, base64, the Q encoding,
    whose fuel is the length of the text and enough (Terminates.v), and the constants and blocks
    of SHA-256.
    The two bounded loops of the program recurse on their own bounds, the three attempts of
    [query] and the twelve referral levels of the iterated lookups.  [int], [int64] and
    [time.Duration] are 64-bit and wrap; where a theorem needs that a sum does not wrap it
    says so.  Time is in nanoseconds since the zero time.

    ** Parameters

    The DNS library ([DnsLib], [ProbeLib]: presentation format, names, key tags, digests,
    signature verification, NSEC3 hashing), the codec of the state file ([Json], which StateJson.v
    implements by encoding/json: [state_codec]), the kernel
    ([Kernel]: which calls fail), url.Parse and mail.ParseAddress ([Parsers]), the HTTP
    servers, timers and URL errors ([HttpStack]), the wording of JSON errors ([JsonErrors]), the
    mail server ([MailPeer]), the network and its clock, and the order in which a map is visited
    ([MapOrder]), the order of fx's hooks ([Fx]).  The few laws the proofs use of them are the classes
    [RangeOk], [NetRangeOk], [KernelOk], [ClockOk], [FxOk] and hypotheses of the theorems.

    ** Not modelled

    - Steps within a tick or a request: each is one action of its goroutine, in the order in which
      they take the controller's mutex.  [Trigger] takes none: it is one action as well, and of its
      interleavings with a tick only those are covered in which its closing update comes later
      ([Single.requests_keep_single_active]); [Instances.trigger_races_block] shows one of the others.
    - Logging; HTTP and TLS transport (an exchange is a request and a response or an error; a body
      whose reading fails midway is such an error), and the server's loop; case folding and white
      space outside ASCII; the monotonic clock reading and time zones.
    - Unix permissions of the state file and its directory beyond the calls that may fail.
    - cobra's parsing of flags and its help texts: a command starts from its arguments and the values
      of its flags.
    - The clients are modelled as single threads: the registrar client's mutex, held from its pause to
      the end of the exchange, orders its requests.
    - fx, but for the order of its hooks ([Fx]), and the logger.
    - Texts outside ASCII in the round trips of JSON, and the lenient forms of a time the decoder takes. *)

From Stdlib Require Export ZArith Lia Ascii.
From stdpp Require Export base tactics numbers list gmap strings pretty sorting.

Declare Scope go_scope.
Delimit Scope go_scope with go.
#[global] Open Scope string_scope.
#[global] Open Scope list_scope.
#[global] Open Scope Z_scope.

(** ** Go errors and fallible pure functions

    A Go [error] is the text of its [Error()] method together with the one
    sentinel the program tests with [errors.Is], [autodns.ErrJobUnavailable]. *)
Record error := mkError {
  Error : string;
  is_job_unavailable : bool;
}.

(** [errors.New]. *)
Definition errors_New (s : string) : error := mkError s false.

(** The result of a Go function returning [(T, error)]. *)
Inductive result (A : Type) : Type :=
| Ok (a : A)
| Err (e : error).
Arguments Ok {A} a.
Arguments Err {A} e.

Definition result_bind {A B} (r : result A) (k : A -> result B) : result B :=
  match r with
  | Ok a => k a
  | Err e => Err e
  end.

(** [fmt.Errorf("...: %w", err)] around a fallible call. *)
Definition map_err {A} (f : error -> error) (r : result A) : result A :=
  match r with
  | Ok a => Ok a
  | Err e => Err (f e)
  end.

Definition is_ok {A} (r : result A) : bool :=
  match r with
  | Ok _ => true
  | Err _ => false
  end.

Notation "'let?' x ':=' r 'in' k" := (result_bind r (fun x => k))
  (at level 10, x pattern, r at level 100, k at level 200,
   format "'[v' 'let?'  x  ':='  r  'in' '/' k ']'") : go_scope.
#[global] Open Scope go_scope.

#[global] Instance error_eq_dec : EqDecision error.
Proof. solve_decision. Defined.
#[global] Instance result_eq_dec `{EqDecision A} : EqDecision (result A).
Proof. solve_decision. Defined.

(** What success of a fallible computation means, one equation per construct. *)
Lemma result_bind_Ok {A B} (r : result A) (k : A -> result B) b :
  result_bind r k = Ok b <-> exists a, r = Ok a /\ k a = Ok b.
Proof. destruct r; cbn; naive_solver. Qed.
Lemma map_err_Ok {A} f (r : result A) a : map_err f r = Ok a <-> r = Ok a.
Proof. destruct r; cbn; naive_solver. Qed.
Lemma guard_Ok {A} (b : bool) e (r : result A) a :
  (if b then Err e else r) = Ok a <-> b = false /\ r = Ok a.
Proof. destruct b; naive_solver. Qed.
Lemma unless_Ok {A} (b : bool) e (r : result A) a :
  (if b then r else Err e) = Ok a <-> b = true /\ r = Ok a.
Proof. destruct b; naive_solver. Qed.
Lemma option_Ok {A B} (o : option A) e (k : A -> result B) b :
  (match o with None => Err e | Some a => k a end) = Ok b <-> exists a, o = Some a /\ k a = Ok b.
Proof. destruct o; naive_solver. Qed.

(** Decompose [H : computation = Ok a] into the successes it consists of. *)
Ltac ok_inv H :=
  lazymatch type of H with
  | result_bind _ _ = Ok _ =>
      let x := fresh "x" in let Hx := fresh "Hok" in
      apply result_bind_Ok in H; destruct H as (x & Hx & H);
      cbv beta in H; ok_inv Hx; ok_inv H
  | map_err _ _ = Ok _ => apply map_err_Ok in H; ok_inv H
  | (if _ then Err _ else _) = Ok _ =>
      let Hb := fresh "Hguard" in
      apply guard_Ok in H; destruct H as [Hb H]; ok_inv H
  | _ => idtac
  end.

(** ** Machine integers: a w-bit signed value with Go's wrap-around. *)
Definition wrap_signed (bits z : Z) : Z :=
  (z + 2 ^ (bits - 1)) mod 2 ^ bits - 2 ^ (bits - 1).
Definition wrap_unsigned (bits z : Z) : Z := z mod 2 ^ bits.

(** [int], [int64] and [time.Duration] on the 64-bit platforms the program is built for. *)
Definition int64 (z : Z) : Z := wrap_signed 64 z.
Definition uint32 (z : Z) : Z := wrap_unsigned 32 z.

Definition in_int64 (z : Z) : Prop := -2 ^ 63 <= z < 2 ^ 63.
#[global] Instance in_int64_dec z : Decision (in_int64 z).
Proof. unfold in_int64; apply _. Defined.

Lemma int64_id z : in_int64 z -> int64 z = z.
Proof.
  unfold in_int64, int64, wrap_signed; intros H.
  change (64 - 1) with 63. rewrite Z.mod_small by lia. lia.
Qed.

Lemma int64_range z : in_int64 (int64 z).
Proof.
  unfold in_int64, int64, wrap_signed.
  change (64 - 1) with 63.
  pose proof (Z.mod_pos_bound (z + 2 ^ 63) (2 ^ 64)). lia.
Qed.

(** ** Records with functional update

    [r <| p := v |>] is Go's [r.p = v] on a copy of [r].  A record type declares
    its eta expansion once ([Eta]) and one [Field] instance per field, built by
    [derive_field]. *)
Class Eta (R : Type) := eta : R -> R.

Class Field {R T : Type} (proj : R -> T) := update : (T -> T) -> R -> R.
Arguments update {R T} proj {_} f r.

Ltac derive_field expand :=
  lazymatch goal with
  | |- @Field ?R ?T ?proj =>
      let body := eval cbv beta delta [expand] in (fun r : R => expand r) in
      let fn := eval pattern proj in body in
      exact (fun (f : T -> T) (r : R) =>
        ltac:(let e := eval cbv beta delta [expand] in (expand r) in
              let e' := eval pattern (proj r) in e in
              lazymatch e' with
              | ?g _ => let b := eval cbv beta in (g (f (proj r))) in exact b
              end))
  end.

#[warnings="-postfix-notation-not-level-1"]
Notation "r '<|' p ':=' v '|>'" := (update p (fun _ => v) r)
  (at level 12, left associativity, p at level 8, v at level 100,
   format "r  '<|'  p  ':='  v  '|>'") : go_scope.

(** Reads of an updated record: the projections compute through [update]. *)
Ltac not_update p :=
  lazymatch p with
  | update _ _ => fail
  | _ => idtac
  end.
Ltac record_simpl1 :=
  match goal with
  | |- context [?p (@update ?R ?T ?q ?i ?f ?r)] =>
      not_update p;
      first [ change (p (@update R T q i f r)) with (p r)
            | progress change (p (@update R T q i f r)) with (f (p r)); cbv beta ]
  | H : context [?p (@update ?R ?T ?q ?i ?f ?r)] |- _ =>
      not_update p;
      first [ change (p (@update R T q i f r)) with (p r) in H
            | progress change (p (@update R T q i f r)) with (f (p r)) in H; cbv beta in H ]
  end.
Ltac record_simpl := repeat record_simpl1.

(** ** Go's [==] and [!=] on comparable types *)
Definition eqb {A} `{EqDecision A} (a b : A) : bool := bool_decide (a = b).
Notation "a == b" := (eqb a b) (at level 70, no associativity) : go_scope.
Notation "a != b" := (negb (eqb a b)) (at level 70, no associativity) : go_scope.

Lemma eqb_true `{EqDecision A} (a b : A) : (a == b) = true <-> a = b.
Proof. apply bool_decide_eq_true. Qed.
Lemma eqb_false `{EqDecision A} (a b : A) : (a == b) = false <-> a <> b.
Proof. apply bool_decide_eq_false. Qed.
Lemma eqb_refl `{EqDecision A} (a : A) : (a == a) = true.
Proof. by apply eqb_true. Qed.

(** [bool_prop]: turn every boolean hypothesis into the propositions it decides. *)
Create Rewrite HintDb bool_prop.
#[export] Hint Rewrite @eqb_true @eqb_false andb_true_iff andb_false_iff orb_true_iff
  orb_false_iff negb_true_iff negb_false_iff Z.eqb_eq Z.eqb_neq Z.ltb_lt Z.ltb_ge Z.leb_le
  Z.leb_gt bool_decide_eq_true bool_decide_eq_false : bool_prop.

Ltac bool_prop :=
  repeat match goal with
  | H : context [ _ = true ] |- _ => progress autorewrite with bool_prop in H
  | H : context [ _ = false ] |- _ => progress autorewrite with bool_prop in H
  | H : _ /\ _ |- _ => destruct H
  end.
