(* ===== verification/GoStrings.v ===== *)
(** * Go strings: the functions of [strings], [slices], [strconv] and [fmt] the
    program uses, on byte strings.  Case folding and white space are those of
    ASCII: every name, label and token the program folds is an ASCII DNS name,
    key type or algorithm mnemonic. *)
From S2P Require Import Prelude.

(** ** Bytes *)
Definition byte_code (a : ascii) : Z := Z.of_N (N_of_ascii a).
Definition byte_of_code (z : Z) : ascii := ascii_of_N (Z.to_N z).

Definition in_range (lo hi : Z) (a : ascii) : bool :=
  (lo <=? byte_code a) && (byte_code a <=? hi).
Definition is_upper : ascii -> bool := in_range 65 90.
Definition is_lower : ascii -> bool := in_range 97 122.
Definition is_digit : ascii -> bool := in_range 48 57.
Definition is_space (a : ascii) : bool := in_range 9 13 a || (byte_code a =? 32).

Definition lower_byte (a : ascii) : ascii :=
  if is_upper a then byte_of_code (byte_code a + 32) else a.
Definition upper_byte (a : ascii) : ascii :=
  if is_lower a then byte_of_code (byte_code a - 32) else a.

(** ** Conversions and elementary operations *)
Definition bytes (s : string) : list ascii := String.list_ascii_of_string s.
Definition of_bytes (l : list ascii) : string := String.string_of_list_ascii l.

Lemma of_bytes_bytes s : of_bytes (bytes s) = s.
Proof. apply String.string_of_list_ascii_of_string. Qed.
Lemma bytes_of_bytes l : bytes (of_bytes l) = l.
Proof. apply String.list_ascii_of_string_of_list_ascii. Qed.

Definition ToLower (s : string) : string := of_bytes (map lower_byte (bytes s)).
Definition ToUpper (s : string) : string := of_bytes (map upper_byte (bytes s)).
Definition EqualFold (a b : string) : bool := String.eqb (ToLower a) (ToLower b).

Fixpoint drop_while (f : ascii -> bool) (l : list ascii) : list ascii :=
  match l with
  | [] => []
  | a :: l' => if f a then drop_while f l' else l
  end.

Definition TrimSpace (s : string) : string :=
  of_bytes (rev (drop_while is_space (rev (drop_while is_space (bytes s))))).

Fixpoint has_prefix (p l : list ascii) : option (list ascii) :=
  match p, l with
  | [], _ => Some l
  | a :: p', b :: l' => if Ascii.eqb a b then has_prefix p' l' else None
  | _ :: _, [] => None
  end.

Definition HasPrefix (s p : string) : bool :=
  match has_prefix (bytes p) (bytes s) with Some _ => true | None => false end.

Definition TrimSuffix (s suffix : string) : string :=
  match has_prefix (rev (bytes suffix)) (rev (bytes s)) with
  | Some rest => of_bytes (rev rest)
  | None => s
  end.

Definition ContainsAny (s chars : string) : bool :=
  existsb (fun a => existsb (Ascii.eqb a) (bytes chars)) (bytes s).

(** [strings.Fields]: maximal runs of non-space bytes. *)
Fixpoint fields_aux (cur : list ascii) (l : list ascii) : list string :=
  let flush := match cur with [] => [] | _ => [of_bytes (rev cur)] end in
  match l with
  | [] => flush
  | a :: l' => if is_space a then (flush ++ fields_aux [] l') else fields_aux (a :: cur) l'
  end.
Definition Fields (s : string) : list string := fields_aux [] (bytes s).

(** [strings.Split] with a one-byte separator. *)
Fixpoint split_aux (sep : ascii) (cur : list ascii) (l : list ascii) : list string :=
  match l with
  | [] => [of_bytes (rev cur)]
  | a :: l' =>
      if Ascii.eqb a sep then of_bytes (rev cur) :: split_aux sep [] l'
      else split_aux sep (a :: cur) l'
  end.
Definition Split (s : string) (sep : ascii) : list string := split_aux sep [] (bytes s).

Fixpoint Join (l : list string) (sep : string) : string :=
  match l with
  | [] => ""
  | [s] => s
  | s :: l' => s +:+ sep +:+ Join l' sep
  end.

Definition len (s : string) : Z := Z.of_nat (String.length s).

(** ** [slices.Sort] and [slices.Compact] on strings: byte-wise lexicographic order *)
Definition string_le (a b : string) : Prop := String.leb a b = true.
#[global] Instance string_le_dec a b : Decision (string_le a b).
Proof. unfold string_le; apply _. Defined.

Definition Sort (l : list string) : list string := merge_sort string_le l.

Fixpoint Compact (l : list string) : list string :=
  match l with
  | [] => []
  | a :: l' =>
      match l' with
      | [] => [a]
      | b :: _ => if String.eqb a b then Compact l' else a :: Compact l'
      end
  end.

(** [slices.SortFunc] with a comparison of string keys.  Go's sort is not stable;
    the keys the program sorts by are pairwise distinct. *)
Definition SortBy {A} (key : A -> string) (l : list A) : list A :=
  merge_sort (fun x y => string_le (key x) (key y)) l.

(** ** [fmt.Sprintf] for the verbs the program uses *)
Inductive arg :=
| AStr (s : string)      (* %s %q of a string *)
| AInt (z : Z)           (* %d *)
| ABool (b : bool)       (* %t *)
| AHex (l : list Z)      (* %x of a byte slice *)
| AList (l : list string) (* %v of a string slice *)
| AErr (e : error)       (* %v of an error *)
| AWrap (e : error).     (* %w *)

Definition hex_digit (z : Z) : ascii :=
  if z <? 10 then byte_of_code (48 + z) else byte_of_code (87 + z).
Definition hex_byte (z : Z) : string := of_bytes [hex_digit (z / 16); hex_digit (z mod 16)].
Definition hex (l : list Z) : string := String.concat "" (map hex_byte l).

Definition dquote : ascii := byte_of_code 34.
Definition backslash : ascii := byte_of_code 92.

(** [strconv.Quote]: printable ASCII and bytes of multi-byte runes stand for
    themselves; control bytes are escaped. *)
Definition quote_byte (a : ascii) : string :=
  let z := byte_code a in
  if z =? 34 then of_bytes [backslash; dquote]
  else if z =? 92 then of_bytes [backslash; backslash]
  else if z =? 7 then of_bytes [backslash; "a"%char]
  else if z =? 8 then of_bytes [backslash; "b"%char]
  else if z =? 9 then of_bytes [backslash; "t"%char]
  else if z =? 10 then of_bytes [backslash; "n"%char]
  else if z =? 11 then of_bytes [backslash; "v"%char]
  else if z =? 12 then of_bytes [backslash; "f"%char]
  else if z =? 13 then of_bytes [backslash; "r"%char]
  else if (z <? 32) || (z =? 127) then of_bytes [backslash; "x"%char] +:+ hex_byte z
  else of_bytes [a].
Definition Quote (s : string) : string :=
  of_bytes [dquote] +:+ String.concat "" (map quote_byte (bytes s)) +:+ of_bytes [dquote].

Definition render (verb : ascii) (a : arg) : string :=
  match a with
  | AStr s => if Ascii.eqb verb "q"%char then Quote s else s
  | AInt z => pretty z
  | ABool b => if b then "true" else "false"
  | AHex l => hex l
  | AList l => "[" +:+ Join l " " +:+ "]"
  | AErr e | AWrap e => Error e
  end.

Fixpoint sprintf_bytes (f : list ascii) (args : list arg) : string :=
  match f with
  | [] => ""
  | a :: f' =>
      if Ascii.eqb a "%"%char then
        match f', args with
        | v :: f'', x :: args' => render v x +:+ sprintf_bytes f'' args'
        | _, _ => ""
        end
      else String a (sprintf_bytes f' args)
  end.
Definition Sprintf (f : string) (args : list arg) : string := sprintf_bytes (bytes f) args.

(** [fmt.Errorf]: the error chain of [%w] keeps the sentinel visible to [errors.Is]. *)
Definition Errorf (f : string) (args : list arg) : error :=
  mkError (Sprintf f args)
    (existsb (fun a => match a with AWrap e => is_job_unavailable e | _ => false end) args).

(** [errors.Join] of the non-nil errors of a list. *)
Definition errors_Join (es : list error) : option error :=
  match es with
  | [] => None
  | _ => Some (mkError (Join (map Error es) (of_bytes [byte_of_code 10]))
                 (existsb is_job_unavailable es))
  end.

(** ** The order of strings is total, and sorting is canonical up to permutation. *)
Lemma string_compare_trans s1 s2 s3 :
  String.compare s1 s2 <> Gt -> String.compare s2 s3 <> Gt -> String.compare s1 s3 <> Gt.
Proof.
  revert s2 s3. induction s1 as [|a s1 IH]; intros [|b s2] [|d s3]; cbn; try done.
  unfold Ascii.compare.
  destruct (N.compare_spec (N_of_ascii a) (N_of_ascii b)) as [H1|H1|H1];
  destruct (N.compare_spec (N_of_ascii b) (N_of_ascii d)) as [H2|H2|H2];
  destruct (N.compare_spec (N_of_ascii a) (N_of_ascii d)) as [H3|H3|H3]; try done; try lia.
  apply IH.
Qed.

Lemma string_le_compare a b : string_le a b <-> String.compare a b <> Gt.
Proof. unfold string_le, String.leb. by destruct (String.compare a b). Qed.

#[export] Instance string_le_trans : Transitive string_le.
Proof. intros a b d. rewrite !string_le_compare. apply string_compare_trans. Qed.
#[export] Instance string_le_total : Total string_le.
Proof. intros a b. apply String.leb_total. Qed.
#[export] Instance string_le_antisymm : AntiSymm (=) string_le.
Proof. intros a b. apply String.leb_antisym. Qed.

Lemma Sort_Permutation l : Sort l ≡ₚ l.
Proof. apply merge_sort_Permutation. Qed.

Lemma Sort_eq_iff a b : Sort a = Sort b <-> a ≡ₚ b.
Proof.
  split; intros H.
  - by rewrite <- (Sort_Permutation a), H, Sort_Permutation.
  - apply (StronglySorted_unique string_le).
    1, 2: apply StronglySorted_merge_sort; apply _.
    by rewrite !Sort_Permutation.
Qed.
