(* ===== verification/GoTime.v ===== *)
(** * Go's [time] package: instants, durations and the two RFC 3339 layouts.

    An instant is the number of nanoseconds since [time.Time{}], which is
    0001-01-01T00:00:00Z; the monotonic reading and the location play no part, as
    the program converts every instant to UTC.  A [time.Duration] is an [int64]
    number of nanoseconds and its arithmetic wraps. *)
From S2P Require Import Prelude GoStrings.

Abbreviation time := Z (only parsing).
Abbreviation duration := Z (only parsing).

Definition time_zero : time := 0.
Definition IsZero (t : time) : bool := t =? time_zero.
Definition Add (t : time) (d : duration) : time := t + d.
Definition Before (t u : time) : bool := t <? u.

Definition max_int64 : Z := 2 ^ 63 - 1.
Definition min_int64 : Z := - 2 ^ 63.

(** [Time.Sub] saturates at the extreme durations. *)
Definition Sub (t u : time) : duration := Z.max min_int64 (Z.min max_int64 (t - u)).

Definition Millisecond : duration := 1000000.
Definition Second : duration := 1000000000.
Definition Minute : duration := 60 * Second.
Definition Hour : duration := 3600 * Second.

Definition dur_add (a b : duration) : duration := int64 (a + b).
Definition dur_mul (a b : duration) : duration := int64 (a * b).
(** Integer division truncates toward zero. *)
Definition dur_div (a b : duration) : Z := Z.quot a b.

(** ** Calendar *)
Definition ns_per_day : Z := 86400 * Second.

Record civil := mkCivil { year : Z; month : Z; day : Z }.

(** The proleptic Gregorian date of a day number counted from 0001-01-01, by
    400-year eras of 146097 days that start on the first of March. *)
Definition civil_of_days (days : Z) : civil :=
  let z := days + 306 in
  let era := z / 146097 in
  let doe := z mod 146097 in
  let yoe := (doe - doe / 1460 + doe / 36524 - doe / 146096) / 365 in
  let doy := doe - (365 * yoe + yoe / 4 - yoe / 100) in
  let mp := (5 * doy + 2) / 153 in
  let m := if mp <? 10 then mp + 3 else mp - 9 in
  mkCivil (yoe + era * 400 + (if m <=? 2 then 1 else 0)) m (doy - (153 * mp + 2) / 5 + 1).

(** Decimal digits, zero-padded on the left to a width. *)
Definition padded (width : nat) (z : Z) : string :=
  let s := pretty z in
  String.concat "" (replicate (width - String.length s) "0") +:+ s.

Definition strip_trailing_zeros (s : string) : string :=
  of_bytes (rev (drop_while (Ascii.eqb "0"%char) (rev (bytes s)))).

Definition format_seconds (t : time) : string :=
  let d := civil_of_days (t / ns_per_day) in
  let s := (t mod ns_per_day) / Second in
  padded 4 (year d) +:+ "-" +:+ padded 2 (month d) +:+ "-" +:+ padded 2 (day d) +:+ "T" +:+
  padded 2 (s / 3600) +:+ ":" +:+ padded 2 (s / 60 mod 60) +:+ ":" +:+ padded 2 (s mod 60).

(** [t.UTC().Format(time.RFC3339)] *)
Definition FormatRFC3339 (t : time) : string := format_seconds t +:+ "Z".

(** [t.UTC().Format(time.RFC3339Nano)]: the fraction without trailing zeros. *)
Definition FormatRFC3339Nano (t : time) : string :=
  let ns := t mod Second in
  if ns =? 0 then FormatRFC3339 t
  else format_seconds t +:+ "." +:+ strip_trailing_zeros (padded 9 ns) +:+ "Z".

Example format_unix_epoch :
  FormatRFC3339 (719162 * ns_per_day) = "1970-01-01T00:00:00Z".
Proof. vm_compute. reflexivity. Qed.

Example format_leap_day :
  FormatRFC3339Nano ((719162 + 19782) * ns_per_day + 12345 * Second + 50000000)
  = "2024-02-29T03:25:45.05Z".
Proof. vm_compute. reflexivity. Qed.

Example format_zero_time : FormatRFC3339Nano time_zero = "0001-01-01T00:00:00Z".
Proof. vm_compute. reflexivity. Qed.

(** ** Arithmetic facts *)
Lemma Sub_nonneg_iff t u : 0 <= Sub t u <-> u <= t.
Proof. unfold Sub, min_int64, max_int64; lia. Qed.

Lemma Sub_ge_iff t u d : min_int64 < d <= max_int64 -> (d <= Sub t u <-> d <= t - u).
Proof. unfold Sub, min_int64, max_int64; lia. Qed.

Lemma dur_add_exact a b : in_int64 (a + b) -> dur_add a b = a + b.
Proof. apply int64_id. Qed.
Lemma dur_mul_exact a b : in_int64 (a * b) -> dur_mul a b = a * b.
Proof. apply int64_id. Qed.
