(* ===== verification/GoNet.v ===== *)
(** * Go's [net] and [path/filepath]: host and port, textual IP addresses, lexical paths
    (with the separator of Unix). *)
From S2P Require Import Prelude GoStrings.

(** ** Host and port *)
Definition colon : ascii := ":"%char.
Definition lbracket : ascii := "["%char.
Definition rbracket : ascii := "]"%char.

(** [net.JoinHostPort] *)
Definition JoinHostPort (host port : string) : string :=
  if existsb (Ascii.eqb colon) (bytes host)
  then "[" +:+ host +:+ "]:" +:+ port
  else host +:+ ":" +:+ port.

Definition has_byte (a : ascii) (l : list ascii) : bool := existsb (Ascii.eqb a) l.

(** What stands before and after the first occurrence of a byte. *)
Fixpoint cut_first (a : ascii) (l : list ascii) : option (list ascii * list ascii) :=
  match l with
  | [] => None
  | b :: l' =>
      if Ascii.eqb a b then Some ([], l')
      else match cut_first a l' with
           | Some (x, y) => Some (b :: x, y)
           | None => None
           end
  end.
(** And the last occurrence. *)
Definition cut_last (a : ascii) (l : list ascii) : option (list ascii * list ascii) :=
  match cut_first a (rev l) with
  | Some (x, y) => Some (rev y, rev x)
  | None => None
  end.

Definition addr_error (what s : string) : error :=
  errors_New ("address " +:+ s +:+ ": " +:+ what).
Definition missing_port := addr_error "missing port in address".
Definition too_many_colons := addr_error "too many colons in address".

(** The last two checks of [net.SplitHostPort]: the text after the brackets the host may
    have has none. *)
Definition no_brackets (s : string) (after_open after_close : list ascii)
    (r : string * string) : result (string * string) :=
  if has_byte lbracket after_open then Err (addr_error "unexpected '[' in address" s) else
  if has_byte rbracket after_close then Err (addr_error "unexpected ']' in address" s) else
  Ok r.

(** [net.SplitHostPort] *)
Definition SplitHostPort (s : string) : result (string * string) :=
  let l := bytes s in
  match cut_last colon l with
  | None => Err (missing_port s)
  | Some (before, port) =>
      match l with
      | b :: inner =>
          if Ascii.eqb lbracket b then
            match cut_first rbracket inner with
            | None => Err (addr_error "missing ']' in address" s)
            | Some (host, rest) =>
                (* the first ']' has to stand just before the last ':' *)
                if has_byte colon rest then
                  match rest with
                  | c :: rest' =>
                      if Ascii.eqb colon c then
                        if has_byte colon rest' then Err (too_many_colons s)
                        else no_brackets s inner rest (of_bytes host, of_bytes port)
                      else Err (missing_port s)
                  | [] => Err (missing_port s)
                  end
                else Err (missing_port s)
            end
          else if has_byte colon before then Err (too_many_colons s)
          else no_brackets s l l (of_bytes before, of_bytes port)
      | [] => Err (missing_port s)
      end
  end.

Example split_v4 : SplitHostPort "192.0.2.1:53" = Ok ("192.0.2.1", "53").
Proof. reflexivity. Qed.
Example split_v6 : SplitHostPort "[2001:503:ba3e::2:30]:53" = Ok ("2001:503:ba3e::2:30", "53").
Proof. reflexivity. Qed.
Example split_missing : SplitHostPort "[::1]" = Err (missing_port "[::1]").
Proof. reflexivity. Qed.
Example split_colons : SplitHostPort "::1:53" = Err (too_many_colons "::1:53").
Proof. reflexivity. Qed.

(** ** Textual IP addresses *)
Definition digit_value (a : ascii) : option Z :=
  if is_digit a then Some (byte_code a - 48) else None.
Definition hex_value (a : ascii) : option Z :=
  if is_digit a then Some (byte_code a - 48)
  else if in_range 97 102 a then Some (byte_code a - 87)
  else if in_range 65 70 a then Some (byte_code a - 55)
  else None.

Fixpoint number (value : ascii -> option Z) (radix acc : Z) (l : list ascii) : option Z :=
  match l with
  | [] => Some acc
  | a :: l' => match value a with
               | Some d => number value radix (radix * acc + d) l'
               | None => None
               end
  end.

(** An octet: one to three digits without a leading zero, at most 255. *)
Definition octet (s : string) : option Z :=
  match bytes s with
  | [] => None
  | a :: l =>
      if Ascii.eqb a "0"%char && Nat.ltb 0 (length l) then None
      else if Nat.ltb 3 (length (a :: l)) then None
      else match number digit_value 10 0 (a :: l) with
           | Some z => if z <=? 255 then Some z else None
           | None => None
           end
  end.

Definition parse_v4 (s : string) : option (list Z) :=
  match map octet (Split s "."%char) with
  | [Some a; Some b; Some c; Some d] => Some [a; b; c; d]
  | _ => None
  end.

(** A group of an IPv6 address: one to four hexadecimal digits. *)
Definition group (s : string) : option Z :=
  let l := bytes s in
  if Nat.ltb 0 (length l) && Nat.leb (length l) 4 then number hex_value 16 0 l else None.

(** Groups separated by colons; the last may be a dotted IPv4 address. *)
Fixpoint groups (parts : list string) : option (list Z) :=
  match parts with
  | [] => Some []
  | [p] =>
      match group p with
      | Some g => Some [g]
      | None => match parse_v4 p with
                | Some [a; b; c; d] => Some [256 * a + b; 256 * c + d]
                | _ => None
                end
      end
  | p :: parts' =>
      match group p, groups parts' with
      | Some g, Some gs => Some (g :: gs)
      | _, _ => None
      end
  end.

(** What stands before and after the first empty part, the ellipsis. *)
Fixpoint ellipsis (parts : list string) : option (list string * list string) :=
  match parts with
  | [] => None
  | p :: parts' =>
      if p == "" then Some ([], parts')
      else match ellipsis parts' with
           | Some (x, y) => Some (p :: x, y)
           | None => None
           end
  end.

Definition parse_v6 (s : string) : option (list Z) :=
  let parts := Split s colon in
  let finish (before after : list string) :=
    match groups before, groups after with
    | Some x, Some y =>
        let n := (length x + length y)%nat in
        if Nat.ltb n 8 then Some (x ++ replicate (8 - n) 0 ++ y) else None
    | _, _ => None
    end in
  (* the part before an ellipsis holds no dotted address *)
  let plain := forallb (fun p => match group p with Some _ => true | None => false end) in
  match parts with
  | "" :: "" :: [""] => finish [] []
  | "" :: "" :: after => finish [] after
  | "" :: _ => None
  | _ =>
      match ellipsis parts with
      | None => match groups parts with
                | Some gs => if Nat.eqb (length gs) 8 then Some gs else None
                | None => None
                end
      | Some (before, [""]) => if plain before then finish before [] else None
      | Some (before, after) =>
          if plain before && negb (bool_decide (after = [])) then finish before after else None
      end
  end.

Inductive IP :=
| IPv4 (octets : list Z)
| IPv6 (groups : list Z).

(** [net.ParseIP]: an IPv4 address, or an IPv6 address without a zone; an address that
    maps IPv4 into IPv6 is the IPv4 address to every method. *)
Definition ParseIP (s : string) : option IP :=
  if has_byte colon (bytes s) then
    match parse_v6 s with
    | Some [0; 0; 0; 0; 0; 65535; x; y] => Some (IPv4 [x / 256; x mod 256; y / 256; y mod 256])
    | Some gs => Some (IPv6 gs)
    | None => None
    end
  else IPv4 <$> parse_v4 s.

Definition IsLoopback (ip : IP) : bool :=
  match ip with
  | IPv4 (a :: _) => a =? 127
  | IPv6 gs => bool_decide (gs = [0; 0; 0; 0; 0; 0; 0; 1])
  | _ => false
  end.

(** 10/8, 172.16/12, 192.168/16 and fc00::/7. *)
Definition IsPrivate (ip : IP) : bool :=
  match ip with
  | IPv4 (a :: b :: _) =>
      (a =? 10) || ((a =? 172) && (Z.land b 240 =? 16)) || ((a =? 192) && (b =? 168))
  | IPv6 (g :: _) => Z.land g 65024 =? 64512
  | _ => false
  end.

Example parse_loopback : ParseIP "127.0.0.1" = Some (IPv4 [127; 0; 0; 1]).
Proof. reflexivity. Qed.
Example parse_v6_loopback : ParseIP "::1" = Some (IPv6 [0; 0; 0; 0; 0; 0; 0; 1]).
Proof. reflexivity. Qed.
Example parse_any : ParseIP "::" = Some (IPv6 [0; 0; 0; 0; 0; 0; 0; 0]).
Proof. reflexivity. Qed.
Example parse_v6_middle :
  ParseIP "2001:503:ba3e::2:30" = Some (IPv6 [0x2001; 0x503; 0xba3e; 0; 0; 0; 2; 0x30]).
Proof. reflexivity. Qed.
Example parse_v6_trailing : ParseIP "fe80::" = Some (IPv6 [0xfe80; 0; 0; 0; 0; 0; 0; 0]).
Proof. reflexivity. Qed.
Example parse_mapped : ParseIP "::ffff:10.0.0.1" = Some (IPv4 [10; 0; 0; 1]).
Proof. reflexivity. Qed.
Example parse_leading_zero : ParseIP "127.0.0.01" = None.
Proof. reflexivity. Qed.
Example parse_two_ellipses : ParseIP "1::2::3" = None.
Proof. reflexivity. Qed.
Example parse_single_colon : ParseIP ":1:2:3:4:5:6:7" = None.
Proof. reflexivity. Qed.

(** ** Lexical paths *)
Definition slash : ascii := "/"%char.

(** [filepath.IsAbs] *)
Definition IsAbs (path : string) : bool := HasPrefix path "/".

(** The elements of a path without empty ones and dots, innermost first; a double dot
    removes the element before it and, at the root, nothing. *)
Fixpoint resolve (rooted : bool) (stack elements : list string) : list string :=
  match elements with
  | [] => stack
  | e :: elements' =>
      if (e == "") || (e == ".") then resolve rooted stack elements'
      else if e == ".." then
        match stack with
        | x :: stack' =>
            if x == ".." then resolve rooted (e :: stack) elements'
            else resolve rooted stack' elements'
        | [] => resolve rooted (if rooted then [] else [e]) elements'
        end
      else resolve rooted (e :: stack) elements'
  end.

Definition path_elements (path : string) : list string :=
  rev (resolve (IsAbs path) [] (Split path slash)).

(** [filepath.Clean] *)
Definition Clean (path : string) : string :=
  let joined := Join (path_elements path) "/" in
  if IsAbs path then "/" +:+ joined
  else if joined == "" then "." else joined.

Fixpoint drop_common (a b : list string) : list string * list string :=
  match a, b with
  | x :: a', y :: b' => if x == y then drop_common a' b' else (a, b)
  | _, _ => (a, b)
  end.

(** [filepath.Rel]: the elements of the target below what it shares with the base, after one
    double dot for every further element of the base. *)
Definition Rel (base target : string) : result string :=
  if Clean target == Clean base then Ok "." else
  if negb (Bool.eqb (IsAbs base) (IsAbs target))
  then Err (errors_New ("Rel: can't make " +:+ target +:+ " relative to " +:+ base)) else
  let '(b, t) := drop_common (path_elements base) (path_elements target) in
  if existsb (fun e => e == "..") b
  then Err (errors_New ("Rel: can't make " +:+ target +:+ " relative to " +:+ base))
  else Ok (Join (map (fun _ => "..") b ++ t) "/").

Example clean_dots : Clean "/var/lib/../run//x/./y" = "/var/run/x/y".
Proof. reflexivity. Qed.
Example clean_root : Clean "/../.." = "/".
Proof. reflexivity. Qed.
Example clean_relative : Clean "../a/../../b" = "../../b".
Proof. reflexivity. Qed.
Example rel_below : Rel "/var/lib" "/var/lib/x/y" = Ok "x/y".
Proof. reflexivity. Qed.
Example rel_beside : Rel "/var/lib" "/var/run/x" = Ok "../run/x".
Proof. reflexivity. Qed.
