(* ===== verification/GoNetFacts.v ===== *)
(** * Facts about host:port strings and lexical paths: they can be taken apart again. *)
From S2P Require Import Prelude GoStrings GoNet.

Lemma bytes_app s t : bytes (s +:+ t) = bytes s ++ bytes t.
Proof. induction s as [|a s IH]; [done|]. exact (f_equal (cons a) IH). Qed.
Lemma bytes_inj s t : bytes s = bytes t -> s = t.
Proof. intros H. by rewrite <- (of_bytes_bytes s), H, of_bytes_bytes. Qed.
Lemma string_app_nil_r (s : string) : s +:+ "" = s.
Proof. apply bytes_inj. by rewrite bytes_app, app_nil_r. Qed.

Lemma has_byte_false a l : has_byte a l = false <-> a ∉ l.
Proof.
  unfold has_byte. rewrite <- not_true_iff_false, existsb_exists, list_elem_of_In.
  split; intros H Hin; apply H.
  - exists a. split; [done|apply Ascii.eqb_refl].
  - destruct Hin as (x & Hin & ->%Ascii.eqb_eq). done.
Qed.

(** ** Host and port *)
Lemma cut_first_app a x y : a ∉ x -> cut_first a (x ++ a :: y) = Some (x, y).
Proof.
  induction x as [|b x IH]; cbn; intros H.
  - by rewrite Ascii.eqb_refl.
  - apply not_elem_of_cons in H as [Hb Hx]. destruct (Ascii.eqb_spec a b); [done|]. by rewrite IH.
Qed.
Lemma cut_last_app a x y : a ∉ y -> cut_last a (x ++ a :: y) = Some (x, y).
Proof.
  intros H. unfold cut_last. rewrite rev_app_distr. cbn. rewrite <- app_assoc. cbn.
  rewrite cut_first_app by (by rewrite <- in_rev_elem || by rewrite list_elem_of_In, <- in_rev, <- list_elem_of_In).
  by rewrite !rev_involutive.
Qed.

(** What a host may contain to be found again: no brackets, and a port no colon either. *)
Definition plain_host (s : string) : Prop := lbracket ∉ bytes s /\ rbracket ∉ bytes s.
Definition plain_port (s : string) : Prop :=
  colon ∉ bytes s /\ lbracket ∉ bytes s /\ rbracket ∉ bytes s.

Lemma split_join_host_port host port :
  plain_host host -> plain_port port -> SplitHostPort (JoinHostPort host port) = Ok (host, port).
Proof.
  intros [Hl Hr] (Pc & Pl & Pr). unfold JoinHostPort, SplitHostPort.
  change (existsb (Ascii.eqb colon) (bytes host)) with (has_byte colon (bytes host)).
  destruct (has_byte colon (bytes host)) eqn:Ec.
  - set (l := bytes ("[" +:+ host +:+ "]:" +:+ port)).
    assert (El : l = (lbracket :: bytes host ++ [rbracket]) ++ colon :: bytes port)
      by (unfold l; rewrite !bytes_app; cbn; by rewrite <- app_assoc).
    rewrite El, cut_last_app by done. cbn [app]. rewrite <- app_assoc. cbn [app].
    rewrite Ascii.eqb_refl, cut_first_app by done. cbn. unfold no_brackets.
    rewrite !(proj2 (has_byte_false _ _)); rewrite ?of_bytes_bytes; try done;
      rewrite ?elem_of_app, ?elem_of_cons; naive_solver.
  - apply has_byte_false in Ec.
    assert (El : bytes (host +:+ ":" +:+ port) = bytes host ++ colon :: bytes port)
      by by rewrite !bytes_app.
    rewrite El, cut_last_app by done.
    destruct (bytes host ++ colon :: bytes port) as [|b inner] eqn:E; [by destruct (bytes host)|].
    assert (Hb : Ascii.eqb lbracket b = false).
    { apply Ascii.eqb_neq. intros <-. destruct (bytes host) as [|x h] eqn:Eh; cbn in E;
        injection E as E _; [done|subst; set_solver]. }
    rewrite Hb, (proj2 (has_byte_false colon _) Ec), <- E. unfold no_brackets.
    rewrite !(proj2 (has_byte_false _ _)); rewrite ?of_bytes_bytes; try done;
      rewrite elem_of_app, elem_of_cons; naive_solver.
Qed.

(** ** Lexical paths *)

(** An element of a resolved absolute path. *)
Definition proper (e : string) : Prop := e <> "" /\ e <> "." /\ e <> ".." /\ slash ∉ bytes e.

Lemma split_aux_no_sep sep cur l e :
  sep ∉ cur -> e ∈ split_aux sep cur l -> sep ∉ bytes e.
Proof.
  revert cur. induction l as [|a l IH]; intros cur Hc; cbn.
  - intros ->%list_elem_of_singleton. rewrite bytes_of_bytes.
    rewrite list_elem_of_In, <- in_rev, <- list_elem_of_In. done.
  - destruct (Ascii.eqb_spec a sep) as [->|Hne].
    + intros [->|He]%elem_of_cons; [|by eapply IH; [|exact He]; set_solver].
      rewrite bytes_of_bytes, list_elem_of_In, <- in_rev, <- list_elem_of_In. done.
    + apply IH. by rewrite not_elem_of_cons.
Qed.

Lemma resolve_proper stack els :
  Forall proper stack -> Forall (fun e => slash ∉ bytes e) els -> Forall proper (resolve true stack els).
Proof.
  revert stack. induction els as [|e els IH]; intros stack Hs He; [done|]. cbn.
  apply Forall_cons in He as [He Hels].
  destruct ((e == "") || (e == ".")) eqn:E1; [by apply IH|].
  destruct (e == "..") eqn:E2; bool_prop.
  - destruct stack as [|x stack]; [by apply IH|]. apply Forall_cons in Hs as [Hx Hs].
    destruct (x == "..") eqn:E3; [|by apply IH]. bool_prop. by destruct Hx as (_ & _ & ? & _).
  - apply IH; [|done]. by constructor.
Qed.

Lemma path_elements_proper path : IsAbs path = true -> Forall proper (path_elements path).
Proof.
  intros Ha. unfold path_elements. rewrite Ha. apply Forall_rev, resolve_proper; [constructor|].
  apply Forall_forall. intros e. apply split_aux_no_sep. set_solver.
Qed.

(** The elements of any path are not empty and hold no separator. *)
Lemma resolve_named rooted stack els :
  Forall (fun e => e <> "" /\ slash ∉ bytes e) stack -> Forall (fun e => slash ∉ bytes e) els ->
  Forall (fun e => e <> "" /\ slash ∉ bytes e) (resolve rooted stack els).
Proof.
  revert stack. induction els as [|e els IH]; intros stack Hs He; [done|]. cbn.
  apply Forall_cons in He as [He Hels].
  destruct ((e == "") || (e == ".")) eqn:E1; [by apply IH|]. bool_prop.
  destruct (e == "..") eqn:E2; bool_prop; [|apply IH; [by constructor|done]].
  destruct stack as [|x stack]; [apply IH; [destruct rooted; by repeat constructor|done]|].
  pose proof Hs as [Hx Hs']%Forall_cons.
  destruct (x == ".."); apply IH; try done. by constructor.
Qed.
Lemma path_elements_named path : Forall (fun e => e <> "" /\ slash ∉ bytes e) (path_elements path).
Proof.
  unfold path_elements. apply Forall_rev, resolve_named; [constructor|].
  apply Forall_forall. intros e. apply split_aux_no_sep. set_solver.
Qed.

(** Splitting undoes joining. *)
Lemma split_aux_app sep cur x l :
  sep ∉ x -> split_aux sep cur (x ++ sep :: l) = of_bytes (rev cur ++ x) :: split_aux sep [] l.
Proof.
  revert cur. induction x as [|a x IH]; intros cur Hx; cbn.
  - by rewrite Ascii.eqb_refl, app_nil_r.
  - apply not_elem_of_cons in Hx as [Ha Hx]. destruct (Ascii.eqb_spec a sep); [done|].
    rewrite IH by done. cbn. by rewrite <- app_assoc.
Qed.
Lemma split_aux_last sep cur x : sep ∉ x -> split_aux sep cur x = [of_bytes (rev cur ++ x)].
Proof.
  revert cur. induction x as [|a x IH]; intros cur Hx; cbn; [by rewrite app_nil_r|].
  apply not_elem_of_cons in Hx as [Ha Hx]. destruct (Ascii.eqb_spec a sep); [done|].
  rewrite IH by done. cbn. by rewrite <- app_assoc.
Qed.

Lemma split_aux_cons sep cur l : split_aux sep cur l <> [].
Proof. revert cur. induction l as [|a l IH]; intros cur; cbn; [done|]. destruct (Ascii.eqb a sep); [done|apply IH]. Qed.

Lemma split_join els :
  els <> [] -> Forall (fun e => slash ∉ bytes e) els -> Split (Join els "/") slash = els.
Proof.
  unfold Split. induction els as [|e els IH]; [done|]. intros _ [He Hels]%Forall_cons.
  destruct els as [|e' els]; cbn [Join].
  - rewrite split_aux_last by done. cbn. by rewrite of_bytes_bytes.
  - rewrite !bytes_app. change (bytes "/") with [slash]. cbn [app].
    rewrite split_aux_app by done. cbn [rev app]. rewrite of_bytes_bytes. f_equal. by apply IH.
Qed.

Lemma resolve_clean rooted stack els :
  Forall proper els -> resolve rooted stack els = rev els ++ stack.
Proof.
  revert stack. induction els as [|e els IH]; intros stack He; [done|]. cbn.
  apply Forall_cons in He as [(H1 & H2 & H3 & _) Hels].
  rewrite (proj2 (eqb_false e "") H1), (proj2 (eqb_false e ".") H2), (proj2 (eqb_false e "..") H3).
  cbn. rewrite IH by done. by rewrite <- app_assoc.
Qed.

Lemma IsAbs_slash s : IsAbs ("/" +:+ s) = true.
Proof. done. Qed.

Lemma elements_of_joined els :
  Forall proper els -> path_elements ("/" +:+ Join els "/") = els.
Proof.
  intros Hp. assert (Hs : Forall (fun e => slash ∉ bytes e) els)
    by (eapply Forall_impl; [exact Hp|]; by intros e (_ & _ & _ & ?)).
  unfold path_elements. rewrite IsAbs_slash.
  destruct (decide (els = [])) as [->|Hn]; [done|].
  assert (E : Split ("/" +:+ Join els "/") slash = "" :: els).
  { change ("" :: els) with ([""] ++ els). rewrite <- (split_join els Hn Hs) at 2.
    unfold Split. rewrite bytes_app. change (bytes "/") with ([] ++ [slash]). cbn [app].
    change (split_aux slash [] ([] ++ slash :: bytes (Join els "/")) =
            [""] ++ split_aux slash [] (bytes (Join els "/"))).
    rewrite split_aux_app by set_solver. done. }
  rewrite E. change (resolve true [] ("" :: els)) with (resolve true [] els).
  rewrite resolve_clean, app_nil_r by done. apply rev_involutive.
Qed.

Lemma path_elements_Clean path : IsAbs path = true -> path_elements (Clean path) = path_elements path.
Proof.
  intros Ha. unfold Clean. rewrite Ha. apply elements_of_joined. by apply path_elements_proper.
Qed.
Lemma IsAbs_Clean path : IsAbs path = true -> IsAbs (Clean path) = true.
Proof. intros Ha. unfold Clean. by rewrite Ha. Qed.

Lemma drop_common_prefix a b b' t : drop_common a b = (b', t) -> b' = [] -> b = a ++ t.
Proof.
  revert b. induction a as [|x a IH]; intros b; cbn; [by intros [= <- <-]|].
  destruct b as [|y b]; [by intros [= <- <-]|]. destruct (x == y) eqn:E; bool_prop.
  - subst. intros H Hn. by rewrite (IH _ H Hn).
  - by intros [= <- <-].
Qed.

(** A relative path that climbs starts with a double dot. *)
Lemma climbing els : Join (".." :: els) "/" = ".." \/ HasPrefix (Join (".." :: els) "/") "../" = true.
Proof. destruct els as [|e els]; [by left|right]. by destruct els. Qed.

Lemma Rel_below root path rel :
  IsAbs root = true -> IsAbs path = true -> Rel root path = Ok rel ->
  rel <> ".." -> HasPrefix rel "../" = false ->
  exists rest, path_elements path = path_elements root ++ rest.
Proof.
  intros Hr Hp. unfold Rel. destruct (Clean path == Clean root) eqn:Ec.
  - intros _ _ _. exists []. rewrite app_nil_r, <- path_elements_Clean by done. bool_prop.
    by rewrite Ec, path_elements_Clean.
  - rewrite Hr, Hp. cbn [Bool.eqb negb].
    destruct (drop_common _ _) as [b t] eqn:Ed. destruct (existsb _ b); [done|].
    intros [= <-] Hne Hnp. destruct b as [|x b].
    + exists t. by apply (drop_common_prefix _ _ [] t).
    + exfalso. cbn [map app] in Hne, Hnp.
      destruct (climbing (map (fun _ => "..") b ++ t)) as [E|E]; congruence.
Qed.
