(* ===== verification/Sha256.v ===== *)
(** * SHA-256 (the program's [crypto/sha256]) on 32-bit words held in [Z]. *)
From S2P Require Import Prelude GoStrings.

Definition rotr (n x : Z) : Z := Z.lor (Z.shiftr x n) (uint32 (Z.shiftl x (32 - n))).
Definition not32 (x : Z) : Z := Z.lxor x (2 ^ 32 - 1).
Definition add32 (x y : Z) : Z := uint32 (x + y).

Definition ch (x y z : Z) : Z := Z.lxor (Z.land x y) (Z.land (not32 x) z).
Definition maj (x y z : Z) : Z := Z.lxor (Z.lxor (Z.land x y) (Z.land x z)) (Z.land y z).
Definition bsig0 (x : Z) : Z := Z.lxor (Z.lxor (rotr 2 x) (rotr 13 x)) (rotr 22 x).
Definition bsig1 (x : Z) : Z := Z.lxor (Z.lxor (rotr 6 x) (rotr 11 x)) (rotr 25 x).
Definition ssig0 (x : Z) : Z := Z.lxor (Z.lxor (rotr 7 x) (rotr 18 x)) (Z.shiftr x 3).
Definition ssig1 (x : Z) : Z := Z.lxor (Z.lxor (rotr 17 x) (rotr 19 x)) (Z.shiftr x 10).

(** The round constants: the first 32 fractional bits of the cube roots of the
    first 64 primes, computed from the primes. *)
Fixpoint primes_from (fuel : nat) (n : Z) (found : list Z) : list Z :=
  match fuel with
  | O => []
  | S fuel' =>
      if existsb (fun p => n mod p =? 0) found then primes_from fuel' (n + 1) found
      else n :: primes_from fuel' (n + 1) (n :: found)
  end.
Definition primes64 : list Z := Eval vm_compute in primes_from 310 2 [].

(** Integer [k]-th root by bisection. *)
Fixpoint root_between (fuel : nat) (k n lo hi : Z) : Z :=
  match fuel with
  | O => lo
  | S fuel' =>
      let mid := (lo + hi) / 2 in
      if mid ^ k <=? n then root_between fuel' k n mid hi else root_between fuel' k n lo mid
  end.
Definition fractional_root (k p : Z) : Z := uint32 (root_between 48 k (p * 2 ^ (32 * k)) 0 (2 ^ 40)).

Definition round_constants : list Z := Eval vm_compute in map (fractional_root 3) primes64.
Definition initial_hash : list Z := Eval vm_compute in map (fractional_root 2) (take 8 primes64).

(** Message schedule, newest word first. *)
Fixpoint extend_schedule (fuel : nat) (ws : list Z) : list Z :=
  match fuel with
  | O => ws
  | S fuel' =>
      let w i := nth i ws 0 in
      extend_schedule fuel'
        (add32 (add32 (ssig1 (w 1%nat)) (w 6%nat)) (add32 (ssig0 (w 14%nat)) (w 15%nat)) :: ws)
  end.

Definition compress_round (st : list Z) (kw : Z * Z) : list Z :=
  match st with
  | [a; b; c; d; e; f; g; h] =>
      let t1 := add32 (add32 h (bsig1 e)) (add32 (ch e f g) (add32 kw.1 kw.2)) in
      let t2 := add32 (bsig0 a) (maj a b c) in
      [add32 t1 t2; a; b; c; add32 d t1; e; f; g]
  | _ => st
  end.

Definition compress (st : list Z) (block : list Z) : list Z :=
  let ws := rev (extend_schedule 48 (rev block)) in
  zip_with add32 st (fold_left compress_round (zip round_constants ws) st).

Definition word_of_bytes (l : list Z) : Z := fold_left (fun acc b => acc * 256 + b) l 0.
Definition bytes_of_word (n : nat) (w : Z) : list Z :=
  map (fun i => Z.shiftr w (8 * (Z.of_nat n - 1 - Z.of_nat i)) mod 256) (seq 0 n).

Fixpoint chunks {A} (fuel n : nat) (l : list A) : list (list A) :=
  match fuel, l with
  | S fuel', _ :: _ => take n l :: chunks fuel' n (drop n l)
  | _, _ => []
  end.

Definition pad_message (l : list Z) : list Z :=
  let n := length l in
  let zeros := Z.to_nat ((55 - Z.of_nat n) mod 64) in
  l ++ [128] ++ replicate zeros 0 ++ bytes_of_word 8 (8 * Z.of_nat n).

(** [sha256.Sum256] of the bytes of a string: 32 bytes. *)
Definition Sum256 (s : string) : list Z :=
  let msg := pad_message (map byte_code (bytes s)) in
  let blocks := map (fun b => map word_of_bytes (chunks 16 4 b))
                  (chunks (length msg) 64 msg) in
  flat_map (bytes_of_word 4) (fold_left compress blocks initial_hash).

Example sha256_abc :
  hex (Sum256 "abc")
  = "ba7816bf8f01cfea414140de5dae2223b00361a396177a9cb410ff61f20015ad".
Proof. vm_compute. reflexivity. Qed.

Example sha256_two_blocks :
  hex (Sum256 "abcdbcdecdefdefgefghfghighijhijkijkljklmklmnlmnomnopnopq")
  = "248d6a61d20638b8e5c026930c3e6039a33ce45964ff2167f6ecedd419db06c1".
Proof. vm_compute. reflexivity. Qed.

Example sha256_empty :
  hex (Sum256 "")
  = "e3b0c44298fc1c149afbf4c8996fb92427ae41e4649b934ca495991b7852b855".
Proof. vm_compute. reflexivity. Qed.
