(* ===== verification/Model.v ===== *)
(** * internal/model/model.go: the persisted state and the DNSSEC data.

    A Go [string] type with named constants ([Kind], [Phase]) is an inductive with
    one constructor per constant and [...Other] for every other string, the empty
    string of a zero value included. *)
From S2P Require Import Prelude GoStrings GoTime.

(** ** Kinds and phases *)
Inductive Kind :=
| KindZSK | KindKSK | KindSplit | KindEnroll
| KindOther (s : string).

Inductive Phase :=
| PhaseIdle | PhasePrepublish | PhaseWaitPublish | PhaseActivateNew
| PhaseWaitNewSignature | PhaseDeactivateOld | PhaseParentRemove | PhaseWaitParentRemove
| PhaseWaitRetire | PhaseDeleteOld | PhaseEnrollDiscovered | PhaseEnrollWaitPublish
| PhaseEnrollParentAdd | PhaseEnrollWaitParent | PhaseBlocked
| PhaseOther (s : string).

#[global] Instance Kind_eq_dec : EqDecision Kind.
Proof. solve_decision. Defined.
#[global] Instance Phase_eq_dec : EqDecision Phase.
Proof. solve_decision. Defined.

Definition Kind_string (k : Kind) : string :=
  match k with
  | KindZSK => "zsk" | KindKSK => "ksk" | KindSplit => "split" | KindEnroll => "enroll"
  | KindOther s => s
  end.

Definition Phase_string (p : Phase) : string :=
  match p with
  | PhaseIdle => "idle" | PhasePrepublish => "prepublish" | PhaseWaitPublish => "wait_publish"
  | PhaseActivateNew => "activate_new" | PhaseWaitNewSignature => "wait_new_signature"
  | PhaseDeactivateOld => "deactivate_old" | PhaseParentRemove => "parent_remove"
  | PhaseWaitParentRemove => "wait_parent_remove" | PhaseWaitRetire => "wait_retire"
  | PhaseDeleteOld => "delete_old" | PhaseEnrollDiscovered => "enroll_discovered"
  | PhaseEnrollWaitPublish => "enroll_wait_publish" | PhaseEnrollParentAdd => "enroll_parent_add"
  | PhaseEnrollWaitParent => "enroll_wait_parent" | PhaseBlocked => "blocked"
  | PhaseOther s => s
  end.

Definition named_kinds : list Kind := [KindZSK; KindKSK; KindSplit; KindEnroll].
Definition named_phases : list Phase :=
  [PhaseIdle; PhasePrepublish; PhaseWaitPublish; PhaseActivateNew; PhaseWaitNewSignature;
   PhaseDeactivateOld; PhaseParentRemove; PhaseWaitParentRemove; PhaseWaitRetire;
   PhaseDeleteOld; PhaseEnrollDiscovered; PhaseEnrollWaitPublish; PhaseEnrollParentAdd;
   PhaseEnrollWaitParent; PhaseBlocked].

(** The value of the Go string, in the model. *)
Definition Kind_of_string (s : string) : Kind :=
  match List.find (fun k => String.eqb (Kind_string k) s) named_kinds with
  | Some k => k
  | None => KindOther s
  end.
Definition Phase_of_string (s : string) : Phase :=
  match List.find (fun p => String.eqb (Phase_string p) s) named_phases with
  | Some p => p
  | None => PhaseOther s
  end.

Lemma Kind_string_of_string s : Kind_string (Kind_of_string s) = s.
Proof.
  unfold Kind_of_string. case_match eqn:E; [|done].
  apply List.find_some in E as [_ E]. by apply String.eqb_eq in E.
Qed.

Lemma Phase_string_of_string s : Phase_string (Phase_of_string s) = s.
Proof.
  unfold Phase_of_string. case_match eqn:E; [|done].
  apply List.find_some in E as [_ E]. by apply String.eqb_eq in E.
Qed.

(** ** Records *)
(** A PowerDNS key without private material. *)
Module Key.
Record t := mk {
  ID : Z;
  KeyType : string;
  Active : bool;
  Published : bool;
  DNSKEY : string;
  DS : list string;
  Algorithm : string;
  Bits : Z;
}.
#[export] Instance eta_Key : Eta t := fun r => mk (r.(ID)) (r.(KeyType)) (r.(Active)) (r.(Published)) (r.(DNSKEY)) (r.(DS)) (r.(Algorithm)) (r.(Bits)).
#[export] Instance set_ID : Field ID.
Proof. derive_field eta_Key. Defined.
#[export] Instance set_KeyType : Field KeyType.
Proof. derive_field eta_Key. Defined.
#[export] Instance set_Active : Field Active.
Proof. derive_field eta_Key. Defined.
#[export] Instance set_Published : Field Published.
Proof. derive_field eta_Key. Defined.
#[export] Instance set_DNSKEY : Field DNSKEY.
Proof. derive_field eta_Key. Defined.
#[export] Instance set_DS : Field DS.
Proof. derive_field eta_Key. Defined.
#[export] Instance set_Algorithm : Field Algorithm.
Proof. derive_field eta_Key. Defined.
#[export] Instance set_Bits : Field Bits.
Proof. derive_field eta_Key. Defined.
#[export] Instance eq_dec : EqDecision t.
Proof. solve_decision. Defined.
End Key.
Export (hints) Key.

(** One record of an RRset: its content and whether it is disabled. *)
Record rr_content := mk_rr_content { Content : string; Disabled : bool }.
#[global] Instance rr_content_eq_dec : EqDecision rr_content.
Proof. solve_decision. Defined.

(** A PowerDNS resource-record set; [TTL] is a [uint32]. *)
Module RRSet.
Record t := mk {
  Name : string;
  Type_ : string;
  TTL : Z;
  Records : list rr_content;
}.
#[export] Instance eta_RRSet : Eta t := fun r => mk (r.(Name)) (r.(Type_)) (r.(TTL)) (r.(Records)).
#[export] Instance set_Name : Field Name.
Proof. derive_field eta_RRSet. Defined.
#[export] Instance set_Type_ : Field Type_.
Proof. derive_field eta_RRSet. Defined.
#[export] Instance set_TTL : Field TTL.
Proof. derive_field eta_RRSet. Defined.
#[export] Instance set_Records : Field Records.
Proof. derive_field eta_RRSet. Defined.
#[export] Instance eq_dec : EqDecision t.
Proof. solve_decision. Defined.
End RRSet.
Export (hints) RRSet.

(** A PowerDNS zone. *)
Module Zone.
Record t := mk {
  ID : string;
  Name : string;
  Kind : string;
  DNSSEC : bool;
  RRsets : list RRSet.t;
}.
#[export] Instance eta_Zone : Eta t := fun r => mk (r.(ID)) (r.(Name)) (r.(Kind)) (r.(DNSSEC)) (r.(RRsets)).
#[export] Instance set_ID : Field ID.
Proof. derive_field eta_Zone. Defined.
#[export] Instance set_Name : Field Name.
Proof. derive_field eta_Zone. Defined.
#[export] Instance set_Kind : Field Kind.
Proof. derive_field eta_Zone. Defined.
#[export] Instance set_DNSSEC : Field DNSSEC.
Proof. derive_field eta_Zone. Defined.
#[export] Instance set_RRsets : Field RRsets.
Proof. derive_field eta_Zone. Defined.
#[export] Instance eq_dec : EqDecision t.
Proof. solve_decision. Defined.
End Zone.
Export (hints) Zone.

(** Public DNSKEY material accepted by the registrar. *)
Module DNSSECData.
Record t := mk {
  Flags : Z;
  Protocol : Z;
  Algorithm : Z;
  PublicKey : string;
}.
#[export] Instance eta_DNSSECData : Eta t := fun r => mk (r.(Flags)) (r.(Protocol)) (r.(Algorithm)) (r.(PublicKey)).
#[export] Instance set_Flags : Field Flags.
Proof. derive_field eta_DNSSECData. Defined.
#[export] Instance set_Protocol : Field Protocol.
Proof. derive_field eta_DNSSECData. Defined.
#[export] Instance set_Algorithm : Field Algorithm.
Proof. derive_field eta_DNSSECData. Defined.
#[export] Instance set_PublicKey : Field PublicKey.
Proof. derive_field eta_DNSSECData. Defined.
#[export] Instance eq_dec : EqDecision t.
Proof. solve_decision. Defined.
End DNSSECData.
Export (hints) DNSSECData.

(** The restart-safe state of one zone and rotation kind. *)
Module Workflow.
Record t := mk {
  Zone : string;
  ZoneID : string;
  Kind : Kind;
  Phase : Phase;
  OldKeyID : Z;
  NewKeyID : Z;
  NewZSKID : Z;
  NewKeyCreateAttemptedAt : time;
  NewZSKCreateAttemptedAt : time;
  PhaseStartedAt : time;
  NextActionAt : time;
  LastCompletedAt : time;
  LastError : string;
  Attempts : Z;
  Manual : bool;
  IdempotencyKey : string;
  DNSKEYTTL : Z;
  ZoneTTL : Z;
  ParentDSTTL : Z;
  EvidenceAt : time;
  RegistrarCTID : string;
  RegistrarSTID : string;
  RegistrarJobID : Z;
  RegistrarJobStatus : string;
  RegistrarAttemptedAt : time;
  RegistrarPayloadHash : string;
  ParentMode : string;
  SplitSignerTransitionAt : time;
  DiscoveredAt : time;
  KeysetFingerprint : string;
  EnrollmentDisposition : string;
}.
#[export] Instance eta_Workflow : Eta t := fun r => mk (r.(Zone)) (r.(ZoneID)) (r.(Kind)) (r.(Phase)) (r.(OldKeyID)) (r.(NewKeyID)) (r.(NewZSKID)) (r.(NewKeyCreateAttemptedAt)) (r.(NewZSKCreateAttemptedAt)) (r.(PhaseStartedAt)) (r.(NextActionAt)) (r.(LastCompletedAt)) (r.(LastError)) (r.(Attempts)) (r.(Manual)) (r.(IdempotencyKey)) (r.(DNSKEYTTL)) (r.(ZoneTTL)) (r.(ParentDSTTL)) (r.(EvidenceAt)) (r.(RegistrarCTID)) (r.(RegistrarSTID)) (r.(RegistrarJobID)) (r.(RegistrarJobStatus)) (r.(RegistrarAttemptedAt)) (r.(RegistrarPayloadHash)) (r.(ParentMode)) (r.(SplitSignerTransitionAt)) (r.(DiscoveredAt)) (r.(KeysetFingerprint)) (r.(EnrollmentDisposition)).
#[export] Instance set_Zone : Field Zone.
Proof. derive_field eta_Workflow. Defined.
#[export] Instance set_ZoneID : Field ZoneID.
Proof. derive_field eta_Workflow. Defined.
#[export] Instance set_Kind : Field Kind.
Proof. derive_field eta_Workflow. Defined.
#[export] Instance set_Phase : Field Phase.
Proof. derive_field eta_Workflow. Defined.
#[export] Instance set_OldKeyID : Field OldKeyID.
Proof. derive_field eta_Workflow. Defined.
#[export] Instance set_NewKeyID : Field NewKeyID.
Proof. derive_field eta_Workflow. Defined.
#[export] Instance set_NewZSKID : Field NewZSKID.
Proof. derive_field eta_Workflow. Defined.
#[export] Instance set_NewKeyCreateAttemptedAt : Field NewKeyCreateAttemptedAt.
Proof. derive_field eta_Workflow. Defined.
#[export] Instance set_NewZSKCreateAttemptedAt : Field NewZSKCreateAttemptedAt.
Proof. derive_field eta_Workflow. Defined.
#[export] Instance set_PhaseStartedAt : Field PhaseStartedAt.
Proof. derive_field eta_Workflow. Defined.
#[export] Instance set_NextActionAt : Field NextActionAt.
Proof. derive_field eta_Workflow. Defined.
#[export] Instance set_LastCompletedAt : Field LastCompletedAt.
Proof. derive_field eta_Workflow. Defined.
#[export] Instance set_LastError : Field LastError.
Proof. derive_field eta_Workflow. Defined.
#[export] Instance set_Attempts : Field Attempts.
Proof. derive_field eta_Workflow. Defined.
#[export] Instance set_Manual : Field Manual.
Proof. derive_field eta_Workflow. Defined.
#[export] Instance set_IdempotencyKey : Field IdempotencyKey.
Proof. derive_field eta_Workflow. Defined.
#[export] Instance set_DNSKEYTTL : Field DNSKEYTTL.
Proof. derive_field eta_Workflow. Defined.
#[export] Instance set_ZoneTTL : Field ZoneTTL.
Proof. derive_field eta_Workflow. Defined.
#[export] Instance set_ParentDSTTL : Field ParentDSTTL.
Proof. derive_field eta_Workflow. Defined.
#[export] Instance set_EvidenceAt : Field EvidenceAt.
Proof. derive_field eta_Workflow. Defined.
#[export] Instance set_RegistrarCTID : Field RegistrarCTID.
Proof. derive_field eta_Workflow. Defined.
#[export] Instance set_RegistrarSTID : Field RegistrarSTID.
Proof. derive_field eta_Workflow. Defined.
#[export] Instance set_RegistrarJobID : Field RegistrarJobID.
Proof. derive_field eta_Workflow. Defined.
#[export] Instance set_RegistrarJobStatus : Field RegistrarJobStatus.
Proof. derive_field eta_Workflow. Defined.
#[export] Instance set_RegistrarAttemptedAt : Field RegistrarAttemptedAt.
Proof. derive_field eta_Workflow. Defined.
#[export] Instance set_RegistrarPayloadHash : Field RegistrarPayloadHash.
Proof. derive_field eta_Workflow. Defined.
#[export] Instance set_ParentMode : Field ParentMode.
Proof. derive_field eta_Workflow. Defined.
#[export] Instance set_SplitSignerTransitionAt : Field SplitSignerTransitionAt.
Proof. derive_field eta_Workflow. Defined.
#[export] Instance set_DiscoveredAt : Field DiscoveredAt.
Proof. derive_field eta_Workflow. Defined.
#[export] Instance set_KeysetFingerprint : Field KeysetFingerprint.
Proof. derive_field eta_Workflow. Defined.
#[export] Instance set_EnrollmentDisposition : Field EnrollmentDisposition.
Proof. derive_field eta_Workflow. Defined.
#[export] Instance eq_dec : EqDecision t.
Proof. solve_decision. Defined.
End Workflow.
Export (hints) Workflow.

(** The zero value [model.Workflow{}]. *)
Definition zero_Workflow : Workflow.t :=
  Workflow.mk "" "" (KindOther "") (PhaseOther "") 0 0 0 time_zero time_zero time_zero time_zero time_zero "" 0 false "" 0 0 0 time_zero "" "" 0 "" time_zero "" "" time_zero time_zero "" "".

(** [Workflow.Active]: a transition is in progress. *)
Definition Active (w : Workflow.t) : bool :=
  bool_decide (w.(Workflow.Phase) ≠ PhaseOther "") && bool_decide (w.(Workflow.Phase) ≠ PhaseIdle).

(** A durable completion or blocked event awaiting delivery. *)
Module Notification.
Record t := mk {
  ID : string;
  Event : string;
  Zone : string;
  Kind : Kind;
  CompletedAt : time;
  OldKeyID : Z;
  NewKeyID : Z;
  NewZSKID : Z;
  RegistrarSTID : string;
  Attempts : Z;
  NextAttemptAt : time;
  LastError : string;
  DeliveredAt : time;
}.
#[export] Instance eta_Notification : Eta t := fun r => mk (r.(ID)) (r.(Event)) (r.(Zone)) (r.(Kind)) (r.(CompletedAt)) (r.(OldKeyID)) (r.(NewKeyID)) (r.(NewZSKID)) (r.(RegistrarSTID)) (r.(Attempts)) (r.(NextAttemptAt)) (r.(LastError)) (r.(DeliveredAt)).
#[export] Instance set_ID : Field ID.
Proof. derive_field eta_Notification. Defined.
#[export] Instance set_Event : Field Event.
Proof. derive_field eta_Notification. Defined.
#[export] Instance set_Zone : Field Zone.
Proof. derive_field eta_Notification. Defined.
#[export] Instance set_Kind : Field Kind.
Proof. derive_field eta_Notification. Defined.
#[export] Instance set_CompletedAt : Field CompletedAt.
Proof. derive_field eta_Notification. Defined.
#[export] Instance set_OldKeyID : Field OldKeyID.
Proof. derive_field eta_Notification. Defined.
#[export] Instance set_NewKeyID : Field NewKeyID.
Proof. derive_field eta_Notification. Defined.
#[export] Instance set_NewZSKID : Field NewZSKID.
Proof. derive_field eta_Notification. Defined.
#[export] Instance set_RegistrarSTID : Field RegistrarSTID.
Proof. derive_field eta_Notification. Defined.
#[export] Instance set_Attempts : Field Attempts.
Proof. derive_field eta_Notification. Defined.
#[export] Instance set_NextAttemptAt : Field NextAttemptAt.
Proof. derive_field eta_Notification. Defined.
#[export] Instance set_LastError : Field LastError.
Proof. derive_field eta_Notification. Defined.
#[export] Instance set_DeliveredAt : Field DeliveredAt.
Proof. derive_field eta_Notification. Defined.
#[export] Instance eq_dec : EqDecision t.
Proof. solve_decision. Defined.
End Notification.
Export (hints) Notification.

(** The complete persisted controller state. *)
Module State.
Record t := mk {
  Version : Z;
  EnrollmentArmedAt : time;
  Workflows : gmap string Workflow.t;
  Idempotency : gmap string string;
  Notifications : gmap string Notification.t;
}.
#[export] Instance eta_State : Eta t := fun r => mk (r.(Version)) (r.(EnrollmentArmedAt)) (r.(Workflows)) (r.(Idempotency)) (r.(Notifications)).
#[export] Instance set_Version : Field Version.
Proof. derive_field eta_State. Defined.
#[export] Instance set_EnrollmentArmedAt : Field EnrollmentArmedAt.
Proof. derive_field eta_State. Defined.
#[export] Instance set_Workflows : Field Workflows.
Proof. derive_field eta_State. Defined.
#[export] Instance set_Idempotency : Field Idempotency.
Proof. derive_field eta_State. Defined.
#[export] Instance set_Notifications : Field Notifications.
Proof. derive_field eta_State. Defined.
#[export] Instance eq_dec : EqDecision t.
Proof. solve_decision. Defined.
End State.
Export (hints) State.

(** [WorkflowKey]: the stable map key of one zone workflow. *)
Definition WorkflowKey (zone : string) (kind : Kind) : string :=
  zone +:+ "|" +:+ Kind_string kind.

(** Reading a missing key of a Go map yields the zero value. *)
Definition workflow_at (s : State.t) (k : string) : Workflow.t :=
  default zero_Workflow (s.(State.Workflows) !! k).

Definition put_workflow (k : string) (w : Workflow.t) (s : State.t) : State.t :=
  s <| State.Workflows := <[k := w]> s.(State.Workflows) |>.
Definition put_notification (n : string) (e : Notification.t) (s : State.t) : State.t :=
  s <| State.Notifications := <[n := e]> s.(State.Notifications) |>.
Definition put_idempotency (k v : string) (s : State.t) : State.t :=
  s <| State.Idempotency := <[k := v]> s.(State.Idempotency) |>.

