(* ===== verification/Config.v ===== *)
(** * internal/config/config.go: the configuration the controller reads. *)
From S2P Require Import Prelude GoStrings GoTime.

Module Log.
Record t := mk { Level : string }.
End Log.

Module ControllerCfg.
Record t := mk {
  ReconcileInterval : duration;
  PropagationMargin : duration;
  StateFile : string;
  Socket : string;
  IdempotencyRetention : duration;
}.
End ControllerCfg.

Module PowerDNS.
Record t := mk { URL : string; ServerID : string; APIKeyFile : string; Timeout : duration }.
End PowerDNS.

Module AutoDNS.
Record t := mk {
  URL : string;
  Username : string;
  PasswordFile : string;
  Context_ : Z;
  Timeout : duration;
  MinimumRequestInterval : duration;
}.
End AutoDNS.

Module DNSCfg.
Record t := mk {
  Resolvers : list string;
  AuthoritativeServers : list string;
  ExpectedNameservers : list string;
  LocalAuthoritative : string;
  Timeout : duration;
}.
End DNSCfg.

Module Rotation.
Record t := mk {
  Algorithm : string;
  ZSKInterval : duration;
  KSKInterval : duration;
  AutoMigrateCSK : bool;
  MinimumDNSKEYWait : duration;
  MinimumParentWait : duration;
  IncludeZones : list string;
  ExcludeZones : list string;
}.
End Rotation.

Module Enrollment.
Record t := mk {
  Enabled : bool;
  Scope_ : string;
  DiscoveryGrace : duration;
  MaxPending : Z;
  MaxNewPerDay : Z;
  AllowedAlgorithms : list string;
  IncludeZones : list string;
  ExcludeZones : list string;
}.
End Enrollment.

Module LMTP.
Record t := mk {
  Enabled : bool;
  Address : string;
  Hostname : string;
  From_ : string;
  To_ : list string;
  Timeout : duration;
}.
End LMTP.

Module Config.
Record t := mk {
  Mode : string;
  Log : Log.t;
  Controller : ControllerCfg.t;
  PowerDNS : PowerDNS.t;
  AutoDNS : AutoDNS.t;
  DNS : DNSCfg.t;
  Rotation : Rotation.t;
  Enrollment : Enrollment.t;
  LMTP : LMTP.t; (* Notifications.LMTP *)
}.
End Config.

(** The controller's shorthands for nested configuration values. *)
Definition Margin (c : Config.t) : duration := c.(Config.Controller).(ControllerCfg.PropagationMargin).
