(* ===== verification/Dns.v ===== *)
(** * The part of the DNS library (github.com/miekg/dns) the program works with, and the public
    key material of internal/dnsprobe/probe.go: from a PowerDNS key to its DNSKEY record.

    Names, the algorithm table and the shape of resource records are written out;
    parsing of presentation format, label validation, hashing and signature
    verification are parameters ([DnsLib]). *)
From S2P Require Import Prelude GoStrings GoTime Model.

(** ** Resource records: the header and the fields the program reads.  [Rdata]
    stands for the remaining wire data, which only the library looks at. *)
Module RR_Header.
Record t := mk { Name : string; Rrtype : Z; Class_ : Z; Ttl : Z }.
#[export] Instance eq_dec : EqDecision t.
Proof. solve_decision. Defined.
End RR_Header.
Export (hints) RR_Header.

Module DNSKEY.
Record t := mk {
  Hdr : RR_Header.t; Flags : Z; Protocol : Z; Algorithm : Z; PublicKey : string;
}.
#[export] Instance eq_dec : EqDecision t.
Proof. solve_decision. Defined.
End DNSKEY.
Export (hints) DNSKEY.

Module DSRR.
Record t := mk {
  Hdr : RR_Header.t; KeyTag : Z; Algorithm : Z; DigestType : Z; Digest : string;
}.
End DSRR.

Module RRSIG.
Record t := mk {
  Hdr : RR_Header.t; TypeCovered : Z; Algorithm : Z; KeyTag : Z; SignerName : string;
  Rdata : string;
}.
End RRSIG.

Module NSEC3.
Record t := mk {
  Hdr : RR_Header.t; Hash : Z; Flags : Z; Iterations : Z; Salt : string;
  TypeBitMap : list Z; Rdata : string;
}.
End NSEC3.

Inductive RR :=
| RR_DNSKEY (k : DNSKEY.t)
| RR_DS (d : DSRR.t)
| RR_RRSIG (s : RRSIG.t)
| RR_NS (h : RR_Header.t) (ns : string)
| RR_SOA (h : RR_Header.t) (rdata : string)
| RR_NSEC (h : RR_Header.t) (types : list Z) (rdata : string)
| RR_NSEC3 (n : NSEC3.t)
| RR_A (h : RR_Header.t) (addr : string)
| RR_AAAA (h : RR_Header.t) (addr : string)
| RR_Other (h : RR_Header.t) (rdata : string).

Definition Header (rr : RR) : RR_Header.t :=
  match rr with
  | RR_DNSKEY k => DNSKEY.Hdr k
  | RR_DS d => DSRR.Hdr d
  | RR_RRSIG s => RRSIG.Hdr s
  | RR_NSEC3 n => NSEC3.Hdr n
  | RR_NS h _ | RR_SOA h _ | RR_NSEC h _ _ | RR_A h _ | RR_AAAA h _ | RR_Other h _ => h
  end.

(** ** Names *)
Fixpoint leading_backslashes (l : list ascii) : Z :=
  match l with
  | a :: l' => if Ascii.eqb a backslash then 1 + leading_backslashes l' else 0
  | [] => 0
  end.

(** A final dot that is not escaped: an even number of backslashes stands before it. *)
Definition IsFqdn (s : string) : bool :=
  match rev (bytes s) with
  | [] => false
  | a :: rest =>
      if Ascii.eqb a "."%char then Z.odd (leading_backslashes rest + 1) else false
  end.

Definition Fqdn (s : string) : string := if IsFqdn s then s else s +:+ ".".

(** ** dns.StringToAlgorithm *)
Definition algorithm_table : list (string * Z) :=
  [("RSAMD5", 1); ("DH", 2); ("DSA", 3); ("RSASHA1", 5); ("DSA-NSEC3-SHA1", 6);
   ("RSASHA1-NSEC3-SHA1", 7); ("RSASHA256", 8); ("RSASHA512", 10); ("ECC-GOST", 12);
   ("ECDSAP256SHA256", 13); ("ECDSAP384SHA384", 14); ("ED25519", 15); ("ED448", 16);
   ("INDIRECT", 252); ("PRIVATEDNS", 253); ("PRIVATEOID", 254)].
Definition StringToAlgorithm (s : string) : option Z :=
  match List.find (fun p => String.eqb p.1 s) algorithm_table with
  | Some p => Some p.2
  | None => None
  end.

(** ** Library functions taken as parameters *)
Class DnsLib := {
  (* dns.NewRR: [None] is the nil record of empty input *)
  NewRR : string -> result (option RR);
  (* dns.IsDomainName: the second result *)
  IsDomainName : string -> bool;
}.

Section DnsKey.
Context {DL : DnsLib}.

(** The record text may carry an owner, TTL, class and type before the four
    RDATA fields; only those four are kept then. *)
Definition dnskey_content (dnskey : string) : string :=
  let content := TrimSpace dnskey in
  let parts := Fields content in
  let n := length parts in
  if Nat.ltb 4 n && EqualFold (nth (n - 5) parts "") "DNSKEY"
  then Join (drop (n - 4) parts) " "
  else content.

Definition keyRR (zone : string) (key : Key.t) : result DNSKEY.t :=
  match NewRR (Sprintf "%s 300 IN DNSKEY %s"
                 [AStr (Fqdn zone); AStr (dnskey_content key.(Key.DNSKEY))]) with
  | Err e => Err (Errorf "parse public DNSKEY for key %d: %w" [AInt key.(Key.ID); AWrap e])
  | Ok (Some (RR_DNSKEY k)) => Ok k
  | Ok _ => Err (Errorf "key %d is not DNSKEY" [AInt key.(Key.ID)])
  end.

Definition DNSSECDataForKey (zone : string) (key : Key.t) : result DNSSECData.t :=
  let? rr := keyRR (Fqdn zone) key in
  Ok (DNSSECData.mk rr.(DNSKEY.Flags) rr.(DNSKEY.Protocol) rr.(DNSKEY.Algorithm)
        rr.(DNSKEY.PublicKey)).

End DnsKey.
