(* ===== verification/Validate.v ===== *)
(** * internal/config/config.go: [Validate], the gate every configuration passes. *)
From S2P Require Import Prelude GoStrings GoTime GoNet Dns Config.

(** What the program reads of a [url.URL]. *)
Module URL.
Record t := mk { Scheme : string; Host : string; Hostname : string }.
End URL.

(** The parsers of URLs (net/url) and of mail addresses (net/mail); the latter returns the
    address of the mailbox. *)
Class Parsers := {
  url_Parse : string -> result URL.t;
  mail_ParseAddress : string -> result string;
}.

Section Validate.
Context {DL : DnsLib} {PA : Parsers}.

Definition pathWithin (path root : string) : bool :=
  match Rel root (Clean path) with
  | Ok rel => (rel != "..") && negb (HasPrefix rel "../")
  | Err _ => false
  end.

Definition line_breaks : string := of_bytes [byte_of_code 13; byte_of_code 10].

Definition parseMailbox (value : string) : result string :=
  if ContainsAny value line_breaks then Err (errors_New "mailbox must not contain line breaks") else
  let? address := mail_ParseAddress value in
  if address == "" then Err (errors_New "mailbox address is empty") else Ok address.

Fixpoint validateResolvers (seen : list string) (rs : list string) : result unit :=
  match rs with
  | [] => Ok tt
  | r :: rs' =>
      let? _ := map_err (fun e => Errorf "invalid resolver %q: %w" [AStr r; AWrap e])
                  (SplitHostPort r) in
      if bool_decide (r ∈ seen) then Err (Errorf "duplicate resolver %q" [AStr r])
      else validateResolvers (r :: seen) rs'
  end.

(** The expected nameservers as [seenNS] collects them, newest first. *)
Fixpoint validateNameservers (seen : list string) (servers : list string) : result (list string) :=
  match servers with
  | [] => Ok seen
  | server :: servers' =>
      let name := ToLower (Fqdn (TrimSpace server)) in
      if negb (IsDomainName name) || bool_decide (name ∈ seen)
      then Err (Errorf "invalid or duplicate expected nameserver %q" [AStr server])
      else validateNameservers (name :: seen) servers'
  end.

Definition delegated_endpoint (seenNS : list string) (endpoint : string) : bool :=
  match SplitHostPort endpoint with
  | Ok (host, _) =>
      match ParseIP host with
      | Some _ => false
      | None => bool_decide (ToLower (Fqdn host) ∈ seenNS)
      end
  | Err _ => false
  end.

Fixpoint validateEndpoints (seenNS : list string) (endpoints : list string) : result unit :=
  match endpoints with
  | [] => Ok tt
  | endpoint :: endpoints' =>
      if delegated_endpoint seenNS endpoint then validateEndpoints seenNS endpoints'
      else Err (Errorf "authoritative server %q is not an expected delegated nameserver" [AStr endpoint])
  end.

Fixpoint validateRecipients (recipients : list string) : result unit :=
  match recipients with
  | [] => Ok tt
  | recipient :: recipients' =>
      let? _ := map_err (fun e => Errorf "invalid LMTP recipient: %w" [AWrap e])
                  (parseMailbox recipient) in
      validateRecipients recipients'
  end.

Fixpoint validateSecrets (paths : list string) : result unit :=
  match paths with
  | [] => Ok tt
  | p :: paths' =>
      if HasPrefix (Clean p) "/run/secrets/" then validateSecrets paths'
      else Err (Errorf "secret path %s must be under /run/secrets" [AStr p])
  end.

Definition private_or_loopback (host : string) : bool :=
  match ParseIP host with
  | Some ip => IsPrivate ip || IsLoopback ip
  | None => false
  end.

Definition validateLMTP (l : LMTP.t) : result unit :=
  let? (host, _) := map_err (fun e => Errorf "invalid LMTP address: %w" [AWrap e])
                      (SplitHostPort l.(LMTP.Address)) in
  if negb (private_or_loopback host)
  then Err (errors_New "LMTP address must be a private or loopback IP") else
  if (l.(LMTP.Hostname) == "") || ContainsAny l.(LMTP.Hostname) line_breaks
  then Err (errors_New "LMTP hostname is required and must not contain line breaks") else
  if negb (IsDomainName (Fqdn l.(LMTP.Hostname)))
  then Err (errors_New "LMTP hostname must be a valid DNS name") else
  if (l.(LMTP.Timeout) <? Second) || (Minute <? l.(LMTP.Timeout))
  then Err (errors_New "LMTP timeout must be between 1s and 1m") else
  let? _ := map_err (fun e => Errorf "invalid LMTP sender: %w" [AWrap e])
              (parseMailbox l.(LMTP.From_)) in
  if Nat.eqb (length l.(LMTP.To_)) 0
  then Err (errors_New "at least one LMTP recipient is required")
  else validateRecipients l.(LMTP.To_).

Definition validateController (c : ControllerCfg.t) : result unit :=
  if c.(ControllerCfg.ReconcileInterval) <? 10 * Second
  then Err (errors_New "reconcile interval must be at least 10s") else
  if c.(ControllerCfg.PropagationMargin) <? Minute
  then Err (errors_New "propagation margin must be at least 1m") else
  if c.(ControllerCfg.IdempotencyRetention) <? 24 * Hour
  then Err (errors_New "idempotency retention must be at least 24h") else
  if negb (IsAbs c.(ControllerCfg.StateFile)) || negb (IsAbs c.(ControllerCfg.Socket))
  then Err (errors_New "state_file and socket must be absolute") else
  if negb (pathWithin c.(ControllerCfg.StateFile) "/var/lib/dnssec-keyrotation")
  then Err (errors_New "state_file must be under /var/lib/dnssec-keyrotation") else
  if negb (pathWithin c.(ControllerCfg.Socket) "/run/dnssec-keyrotation")
  then Err (errors_New "socket must be under /run/dnssec-keyrotation") else Ok tt.

Definition validateServices (c : Config.t) : result unit :=
  let a := c.(Config.AutoDNS) in
  match url_Parse c.(Config.PowerDNS).(PowerDNS.URL) with
  | Ok p =>
      if URL.Scheme p != "http"
      then Err (errors_New "powerdns.url must be a valid loopback http URL") else
      let loopback := match ParseIP (URL.Hostname p) with Some ip => IsLoopback ip | None => false end in
      if (URL.Hostname p != "localhost") && negb loopback
      then Err (errors_New "powerdns.url must use loopback; remote plaintext API access is forbidden")
      else
      match url_Parse a.(AutoDNS.URL) with
      | Ok u =>
          if (URL.Scheme u != "https") || (URL.Host u == "")
          then Err (errors_New "autodns.url must be HTTPS") else
          if (URL.Hostname u != "api.autodns.com") && (URL.Hostname u != "api.demo.autodns.com")
          then Err (errors_New "autodns.url host is not an approved DomainRobot endpoint") else
          let? _ := validateSecrets [c.(Config.PowerDNS).(PowerDNS.APIKeyFile); a.(AutoDNS.PasswordFile)] in
          if (a.(AutoDNS.Context_) <=? 0) || (a.(AutoDNS.Username) == "")
          then Err (errors_New "autodns username and positive context are required") else
          if a.(AutoDNS.MinimumRequestInterval) <? 334 * Millisecond
          then Err (errors_New "autodns minimum request interval must stay below 3 requests/s")
          else Ok tt
      | Err _ => Err (errors_New "autodns.url must be HTTPS")
      end
  | Err _ => Err (errors_New "powerdns.url must be a valid loopback http URL")
  end.

Definition validateDNS (d : DNSCfg.t) (enrolling : bool) : result unit :=
  if Nat.ltb (length d.(DNSCfg.Resolvers)) 2
  then Err (errors_New "at least two independent DNS resolvers are required") else
  let? _ := validateResolvers [] d.(DNSCfg.Resolvers) in
  let? _ := map_err (fun e => Errorf "invalid local authoritative address: %w" [AWrap e])
              (SplitHostPort d.(DNSCfg.LocalAuthoritative)) in
  if Nat.ltb (length d.(DNSCfg.AuthoritativeServers)) 2
  then Err (errors_New "at least two authoritative servers are required") else
  if enrolling && Nat.ltb (length d.(DNSCfg.ExpectedNameservers)) 2
  then Err (errors_New "automatic enrollment requires at least two expected parent nameservers") else
  let? seenNS := validateNameservers [] d.(DNSCfg.ExpectedNameservers) in
  if enrolling then
    if negb (Nat.eqb (length d.(DNSCfg.AuthoritativeServers)) (length seenNS))
    then Err (errors_New "automatic enrollment requires authoritative_servers to match expected_nameservers exactly")
    else validateEndpoints seenNS d.(DNSCfg.AuthoritativeServers)
  else Ok tt.

Definition validateRotation (r : Rotation.t) : result unit :=
  if (r.(Rotation.ZSKInterval) <? 24 * Hour) || (r.(Rotation.KSKInterval) <? 30 * 24 * Hour)
  then Err (errors_New "rotation intervals are below policy minimum") else
  if (r.(Rotation.MinimumDNSKEYWait) <? Hour) || (r.(Rotation.MinimumParentWait) <? 48 * Hour)
  then Err (errors_New "minimum DNSSEC evidence waits are below policy minimum") else
  if r.(Rotation.AutoMigrateCSK)
  then Err (errors_New "automatic CSK migration is forbidden; use an explicit confirmed split trigger")
  else Ok tt.

Definition validateEnrollment (e : Enrollment.t) : result unit :=
  if (e.(Enrollment.Scope_) != "none") && (e.(Enrollment.Scope_) != "all_selected")
  then Err (errors_New "enrollment scope must be none or all_selected") else
  if e.(Enrollment.Enabled) && (e.(Enrollment.Scope_) != "all_selected")
  then Err (errors_New "enabled enrollment requires explicit scope all_selected") else
  if e.(Enrollment.DiscoveryGrace) <? 24 * Hour
  then Err (errors_New "enrollment discovery grace must be at least 24h") else
  if (e.(Enrollment.MaxPending) <? 1) || (100 <? e.(Enrollment.MaxPending)) ||
     (e.(Enrollment.MaxNewPerDay) <? 1) || (100 <? e.(Enrollment.MaxNewPerDay))
  then Err (errors_New "enrollment circuit-breaker limits must be between 1 and 100") else
  if Nat.eqb (length e.(Enrollment.AllowedAlgorithms)) 0
  then Err (errors_New "enrollment allowed_algorithms must not be empty") else Ok tt.

Definition Validate (c : Config.t) : result unit :=
  if (c.(Config.Mode) != "observe") && (c.(Config.Mode) != "enforce")
  then Err (errors_New "mode must be observe or enforce") else
  let? _ := validateController c.(Config.Controller) in
  let? _ := validateServices c in
  let? _ := validateDNS c.(Config.DNS) c.(Config.Enrollment).(Enrollment.Enabled) in
  let? _ := validateRotation c.(Config.Rotation) in
  let? _ := validateEnrollment c.(Config.Enrollment) in
  if c.(Config.LMTP).(LMTP.Enabled) then validateLMTP c.(Config.LMTP) else Ok tt.

(** [setDefaults]: the configuration before the file and the environment are read; what
    has no default is zero. *)
Definition setDefaults : Config.t :=
  Config.mk "observe" (Log.mk "info")
    (ControllerCfg.mk Minute (2 * Hour) "/var/lib/dnssec-keyrotation/state.json"
       "/run/dnssec-keyrotation/control.sock" (8760 * Hour))
    (PowerDNS.mk "" "localhost" "" (10 * Second))
    (AutoDNS.mk "https://api.autodns.com/v1" "" "" 4 (20 * Second) (500 * Millisecond))
    (DNSCfg.mk [] [] [] "127.0.0.1:53" (5 * Second))
    (Rotation.mk "ECDSAP256SHA256" (720 * Hour) (4368 * Hour) false (24 * Hour) (48 * Hour) [] [])
    (Enrollment.mk false "none" (24 * Hour) 10 5 ["ECDSAP256SHA256"] [] [])
    (LMTP.mk false "" "" "" [] (10 * Second)).

(** [Load]: what viper decoded is returned only when it validates. *)
Definition Load (decoded : result Config.t) : result Config.t :=
  let? c := decoded in
  let? _ := Validate c in
  Ok c.

(** ** ReadSecret *)

(** What [os.Lstat] and [os.ReadFile] return for a path. *)
Record SecretFile := mkSecretFile { regular : bool; perm : Z; bytes_read : result string }.

Definition ReadSecret (lstat : string -> result SecretFile) (path : string) : result string :=
  let? st := lstat path in
  if negb st.(regular)
  then Err (Errorf "secret %s must be a regular non-symlink file" [AStr path]) else
  if negb (Z.land st.(perm) 63 =? 0)
  then Err (Errorf "secret %s must not be group/world accessible" [AStr path]) else
  let? b := st.(bytes_read) in
  let s := TrimSpace b in
  if s == "" then Err (Errorf "secret %s is empty" [AStr path]) else Ok s.
End Validate.
