(* ===== verification/ValidateFacts.v ===== *)
(** * What a validated configuration guarantees. *)
From S2P Require Import Prelude GoStrings GoTime GoNet GoNetFacts Dns Config Validate.

Section ValidateFacts.
Context {DL : DnsLib} {PA : Parsers}.

(** A path that resolves to something inside [root], or to [root] itself: its elements, dots
    resolved, start with those of [root]. *)
Definition inside (root path : string) : Prop :=
  IsAbs path = true /\ exists rest, path_elements path = path_elements root ++ rest.

Lemma pathWithin_inside path root :
  IsAbs root = true -> IsAbs path = true -> pathWithin path root = true -> inside root path.
Proof.
  intros Hr Hp. unfold pathWithin. destruct (Rel root (Clean path)) as [rel|] eqn:E; [|done].
  intros H. bool_prop. split; [done|]. rewrite <- path_elements_Clean by done.
  by eapply Rel_below; [| |exact E|..]; try apply IsAbs_Clean.
Qed.

Lemma has_prefix_app p l rest : has_prefix p l = Some rest <-> l = p ++ rest.
Proof.
  revert l. induction p as [|a p IH]; intros l; cbn; [naive_solver|].
  destruct l as [|b l]; [done|]. destruct (Ascii.eqb_spec a b) as [->|Hn]; [rewrite IH|]; naive_solver.
Qed.
Lemma HasPrefix_app s p : HasPrefix s p = true -> exists rest, s = p +:+ rest.
Proof.
  unfold HasPrefix. destruct (has_prefix _ _) as [rest|] eqn:E; [|done]. intros _.
  apply has_prefix_app in E. exists (of_bytes rest). apply bytes_inj.
  by rewrite bytes_app, bytes_of_bytes.
Qed.

(** The secret files are below /run/secrets, in no way out of it. *)
Definition secret_path (path : string) : Prop :=
  IsAbs path = true /\ exists rest, rest <> [] /\ path_elements path = ["run"; "secrets"] ++ rest.

Lemma Clean_absolute path : IsAbs (Clean path) = true -> IsAbs path = true.
Proof.
  intros Hc. destruct (IsAbs path) eqn:Ha; [done|]. exfalso. revert Hc. unfold Clean. rewrite Ha.
  destruct (_ == "") eqn:Ee; [done|]. pose proof (path_elements_named path) as Hn.
  destruct (path_elements path) as [|e els]; [done|]. apply Forall_cons in Hn as [[He Hs] _].
  assert (Hh : forall t, HasPrefix (e +:+ t) "/" = false).
  { intros t. destruct e as [|x e]; [done|]. unfold HasPrefix. rewrite bytes_app.
    change (bytes "/") with [slash]. change (bytes (String x e)) with (x :: bytes e).
    cbn [app has_prefix]. destruct (Ascii.eqb_spec slash x) as [<-|]; [|done].
    exfalso. apply Hs. apply elem_of_cons. by left. }
  unfold IsAbs. destruct els as [|e' els].
  - cbn [Join]. rewrite <- (string_app_nil_r e). by rewrite Hh.
  - cbn [Join]. by rewrite Hh.
Qed.

Lemma secret_prefix path : HasPrefix (Clean path) "/run/secrets/" = true -> secret_path path.
Proof.
  intros [s E]%HasPrefix_app.
  assert (Ha : IsAbs path = true) by (apply Clean_absolute; by rewrite E).
  split; [done|]. pose proof (path_elements_proper path Ha) as Hp. revert E. unfold Clean. rewrite Ha.
  intros E%(f_equal bytes). rewrite !bytes_app in E. cbn [app] in E.
  change (bytes "/run/secrets/") with (slash :: bytes "run/secrets/") in E.
  cbn [app] in E. injection E as E.
  assert (Hn : path_elements path <> []) by (intros En; by rewrite En in E).
  apply (f_equal (split_aux slash [])) in E.
  match type of E with _ = ?r =>
    change r with ("run" :: "secrets" :: split_aux slash [] (bytes s)) in E end.
  change (split_aux slash [] (bytes (Join (path_elements path) "/")))
    with (Split (Join (path_elements path) "/") slash) in E.
  rewrite split_join in E; [|done|eapply Forall_impl; [exact Hp|]; by intros e (_ & _ & _ & ?)].
  exists (split_aux slash [] (bytes s)). split; [apply split_aux_cons|exact E].
Qed.

(** Every address is host:port. *)
Definition host_port (s : string) : Prop := exists host port, SplitHostPort s = Ok (host, port).

Lemma validateResolvers_Ok seen rs :
  validateResolvers seen rs = Ok tt ->
  NoDup rs /\ Forall host_port rs /\ forall r, r ∈ rs -> r ∉ seen.
Proof.
  revert seen. induction rs as [|r rs IH]; intros seen; cbn; [intros _; split_and!; [constructor|constructor|set_solver]|].
  intros H. ok_inv H. destruct x as [host port]. case_bool_decide as Hs; [done|].
  destruct (IH _ H) as (Hn & Hf & Hd). split_and!.
  - constructor; [|done]. intros Hin%Hd. set_solver.
  - constructor; [by exists host, port|done].
  - intros y [->|Hy]%elem_of_cons; [done|]. apply Hd in Hy. set_solver.
Qed.

Definition ns_name (server : string) : string := ToLower (Fqdn (TrimSpace server)).

Lemma validateNameservers_Ok seen servers out :
  validateNameservers seen servers = Ok out ->
  out = rev (map ns_name servers) ++ seen /\ (NoDup seen -> NoDup out) /\
  Forall (fun s => IsDomainName (ns_name s) = true) servers.
Proof.
  revert seen. induction servers as [|s servers IH]; intros seen; cbn; [naive_solver|].
  fold (ns_name s). destruct (_ || _) eqn:E; [done|]. bool_prop. intros Hv.
  destruct (IH _ Hv) as (-> & Hn & Hf). split_and!; [by rewrite <- app_assoc| |by constructor].
  intros Hs. apply Hn. by constructor.
Qed.

Definition endpoint_of (servers : list string) (endpoint : string) : Prop :=
  exists host port, SplitHostPort endpoint = Ok (host, port) /\ ParseIP host = None /\
    ToLower (Fqdn host) ∈ map ns_name servers.

Lemma validateEndpoints_Ok seenNS endpoints servers :
  (forall x, x ∈ seenNS -> x ∈ map ns_name servers) ->
  validateEndpoints seenNS endpoints = Ok tt -> Forall (endpoint_of servers) endpoints.
Proof.
  intros Hs. induction endpoints as [|e es IH]; [constructor|]. cbn.
  destruct (delegated_endpoint seenNS e) eqn:E; [|done]. intros H. constructor; [|by apply IH].
  unfold delegated_endpoint in E. destruct (SplitHostPort e) as [[host port]|] eqn:Eh; [|done].
  destruct (ParseIP host) eqn:Ei; [done|]. bool_prop. exists host, port. auto.
Qed.

(** What [Validate] guarantees. *)
Record valid (c : Config.t) : Prop := {
  valid_mode : c.(Config.Mode) = "observe" \/ c.(Config.Mode) = "enforce";
  valid_interval : 10 * Second <= c.(Config.Controller).(ControllerCfg.ReconcileInterval);
  valid_margin : Minute <= c.(Config.Controller).(ControllerCfg.PropagationMargin);
  valid_retention : 24 * Hour <= c.(Config.Controller).(ControllerCfg.IdempotencyRetention);
  valid_state_file : inside "/var/lib/dnssec-keyrotation" c.(Config.Controller).(ControllerCfg.StateFile);
  valid_socket : inside "/run/dnssec-keyrotation" c.(Config.Controller).(ControllerCfg.Socket);
  valid_pdns : exists u, url_Parse c.(Config.PowerDNS).(PowerDNS.URL) = Ok u /\ URL.Scheme u = "http" /\
    (URL.Hostname u = "localhost" \/ exists ip, ParseIP (URL.Hostname u) = Some ip /\ IsLoopback ip = true);
  valid_autodns : exists u, url_Parse c.(Config.AutoDNS).(AutoDNS.URL) = Ok u /\ URL.Scheme u = "https" /\
    (URL.Hostname u = "api.autodns.com" \/ URL.Hostname u = "api.demo.autodns.com");
  valid_api_key : secret_path c.(Config.PowerDNS).(PowerDNS.APIKeyFile);
  valid_password : secret_path c.(Config.AutoDNS).(AutoDNS.PasswordFile);
  valid_rate : 334 * Millisecond <= c.(Config.AutoDNS).(AutoDNS.MinimumRequestInterval);
  valid_resolvers : (2 <= length c.(Config.DNS).(DNSCfg.Resolvers))%nat /\
    NoDup c.(Config.DNS).(DNSCfg.Resolvers) /\ Forall host_port c.(Config.DNS).(DNSCfg.Resolvers);
  valid_local : host_port c.(Config.DNS).(DNSCfg.LocalAuthoritative);
  valid_authoritative : (2 <= length c.(Config.DNS).(DNSCfg.AuthoritativeServers))%nat;
  valid_nameservers : NoDup (map ns_name c.(Config.DNS).(DNSCfg.ExpectedNameservers));
  valid_rotation :
    24 * Hour <= c.(Config.Rotation).(Rotation.ZSKInterval) /\
    30 * 24 * Hour <= c.(Config.Rotation).(Rotation.KSKInterval) /\
    Hour <= c.(Config.Rotation).(Rotation.MinimumDNSKEYWait) /\
    48 * Hour <= c.(Config.Rotation).(Rotation.MinimumParentWait) /\
    c.(Config.Rotation).(Rotation.AutoMigrateCSK) = false;
  valid_breaker :
    1 <= c.(Config.Enrollment).(Enrollment.MaxPending) <= 100 /\
    1 <= c.(Config.Enrollment).(Enrollment.MaxNewPerDay) <= 100 /\
    24 * Hour <= c.(Config.Enrollment).(Enrollment.DiscoveryGrace) /\
    c.(Config.Enrollment).(Enrollment.AllowedAlgorithms) <> [];
  valid_enrollment : c.(Config.Enrollment).(Enrollment.Enabled) = true ->
    c.(Config.Enrollment).(Enrollment.Scope_) = "all_selected" /\
    (2 <= length c.(Config.DNS).(DNSCfg.ExpectedNameservers))%nat /\
    length c.(Config.DNS).(DNSCfg.AuthoritativeServers) =
      length c.(Config.DNS).(DNSCfg.ExpectedNameservers) /\
    Forall (endpoint_of c.(Config.DNS).(DNSCfg.ExpectedNameservers))
      c.(Config.DNS).(DNSCfg.AuthoritativeServers);
  valid_lmtp : c.(Config.LMTP).(LMTP.Enabled) = true ->
    (exists host port ip, SplitHostPort c.(Config.LMTP).(LMTP.Address) = Ok (host, port) /\
       ParseIP host = Some ip /\ (IsPrivate ip = true \/ IsLoopback ip = true)) /\
    Second <= c.(Config.LMTP).(LMTP.Timeout) <= Minute /\ c.(Config.LMTP).(LMTP.To_) <> [] /\
    Forall (fun m => ContainsAny m line_breaks = false)
      (c.(Config.LMTP).(LMTP.Hostname) :: c.(Config.LMTP).(LMTP.From_) :: c.(Config.LMTP).(LMTP.To_));
}.

(** ** Section by section *)
Lemma validateController_Ok k :
  validateController k = Ok tt ->
  10 * Second <= k.(ControllerCfg.ReconcileInterval) /\
  Minute <= k.(ControllerCfg.PropagationMargin) /\
  24 * Hour <= k.(ControllerCfg.IdempotencyRetention) /\
  inside "/var/lib/dnssec-keyrotation" k.(ControllerCfg.StateFile) /\
  inside "/run/dnssec-keyrotation" k.(ControllerCfg.Socket).
Proof.
  unfold validateController. intros H. ok_inv H. bool_prop.
  split_and!; try lia; by apply pathWithin_inside.
Qed.

Lemma validateSecrets_Ok a b :
  validateSecrets [a; b] = Ok tt ->
  secret_path a /\ secret_path b.
Proof. cbn -[HasPrefix Clean]. rewrite !unless_Ok. intros (? & ? & _). split; by apply secret_prefix. Qed.

Lemma validateDNS_Ok d enrolling :
  validateDNS d enrolling = Ok tt ->
  ((2 <= length d.(DNSCfg.Resolvers))%nat /\ NoDup d.(DNSCfg.Resolvers) /\
   Forall host_port d.(DNSCfg.Resolvers)) /\
  host_port d.(DNSCfg.LocalAuthoritative) /\ (2 <= length d.(DNSCfg.AuthoritativeServers))%nat /\
  NoDup (map ns_name d.(DNSCfg.ExpectedNameservers)) /\
  (enrolling = true ->
   (2 <= length d.(DNSCfg.ExpectedNameservers))%nat /\
   length d.(DNSCfg.AuthoritativeServers) = length d.(DNSCfg.ExpectedNameservers) /\
   Forall (endpoint_of d.(DNSCfg.ExpectedNameservers)) d.(DNSCfg.AuthoritativeServers)).
Proof.
  unfold validateDNS. intros H. ok_inv H.
  destruct x. apply validateResolvers_Ok in Hok as (Hn & Hf & _). destruct x0 as [host port].
  apply validateNameservers_Ok in Hok1 as (-> & Hnd & _). rewrite app_nil_r in *.
  specialize (Hnd NoDup_nil_2). rewrite <- Permutation_rev in Hnd.
  apply Nat.ltb_ge in Hguard, Hguard0. split_and!; [lia|done|done|by exists host, port|lia|done|].
  intros ->. cbn [andb] in Hguard1. apply Nat.ltb_ge in Hguard1. apply guard_Ok in H as [Hlen He].
  apply negb_false_iff, Nat.eqb_eq in Hlen. rewrite length_rev, length_map in Hlen.
  split_and!; [lia|done|]. eapply validateEndpoints_Ok; [|exact He].
  intros y Hy. by rewrite <- Permutation_rev in Hy.
Qed.

Lemma parseMailbox_Ok m a : parseMailbox m = Ok a -> ContainsAny m line_breaks = false.
Proof. unfold parseMailbox. intros H. by ok_inv H. Qed.
Lemma validateRecipients_Ok rs :
  validateRecipients rs = Ok tt -> Forall (fun m => ContainsAny m line_breaks = false) rs.
Proof.
  induction rs as [|r rs IH]; [constructor|]. cbn. intros H. ok_inv H.
  apply parseMailbox_Ok in Hok. constructor; auto.
Qed.

Lemma validateLMTP_Ok l :
  validateLMTP l = Ok tt ->
  (exists host port ip, SplitHostPort l.(LMTP.Address) = Ok (host, port) /\
     ParseIP host = Some ip /\ (IsPrivate ip = true \/ IsLoopback ip = true)) /\
  Second <= l.(LMTP.Timeout) <= Minute /\ l.(LMTP.To_) <> [] /\
  Forall (fun m => ContainsAny m line_breaks = false)
    (l.(LMTP.Hostname) :: l.(LMTP.From_) :: l.(LMTP.To_)).
Proof.
  unfold validateLMTP. intros H. ok_inv H. destruct x as [host port]. ok_inv H.
  apply parseMailbox_Ok in Hok0. apply validateRecipients_Ok in H.
  unfold private_or_loopback in Hguard. destruct (ParseIP host) as [ip|] eqn:Ei; [|done]. bool_prop.
  split_and!; [exists host, port, ip; naive_solver|lia|lia| |by repeat constructor].
  intros E. by rewrite E in *.
Qed.

Lemma validateServices_Ok c :
  validateServices c = Ok tt ->
  (exists u, url_Parse c.(Config.PowerDNS).(PowerDNS.URL) = Ok u /\ URL.Scheme u = "http" /\
    (URL.Hostname u = "localhost" \/ exists ip, ParseIP (URL.Hostname u) = Some ip /\ IsLoopback ip = true)) /\
  (exists u, url_Parse c.(Config.AutoDNS).(AutoDNS.URL) = Ok u /\ URL.Scheme u = "https" /\
    (URL.Hostname u = "api.autodns.com" \/ URL.Hostname u = "api.demo.autodns.com")) /\
  secret_path c.(Config.PowerDNS).(PowerDNS.APIKeyFile) /\
  secret_path c.(Config.AutoDNS).(AutoDNS.PasswordFile) /\
  334 * Millisecond <= c.(Config.AutoDNS).(AutoDNS.MinimumRequestInterval).
Proof.
  unfold validateServices. destruct (url_Parse _) as [p|] eqn:Ep; [|done].
  rewrite !guard_Ok. intros (Hs & Hl & H).
  destruct (url_Parse (AutoDNS.URL _)) as [u|] eqn:Eu; [|done]. ok_inv H. destruct x.
  apply validateSecrets_Ok in Hok as [H1 H2]. bool_prop.
  split_and!; [exists p|exists u|done|done|lia]; split_and!; try done.
  - destruct Hl as [?|Hl]; [by left|right]. destruct (ParseIP _) as [ip|]; [by exists ip|done].
Qed.

End ValidateFacts.
