(* ===== verification/Keys.v ===== *)
(** * internal/controller/controller.go, key inventories: the pure functions that
    classify a zone's keys, look keys up and decide whether an inventory is exactly
    the one a workflow phase allows. *)
From S2P Require Import Prelude GoStrings GoTime Sha256 Model Dns.

(** ** Lookup and classification *)
Definition count_active (typ : string) (keys : list Key.t) : Z :=
  Z.of_nat (length (List.filter (fun k => k.(Key.Active) && (k.(Key.KeyType) == typ)) keys)).

Definition keyScheme (keys : list Key.t) : string :=
  let a typ := count_active typ keys in
  if (a "ksk" == 1) && (a "zsk" == 1) && (a "csk" == 0) then "split"
  else if (a "csk" == 1) && (a "ksk" == 0) && (a "zsk" == 0) then "csk"
  else "unknown".

Definition exactlyOneActive (keys : list Key.t) (typ : string) : result Key.t :=
  match List.filter (fun k => (k.(Key.KeyType) == typ) && k.(Key.Active)) keys with
  | [k] => Ok k
  | a => Err (Errorf "expected one active %s, got %d" [AStr typ; AInt (Z.of_nat (length a))])
  end.

Definition byID (keys : list Key.t) (id : Z) : option Key.t :=
  List.find (fun k => k.(Key.ID) == id) keys.

Definition recordedKeys (keys : list Key.t) (oldID newID : Z) : result (Key.t * Key.t) :=
  match byID keys oldID with
  | None => Err (Errorf "recorded old key %d missing" [AInt oldID])
  | Some old =>
      match byID keys newID with
      | None => Err (Errorf "recorded new key %d missing" [AInt newID])
      | Some n => Ok (old, n)
      end
  end.

Definition publishedKeys (keys : list Key.t) : list Key.t :=
  List.filter (fun k => k.(Key.Published)) keys.

(** ** Registrar material and digests *)
Definition material_key (x : DNSSECData.t) : string :=
  Sprintf "%d/%d/%d/%s"
    [AInt x.(DNSSECData.Flags); AInt x.(DNSSECData.Protocol); AInt x.(DNSSECData.Algorithm);
     AStr (TrimSpace x.(DNSSECData.PublicKey))].

Definition sameMaterial (a b : list DNSSECData.t) : bool :=
  if length a != length b then false
  else Sort (map material_key a) == Sort (map material_key b).

Definition dnssecPayloadHash (data : DNSSECData.t) : string :=
  Sprintf "sha256:%x"
    [AHex (Sum256 (Sprintf "%d|%d|%d|%s"
       [AInt data.(DNSSECData.Flags); AInt data.(DNSSECData.Protocol);
        AInt data.(DNSSECData.Algorithm); AStr data.(DNSSECData.PublicKey)]))].

(** [fmt.Sprintf("dnssec-%x", sum[:16])] of a SHA-256 digest. *)
Definition dnssec_id (text : string) : string :=
  Sprintf "dnssec-%x" [AHex (take 16 (Sum256 text))].

Definition maxTTL (z : Zone.t) : duration :=
  dur_mul (fold_left (fun m r => if m <? r.(RRSet.TTL) then r.(RRSet.TTL) else m)
             z.(Zone.RRsets) 86400) Second.

Definition maxDuration (a b : duration) : duration := if b <? a then a else b.

Definition jobSucceeded (status : string) : bool :=
  bool_decide (ToUpper status ∈ ["SUCCESS"; "SUCCEEDED"; "DONE"; "COMPLETED"]).
Definition jobFailed (status : string) : bool :=
  bool_decide (ToUpper status ∈ ["FAILED"; "FAILURE"; "ERROR"; "CANCELED"; "CANCELLED"]).

Definition validateAlgorithmLabel (label : string) (algorithm : Z) : result unit :=
  match StringToAlgorithm (ToUpper (TrimSpace label)) with
  | None => Err (Errorf "unknown PowerDNS algorithm %q" [AStr label])
  | Some want =>
      if want != algorithm then
        Err (Errorf "PowerDNS algorithm %q maps to %d but DNSKEY contains %d"
               [AStr label; AInt want; AInt algorithm])
      else Ok tt
  end.

(** Every active or published key is one of [allowed]; the first other key is the error. *)
Fixpoint closedInventory (allowed : list Z) (keys : list Key.t) : result unit :=
  match keys with
  | [] => Ok tt
  | key :: keys' =>
      if (key.(Key.Active) || key.(Key.Published))
         && negb (bool_decide (key.(Key.ID) ∈ allowed))
      then Err (Errorf "unexpected active or published key %d (%s)"
                  [AInt key.(Key.ID); AStr key.(Key.KeyType)])
      else closedInventory allowed keys'
  end.

(** The retirement variant also refuses an ID that occurs twice. *)
Fixpoint closedRetirement (allowed seen : list Z) (keys : list Key.t) : result unit :=
  match keys with
  | [] => Ok tt
  | key :: keys' =>
      if bool_decide (key.(Key.ID) ∈ seen)
         || ((key.(Key.Active) || key.(Key.Published))
             && negb (bool_decide (key.(Key.ID) ∈ allowed)))
      then Err (Errorf "unexpected or duplicate key %d at retirement" [AInt key.(Key.ID)])
      else closedRetirement allowed (key.(Key.ID) :: seen) keys'
  end.

Section Inventories.
Context {DL : DnsLib}.

(** DNSKEY flags decide the role; PowerDNS may label a recorded replacement key of a
    split migration [csk], which is accepted only where the caller allows it. *)
Definition validatedKeyRole (zone : string) (key : Key.t) (wantType : string)
    (allowTransitionalCSK : bool) : result DNSSECData.t :=
  let wantFlags := if (wantType == "ksk") || (wantType == "csk") then 257 else 256 in
  let? data := map_err (fun e => Errorf "key %d DNSKEY is invalid: %w" [AInt key.(Key.ID); AWrap e])
                 (DNSSECDataForKey zone key) in
  if data.(DNSSECData.Protocol) != 3 then
    Err (Errorf "key %d has DNSKEY protocol %d, want 3"
           [AInt key.(Key.ID); AInt data.(DNSSECData.Protocol)])
  else if data.(DNSSECData.Flags) != wantFlags then
    Err (Errorf "key %d has DNSKEY flags %d, want %d for %s"
           [AInt key.(Key.ID); AInt data.(DNSSECData.Flags); AInt wantFlags; AStr wantType])
  else if key.(Key.KeyType) == wantType then Ok data
  else if allowTransitionalCSK && (key.(Key.KeyType) == "csk")
          && ((wantType == "ksk") || (wantType == "zsk")) then Ok data
  else Err (Errorf "key %d has PowerDNS keytype %q, want %q"
              [AInt key.(Key.ID); AStr key.(Key.KeyType); AStr wantType]).

Definition validatePrepublishInventory (zone : string) (keys : list Key.t) (w : Workflow.t)
  : result unit :=
  let split := w.(Workflow.Kind) == KindSplit in
  if (w.(Workflow.OldKeyID) == 0) || (w.(Workflow.NewKeyID) == 0)
     || (w.(Workflow.OldKeyID) == w.(Workflow.NewKeyID)) then
    Err (errors_New "recorded old and new key IDs must be non-zero and distinct")
  else if split && ((w.(Workflow.NewZSKID) == 0)
                    || (w.(Workflow.OldKeyID) == w.(Workflow.NewZSKID))
                    || (w.(Workflow.NewKeyID) == w.(Workflow.NewZSKID))) then
    Err (errors_New "split workflow must record three distinct key IDs")
  else
  let? (old, newKey) := recordedKeys keys w.(Workflow.OldKeyID) w.(Workflow.NewKeyID) in
  let wantOldType := if split then "csk" else Kind_string w.(Workflow.Kind) in
  let? oldData := map_err (fun e => Errorf "recorded old key role: %w" [AWrap e])
                    (validatedKeyRole zone old wantOldType false) in
  if negb old.(Key.Active) || negb old.(Key.Published) then
    Err (Errorf "recorded old %s is not active and published" [AStr wantOldType])
  else
  let wantNewActive := (w.(Workflow.Kind) == KindKSK) || split in
  let wantNewType := if split then "ksk" else Kind_string w.(Workflow.Kind) in
  let? newData := map_err (fun e => Errorf "recorded new key role: %w" [AWrap e])
                    (validatedKeyRole zone newKey wantNewType split) in
  if newData.(DNSSECData.Algorithm) != oldData.(DNSSECData.Algorithm) then
    Err (Errorf "recorded new key algorithm %d differs from old key algorithm %d"
           [AInt newData.(DNSSECData.Algorithm); AInt oldData.(DNSSECData.Algorithm)])
  else if (newKey.(Key.Active) != wantNewActive) || negb newKey.(Key.Published) then
    Err (Errorf "recorded new %s has unexpected active/published state" [AStr wantNewType])
  else if split then
    match byID keys w.(Workflow.NewZSKID) with
    | None => Err (errors_New "recorded new ZSK missing")
    | Some zsk =>
        let? zskData := map_err (fun e => Errorf "recorded new ZSK role: %w" [AWrap e])
                          (validatedKeyRole zone zsk "zsk" true) in
        if zskData.(DNSSECData.Algorithm) != oldData.(DNSSECData.Algorithm) then
          Err (Errorf "recorded new ZSK algorithm %d differs from old key algorithm %d"
                 [AInt zskData.(DNSSECData.Algorithm); AInt oldData.(DNSSECData.Algorithm)])
        else if zsk.(Key.Active) || negb zsk.(Key.Published) then
          Err (errors_New "recorded new ZSK is not inactive and published")
        else closedInventory [zsk.(Key.ID); old.(Key.ID); newKey.(Key.ID)] keys
    end
  else
    let companionType := if w.(Workflow.Kind) == KindKSK then "zsk" else "ksk" in
    match exactlyOneActive keys companionType with
    | Ok companion =>
        if negb companion.(Key.Published) then
          Err (Errorf "expected one active and published companion %s" [AStr companionType])
        else closedInventory [companion.(Key.ID); old.(Key.ID); newKey.(Key.ID)] keys
    | Err _ => Err (Errorf "expected one active and published companion %s" [AStr companionType])
    end.

Definition validateSplitMutationInventory (zone : string) (keys : list Key.t) (w : Workflow.t)
    (oldActive : bool) : result unit :=
  if (w.(Workflow.Kind) != KindSplit) || (w.(Workflow.OldKeyID) == 0)
     || (w.(Workflow.NewKeyID) == 0) || (w.(Workflow.NewZSKID) == 0)
     || (w.(Workflow.OldKeyID) == w.(Workflow.NewKeyID))
     || (w.(Workflow.OldKeyID) == w.(Workflow.NewZSKID))
     || (w.(Workflow.NewKeyID) == w.(Workflow.NewZSKID)) then
    Err (errors_New "active split workflow must record three distinct key IDs")
  else
  let? (old, newKSK) := recordedKeys keys w.(Workflow.OldKeyID) w.(Workflow.NewKeyID) in
  match byID keys w.(Workflow.NewZSKID) with
  | None => Err (Errorf "recorded new ZSK %d missing" [AInt w.(Workflow.NewZSKID)])
  | Some newZSK =>
      let? oldData := map_err (fun e => Errorf "recorded old CSK effective role: %w" [AWrap e])
                        (validatedKeyRole zone old "ksk" true) in
      let? kskData := map_err (fun e => Errorf "recorded new KSK role: %w" [AWrap e])
                        (validatedKeyRole zone newKSK "ksk" true) in
      let? zskData := map_err (fun e => Errorf "recorded new ZSK role: %w" [AWrap e])
                        (validatedKeyRole zone newZSK "zsk" true) in
      if (oldData.(DNSSECData.Algorithm) != kskData.(DNSSECData.Algorithm))
         || (oldData.(DNSSECData.Algorithm) != zskData.(DNSSECData.Algorithm)) then
        Err (errors_New "active split DNSKEY algorithms differ")
      else if (old.(Key.Active) != oldActive) || negb old.(Key.Published)
              || negb newKSK.(Key.Active) || negb newKSK.(Key.Published)
              || negb newZSK.(Key.Active) || negb newZSK.(Key.Published) then
        Err (Errorf "split keys do not match expected old-active=%t post-activation state"
               [ABool oldActive])
      else closedInventory [old.(Key.ID); newKSK.(Key.ID); newZSK.(Key.ID)] keys
  end.

Definition validateActiveSplitInventory (zone : string) (keys : list Key.t) (w : Workflow.t) :=
  validateSplitMutationInventory zone keys w true.
Definition validateDeactivatedSplitInventory (zone : string) (keys : list Key.t) (w : Workflow.t) :=
  validateSplitMutationInventory zone keys w false.

Definition retirementInventory (zone : string) (keys : list Key.t) (w : Workflow.t)
  : result (list Key.t) :=
  if (w.(Workflow.OldKeyID) <=? 0) || (w.(Workflow.NewKeyID) <=? 0)
     || (w.(Workflow.OldKeyID) == w.(Workflow.NewKeyID)) then
    Err (errors_New "retirement requires distinct recorded old and new key IDs")
  else
  let missing := errors_New "active and published replacement key missing" in
  match byID keys w.(Workflow.NewKeyID) with
  | None => Err missing
  | Some replacement =>
      if negb replacement.(Key.Active) || negb replacement.(Key.Published) then Err missing
      else
      let? data := validatedKeyRole zone replacement (Kind_string w.(Workflow.Kind)) false in
      let companionRole := if w.(Workflow.Kind) == KindKSK then "zsk" else "ksk" in
      let no_companion :=
        Errorf "retirement requires one distinct active and published companion %s"
          [AStr companionRole] in
      match exactlyOneActive keys companionRole with
      | Err _ => Err no_companion
      | Ok companion =>
          if negb companion.(Key.Published) || (companion.(Key.ID) == w.(Workflow.OldKeyID))
             || (companion.(Key.ID) == w.(Workflow.NewKeyID)) then Err no_companion
          else
          let? _ := validatedKeyRole zone companion companionRole false in
          let bad_old := errors_New
            "recorded old key has unexpected retirement role, algorithm, or publication state" in
          let? (expected, allowed) :=
            match byID keys w.(Workflow.OldKeyID) with
            | None => Ok ([replacement; companion], [replacement.(Key.ID); companion.(Key.ID)])
            | Some old =>
                match validatedKeyRole zone old (Kind_string w.(Workflow.Kind)) false with
                | Err _ => Err bad_old
                | Ok oldData =>
                    if old.(Key.Active) || negb old.(Key.Published)
                       || (oldData.(DNSSECData.Algorithm) != data.(DNSSECData.Algorithm))
                    then Err bad_old
                    else Ok ([replacement; companion; old],
                             [old.(Key.ID); replacement.(Key.ID); companion.(Key.ID)])
                end
            end in
          let? _ := closedRetirement allowed [] keys in
          Ok expected
      end
  end.

(** The two role lists [validateEnrollmentInventory] collects, in key order. *)
Fixpoint enrollmentRoles (keys : list Key.t) (ksk zsk : list Key.t)
  : result (list Key.t * list Key.t) :=
  match keys with
  | [] => Ok (ksk, zsk)
  | key :: keys' =>
      if negb key.(Key.Active) && negb key.(Key.Published) then enrollmentRoles keys' ksk zsk
      else if negb key.(Key.Active) || negb key.(Key.Published) then
        Err (Errorf "key %d is active/published only partially" [AInt key.(Key.ID)])
      else if key.(Key.KeyType) == "ksk" then enrollmentRoles keys' (ksk ++ [key]) zsk
      else if key.(Key.KeyType) == "zsk" then enrollmentRoles keys' ksk (zsk ++ [key])
      else Err (Errorf "unexpected active or published key %d (%s)"
                  [AInt key.(Key.ID); AStr key.(Key.KeyType)])
  end.

Definition keysetFingerprint (ksk zsk : Key.t) (kdata zdata : DNSSECData.t) : string :=
  Sprintf "sha256:%x" [AHex (Sum256 (Sprintf "ksk|%d|%d|%d|%s|zsk|%d|%d|%d|%s"
    [AInt ksk.(Key.ID); AInt kdata.(DNSSECData.Protocol); AInt kdata.(DNSSECData.Algorithm);
     AStr kdata.(DNSSECData.PublicKey);
     AInt zsk.(Key.ID); AInt zdata.(DNSSECData.Protocol); AInt zdata.(DNSSECData.Algorithm);
     AStr zdata.(DNSSECData.PublicKey)]))].

Definition validateEnrollmentInventory (zone : string) (keys : list Key.t)
    (expectedKSK expectedZSK : Z) (expectedFingerprint : string)
    (allowedAlgorithms : list string) : result (Key.t * Key.t * string) :=
  let? roles := enrollmentRoles keys [] [] in
  let not_split := errors_New "expected exactly one distinct active/published KSK and ZSK" in
  match roles with
  | ([ksk], [zsk]) =>
      if ksk.(Key.ID) == zsk.(Key.ID) then Err not_split
      else if (expectedKSK != 0) && (ksk.(Key.ID) != expectedKSK) then
        Err (Errorf "KSK id changed from %d to %d" [AInt expectedKSK; AInt ksk.(Key.ID)])
      else if (expectedZSK != 0) && (zsk.(Key.ID) != expectedZSK) then
        Err (Errorf "ZSK id changed from %d to %d" [AInt expectedZSK; AInt zsk.(Key.ID)])
      else
      let? kdata := validatedKeyRole zone ksk "ksk" false in
      let? zdata := validatedKeyRole zone zsk "zsk" false in
      if kdata.(DNSSECData.Algorithm) != zdata.(DNSSECData.Algorithm) then
        Err (errors_New "KSK and ZSK algorithms differ")
      else
      let? _ := validateAlgorithmLabel ksk.(Key.Algorithm) kdata.(DNSSECData.Algorithm) in
      let? _ := validateAlgorithmLabel zsk.(Key.Algorithm) zdata.(DNSSECData.Algorithm) in
      if negb (existsb (fun label => EqualFold (TrimSpace label) ksk.(Key.Algorithm))
                 allowedAlgorithms) then
        Err (Errorf "algorithm %q is not allowed for automatic enrollment"
               [AStr ksk.(Key.Algorithm)])
      else
      let fingerprint := keysetFingerprint ksk zsk kdata zdata in
      if (expectedFingerprint != "") && (fingerprint != expectedFingerprint) then
        Err (errors_New "public keyset fingerprint changed")
      else Ok (ksk, zsk, fingerprint)
  | _ => Err not_split
  end.

End Inventories.
