(* ===== verification/KeysFacts.v ===== *)
(** * Facts about the key inventories of Keys.v used by the theorems of every handler. *)
From S2P Require Import Prelude GoStrings GoTime Model Dns Keys.

Lemma byID_Some keys id k : byID keys id = Some k -> k ∈ keys /\ k.(Key.ID) = id.
Proof.
  unfold byID. intros [Hin Heq]%List.find_some. split.
  - by apply list_elem_of_In.
  - by bool_prop.
Qed.

Lemma recordedKeys_Ok keys o n a b :
  recordedKeys keys o n = Ok (a, b) <-> byID keys o = Some a /\ byID keys n = Some b.
Proof. unfold recordedKeys. repeat case_match; naive_solver. Qed.

Lemma exactlyOneActive_Ok keys typ k :
  exactlyOneActive keys typ = Ok k <->
  List.filter (fun k => (k.(Key.KeyType) == typ) && k.(Key.Active)) keys = [k].
Proof. unfold exactlyOneActive. repeat case_match; naive_solver. Qed.

Lemma closedInventory_Ok allowed keys :
  closedInventory allowed keys = Ok tt <->
  Forall (fun k => k.(Key.Active) || k.(Key.Published) = true -> k.(Key.ID) ∈ allowed) keys.
Proof.
  induction keys as [|k keys IH]; cbn; [by split|].
  rewrite Forall_cons, <- IH.
  destruct (Key.Active k || Key.Published k); cbn; [|naive_solver].
  case_bool_decide; cbn; naive_solver.
Qed.

Lemma closedRetirement_Ok allowed seen keys :
  closedRetirement allowed seen keys = Ok tt <->
  Forall (fun k => k.(Key.Active) || k.(Key.Published) = true -> k.(Key.ID) ∈ allowed) keys /\
  NoDup (map Key.ID keys) /\ Forall (fun k => k.(Key.ID) ∉ seen) keys.
Proof.
  revert seen. induction keys as [|k keys IH]; intros seen; cbn.
  - split; [intros _|done]. repeat split; constructor.
  - rewrite !Forall_cons, NoDup_cons.
    destruct (bool_decide (Key.ID k ∈ seen)) eqn:E1; bool_prop; cbn; [naive_solver|].
    assert (Hseen : Forall (fun x => x.(Key.ID) ∉ Key.ID k :: seen) keys <->
                    Key.ID k ∉ map Key.ID keys /\ Forall (fun x => x.(Key.ID) ∉ seen) keys).
    { rewrite !Forall_forall. setoid_rewrite list_elem_of_In at 3. rewrite in_map_iff.
      setoid_rewrite not_elem_of_cons. setoid_rewrite <- list_elem_of_In. naive_solver. }
    destruct (Key.Active k || Key.Published k) eqn:E2; cbn;
      [case_bool_decide; cbn|]; rewrite ?IH, ?Hseen; naive_solver.
Qed.

(** ** Roles *)
Section Roles.
Context {DL : DnsLib}.

Definition role_flags (typ : string) : Z :=
  if (typ == "ksk") || (typ == "csk") then 257 else 256.

(** [key] plays role [typ] in [zone] with DNSKEY data [d]. *)
Record has_role (zone : string) (key : Key.t) (typ : string) (transitional : bool)
    (d : DNSSECData.t) : Prop := {
  role_data : DNSSECDataForKey zone key = Ok d;
  role_protocol : d.(DNSSECData.Protocol) = 3;
  role_bits : d.(DNSSECData.Flags) = role_flags typ;
  role_label : key.(Key.KeyType) = typ \/
    transitional = true /\ key.(Key.KeyType) = "csk" /\ (typ = "ksk" \/ typ = "zsk");
}.

Lemma validatedKeyRole_Ok zone key typ transitional d :
  validatedKeyRole zone key typ transitional = Ok d <-> has_role zone key typ transitional d.
Proof.
  unfold validatedKeyRole. cbv zeta. fold (role_flags typ).
  destruct (DNSSECDataForKey zone key) as [d'|e] eqn:Hd; cbn [map_err result_bind].
  2: { split; [done|]. intros [H]. congruence. }
  rewrite !guard_Ok. split.
  - intros (Hp & Hf & H). bool_prop.
    destruct (Key.KeyType key == typ) eqn:E; bool_prop; [simplify_eq; by split; auto|].
    apply unless_Ok in H as [H [= ->]]. bool_prop. by split; auto.
  - intros [Hd' Hp Hf Hl]. assert (d' = d) as -> by congruence. rewrite Hp, Hf, !eqb_refl. do 2 (split; [done|]).
    destruct (Key.KeyType key == typ) eqn:E; [done|]. apply unless_Ok. split; [|done].
    bool_prop. destruct Hl as [|(-> & -> & [-> | ->])]; done.
Qed.

(** ** The prepublication inventory *)
Definition allowed_only (ids : list Z) (keys : list Key.t) : Prop :=
  Forall (fun k => k.(Key.Active) || k.(Key.Published) = true -> k.(Key.ID) ∈ ids) keys.

(** The old key signs, the replacement is published with the old key's algorithm and
    signs already unless it is a ZSK, and nothing else is active or published but the
    replacement ZSK (split) or the one signing key of the other role. *)
Definition prepublish_ok (zone : string) (keys : list Key.t) (w : Workflow.t) : Prop :=
  let split := w.(Workflow.Kind) == KindSplit in
  let kind := Kind_string w.(Workflow.Kind) in
  exists old newKey oldData newData,
    byID keys w.(Workflow.OldKeyID) = Some old /\ byID keys w.(Workflow.NewKeyID) = Some newKey /\
    w.(Workflow.OldKeyID) <> 0 /\ w.(Workflow.NewKeyID) <> 0 /\
    w.(Workflow.OldKeyID) <> w.(Workflow.NewKeyID) /\
    has_role zone old (if split then "csk" else kind) false oldData /\
    old.(Key.Active) = true /\ old.(Key.Published) = true /\
    has_role zone newKey (if split then "ksk" else kind) split newData /\
    newData.(DNSSECData.Algorithm) = oldData.(DNSSECData.Algorithm) /\
    newKey.(Key.Active) = ((w.(Workflow.Kind) == KindKSK) || split) /\
    newKey.(Key.Published) = true /\
    if split then
      exists zsk zskData,
        byID keys w.(Workflow.NewZSKID) = Some zsk /\ w.(Workflow.NewZSKID) <> 0 /\
        w.(Workflow.OldKeyID) <> w.(Workflow.NewZSKID) /\
        w.(Workflow.NewKeyID) <> w.(Workflow.NewZSKID) /\
        has_role zone zsk "zsk" true zskData /\
        zskData.(DNSSECData.Algorithm) = oldData.(DNSSECData.Algorithm) /\
        zsk.(Key.Active) = false /\ zsk.(Key.Published) = true /\
        allowed_only [zsk.(Key.ID); old.(Key.ID); newKey.(Key.ID)] keys
    else
      exists companion,
        exactlyOneActive keys (if w.(Workflow.Kind) == KindKSK then "zsk" else "ksk") = Ok companion /\
        companion.(Key.Published) = true /\
        allowed_only [companion.(Key.ID); old.(Key.ID); newKey.(Key.ID)] keys.

Lemma validatePrepublishInventory_Ok zone keys w :
  validatePrepublishInventory zone keys w = Ok tt <-> prepublish_ok zone keys w.
Proof.
  unfold validatePrepublishInventory, prepublish_ok. cbv zeta. split.
  - intros H. ok_inv H. destruct x as [old newKey]. ok_inv H.
    rewrite validatedKeyRole_Ok in *. apply recordedKeys_Ok in Hok as [Hold Hnew].
    exists old, newKey, x, x0. bool_prop.
    destruct (Workflow.Kind w == KindSplit) eqn:Hs; cbn [andb orb] in *; bool_prop.
    + destruct (byID keys (Workflow.NewZSKID w)) as [zsk|] eqn:Hz; [|done]. ok_inv H.
      rewrite validatedKeyRole_Ok, closedInventory_Ok in *. bool_prop.
      split_and!; try done. exists zsk, x1.
      destruct Hguard0 as [|[[? ?] ?]]; [done|]. by split_and!.
    + destruct (exactlyOneActive keys _) as [companion|] eqn:Hc; [|done]. ok_inv H.
      rewrite closedInventory_Ok in *. bool_prop.
      split_and!; try done. exists companion. by split_and!.
  - intros (old & newKey & d & d' & Hold & Hnew & Ho & Hn & Hd & Hr & Ha & Hp & Hr' & Halg & Ha' &
            Hp' & H).
    rewrite <- validatedKeyRole_Ok in Hr, Hr'.
    rewrite (proj2 (eqb_false _ _) Ho), (proj2 (eqb_false _ _) Hn), (proj2 (eqb_false _ _) Hd).
    rewrite (proj2 (recordedKeys_Ok _ _ _ _ _) (conj Hold Hnew)). cbn [orb result_bind].
    destruct (Workflow.Kind w == KindSplit) eqn:Hs; cbn [andb orb] in *.
    + destruct H as (zsk & dz & Hz & Hz0 & Hz1 & Hz2 & Hrz & Halgz & Haz & Hpz & Hc).
      rewrite <- validatedKeyRole_Ok in Hrz. apply (proj2 (closedInventory_Ok _ _)) in Hc.
      rewrite (proj2 (eqb_false _ _) Hz0), (proj2 (eqb_false _ _) Hz1), (proj2 (eqb_false _ _) Hz2).
      cbn [orb]. rewrite Hr, Ha, Hp. cbn [map_err result_bind negb orb].
      rewrite Hr'. cbn [map_err result_bind negb orb]. rewrite Halg, Ha', Hp', Hz.
      rewrite eqb_refl, orb_true_r. cbn [map_err result_bind negb orb].
      rewrite Hrz. cbn [map_err result_bind negb orb]. by rewrite Halgz, Haz, Hpz, !eqb_refl.
    + destruct H as (companion & Hc & Hpc & Hcl). apply (proj2 (closedInventory_Ok _ _)) in Hcl.
      rewrite Hr, Ha, Hp. cbn [map_err result_bind negb orb].
      rewrite Hr'. cbn [map_err result_bind negb orb].
      by rewrite Halg, Ha', Hp', Hc, Hpc, !eqb_refl.
Qed.
End Roles.

(** ** Registrar material is compared as a multiset *)
Lemma sameMaterial_Permutation a b :
  sameMaterial a b = true <-> map material_key a ≡ₚ map material_key b.
Proof.
  unfold sameMaterial. destruct (length a != length b) eqn:Hl; bool_prop.
  - split; [done|]. intros H%Permutation_length. by rewrite !length_map in H.
  - rewrite eqb_true. apply Sort_eq_iff.
Qed.

(** ** Classification *)
Lemma filter_singleton_length {A} (f : A -> bool) l :
  length (List.filter f l) = 1%nat <-> exists x, List.filter f l = [x].
Proof.
  split; [|by intros [x ->]].
  destruct (List.filter f l) as [|x [|]]; try done. by exists x.
Qed.

Lemma count_active_one keys typ :
  count_active typ keys = 1 <-> exists k, exactlyOneActive keys typ = Ok k.
Proof.
  setoid_rewrite exactlyOneActive_Ok. unfold count_active.
  rewrite (filter_ext (fun k => Key.Active k && (Key.KeyType k == typ))
             (fun k => (Key.KeyType k == typ) && Key.Active k)) by (intros; apply andb_comm).
  rewrite <- filter_singleton_length. lia.
Qed.

Lemma count_active_zero keys typ :
  count_active typ keys = 0 <->
  Forall (fun k => k.(Key.KeyType) = typ -> k.(Key.Active) = false) keys.
Proof.
  unfold count_active. induction keys as [|k keys IH]; cbn; [by split|].
  rewrite Forall_cons, <- IH. destruct (Key.Active k); cbn; [|naive_solver].
  destruct (Key.KeyType k == typ) eqn:E; bool_prop; cbn; [|naive_solver].
  split; [lia|]. naive_solver.
Qed.

Lemma keyScheme_split keys :
  keyScheme keys = "split" <->
  (exists k, exactlyOneActive keys "ksk" = Ok k) /\ (exists z, exactlyOneActive keys "zsk" = Ok z) /\
  Forall (fun k => k.(Key.KeyType) = "csk" -> k.(Key.Active) = false) keys.
Proof.
  rewrite <- !count_active_one, <- count_active_zero. unfold keyScheme. cbv zeta.
  case_match eqn:E1; [|case_match eqn:E2]; bool_prop.
  - naive_solver.
  - split; [done|]. intros (? & ? & ?). lia.
  - split; [done|]. naive_solver.
Qed.

Lemma keyScheme_csk keys :
  keyScheme keys = "csk" <->
  (exists k, exactlyOneActive keys "csk" = Ok k) /\
  Forall (fun k => k.(Key.KeyType) = "ksk" \/ k.(Key.KeyType) = "zsk" -> k.(Key.Active) = false) keys.
Proof.
  transitivity (count_active "csk" keys = 1 /\ count_active "ksk" keys = 0 /\
                count_active "zsk" keys = 0).
  - unfold keyScheme. cbv zeta.
    case_match eqn:E1; [|case_match eqn:E2]; bool_prop.
    + split; [done|]. intros (? & ? & ?). lia.
    + naive_solver.
    + split; [done|]. naive_solver.
  - rewrite !count_active_zero, count_active_one, !Forall_forall. naive_solver.
Qed.

(** ** Retirement: the keys the DNSKEY set must consist of before the old key goes *)
Lemma retirement_complete allowed keys (expected : list Key.t) :
  closedRetirement allowed [] keys = Ok tt ->
  (forall id, id ∈ allowed -> exists k, k ∈ expected /\ k.(Key.ID) = id) ->
  expected ⊆ keys ->
  Forall (fun k => k.(Key.Active) || k.(Key.Published) = true -> k ∈ expected) keys.
Proof.
  intros (Hall & Hnd & _)%closedRetirement_Ok Hexp Hsub.
  rewrite Forall_forall in Hall |- *. intros k Hk Hap.
  destruct (Hexp _ (Hall k Hk Hap)) as (k' & Hk' & Hid).
  assert (k = k') as ->; [|done].
  clear -Hnd Hk Hsub Hk' Hid. apply Hsub in Hk'. clear Hsub.
  induction keys as [|a keys IH]; [by apply not_elem_of_nil in Hk|].
  cbn in Hnd. apply NoDup_cons in Hnd as [Hn Hnd].
  assert (Hin : forall x, x ∈ keys -> Key.ID x ∈ map Key.ID keys)
    by (intros x Hx; apply list_elem_of_In, in_map, list_elem_of_In, Hx).
  apply elem_of_cons in Hk as [->|Hk], Hk' as [->|Hk']; auto.
  - exfalso. apply Hn. rewrite <- Hid. auto.
  - exfalso. apply Hn. rewrite Hid. auto.
Qed.
