(* ===== verification/Inventory.v ===== *)
(** * The theorems about key inventories (Keys.v): what each validator accepts. *)
From S2P Require Import Prelude GoStrings GoTime Sha256 Model Dns Keys KeysFacts.

Section Inventory.
Context {DL : DnsLib}.

(** C29: [validatePrepublishInventory] accepts exactly the inventories of [prepublish_ok]:
    old key signing, replacement published with the same algorithm and the right activity,
    for a split workflow also the replacement ZSK, three distinct recorded IDs, and no other
    active or published key except the one companion key of the other role. *)
Theorem prepublish_inventory_exact zone keys w :
  validatePrepublishInventory zone keys w = Ok tt <-> prepublish_ok zone keys w.
Proof. apply validatePrepublishInventory_Ok. Qed.

(** The three recorded keys of a split workflow after activation, the old one active or not. *)
Definition split_ok (zone : string) (keys : list Key.t) (w : Workflow.t) (oldActive : bool) : Prop :=
  exists old ksk zsk oldData kskData zskData,
    byID keys w.(Workflow.OldKeyID) = Some old /\ byID keys w.(Workflow.NewKeyID) = Some ksk /\
    byID keys w.(Workflow.NewZSKID) = Some zsk /\
    has_role zone old "ksk" true oldData /\ has_role zone ksk "ksk" true kskData /\
    has_role zone zsk "zsk" true zskData /\
    kskData.(DNSSECData.Algorithm) = oldData.(DNSSECData.Algorithm) /\
    zskData.(DNSSECData.Algorithm) = oldData.(DNSSECData.Algorithm) /\
    old.(Key.Active) = oldActive /\ old.(Key.Published) = true /\
    ksk.(Key.Active) = true /\ ksk.(Key.Published) = true /\
    zsk.(Key.Active) = true /\ zsk.(Key.Published) = true /\
    allowed_only [old.(Key.ID); ksk.(Key.ID); zsk.(Key.ID)] keys.

Lemma validateSplitMutationInventory_Ok zone keys w b :
  validateSplitMutationInventory zone keys w b = Ok tt -> split_ok zone keys w b.
Proof.
  unfold validateSplitMutationInventory. intros H. ok_inv H. destruct x as [old ksk].
  apply recordedKeys_Ok in Hok as [Ho Hk].
  destruct (byID keys (Workflow.NewZSKID w)) as [zsk|] eqn:Hz; [|done]. ok_inv H.
  rewrite validatedKeyRole_Ok, closedInventory_Ok in *. bool_prop.
  exists old, ksk, zsk, x, x0, x1. by split_and!.
Qed.

Lemma split_ok_old zone keys w b :
  split_ok zone keys w b ->
  exists old, byID keys w.(Workflow.OldKeyID) = Some old /\ old.(Key.Active) = b.
Proof. intros (old & ? & ? & ? & ? & ? & Ho & _ & _ & _ & _ & _ & _ & _ & Ha & _). by exists old. Qed.

(** The inventory before and the inventory after deactivating the old key of a split
    workflow exclude each other, each consists of the three recorded keys with matching
    algorithms and roles, and nothing else is active or published. *)
Lemma split_inventories_exclusive zone keys w :
  (validateActiveSplitInventory zone keys w = Ok tt -> split_ok zone keys w true) /\
  (validateDeactivatedSplitInventory zone keys w = Ok tt -> split_ok zone keys w false) /\
  ~ (validateActiveSplitInventory zone keys w = Ok tt /\
     validateDeactivatedSplitInventory zone keys w = Ok tt).
Proof.
  split_and!; try apply validateSplitMutationInventory_Ok.
  intros [H1%validateSplitMutationInventory_Ok%split_ok_old
          H2%validateSplitMutationInventory_Ok%split_ok_old].
  destruct H1 as (old & Ho & Ha), H2 as (old' & Ho' & Ha'). congruence.
Qed.

Lemma byID_elem keys id k : byID keys id = Some k -> k ∈ keys.
Proof. intros H. by apply byID_Some in H as []. Qed.
Lemma exactlyOneActive_elem keys typ k :
  exactlyOneActive keys typ = Ok k -> k ∈ keys /\ k.(Key.KeyType) = typ /\ k.(Key.Active) = true.
Proof.
  rewrite exactlyOneActive_Ok. intros H.
  assert (Hin : In k (List.filter (fun k => (Key.KeyType k == typ) && Key.Active k) keys))
    by (rewrite H; by left).
  apply filter_In in Hin as [Hin Hb]. bool_prop. split_and!; [by apply list_elem_of_In|done..].
Qed.

(** When [retirementInventory] answers, its list is made of keys of the zone and contains
    every active or published key, key IDs are unique, the replacement is active, published
    and in its role, and an old key that is still present is published but no longer active. *)
Lemma retirement_inventory_exact zone keys w l :
  retirementInventory zone keys w = Ok l ->
  l ⊆ keys /\ NoDup (map Key.ID keys) /\
  Forall (fun k => k.(Key.Active) || k.(Key.Published) = true -> k ∈ l) keys /\
  (exists new data, byID keys w.(Workflow.NewKeyID) = Some new /\ new ∈ l /\
     new.(Key.Active) = true /\ new.(Key.Published) = true /\
     has_role zone new (Kind_string w.(Workflow.Kind)) false data) /\
  (forall old, byID keys w.(Workflow.OldKeyID) = Some old ->
     old ∈ l /\ old.(Key.Active) = false /\ old.(Key.Published) = true).
Proof.
  unfold retirementInventory. cbv zeta. intros H. ok_inv H.
  destruct (byID keys (Workflow.NewKeyID w)) as [new|] eqn:Hnew; [|done]. ok_inv H.
  destruct (exactlyOneActive keys _) as [comp|] eqn:Hc; [|done]. ok_inv H.
  destruct x1 as [expected allowed]. ok_inv H. destruct x1. injection H as <-.
  apply validatedKeyRole_Ok in Hok.
  pose proof (exactlyOneActive_elem _ _ _ Hc) as (Hcin & _ & _).
  pose proof (byID_elem _ _ _ Hnew) as Hnin. bool_prop.
  destruct (byID keys (Workflow.OldKeyID w)) as [old|] eqn:Hold.
  - destruct (validatedKeyRole _ old _ _) as [od|]; [|done]. ok_inv Hok1. simplify_eq. bool_prop.
    pose proof (byID_elem _ _ _ Hold) as Hoin.
    assert (Hsub : [new; comp; old] ⊆ keys) by set_solver.
    split_and!; try done.
    + by apply closedRetirement_Ok in Hok2 as (_ & Hnd & _).
    + eapply retirement_complete; [exact Hok2| |done]. set_solver.
    + exists new, x. split_and!; try done. by left.
    + intros ? [= <-]. split_and!; try done. set_solver.
  - simplify_eq.
    assert (Hsub : [new; comp] ⊆ keys) by set_solver.
    split_and!; try done.
    + by apply closedRetirement_Ok in Hok2 as (_ & Hnd & _).
    + eapply retirement_complete; [exact Hok2| |done]. set_solver.
    + exists new, x. split_and!; try done. by left.
Qed.

(** [sameMaterial] holds exactly when the two lists are permutations of each other up to
    white space around the public keys. *)
Lemma material_compared_as_multiset a b :
  sameMaterial a b = true <-> map material_key a ≡ₚ map material_key b.
Proof. apply sameMaterial_Permutation. Qed.

(** A zone is [split] exactly when it has one active KSK, one active ZSK and no active CSK,
    and [csk] exactly when it has one active CSK and no active KSK or ZSK. *)
Lemma key_scheme_exact keys :
  (keyScheme keys = "split" <->
   (exists k, exactlyOneActive keys "ksk" = Ok k) /\ (exists z, exactlyOneActive keys "zsk" = Ok z) /\
   Forall (fun k => k.(Key.KeyType) = "csk" -> k.(Key.Active) = false) keys) /\
  (keyScheme keys = "csk" <->
   (exists k, exactlyOneActive keys "csk" = Ok k) /\
   Forall (fun k => k.(Key.KeyType) = "ksk" \/ k.(Key.KeyType) = "zsk" -> k.(Key.Active) = false) keys).
Proof. split; [apply keyScheme_split|apply keyScheme_csk]. Qed.

(** ** Enrollment *)
Lemma fingerprint_nonempty ksk zsk kd zd : keysetFingerprint ksk zsk kd zd <> "".
Proof. unfold keysetFingerprint. done. Qed.

(** The conditions of [validateEnrollmentInventory], the recorded values last. *)
Definition enrollment_ok (zone : string) (keys : list Key.t) (eK eZ : Z) (eF : string)
    (allowed : list string) (k z : Key.t) (fp : string) : Prop :=
  exists kd zd,
    (enrollmentRoles keys [] [] = Ok ([k], [z]) /\ k.(Key.ID) <> z.(Key.ID) /\
     validatedKeyRole zone k "ksk" false = Ok kd /\ validatedKeyRole zone z "zsk" false = Ok zd /\
     kd.(DNSSECData.Algorithm) = zd.(DNSSECData.Algorithm) /\
     validateAlgorithmLabel k.(Key.Algorithm) kd.(DNSSECData.Algorithm) = Ok tt /\
     validateAlgorithmLabel z.(Key.Algorithm) zd.(DNSSECData.Algorithm) = Ok tt /\
     existsb (fun label => EqualFold (TrimSpace label) k.(Key.Algorithm)) allowed = true /\
     fp = keysetFingerprint k z kd zd) /\
    (eK <> 0 -> k.(Key.ID) = eK) /\ (eZ <> 0 -> z.(Key.ID) = eZ) /\ (eF <> "" -> fp = eF).

Lemma expected_ok {A} `{EqDecision A} (e zero v : A) :
  (e != zero) && (v != e) = false <-> (e <> zero -> v = e).
Proof.
  destruct (e != zero) eqn:H1, (v != e) eqn:H2; bool_prop; naive_solver.
Qed.

Lemma validateEnrollmentInventory_Ok zone keys eK eZ eF allowed k z fp :
  validateEnrollmentInventory zone keys eK eZ eF allowed = Ok (k, z, fp) <->
  enrollment_ok zone keys eK eZ eF allowed k z fp.
Proof.
  unfold validateEnrollmentInventory, enrollment_ok. cbv zeta. split.
  - intros H. ok_inv H. destruct x as [[|k' [|]] [|z' [|]]]; try done. ok_inv H. simplify_eq.
    destruct x1, x2. rewrite expected_ok in *. bool_prop. exists x, x0. split_and!; try done.
    all: naive_solver.
  - intros (kd & zd & (Hr & Hne & Hk & Hz & Ha & Hlk & Hlz & Hal & ->) & HK & HZ & HF).
    apply (proj2 (expected_ok _ _ _)) in HK, HZ, HF.
    rewrite Hr. cbn [result_bind]. rewrite (proj2 (eqb_false _ _) Hne), HK, HZ, Hk, Hz.
    cbn [result_bind]. rewrite Ha in *. by rewrite eqb_refl, Hlk, Hlz, Hal, HF.
Qed.

Lemma enrollmentRoles_live keys ks zs ks' zs' :
  enrollmentRoles keys ks zs = Ok (ks', zs') ->
  Forall (fun k => k.(Key.Active) = true /\ k.(Key.Published) = true) (ks ++ zs) ->
  Forall (fun k => k.(Key.Active) = true /\ k.(Key.Published) = true) (ks' ++ zs').
Proof.
  revert ks zs. induction keys as [|k keys IH]; intros ks zs; cbn; [by intros [= -> ->]|].
  destruct (Key.Active k) eqn:Ha, (Key.Published k) eqn:Hp; cbn; try done; [|apply IH].
  rewrite Forall_app. intros H [H1 H2].
  destruct (Key.KeyType k == "ksk"); [|destruct (Key.KeyType k == "zsk"); [|done]].
  all: eapply IH; [exact H|]; rewrite !Forall_app, ?Forall_singleton; naive_solver.
Qed.

(** An enrollment inventory recorded from a first validation validates again on the same
    keys with the same result; whatever keys validate later against the record have the
    recorded non-zero IDs and the recorded fingerprint of IDs, algorithms and public keys. *)
Lemma enrollment_inventory_stable zone keys allowed ksk zsk fp :
  validateEnrollmentInventory zone keys 0 0 "" allowed = Ok (ksk, zsk, fp) ->
  validateEnrollmentInventory zone keys ksk.(Key.ID) zsk.(Key.ID) fp allowed = Ok (ksk, zsk, fp) /\
  (forall keys' ksk' zsk' fp',
     validateEnrollmentInventory zone keys' ksk.(Key.ID) zsk.(Key.ID) fp allowed = Ok (ksk', zsk', fp') ->
     (ksk.(Key.ID) <> 0 -> ksk'.(Key.ID) = ksk.(Key.ID)) /\
     (zsk.(Key.ID) <> 0 -> zsk'.(Key.ID) = zsk.(Key.ID)) /\ fp' = fp /\
     ksk'.(Key.Active) = true /\ ksk'.(Key.Published) = true /\
     zsk'.(Key.Active) = true /\ zsk'.(Key.Published) = true).
Proof.
  rewrite validateEnrollmentInventory_Ok. intros (kd & zd & Hcore & _). split.
  - apply validateEnrollmentInventory_Ok. exists kd, zd. split; [exact Hcore|]. by split_and!.
  - intros keys' k' z' fp'. rewrite validateEnrollmentInventory_Ok.
    intros (kd' & zd' & (Hr & _) & HK & HZ & HF).
    apply enrollmentRoles_live in Hr; [|constructor].
    cbn in Hr. rewrite !Forall_cons in Hr. destruct Hr as ([? ?] & [? ?] & _).
    split_and!; auto. apply HF. destruct Hcore as (_ & _ & _ & _ & _ & _ & _ & _ & ->).
    apply fingerprint_nonempty.
Qed.
End Inventory.
