(* ===== verification/Effects.v ===== *)
(** * Effects: the services the controller calls and the monad its code runs in.

    Everything outside the controller process is an operation of [Services]: the
    PowerDNS API (pdns.API), the registrar (autodns.API), the DNS observer
    (dnsprobe.Observer), the notifier, the clock, the write of the state file and
    the iteration order Go leaves unspecified for maps.  A computation of [M] runs
    on a [World]: the services' own state, the state held by the store, and the
    trace of every call with its answer, newest first. *)
From S2P Require Import Prelude GoStrings GoTime Model.

(** autodns.DomainDNSSECState and autodns.Job *)
Module DomainDNSSECState.
Record t := mk { Enabled : bool; Data : list DNSSECData.t; Omitted : bool }.
End DomainDNSSECState.

Module Job.
Record t := mk { ID : Z; STID : string; Status : string }.
End Job.

(** ** The service interfaces *)
Class Services := {
  Env : Type;
  (* pdns.API *)
  svc_ListZones : Env -> result (list Zone.t) * Env;
  svc_GetZone : string -> Env -> result Zone.t * Env;
  svc_ListKeys : string -> Env -> result (list Key.t) * Env;
  svc_CreateKey : string -> string -> string -> bool -> Env -> result Key.t * Env;
  svc_SetKey : string -> Key.t -> bool -> bool -> Env -> result unit * Env;
  svc_DeleteKey : string -> Z -> Env -> result unit * Env;
  (* autodns.API *)
  svc_DomainDNSSEC : string -> Env -> result DomainDNSSECState.t * Env;
  svc_UpdateDNSSEC : string -> list DNSSECData.t -> string -> Env -> result Job.t * Env;
  svc_JobStatus : Z -> Env -> result string * Env;
  (* dnsprobe.Observer *)
  svc_DNSKEYEvidence : string -> list Key.t -> Env -> result duration * Env;
  svc_AuthoritativeDNSKEYEvidence : string -> list Key.t -> Env -> result duration * Env;
  svc_NoDSEvidence : string -> Env -> result unit * Env;
  svc_DSEvidence : string -> list Key.t -> Env -> result unit * Env;
  svc_AuthoritativeDSEvidence : string -> list Key.t -> Env -> result duration * Env;
  svc_RRSIGBy : string -> Key.t -> Env -> result unit * Env;
  svc_AuthoritativeRRSIGBy : string -> Key.t -> Env -> result unit * Env;
  svc_DNSKEYRRSIGBy : string -> Key.t -> Env -> result unit * Env;
  svc_AuthoritativeDNSKEYRRSIGBy : string -> Key.t -> Env -> result unit * Env;
  svc_DelegationEvidence : string -> list string -> Env -> result unit * Env;
  (* controller.Notifier, Clock, the state file, map iteration *)
  svc_Send : Notification.t -> Env -> result unit * Env;
  svc_Now : Env -> time * Env;
  svc_writeAtomic : State.t -> Env -> result unit * Env;
  svc_range_workflows : gmap string Workflow.t -> Env -> list (string * Workflow.t) * Env;
  svc_range_notifications :
    gmap string Notification.t -> Env -> list (string * Notification.t) * Env;
}.

(** A Go [range] over a map visits every entry exactly once, in some order. *)
Class RangeOk `{!Services} : Prop := {
  range_workflows_perm m e : (svc_range_workflows m e).1 ≡ₚ map_to_list m;
  range_notifications_perm m e : (svc_range_notifications m e).1 ≡ₚ map_to_list m;
}.

(** ** Events *)
Inductive Event :=
| EvNow (t : time)
| EvListZones (r : result (list Zone.t))
| EvGetZone (zoneID : string) (r : result Zone.t)
| EvListKeys (zoneID : string) (r : result (list Key.t))
| EvCreateKey (zoneID keyType algorithm : string) (active : bool) (r : result Key.t)
| EvSetKey (zoneID : string) (key : Key.t) (active published : bool) (r : result unit)
| EvDeleteKey (zoneID : string) (id : Z) (r : result unit)
| EvDomainDNSSEC (zone : string) (r : result DomainDNSSECState.t)
| EvUpdateDNSSEC (zone : string) (keys : list DNSSECData.t) (ctid : string) (r : result Job.t)
| EvJobStatus (id : Z) (r : result string)
| EvDNSKEYEvidence (zone : string) (keys : list Key.t) (r : result duration)
| EvAuthoritativeDNSKEYEvidence (zone : string) (keys : list Key.t) (r : result duration)
| EvNoDSEvidence (zone : string) (r : result unit)
| EvDSEvidence (zone : string) (keys : list Key.t) (r : result unit)
| EvAuthoritativeDSEvidence (zone : string) (keys : list Key.t) (r : result duration)
| EvRRSIGBy (zone : string) (key : Key.t) (r : result unit)
| EvAuthoritativeRRSIGBy (zone : string) (key : Key.t) (r : result unit)
| EvDNSKEYRRSIGBy (zone : string) (key : Key.t) (r : result unit)
| EvAuthoritativeDNSKEYRRSIGBy (zone : string) (key : Key.t) (r : result unit)
| EvDelegationEvidence (zone : string) (expected : list string) (r : result unit)
| EvSend (event : Notification.t) (r : result unit)
| EvPersist (s : State.t) (r : result unit).

(** The calls that change something outside the controller's memory. *)
Definition is_external_write (ev : Event) : bool :=
  match ev with
  | EvCreateKey _ _ _ _ _ | EvSetKey _ _ _ _ _ | EvDeleteKey _ _ _
  | EvUpdateDNSSEC _ _ _ _ => true
  | _ => false
  end.
Definition is_write (ev : Event) : bool :=
  match ev with
  | EvSend _ _ | EvPersist _ _ => true
  | _ => is_external_write ev
  end.

(** ** The monad *)
Inductive Outcome (A : Type) : Type :=
| Val (a : A)
| Fail_ (e : error)
| Panic.
Arguments Val {A} a.
Arguments Fail_ {A} e.
Arguments Panic {A}.

Definition outcome {A} (r : result A) : Outcome A :=
  match r with
  | Ok a => Val a
  | Err e => Fail_ e
  end.

(** A computation over a state [W] that may fail with an error or panic. *)
Definition Comp (W A : Type) : Type := W -> Outcome A * W.

Section Comp.
Context {W : Type}.

Definition ret {A} (a : A) : Comp W A := fun w => (Val a, w).
Definition fail {A} (e : error) : Comp W A := fun w => (Fail_ e, w).
Definition panic {A} : Comp W A := fun w => (Panic, w).
Definition lift {A} (r : result A) : Comp W A := fun w => (outcome r, w).

Definition bind {A B} (m : Comp W A) (k : A -> Comp W B) : Comp W B := fun w =>
  match m w with
  | (Val a, w') => k a w'
  | (Fail_ e, w') => (Fail_ e, w')
  | (Panic, w') => (Panic, w')
  end.

(** [if err := m; err != nil { ... }]: the error as a value. *)
Definition try {A} (m : Comp W A) : Comp W (result A) := fun w =>
  match m w with
  | (Val a, w') => (Val (Ok a), w')
  | (Fail_ e, w') => (Val (Err e), w')
  | (Panic, w') => (Panic, w')
  end.

(** [return fmt.Errorf("...: %w", err)] on failure. *)
Definition wrap {A} (f : error -> error) (m : Comp W A) : Comp W A := fun w =>
  match m w with
  | (Fail_ e, w') => (Fail_ (f e), w')
  | r => r
  end.

(** [for _, x := range l { ... }] whose body may return early with an error. *)
Fixpoint for_each {A} (l : list A) (f : A -> Comp W unit) : Comp W unit :=
  match l with
  | [] => ret tt
  | x :: l' => bind (f x) (fun _ => for_each l' f)
  end.

(** The same loop when its body also updates local variables, the accumulator. *)
Fixpoint for_fold {A B} (l : list A) (acc : B) (f : B -> A -> Comp W B) : Comp W B :=
  match l with
  | [] => ret acc
  | x :: l' => bind (f acc x) (fun acc' => for_fold l' acc' f)
  end.
End Comp.

Section Monad.
Context {SV : Services}.

Record World := mkWorld { env : Env; data : State.t; trace : list Event }.

Definition M (A : Type) : Type := Comp World A.

Definition call {A} (op : Env -> result A * Env) (ev : result A -> Event) : M A := fun w =>
  match op w.(env) with
  | (r, e') => (outcome r, mkWorld e' w.(data) (ev r :: w.(trace)))
  end.

Definition Now : M time := fun w =>
  match svc_Now w.(env) with
  | (t, e') => (Val t, mkWorld e' w.(data) (EvNow t :: w.(trace)))
  end.

(** [Store.Snapshot]: an isolated copy of the current state. *)
Definition Snapshot : M State.t := fun w => (Val w.(data), w).

(** [Store.Update]: run the mutation on a clone, persist it, then publish it. *)
Definition Update (fn : State.t -> M State.t) : M unit := fun w =>
  match fn w.(data) w with
  | (Val clone, w1) =>
      match svc_writeAtomic clone w1.(env) with
      | (Ok _, e') => (Val tt, mkWorld e' clone (EvPersist clone (Ok tt) :: w1.(trace)))
      | (Err e, e') => (Fail_ e, mkWorld e' w1.(data) (EvPersist clone (Err e) :: w1.(trace)))
      end
  | (Fail_ e, w1) => (Fail_ e, w1)
  | (Panic, w1) => (Panic, w1)
  end.

Definition range_workflows (m : gmap string Workflow.t) : M (list (string * Workflow.t)) :=
  fun w => match svc_range_workflows m w.(env) with
           | (l, e') => (Val l, mkWorld e' w.(data) w.(trace))
           end.
Definition range_notifications (m : gmap string Notification.t)
  : M (list (string * Notification.t)) :=
  fun w => match svc_range_notifications m w.(env) with
           | (l, e') => (Val l, mkWorld e' w.(data) w.(trace))
           end.

(** The API calls, each recorded in the trace. *)
Definition ListZones : M (list Zone.t) := call svc_ListZones EvListZones.
Definition GetZone z : M Zone.t := call (svc_GetZone z) (EvGetZone z).
Definition ListKeys z : M (list Key.t) := call (svc_ListKeys z) (EvListKeys z).
Definition CreateKey z t a b : M Key.t := call (svc_CreateKey z t a b) (EvCreateKey z t a b).
Definition SetKey z k a p : M unit := call (svc_SetKey z k a p) (EvSetKey z k a p).
Definition DeleteKey z i : M unit := call (svc_DeleteKey z i) (EvDeleteKey z i).
Definition DomainDNSSEC z : M DomainDNSSECState.t :=
  call (svc_DomainDNSSEC z) (EvDomainDNSSEC z).
Definition UpdateDNSSEC z d i : M Job.t := call (svc_UpdateDNSSEC z d i) (EvUpdateDNSSEC z d i).
Definition JobStatus i : M string := call (svc_JobStatus i) (EvJobStatus i).
Definition DNSKEYEvidence z ks : M duration :=
  call (svc_DNSKEYEvidence z ks) (EvDNSKEYEvidence z ks).
Definition AuthoritativeDNSKEYEvidence z ks : M duration :=
  call (svc_AuthoritativeDNSKEYEvidence z ks) (EvAuthoritativeDNSKEYEvidence z ks).
Definition NoDSEvidence z : M unit := call (svc_NoDSEvidence z) (EvNoDSEvidence z).
Definition DSEvidence z ks : M unit := call (svc_DSEvidence z ks) (EvDSEvidence z ks).
Definition AuthoritativeDSEvidence z ks : M duration :=
  call (svc_AuthoritativeDSEvidence z ks) (EvAuthoritativeDSEvidence z ks).
Definition RRSIGBy z k : M unit := call (svc_RRSIGBy z k) (EvRRSIGBy z k).
Definition AuthoritativeRRSIGBy z k : M unit :=
  call (svc_AuthoritativeRRSIGBy z k) (EvAuthoritativeRRSIGBy z k).
Definition DNSKEYRRSIGBy z k : M unit := call (svc_DNSKEYRRSIGBy z k) (EvDNSKEYRRSIGBy z k).
Definition AuthoritativeDNSKEYRRSIGBy z k : M unit :=
  call (svc_AuthoritativeDNSKEYRRSIGBy z k) (EvAuthoritativeDNSKEYRRSIGBy z k).
Definition DelegationEvidence z ns : M unit :=
  call (svc_DelegationEvidence z ns) (EvDelegationEvidence z ns).
Definition Send n : M unit := call (svc_Send n) (EvSend n).

End Monad.

Notation "'let*' x ':=' m 'in' k" := (bind m (fun x => k))
  (at level 10, x pattern, m at level 100, k at level 200,
   format "'[v' 'let*'  x  ':='  m  'in' '/' k ']'") : go_scope.
Notation "m ;; k" := (bind m (fun _ => k))
  (at level 100, k at level 200, right associativity,
   format "'[v' m ;; '/' k ']'") : go_scope.
