(* ===== verification/Wp.v ===== *)
(** * Program logics for [M].

    - [wp m Q w]: running [m] from [w] ends in an outcome and a world satisfying
      [Q]; its rules execute a handler symbolically, with an arbitrary answer at
      every service call.
    - [emits P m]: every event [m] adds to the trace satisfies [P], whatever the
      services answer; the rules are compositional and follow the program's syntax. *)
From S2P Require Import Prelude GoStrings GoTime Model Effects.

Section Comp.
Context {W : Type}.

Definition wp {A} (m : Comp W A) (Q : Outcome A -> W -> Prop) (w : W) : Prop :=
  Q (m w).1 (m w).2.

Lemma wp_mono {A} (m : Comp W A) Q Q' w :
  wp m Q w -> (forall o w', Q o w' -> Q' o w') -> wp m Q' w.
Proof. unfold wp; eauto. Qed.

Lemma wp_ret {A} (a : A) (Q : Outcome A -> W -> Prop) w : Q (Val a) w -> wp (ret a) Q w.
Proof. done. Qed.
Lemma wp_fail {A} e (Q : Outcome A -> W -> Prop) w : Q (Fail_ e) w -> wp (fail e) Q w.
Proof. done. Qed.
Lemma wp_panic {A} (Q : Outcome A -> W -> Prop) w : Q Panic w -> wp panic Q w.
Proof. done. Qed.
Lemma wp_lift {A} (r : result A) Q w :
  (forall a, r = Ok a -> Q (Val a) w) -> (forall e, r = Err e -> Q (Fail_ e) w) ->
  wp (lift r) Q w.
Proof. intros H1 H2. destruct r; [by apply H1|by apply H2]. Qed.

Lemma wp_bind {A B} (m : Comp W A) (k : A -> Comp W B) Q w :
  wp m (fun o w' => match o with
                    | Val a => wp (k a) Q w'
                    | Fail_ e => Q (Fail_ e) w'
                    | Panic => Q Panic w'
                    end) w ->
  wp (bind m k) Q w.
Proof. unfold wp, bind. by destruct (m w) as [[]]. Qed.

Lemma wp_try {A} (m : Comp W A) Q w :
  wp m (fun o w' => match o with
                    | Val a => Q (Val (Ok a)) w'
                    | Fail_ e => Q (Val (Err e)) w'
                    | Panic => Q Panic w'
                    end) w ->
  wp (try m) Q w.
Proof. unfold wp, try. by destruct (m w) as [[]]. Qed.

Lemma wp_wrap {A} f (m : Comp W A) Q w :
  wp m (fun o w' => match o with
                    | Fail_ e => Q (Fail_ (f e)) w'
                    | _ => Q o w'
                    end) w ->
  wp (wrap f m) Q w.
Proof. unfold wp, wrap. by destruct (m w) as [[]]. Qed.

End Comp.

Section Wp.
Context {SV : Services}.

Lemma wp_call {A} (op : Env -> result A * Env) ev Q w :
  (forall r e', Q (outcome r) (mkWorld e' w.(data) (ev r :: w.(trace)))) ->
  wp (call op ev) Q w.
Proof. unfold wp, call. intros H. destruct (op (env w)); apply H. Qed.

Lemma wp_Now Q w :
  (forall t e', Q (Val t) (mkWorld e' w.(data) (EvNow t :: w.(trace)))) -> wp Now Q w.
Proof. unfold wp, Now. intros H. destruct (svc_Now (env w)); apply H. Qed.

Lemma wp_Snapshot Q w : Q (Val w.(data)) w -> wp Snapshot Q w.
Proof. done. Qed.

Lemma wp_range_workflows m Q w :
  (forall l e', (svc_range_workflows m w.(env)).1 = l ->
                Q (Val l) (mkWorld e' w.(data) w.(trace))) ->
  wp (range_workflows m) Q w.
Proof.
  unfold wp, range_workflows. intros H.
  destruct (svc_range_workflows m (env w)) as [l e'] eqn:E; apply H. done.
Qed.

Lemma wp_range_notifications m Q w :
  (forall l e', (svc_range_notifications m w.(env)).1 = l ->
                Q (Val l) (mkWorld e' w.(data) w.(trace))) ->
  wp (range_notifications m) Q w.
Proof.
  unfold wp, range_notifications. intros H.
  destruct (svc_range_notifications m (env w)) as [l e'] eqn:E; apply H. done.
Qed.

(** A failed write leaves the store's state as it was before the update. *)
Lemma wp_Update fn Q w :
  wp (fn w.(data)) (fun o w1 =>
    match o with
    | Val s =>
        (forall e', Q (Val tt) (mkWorld e' s (EvPersist s (Ok tt) :: w1.(trace)))) /\
        (forall e e', Q (Fail_ e) (mkWorld e' w1.(data) (EvPersist s (Err e) :: w1.(trace))))
    | Fail_ e => Q (Fail_ e) w1
    | Panic => Q Panic w1
    end) w ->
  wp (Update fn) Q w.
Proof.
  unfold wp, Update. destruct (fn (data w) w) as [[s|e|] w1]; cbn; try done.
  intros [H1 H2]. destruct (svc_writeAtomic s (env w1)) as [[[]|e] e']; cbn; eauto.
Qed.

(** ** [emits] *)
Definition emits (P : Event -> Prop) {A} (m : M A) : Prop :=
  forall w, exists new, (m w).2.(trace) = new ++ w.(trace) /\ Forall P new.

Lemma emits_ret P {A} (a : A) : emits P (ret a).
Proof. intros w. by exists []. Qed.
Lemma emits_fail P {A} e : emits P (fail (A := A) e).
Proof. intros w. by exists []. Qed.
Lemma emits_panic P {A} : emits P (panic (A := A)).
Proof. intros w. by exists []. Qed.
Lemma emits_lift P {A} (r : result A) : emits P (lift r).
Proof. intros w. by exists []. Qed.
Lemma emits_Snapshot P : emits P Snapshot.
Proof. intros w. by exists []. Qed.

Lemma emits_range_workflows P m : emits P (range_workflows m).
Proof.
  intros w. unfold range_workflows. destruct (svc_range_workflows m (env w)). by exists [].
Qed.
Lemma emits_range_notifications P m : emits P (range_notifications m).
Proof.
  intros w. unfold range_notifications.
  destruct (svc_range_notifications m (env w)). by exists [].
Qed.

Lemma emits_Now P : (forall t, P (EvNow t)) -> emits P Now.
Proof.
  intros H w. unfold Now. destruct (svc_Now (env w)) as [t e'].
  exists [EvNow t]. by repeat constructor.
Qed.

Lemma emits_call P {A} (op : Env -> result A * Env) ev :
  (forall r, P (ev r)) -> emits P (call op ev).
Proof.
  intros H w. unfold call. destruct (op (env w)) as [r e'].
  exists [ev r]. by repeat constructor.
Qed.

Lemma emits_bind P {A B} (m : M A) (k : A -> M B) :
  emits P m -> (forall a, emits P (k a)) -> emits P (bind m k).
Proof.
  intros Hm Hk w. destruct (Hm w) as (n1 & E1 & F1).
  unfold bind. destruct (m w) as [[a|e|] w1]; cbn in *; try by exists n1.
  destruct (Hk a w1) as (n2 & E2 & F2). exists (n2 ++ n1).
  rewrite E2, E1, app_assoc. split; [done|]. by apply Forall_app.
Qed.

Lemma emits_try P {A} (m : M A) : emits P m -> emits P (try m).
Proof.
  intros Hm w. destruct (Hm w) as (n & E & F). unfold try.
  destruct (m w) as [[a|e|] w1]; by exists n.
Qed.

Lemma emits_wrap P {A} f (m : M A) : emits P m -> emits P (wrap f m).
Proof.
  intros Hm w. destruct (Hm w) as (n & E & F). unfold wrap.
  destruct (m w) as [[a|e|] w1]; by exists n.
Qed.

Lemma emits_Update P fn :
  (forall s, emits P (fn s)) -> (forall s r, P (EvPersist s r)) -> emits P (Update fn).
Proof.
  intros Hf HP w. destruct (Hf w.(data) w) as (n & E & F).
  unfold Update. destruct (fn (data w) w) as [[s|e|] w1]; cbn in *; try by exists n.
  destruct (svc_writeAtomic s (env w1)) as [[[]|e] e']; cbn.
  - exists (EvPersist s (Ok tt) :: n). rewrite E. split; [done|]. by constructor.
  - exists (EvPersist s (Err e) :: n). rewrite E. split; [done|]. by constructor.
Qed.

Lemma emits_weaken (P P' : Event -> Prop) {A} (m : M A) :
  (forall ev, P ev -> P' ev) -> emits P m -> emits P' m.
Proof.
  intros HP Hm w. destruct (Hm w) as (n & E & F). exists n. split; [done|].
  eapply Forall_impl; eauto.
Qed.

(** ** [keeps R m]: every run of [m] relates the store before and after by [R]. *)
Definition keeps (R : State.t -> State.t -> Prop) {A} (m : M A) : Prop :=
  forall w, R w.(data) (m w).2.(data).

Section Keeps.
Context (R : State.t -> State.t -> Prop) `{!Reflexive R} `{!Transitive R}.

Lemma keeps_ret {A} (a : A) : keeps R (ret a).
Proof. by intros w. Qed.
Lemma keeps_fail {A} e : keeps R (fail (A := A) e).
Proof. by intros w. Qed.
Lemma keeps_panic {A} : keeps R (panic (A := A)).
Proof. by intros w. Qed.
Lemma keeps_lift {A} (r : result A) : keeps R (lift r).
Proof. by intros w. Qed.
Lemma keeps_Snapshot : keeps R Snapshot.
Proof. by intros w. Qed.
Lemma keeps_Now : keeps R Now.
Proof. intros w. unfold Now. by destruct (svc_Now (env w)). Qed.
Lemma keeps_range_workflows m : keeps R (range_workflows m).
Proof. intros w. unfold range_workflows. by destruct (svc_range_workflows m (env w)). Qed.
Lemma keeps_range_notifications m : keeps R (range_notifications m).
Proof.
  intros w. unfold range_notifications. by destruct (svc_range_notifications m (env w)).
Qed.
Lemma keeps_call {A} (op : Env -> result A * Env) ev : keeps R (call op ev).
Proof. intros w. unfold call. by destruct (op (env w)). Qed.

Lemma keeps_bind {A B} (m : M A) (k : A -> M B) :
  keeps R m -> (forall a, keeps R (k a)) -> keeps R (bind m k).
Proof.
  intros Hm Hk w. pose proof (Hm w) as H1. unfold bind.
  destruct (m w) as [[a|e|] w1]; cbn in *; try done.
  transitivity (data w1); [done|]. apply Hk.
Qed.
Lemma keeps_try {A} (m : M A) : keeps R m -> keeps R (try m).
Proof. intros Hm w. pose proof (Hm w). unfold try. by destruct (m w) as [[]]. Qed.
Lemma keeps_wrap {A} f (m : M A) : keeps R m -> keeps R (wrap f m).
Proof. intros Hm w. pose proof (Hm w). unfold wrap. by destruct (m w) as [[]]. Qed.

(** [yields S m]: [m] leaves the store alone and every value it returns satisfies [S]. *)
Definition yields {A} (S : A -> Prop) (m : M A) : Prop :=
  forall w, (m w).2.(data) = w.(data) /\ (forall a, (m w).1 = Val a -> S a).

Lemma keeps_Update fn :
  (forall s, yields (R s) (fn s)) -> keeps R (Update fn).
Proof.
  intros Hf w. destruct (Hf w.(data) w) as [Hd Hs]. unfold Update.
  destruct (fn (data w) w) as [[s|e|] w1]; cbn in *; try by rewrite Hd.
  destruct (svc_writeAtomic s (env w1)) as [[[]|e] e']; cbn; [by apply Hs|by rewrite Hd].
Qed.
End Keeps.

Lemma yields_ret {A} (S : A -> Prop) a : S a -> yields S (ret a).
Proof. intros H w. split; [done|]. cbn. by intros ? [= <-]. Qed.
Lemma yields_fail {A} (S : A -> Prop) e : yields S (fail e).
Proof. by intros w. Qed.
Lemma yields_panic {A} (S : A -> Prop) : yields S panic.
Proof. by intros w. Qed.
Lemma yields_Now (S : time -> Prop) : (forall t, S t) -> yields S Now.
Proof. intros H w. unfold Now. by destruct (svc_Now (env w)). Qed.
Lemma yields_range_workflows m (S : list (string * Workflow.t) -> Prop) :
  (forall l, S l) -> yields S (range_workflows m).
Proof.
  intros H w. unfold range_workflows. by destruct (svc_range_workflows m (env w)).
Qed.
Lemma yields_bind {A B} (T : A -> Prop) (S : B -> Prop) (m : M A) (k : A -> M B) :
  yields T m -> (forall a, T a -> yields S (k a)) -> yields S (bind m k).
Proof.
  intros Hm Hk w. destruct (Hm w) as [Hd Ht]. unfold bind.
  destruct (m w) as [[a|e|] w1]; cbn in *; [|done..].
  destruct (Hk a (Ht a eq_refl) w1) as [Hd2 Hs]. split; [congruence|done].
Qed.
Lemma yields_mono {A} (T S : A -> Prop) (m : M A) :
  (forall a, T a -> S a) -> yields T m -> yields S m.
Proof. intros HTS Hm w. destruct (Hm w) as [Hd Ht]. split; [done|]. eauto. Qed.

(** ** [justifies G m]: every event [m] adds to the trace satisfies [G] together with
    the events before it.  [extends G base tr]: [tr] is [base] with such events in front. *)
Inductive extends (G : list Event -> Event -> Prop) (base : list Event) : list Event -> Prop :=
| extends_refl : extends G base base
| extends_cons ev tr : extends G base tr -> G tr ev -> extends G base (ev :: tr).

Definition justifies (G : list Event -> Event -> Prop) {A} (m : M A) : Prop :=
  forall w, extends G w.(trace) (m w).2.(trace).

Lemma extends_trans G t1 t2 t3 : extends G t1 t2 -> extends G t2 t3 -> extends G t1 t3.
Proof. intros H1 H2. induction H2; [done|]. by apply extends_cons. Qed.

(** Every event of an extension of the empty trace is justified by its past. *)
Lemma extends_nil_inv G n1 ev past : extends G [] (n1 ++ ev :: past) -> G past ev.
Proof. induction n1 as [|a n1 IH]; cbn; intros H; inversion H; subst; eauto. Qed.

Lemma extends_suffix G base tr : extends G base tr -> exists new, tr = new ++ base.
Proof.
  induction 1 as [|ev tr _ [new ->] _]; [by exists []|]. by exists (ev :: new).
Qed.

Lemma extends_elem G base tr ev : extends G base tr -> ev ∈ base -> ev ∈ tr.
Proof. intros [new ->]%extends_suffix. set_solver. Qed.

Lemma extends_mono (G G' : list Event -> Event -> Prop) base tr :
  (forall past ev, G past ev -> G' past ev) -> extends G base tr -> extends G' base tr.
Proof. intros HG. induction 1; econstructor; eauto. Qed.

Lemma justifies_emits (P : Event -> Prop) G {A} (m : M A) :
  (forall past ev, P ev -> G past ev) -> emits P m -> justifies G m.
Proof.
  intros HG Hm w. destruct (Hm w) as (new & -> & F).
  induction F; cbn; [constructor|]. constructor; eauto.
Qed.

Lemma justifies_bind G {A B} (m : M A) (k : A -> M B) :
  justifies G m -> (forall a, justifies G (k a)) -> justifies G (bind m k).
Proof.
  intros Hm Hk w. specialize (Hm w). unfold bind. destruct (m w) as [[a|e|] w1]; cbn in *; try done.
  eapply extends_trans; [done|]. apply Hk.
Qed.
Lemma justifies_try G {A} (m : M A) : justifies G m -> justifies G (try m).
Proof. intros Hm w. specialize (Hm w). unfold try. by destruct (m w) as [[]]. Qed.
Lemma justifies_wrap G {A} f (m : M A) : justifies G m -> justifies G (wrap f m).
Proof. intros Hm w. specialize (Hm w). unfold wrap. by destruct (m w) as [[]]. Qed.

(** A computation known to be justified, inside a symbolic execution. *)
Lemma wp_justifies G base {A} (m : M A) (Q : Outcome A -> World -> Prop) w :
  justifies G m -> extends G base w.(trace) ->
  (forall o w', extends G base w'.(trace) -> extends G w.(trace) w'.(trace) -> Q o w') ->
  wp m Q w.
Proof. intros Hm Hb HQ. apply HQ; [|apply Hm]. eapply extends_trans; [done|apply Hm]. Qed.

(** A computation that only adds events in [P], inside a symbolic execution. *)
Lemma wp_emits P {A} (m : M A) (Q : Outcome A -> World -> Prop) w :
  emits P m ->
  (forall o w' new, w'.(trace) = new ++ w.(trace) -> Forall P new -> Q o w') ->
  wp m Q w.
Proof. intros Hm HQ. destruct (Hm w) as (new & E & F). eapply HQ; eauto. Qed.

Lemma extends_app (P : Event -> Prop) G base new tr :
  (forall past ev, P ev -> G past ev) -> Forall P new -> extends G base tr ->
  extends G base (new ++ tr).
Proof. intros HG F Hb. induction F; cbn; [done|]. constructor; eauto. Qed.

End Wp.


(** ** Automation *)
Ltac head_of t :=
  lazymatch t with
  | ?f _ => head_of f
  | _ => t
  end.

Create HintDb emits.
Create HintDb keeps.

(** One syntax-directed step of an [emits] proof.  A match is split; a computation
    defined by the program is discharged by a lemma of the [emits] database or else
    unfolded. *)
Ltac emits_step :=
  lazymatch goal with
  | |- forall _, _ => intros
  | |- emits _ ?m =>
      lazymatch m with
      | bind _ _ => apply emits_bind
      | try _ => apply emits_try
      | wrap _ _ => apply emits_wrap
      | Update _ => apply emits_Update
      | call _ _ => apply emits_call
      | Now => apply emits_Now
      | ret _ => apply emits_ret
      | fail _ => apply emits_fail
      | panic => apply emits_panic
      | lift _ => apply emits_lift
      | Snapshot => apply emits_Snapshot
      | range_workflows _ => apply emits_range_workflows
      | range_notifications _ => apply emits_range_notifications
      | match ?x with _ => _ end => destruct x eqn:?
      | _ => first [ solve [eauto with emits nocore]
                   | let h := head_of m in progress unfold h; cbv beta zeta ]
      end
  end.
Ltac emits_auto := repeat (cbv beta zeta; emits_step); try done.

(** The same for [keeps R], where [R] is reflexive and transitive. *)
Ltac keeps_step :=
  lazymatch goal with
  | |- forall _, _ => intros
  | |- keeps _ ?m =>
      lazymatch m with
      | bind _ _ => apply keeps_bind; [typeclasses eauto| |]
      | try _ => apply keeps_try
      | wrap _ _ => apply keeps_wrap
      | Update _ => fail
      | call _ _ => apply keeps_call; typeclasses eauto
      | Now => apply keeps_Now; typeclasses eauto
      | ret _ => apply keeps_ret; typeclasses eauto
      | fail _ => apply keeps_fail; typeclasses eauto
      | panic => apply keeps_panic; typeclasses eauto
      | lift _ => apply keeps_lift; typeclasses eauto
      | Snapshot => apply keeps_Snapshot; typeclasses eauto
      | range_workflows _ => apply keeps_range_workflows; typeclasses eauto
      | range_notifications _ => apply keeps_range_notifications; typeclasses eauto
      | match ?x with _ => _ end => destruct x eqn:?
      | _ => first [ solve [eauto with keeps nocore]
                   | let h := head_of m in progress unfold h; cbv beta zeta ]
      end
  end.
Ltac keeps_auto := repeat (cbv beta zeta; keeps_step); try done.

(** One step of a symbolic execution.  A computation defined by the program is left
    to the caller. *)
Ltac wp_simpl := cbv beta iota zeta; cbn [outcome trace data env fst snd].
Ltac wp_step :=
  lazymatch goal with
  | |- wp ?m _ _ =>
      lazymatch m with
      | bind _ _ => apply wp_bind
      | try _ => apply wp_try
      | wrap _ _ => apply wp_wrap
      | Update _ => apply wp_Update
      | call _ _ => apply wp_call; intros [?|?] ?
      | Now => apply wp_Now; intros ? ?
      | ret _ => apply wp_ret
      | fail _ => apply wp_fail
      | panic => apply wp_panic
      | lift _ => apply wp_lift; [intros ? ?|intros ? ?]
      | Snapshot => apply wp_Snapshot
      | range_workflows _ => apply wp_range_workflows; intros ? ? ?
      | range_notifications _ => apply wp_range_notifications; intros ? ? ?
      | match ?x with _ => _ end => destruct x eqn:?
      end
  end; wp_simpl.
