(* ===== verification/Probe.v ===== *)
(** * internal/dnsprobe/probe.go: DNSSEC evidence collected from the network.

    A probe asks the local server, the authoritative servers, the recursive resolvers
    and, by iterating from the root, the servers of the parent zone.  Its computations
    run on a [NetWorld]: the state of the network and the log of every exchange and
    clock reading, newest first. *)
From S2P Require Import Prelude GoStrings GoTime GoNet Model Dns Effects.

(** ** Messages *)
Definition TypeA : Z := 1.
Definition TypeNS : Z := 2.
Definition TypeCNAME : Z := 5.
Definition TypeSOA : Z := 6.
Definition TypeAAAA : Z := 28.
Definition TypeDS : Z := 43.
Definition TypeDNSKEY : Z := 48.
Definition ClassINET : Z := 1.
Definition RcodeSuccess : Z := 0.

(** A question as [query] sends it; the identifier is the library's. *)
Module Request.
Record t := mk {
  Name : string; Qtype : Z; RecursionDesired : bool; AuthenticatedData : bool;
  UDPSize : Z; Do : bool;
}.
#[export] Instance eq_dec : EqDecision t.
Proof. solve_decision. Defined.
End Request.
Export (hints) Request.

Module Msg.
Record t := mk {
  Authoritative : bool; AuthenticatedData : bool; Rcode : Z;
  Answer : list RR; Ns : list RR; Extra : list RR;
}.
End Msg.

(** The DNS library's functions on records, names and signatures. *)
Class ProbeLib := {
  probe_dns :: DnsLib;
  IsSubDomain : string -> string -> bool;
  SplitDomainName : string -> list string;
  KeyTag : DNSKEY.t -> Z;
  (* k.ToDS(dns.SHA256): [None] is the nil record *)
  ToDS_SHA256 : DNSKEY.t -> option DSRR.t;
  ValidityPeriod : RRSIG.t -> time -> bool;
  (* sig.Verify(key, rrset) == nil *)
  Verify : RRSIG.t -> DNSKEY.t -> list RR -> bool;
  Match : NSEC3.t -> string -> bool;
  Cover : NSEC3.t -> string -> bool;
  RcodeToString : Z -> string;
}.

(** The network a probe runs on: the exchange client, the caller's context, the clock
    and the iteration order of a map. *)
Class Network := {
  Net : Type;
  net_ExchangeContext : Request.t -> string -> Net -> result Msg.t * Net;
  net_Err : Net -> option error;
  net_Now : Net -> time * Net;
  net_range : gmap string bool -> Net -> list (string * bool) * Net;
}.

Class NetRangeOk `{!Network} : Prop := {
  net_range_perm m e : (net_range m e).1 ≡ₚ map_to_list m;
}.

Inductive NetEvent :=
| Exchanged (q : Request.t) (server : string) (r : result Msg.t)
| Clock (t : time).

(** ** The records of a response *)
Definition sameOwnerClass (h : RR_Header.t) (owner : string) : bool :=
  (RR_Header.Class_ h =? ClassINET) && EqualFold (Fqdn (RR_Header.Name h)) (Fqdn owner).

Definition dnskeyKey (k : DNSKEY.t) : string :=
  Sprintf "%d/%d/%d/%s"
    [AInt k.(DNSKEY.Flags); AInt k.(DNSKEY.Protocol); AInt k.(DNSKEY.Algorithm);
     AStr k.(DNSKEY.PublicKey)].
Definition dsKey (ds : DSRR.t) : string :=
  Sprintf "%d/%d/%d/%s"
    [AInt ds.(DSRR.KeyTag); AInt ds.(DSRR.Algorithm); AInt ds.(DSRR.DigestType);
     AStr (ToUpper ds.(DSRR.Digest))].

Definition rrtype (rr : RR) : Z := RR_Header.Rrtype (Header rr).

Definition rrsetTTL (rrs : list RR) (typ : Z) : Z :=
  fold_left (fun ttl rr =>
    if (rrtype rr =? typ) && ((ttl =? 0) || (ttl <? RR_Header.Ttl (Header rr)))
    then RR_Header.Ttl (Header rr) else ttl) rrs 0.

Definition hasType (rrs : list RR) (typ : Z) : bool :=
  existsb (fun rr => rrtype rr =? typ) rrs.

Fixpoint unique_aux (seen : list string) (l : list string) : list string :=
  match l with
  | [] => []
  | x :: l' => if bool_decide (x ∈ seen) then unique_aux seen l' else x :: unique_aux (x :: seen) l'
  end.
Definition unique (l : list string) : list string := unique_aux [] l.

(** [for _, rr := range rrs { if x, ok := rr.(T); ok { ... out = append(out, f x) } }]
    with an error return for a record of that type and another owner or class. *)
Fixpoint collect_owned {A B} (cast : RR -> option A) (hdr : A -> RR_Header.t) (f : A -> B)
    (owner : string) (mismatch : error) (rrs : list RR) : result (list B) :=
  match rrs with
  | [] => Ok []
  | rr :: rrs' =>
      match cast rr with
      | Some x =>
          if sameOwnerClass (hdr x) owner then
            let? l := collect_owned cast hdr f owner mismatch rrs' in Ok (f x :: l)
          else Err mismatch
      | None => collect_owned cast hdr f owner mismatch rrs'
      end
  end.

Definition as_DNSKEY (rr : RR) : option DNSKEY.t :=
  match rr with RR_DNSKEY k => Some k | _ => None end.
Definition as_DS (rr : RR) : option DSRR.t :=
  match rr with RR_DS d => Some d | _ => None end.
Definition as_RRSIG (rr : RR) : option RRSIG.t :=
  match rr with RR_RRSIG s => Some s | _ => None end.
Definition as_NSEC3 (rr : RR) : option NSEC3.t :=
  match rr with RR_NSEC3 n => Some n | _ => None end.

Definition verifyDNSKEYSet (r : Msg.t) (want : list DNSKEY.t) (requireAD requireAA : bool)
    (owner : string) : result unit :=
  if requireAD && negb r.(Msg.AuthenticatedData)
  then Err (errors_New "response lacks authenticated-data") else
  if requireAA && negb r.(Msg.Authoritative)
  then Err (errors_New "response lacks authoritative-answer") else
  let? got := collect_owned as_DNSKEY DNSKEY.Hdr dnskeyKey owner
                (errors_New "DNSKEY owner/class mismatch") r.(Msg.Answer) in
  let got := Sort got in
  let expected := Sort (map dnskeyKey want) in
  if got != expected
  then Err (Errorf "DNSKEY set mismatch: got %v expected %v" [AList got; AList expected])
  else Ok tt.

Definition exactDS (r : Msg.t) (want : list string) (owner : string) (requireAA : bool)
    : result unit :=
  if requireAA && negb r.(Msg.Authoritative)
  then Err (errors_New "response lacks authoritative-answer") else
  let? got := collect_owned as_DS DSRR.Hdr dsKey owner
                (errors_New "DS owner/class mismatch") r.(Msg.Answer) in
  let got := Sort got in
  if got != want
  then Err (Errorf "DS set mismatch: got %v expected %v" [AList got; AList want])
  else Ok tt.

Definition delegatedNS (response : Msg.t) (name : string) : list string :=
  Compact (Sort (omap (fun rr =>
    match rr with
    | RR_NS h ns =>
        if EqualFold (Fqdn (RR_Header.Name h)) name then Some (ToLower (Fqdn ns)) else None
    | _ => None
    end) (response.(Msg.Answer) ++ response.(Msg.Ns)))).

(** ** Signatures and denial of existence *)
Section Proofs.
Context {PL : ProbeLib}.

Fixpoint expectedDNSKEYs (zone : string) (keys : list Key.t) : result (list DNSKEY.t) :=
  match keys with
  | [] => Ok []
  | key :: keys' =>
      let? rr := keyRR zone key in
      let? out := expectedDNSKEYs zone keys' in
      Ok (rr :: out)
  end.

Fixpoint derivedDS (zone : string) (keys : list Key.t) : result (list string) :=
  match keys with
  | [] => Ok []
  | key :: keys' =>
      let? rr := keyRR zone key in
      match ToDS_SHA256 rr with
      | None => Err (Errorf "cannot derive SHA-256 DS for key %d" [AInt key.(Key.ID)])
      | Some ds => let? out := derivedDS zone keys' in Ok (dsKey ds :: out)
      end
  end.
Definition expectedDS (zone : string) (keys : list Key.t) : result (list string) :=
  let? out := derivedDS zone keys in Ok (Sort out).

(** The loop of [verifySignature] over the answer: the covered RRset and the candidate
    signatures. *)
Fixpoint covered (typ : Z) (key : DNSKEY.t) (owner : string) (answer : list RR)
    : result (list RR * list RRSIG.t) :=
  match answer with
  | [] => Ok ([], [])
  | a :: answer' =>
      if (rrtype a =? typ) && negb (sameOwnerClass (Header a) owner)
      then Err (errors_New "covered RRset owner/class mismatch") else
      let? (rrset, sigs) := covered typ key owner answer' in
      let rrset := if rrtype a =? typ then a :: rrset else rrset in
      match a with
      | RR_RRSIG s =>
          if (RRSIG.TypeCovered s =? typ) && (RRSIG.KeyTag s =? KeyTag key) &&
             (RRSIG.Algorithm s =? DNSKEY.Algorithm key)
          then Ok (rrset, s :: sigs) else Ok (rrset, sigs)
      | _ => Ok (rrset, sigs)
      end
  end.

Definition verifySignatureIn (r : Msg.t) (typ : Z) (key : DNSKEY.t) (requireAD requireAA : bool)
    (owner : string) (now : time) : result unit :=
  if requireAD && negb r.(Msg.AuthenticatedData)
  then Err (errors_New "response lacks authenticated-data") else
  if requireAA && negb r.(Msg.Authoritative)
  then Err (errors_New "response lacks authoritative-answer") else
  let? (rrset, sigs) := covered typ key owner r.(Msg.Answer) in
  if Nat.eqb (length rrset) 0 then Err (errors_New "covered RRset is absent") else
  if existsb (fun sig => sameOwnerClass (RRSIG.Hdr sig) owner && ValidityPeriod sig now &&
                         Verify sig key rrset) sigs
  then Ok tt
  else Err (errors_New "no cryptographically valid RRSIG by expected DNSKEY").

Definition containsType (types : list Z) (typ : Z) : bool := existsb (Z.eqb typ) types.

Definition delegationWithoutDS (types : list Z) : bool :=
  containsType types TypeNS && negb (containsType types TypeDS) &&
  negb (containsType types TypeSOA) && negb (containsType types TypeCNAME).

Definition sameNSEC3Parameters (a b : NSEC3.t) : bool :=
  (NSEC3.Hash a =? NSEC3.Hash b) && (NSEC3.Iterations a =? NSEC3.Iterations b) &&
  EqualFold (NSEC3.Salt a) (NSEC3.Salt b).

Definition validDenialSignature (response : Msg.t) (rr : RR) (parent : string)
    (keys : list DNSKEY.t) (now : time) : bool :=
  let h := Header rr in
  if negb (sameOwnerClass h (RR_Header.Name h)) || negb (IsSubDomain parent (RR_Header.Name h))
  then false
  else existsb (fun candidate =>
    match candidate with
    | RR_RRSIG sig =>
        (RRSIG.TypeCovered sig =? RR_Header.Rrtype h) &&
        EqualFold (RR_Header.Name (RRSIG.Hdr sig)) (RR_Header.Name h) &&
        EqualFold (RRSIG.SignerName sig) parent && ValidityPeriod sig now &&
        existsb (fun key => (KeyTag key =? RRSIG.KeyTag sig) &&
                            (DNSKEY.Algorithm key =? RRSIG.Algorithm sig) &&
                            Verify sig key [rr]) keys
    | _ => false
    end) response.(Msg.Ns).

(** The first loop of [verifyNoDSProof]: a record at the zone name itself. *)
Definition direct_denial (response : Msg.t) (name parent : string) (keys : list DNSKEY.t)
    (now : time) (rr : RR) : bool :=
  match rr with
  | RR_NSEC h types _ =>
      EqualFold (Fqdn (RR_Header.Name h)) (Fqdn name) && delegationWithoutDS types &&
      validDenialSignature response rr parent keys now
  | RR_NSEC3 n =>
      Match n name && delegationWithoutDS (NSEC3.TypeBitMap n) &&
      validDenialSignature response rr parent keys now
  | _ => false
  end.

(** A signed Opt-Out cover of the next closer name, with the parameters of [match_]. *)
Definition opt_out_cover (response : Msg.t) (parent : string) (keys : list DNSKEY.t) (now : time)
    (match_ : NSEC3.t) (nextCloser : string) (cover : NSEC3.t) : bool :=
  negb (Z.land (NSEC3.Flags cover) 1 =? 0) && sameNSEC3Parameters match_ cover &&
  Cover cover nextCloser && validDenialSignature response (RR_NSEC3 cover) parent keys now.

(** The second loop, over the closest-encloser candidates [labels[i:]]: [before] is
    [labels[i-1]] and [rest] is [labels[i:]]. *)
Fixpoint encloser_denial (response : Msg.t) (parent : string) (keys : list DNSKEY.t) (now : time)
    (nsec3s : list NSEC3.t) (before : string) (rest : list string) : result unit :=
  match rest with
  | [] => Err (errors_New "no cryptographically valid NSEC/NSEC3 proof of DS absence")
  | label :: rest' =>
      let closest := Fqdn (Join rest ".") in
      if negb (IsSubDomain parent closest)
      then encloser_denial response parent keys now nsec3s label rest' else
      match List.find (fun m => Match m closest &&
                         validDenialSignature response (RR_NSEC3 m) parent keys now) nsec3s with
      | None => encloser_denial response parent keys now nsec3s label rest'
      | Some m =>
          if existsb (opt_out_cover response parent keys now m
                        (Fqdn (Join (before :: rest) "."))) nsec3s
          then Ok tt
          else Err (errors_New "NSEC3 closest-encloser proof lacks a signed Opt-Out next-closer cover")
      end
  end.

Definition verifyNoDSProof (response : Msg.t) (name parent : string) (keys : list DNSKEY.t)
    (now : time) : result unit :=
  if existsb (direct_denial response name parent keys now) response.(Msg.Ns) then Ok tt else
  match SplitDomainName name with
  | [] => Err (errors_New "no cryptographically valid NSEC/NSEC3 proof of DS absence")
  | label :: rest =>
      encloser_denial response parent keys now (omap as_NSEC3 response.(Msg.Ns)) label rest
  end.
End Proofs.

(** ** Iteration from the root

    One round asks every server of the current list; its local variables are the
    referrals, the last error and what the answers established so far. *)
Module Round.
Record t := mk { referrals : list string; last : option error; verified : Z; maxTTL : Z }.
Definition initial : t := mk [] None 0 0.
Definition set_last (e : error) (s : t) : t := mk s.(referrals) (Some e) s.(verified) s.(maxTTL).
Definition refer (l : list string) (s : t) : t :=
  mk (s.(referrals) ++ l) s.(last) s.(verified) s.(maxTTL).
Definition verify (ttl : Z) (s : t) : t :=
  mk s.(referrals) s.(last) (s.(verified) + 1)
     (if s.(maxTTL) <? ttl then ttl else s.(maxTTL)).
End Round.

(** ** The probe *)
Record Probe := mkProbe {
  resolvers : list string;
  authoritative : list string;
  local : string;
}.

(** [New] and [NewWithClient] keep the configured addresses; the client is [Network]. *)
Definition NewWithClient (resolvers authoritative : list string) (local : string) : Probe :=
  mkProbe resolvers authoritative local.

(** The two root servers every iteration starts from. *)
Definition root_servers : list string := ["198.41.0.4:53"; "[2001:503:ba3e::2:30]:53"].

Section Monad.
Context {PL : ProbeLib} {NW : Network}.

Record NetWorld := mkNetWorld { net : Net; log : list NetEvent }.
Definition NetM (A : Type) : Type := Comp NetWorld A.

Definition ExchangeContext (q : Request.t) (server : string) : NetM Msg.t := fun w =>
  match net_ExchangeContext q server w.(net) with
  | (r, n') => (outcome r, mkNetWorld n' (Exchanged q server r :: w.(log)))
  end.
(** [ctx.Err()]: once it is not nil it stays the same. *)
Definition ctx_Err : NetM (option error) := fun w => (Val (net_Err w.(net)), w).
Definition NetNow : NetM time := fun w =>
  match net_Now w.(net) with
  | (t, n') => (Val t, mkNetWorld n' (Clock t :: w.(log)))
  end.
Definition range_names (m : gmap string bool) : NetM (list (string * bool)) := fun w =>
  match net_range m w.(net) with
  | (l, n') => (Val l, mkNetWorld n' w.(log))
  end.

Definition question (name : string) (typ : Z) (recursive : bool) : Request.t :=
  Request.mk name typ recursive recursive 1232 true.

(** The attempts of [query]: [n + 1] are left. *)
Fixpoint exchange_attempts (n : nat) (m : Request.t) (server : string) : NetM Msg.t :=
  let* r := try (ExchangeContext m server) in
  match r with
  | Ok r => ret r
  | Err e =>
      let* cancelled := ctx_Err in
      match cancelled with
      | Some ce => fail ce
      | None =>
          match n with
          | O => fail e
          | S n' => exchange_attempts n' m server
          end
      end
  end.

Definition query (server name : string) (typ : Z) (recursive : bool) : NetM Msg.t :=
  let* r := exchange_attempts 2 (question name typ recursive) server in
  if r.(Msg.Rcode) =? RcodeSuccess then ret r
  else fail (Errorf "rcode %s" [AStr (RcodeToString r.(Msg.Rcode))]).

Section Methods.
Context (p : Probe).

(** The addresses in the records of a section, of owners [keep] accepts. *)
Definition addresses (keep : string -> bool) (rrs : list RR) : list string :=
  omap (fun rr =>
    match rr with
    | RR_A h addr | RR_AAAA h addr =>
        if keep (RR_Header.Name h) then Some (JoinHostPort addr "53") else None
    | _ => None
    end) rrs.

(** The nameservers a referral names, each with whether its address may come from the
    glue: whether it lies below the delegated name. *)
Definition referral_names (ns : list RR) : gmap string bool :=
  fold_left (fun names rr =>
    match rr with
    | RR_NS h target =>
        let owner := ToLower (Fqdn (RR_Header.Name h)) in
        let target := ToLower (Fqdn target) in
        <[target := IsSubDomain owner target]> names
    | _ => names
    end) ns ∅.

Definition referralServers (r : Msg.t) : NetM (list string) :=
  let names := referral_names r.(Msg.Ns) in
  let out := addresses (fun owner => default false (names !! ToLower owner)) r.(Msg.Extra) in
  if Nat.ltb 0 (length out) then ret (unique out) else
  let* entries := range_names names in
  let* out := for_fold entries [] (fun out entry =>
    for_fold [TypeA; TypeAAAA] out (fun out typ =>
      match p.(resolvers) with
      | [] => panic
      | resolver :: _ =>
          let* resp := try (query resolver entry.1 typ true) in
          match resp with
          | Err _ => ret out
          | Ok resp => ret (out ++ addresses (fun _ => true) resp.(Msg.Answer))
          end
      end)) in
  ret (unique out).

Definition dnskeyEvidence (zone : string) (includeResolvers : bool) (keys : list Key.t)
    : NetM duration :=
  let name := Fqdn zone in
  let* expected := lift (expectedDNSKEYs name keys) in
  let* local := wrap (fun e => Errorf "local authoritative DNSKEY: %w" [AWrap e])
    (let* r := query p.(local) name TypeDNSKEY false in
     lift (verifyDNSKEYSet r expected false true name) ;; ret r) in
  let* ttl := for_fold p.(authoritative) (rrsetTTL local.(Msg.Answer) TypeDNSKEY)
    (fun ttl server =>
       let* r := wrap (fun e => Errorf "authoritative DNSKEY via %s: %w" [AStr server; AWrap e])
         (let* r := query server name TypeDNSKEY false in
          lift (verifyDNSKEYSet r expected false true name) ;; ret r) in
       let observed := rrsetTTL r.(Msg.Answer) TypeDNSKEY in
       ret (if ttl <? observed then observed else ttl)) in
  (if includeResolvers then
     for_each p.(resolvers) (fun resolver =>
       wrap (fun e => Errorf "recursive DNSKEY via %s: %w" [AStr resolver; AWrap e])
         (let* r := query resolver name TypeDNSKEY true in
          lift (verifyDNSKEYSet r expected true false name)))
   else ret tt) ;;
  if ttl =? 0 then fail (errors_New "authoritative DNSKEY TTL is zero")
  else ret (dur_mul ttl Second).

Definition probe_DNSKEYEvidence (zone : string) (keys : list Key.t) : NetM duration :=
  dnskeyEvidence zone true keys.
Definition probe_AuthoritativeDNSKEYEvidence (zone : string) (keys : list Key.t) : NetM duration :=
  dnskeyEvidence zone false keys.

(** The owner of the first SOA of the authority section, fully qualified. *)
Fixpoint soa_owner (ns : list RR) : string :=
  match ns with
  | RR_SOA h _ :: _ => Fqdn (RR_Header.Name h)
  | _ :: ns' => soa_owner ns'
  | [] => ""
  end.

Definition verifyNoDS (response : Msg.t) (name resolver : string) (requireAA : bool) : NetM unit :=
  if requireAA && negb response.(Msg.Authoritative)
  then fail (errors_New "response lacks authoritative-answer") else
  if hasType response.(Msg.Answer) TypeDS then fail (errors_New "DS is present") else
  let parent := soa_owner response.(Msg.Ns) in
  if (parent == "") || negb (IsSubDomain parent name) || EqualFold parent name
  then fail (errors_New "negative DS response lacks a valid parent SOA") else
  let* keysResponse := wrap (fun e => Errorf "parent DNSKEY: %w" [AWrap e])
    (query resolver parent TypeDNSKEY true) in
  if negb keysResponse.(Msg.AuthenticatedData)
  then fail (errors_New "parent DNSKEY response lacks authenticated-data") else
  let* keys := lift (collect_owned as_DNSKEY DNSKEY.Hdr (fun k => k) parent
    (errors_New "parent DNSKEY owner/class mismatch") keysResponse.(Msg.Answer)) in
  if Nat.eqb (length keys) 0 then fail (errors_New "parent DNSKEY RRset is empty") else
  let* now := NetNow in
  lift (verifyNoDSProof response name parent keys now).

Definition no_ds_step (name first : string) (acc : Round.t) (server : string) : NetM Round.t :=
  let* answer := try (query server name TypeDS false) in
  match answer with
  | Err e => ret (Round.set_last e acc)
  | Ok r =>
      if hasType r.(Msg.Answer) TypeDS
      then fail (Errorf "authoritative parent already has DS for %s" [AStr name]) else
      if hasType r.(Msg.Ns) TypeSOA then
        let* proof := try (verifyNoDS r name first true) in
        match proof with
        | Err e =>
            ret (Round.set_last (Errorf "parent no-DS via %s: %w" [AStr server; AWrap e]) acc)
        | Ok _ => ret (Round.verify 0 acc)
        end
      else
        let* next := referralServers r in
        ret (Round.refer next acc)
  end.

Fixpoint no_ds_rounds (depth : nat) (name first : string) (servers : list string) : NetM unit :=
  match depth with
  | O => fail (errors_New "iterative no-DS lookup exceeded referral depth")
  | S depth' =>
      let* round := for_fold servers Round.initial (no_ds_step name first) in
      if 2 <=? Round.verified round then ret tt else
      if 0 <? Round.verified round
      then fail (Errorf "only %d authoritative parent no-DS proof(s); need at least two"
                   [AInt (Round.verified round)]) else
      match unique (Round.referrals round) with
      | [] => match Round.last round with
              | Some e => fail e
              | None => fail (errors_New "iterative no-DS lookup has no referral servers")
              end
      | servers' => no_ds_rounds depth' name first servers'
      end
  end.

Definition probe_NoDSEvidence (zone : string) : NetM unit :=
  let name := Fqdn zone in
  match p.(resolvers) with
  | first :: _ :: _ =>
      for_each p.(resolvers) (fun resolver =>
        wrap (fun e => Errorf "recursive no-DS via %s: %w" [AStr resolver; AWrap e])
          (let* r := query resolver name TypeDS true in
           verifyNoDS r name resolver false)) ;;
      no_ds_rounds 12 name first root_servers
  | _ => fail (errors_New "at least two validating resolvers are required for no-DS evidence")
  end.

Definition delegation_step (name : string) (want : list string) (acc : Round.t) (server : string)
    : NetM Round.t :=
  let* answer := try (query server name TypeNS false) in
  match answer with
  | Err e => ret (Round.set_last e acc)
  | Ok response =>
      let got := delegatedNS response name in
      if Nat.ltb 0 (length got) then
        if got != want
        then fail (Errorf "parent delegation via %s is %v, want %v"
                     [AStr server; AList got; AList want])
        else ret (Round.verify 0 acc)
      else
        let* next := referralServers response in
        ret (Round.refer next acc)
  end.

Fixpoint delegation_rounds (depth : nat) (name : string) (want servers : list string) : NetM unit :=
  match depth with
  | O => fail (errors_New "iterative delegation lookup exceeded referral depth")
  | S depth' =>
      let* round := for_fold servers Round.initial (delegation_step name want) in
      if 2 <=? Round.verified round then ret tt else
      if 0 <? Round.verified round
      then fail (Errorf "only %d exact parent delegation answer(s); need at least two"
                   [AInt (Round.verified round)]) else
      match unique (Round.referrals round) with
      | [] => match Round.last round with
              | Some e => fail e
              | None => fail (errors_New "iterative delegation lookup has no referral servers")
              end
      | servers' => delegation_rounds depth' name want servers'
      end
  end.

Definition expectedNS (expected : list string) : list string :=
  Compact (Sort (map (fun item => ToLower (Fqdn (TrimSpace item))) expected)).

Definition probe_DelegationEvidence (zone : string) (expected : list string) : NetM unit :=
  let name := Fqdn zone in
  let want := expectedNS expected in
  if Nat.ltb (length want) 2
  then fail (errors_New "at least two expected delegated nameservers are required")
  else delegation_rounds 12 name want root_servers.

Definition probe_DSEvidence (zone : string) (keys : list Key.t) : NetM unit :=
  let name := Fqdn zone in
  let* want := lift (expectedDS name keys) in
  for_each p.(resolvers) (fun resolver =>
    let* r := wrap (fun e => Errorf "recursive DS via %s: %w" [AStr resolver; AWrap e])
      (query resolver name TypeDS true) in
    if negb r.(Msg.AuthenticatedData)
    then fail (Errorf "recursive DS via %s lacks authenticated-data" [AStr resolver])
    else wrap (fun e => Errorf "recursive DS via %s: %w" [AStr resolver; AWrap e])
           (lift (exactDS r want name false))).

Definition ds_step (name : string) (want : list string) (acc : Round.t) (server : string)
    : NetM Round.t :=
  let* answer := try (query server name TypeDS false) in
  match answer with
  | Err e => ret (Round.set_last e acc)
  | Ok r =>
      if hasType r.(Msg.Answer) TypeDS then
        match exactDS r want name true with
        | Err e => ret (Round.set_last (Errorf "parent DS via %s: %w" [AStr server; AWrap e]) acc)
        | Ok _ => ret (Round.verify (rrsetTTL r.(Msg.Answer) TypeDS) acc)
        end
      else
        let* next := referralServers r in
        if Nat.ltb 0 (length next) then ret (Round.refer next acc) else
        if hasType r.(Msg.Ns) TypeSOA
        then fail (Errorf "authoritative parent has no DS for %s" [AStr name])
        else ret acc
  end.

Fixpoint ds_rounds (depth : nat) (name : string) (want servers : list string) : NetM duration :=
  match depth with
  | O => fail (errors_New "iterative DS lookup exceeded referral depth")
  | S depth' =>
      let* round := for_fold servers Round.initial (ds_step name want) in
      if (2 <=? Round.verified round) && (0 <? Round.maxTTL round)
      then ret (dur_mul (Round.maxTTL round) Second) else
      if 0 <? Round.verified round
      then fail (Errorf "only %d authoritative parent DS answer(s); need at least two"
                   [AInt (Round.verified round)]) else
      match Round.last round with
      | Some e => fail e
      | None =>
          match unique (Round.referrals round) with
          | [] => fail (errors_New "iterative DS lookup has no referral servers")
          | servers' => ds_rounds depth' name want servers'
          end
      end
  end.

Definition probe_AuthoritativeDSEvidence (zone : string) (keys : list Key.t) : NetM duration :=
  let name := Fqdn zone in
  let* want := lift (expectedDS name keys) in
  ds_rounds 12 name want root_servers.

(** ** Signatures on every path *)
Definition verifySignature (name : string) (typ : Z) (key : Key.t) (includeResolvers : bool)
    : NetM unit :=
  let* rr := lift (keyRR name key) in
  wrap (fun e => Errorf "local authoritative signature: %w" [AWrap e])
    (let* r := query p.(local) name typ false in
     let* now := NetNow in
     lift (verifySignatureIn r typ rr false true name now)) ;;
  for_each p.(authoritative) (fun server =>
    let* r := query server name typ false in
    let* now := NetNow in
    wrap (fun e => Errorf "authoritative signature via %s: %w" [AStr server; AWrap e])
      (lift (verifySignatureIn r typ rr false true name now))) ;;
  if includeResolvers then
    for_each p.(resolvers) (fun resolver =>
      let* r := query resolver name typ true in
      let* now := NetNow in
      wrap (fun e => Errorf "recursive signature via %s: %w" [AStr resolver; AWrap e])
        (lift (verifySignatureIn r typ rr true false name now)))
  else ret tt.

Definition verifySignatureEverywhere (name : string) (typ : Z) (key : Key.t) : NetM unit :=
  verifySignature name typ key true.

Definition probe_DNSKEYRRSIGBy (zone : string) (key : Key.t) : NetM unit :=
  verifySignatureEverywhere (Fqdn zone) TypeDNSKEY key.
Definition probe_AuthoritativeDNSKEYRRSIGBy (zone : string) (key : Key.t) : NetM unit :=
  verifySignature (Fqdn zone) TypeDNSKEY key false.
Definition probe_RRSIGBy (zone : string) (key : Key.t) : NetM unit :=
  verifySignatureEverywhere (Fqdn zone) TypeSOA key.
Definition probe_AuthoritativeRRSIGBy (zone : string) (key : Key.t) : NetM unit :=
  verifySignature (Fqdn zone) TypeSOA key false.
End Methods.
End Monad.
