(* ===== verification/ProbeFacts.v ===== *)
(** * What the probe's checks accept: the DNSKEY and DS comparisons, signatures and
    denial of existence, stated on the records of a response. *)
From S2P Require Import Prelude GoStrings GoTime GoNet GoNetFacts Model Dns Effects Probe.

(** ** Keys of records: the text two records are compared by determines their data. *)
Lemma slash_split s1 s2 t1 t2 :
  slash ∉ s1 -> slash ∉ s2 ->
  s1 ++ slash :: t1 = s2 ++ slash :: t2 -> s1 = s2 /\ t1 = t2.
Proof.
  revert s2. induction s1 as [|a s1 IH]; intros [|b s2] H1 H2 [=]; subst.
  - done.
  - by apply not_elem_of_cons in H2 as [? _].
  - by apply not_elem_of_cons in H1 as [? _].
  - apply not_elem_of_cons in H1 as [_ H1], H2 as [_ H2]. by destruct (IH s2) as [-> ->].
Qed.


Lemma pretty_N_char_slash n : pretty_N_char n <> slash.
Proof. unfold pretty_N_char. repeat case_match; done. Qed.

Lemma pretty_N_go_slash x s : slash ∉ bytes s -> slash ∉ bytes (pretty_N_go x s).
Proof.
  revert s. induction (N.lt_wf_0 x) as [x _ IH]; intros s Hs.
  destruct (decide (x = 0)%N) as [->|Hx]; [by rewrite pretty_N_go_0|].
  rewrite pretty_N_go_step by lia. apply IH; [apply N.div_lt; lia|].
  cbn. rewrite not_elem_of_cons. split; [|done]. intros E. by apply (pretty_N_char_slash (x mod 10)%N).
Qed.
Lemma pretty_Z_slash (z : Z) : slash ∉ bytes (pretty z).
Proof.
  assert (HN : forall n : N, slash ∉ bytes (pretty n)).
  { intros n. unfold pretty, pretty_N. case_decide; [cbn; set_solver|].
    apply pretty_N_go_slash. cbn. set_solver. }
  destruct z as [|p|p]; [cbn; set_solver|apply HN|].
  change (pretty (Zneg p)) with ("-" +:+ pretty (Npos p)).
  rewrite bytes_app. apply not_elem_of_app. split; [cbn; set_solver|apply HN].
Qed.

Lemma key_text_inj (a b : Z) s t :
  pretty a +:+ "/" +:+ s = pretty b +:+ "/" +:+ t -> a = b /\ s = t.
Proof.
  intros H%(f_equal bytes). rewrite !bytes_app in H. cbn in H.
  apply slash_split in H as [H1 H2]; [|apply pretty_Z_slash..].
  apply bytes_inj in H1, H2. split; [by apply (inj pretty)|done].
Qed.

(** The data a DNSKEY record carries. *)
Definition dnskey_rdata (k : DNSKEY.t) : Z * Z * Z * string :=
  (k.(DNSKEY.Flags), k.(DNSKEY.Protocol), k.(DNSKEY.Algorithm), k.(DNSKEY.PublicKey)).
(** The data of a DS record, its hexadecimal digest in upper case. *)
Definition ds_rdata (d : DSRR.t) : Z * Z * Z * string :=
  (d.(DSRR.KeyTag), d.(DSRR.Algorithm), d.(DSRR.DigestType), ToUpper d.(DSRR.Digest)).

Definition rdata_text (x : Z * Z * Z * string) : string :=
  let '(a, b, c, s) := x in pretty a +:+ "/" +:+ pretty b +:+ "/" +:+ pretty c +:+ "/" +:+ s.

#[export] Instance rdata_text_inj : Inj (=) (=) rdata_text.
Proof.
  intros [[[a b] c] s] [[[a' b'] c'] s']. unfold rdata_text.
  intros [-> [-> [-> ->]%key_text_inj]%key_text_inj]%key_text_inj. done.
Qed.


Lemma dnskeyKey_text k : dnskeyKey k = rdata_text (dnskey_rdata k).
Proof. unfold dnskeyKey, Sprintf. cbn. by rewrite string_app_nil_r. Qed.
Lemma dsKey_text d : dsKey d = rdata_text (ds_rdata d).
Proof. unfold dsKey, Sprintf. cbn. by rewrite string_app_nil_r. Qed.

Lemma map_text_perm {A} (f : A -> Z * Z * Z * string) (key : A -> string) (l l' : list A) :
  (forall x, key x = rdata_text (f x)) ->
  map key l ≡ₚ map key l' <-> map f l ≡ₚ map f l'.
Proof.
  intros Hk. rewrite !(map_ext key (fun x => rdata_text (f x)) Hk).
  rewrite <- !(map_map f rdata_text). split; [|by intros ->].
  intros (l3 & E & HP)%Permutation_map_inv.
  apply (inj (fmap rdata_text)) in E as ->. by symmetry.
Qed.

(** ** Collecting the records of one type *)
Lemma collect_owned_Ok {A B} (cast : RR -> option A) hdr (f : A -> B) owner e rrs out :
  collect_owned cast hdr f owner e rrs = Ok out <->
  Forall (fun x => sameOwnerClass (hdr x) owner = true) (omap cast rrs) /\
  out = map f (omap cast rrs).
Proof.
  revert out. induction rrs as [|rr rrs IH]; intros out; cbn; [naive_solver|].
  destruct (cast rr) as [x|] eqn:Ec; [|by apply IH]. cbn.
  rewrite Forall_cons. destruct (sameOwnerClass (hdr x) owner); [|naive_solver].
  rewrite result_bind_Ok. setoid_rewrite IH. naive_solver.
Qed.

(** The records of the answer section by type. *)
Definition dnskeys (r : Msg.t) : list DNSKEY.t := omap as_DNSKEY r.(Msg.Answer).
Definition ds_records (r : Msg.t) : list DSRR.t := omap as_DS r.(Msg.Answer).

(** A response holding exactly the DNSKEY records [want], all of class IN and owned by
    [owner], with the flags the path must have. *)
Definition holds_dnskeys (r : Msg.t) (want : list DNSKEY.t) (requireAD requireAA : bool)
    (owner : string) : Prop :=
  (requireAD = true -> r.(Msg.AuthenticatedData) = true) /\
  (requireAA = true -> r.(Msg.Authoritative) = true) /\
  Forall (fun k => sameOwnerClass k.(DNSKEY.Hdr) owner = true) (dnskeys r) /\
  map dnskey_rdata (dnskeys r) ≡ₚ map dnskey_rdata want.

Definition holds_ds (r : Msg.t) (want : list DSRR.t) (requireAA : bool) (owner : string) : Prop :=
  (requireAA = true -> r.(Msg.Authoritative) = true) /\
  Forall (fun d => sameOwnerClass d.(DSRR.Hdr) owner = true) (ds_records r) /\
  map ds_rdata (ds_records r) ≡ₚ map ds_rdata want.

Lemma implb_false a b : a && negb b = false <-> (a = true -> b = true).
Proof. destruct a, b; naive_solver. Qed.

Lemma verifyDNSKEYSet_Ok r want requireAD requireAA owner :
  verifyDNSKEYSet r want requireAD requireAA owner = Ok tt <->
  holds_dnskeys r want requireAD requireAA owner.
Proof.
  unfold verifyDNSKEYSet, holds_dnskeys, dnskeys.
  rewrite !guard_Ok, !implb_false, result_bind_Ok.
  setoid_rewrite collect_owned_Ok. setoid_rewrite guard_Ok. setoid_rewrite negb_false_iff.
  setoid_rewrite eqb_true. setoid_rewrite Sort_eq_iff.
  rewrite <- (map_text_perm _ dnskeyKey _ _ dnskeyKey_text). naive_solver.
Qed.

(** C23: the comparison of sorted texts in [verifyDNSKEYSet] accepts a response
    exactly when the response has the required AD and AA flags, every DNSKEY record of its
    answer has the zone's owner name and class IN, and the records' flags, protocols,
    algorithms and public keys are those expected, as multisets. *)
Theorem dnskey_set_exact r want requireAD requireAA owner :
  verifyDNSKEYSet r want requireAD requireAA owner = Ok tt <->
  holds_dnskeys r want requireAD requireAA owner.
Proof. apply verifyDNSKEYSet_Ok. Qed.

Lemma exactDS_Ok r want owner requireAA :
  exactDS r (Sort (map dsKey want)) owner requireAA = Ok tt <-> holds_ds r want requireAA owner.
Proof.
  unfold exactDS, holds_ds, ds_records.
  rewrite !guard_Ok, !implb_false, result_bind_Ok.
  setoid_rewrite collect_owned_Ok. setoid_rewrite guard_Ok. setoid_rewrite negb_false_iff.
  setoid_rewrite eqb_true. setoid_rewrite Sort_eq_iff.
  rewrite <- (map_text_perm _ dsKey _ _ dsKey_text). naive_solver.
Qed.

(** ** Signatures *)
Section Signatures.
Context {PL : ProbeLib}.

Lemma expectedDNSKEYs_Ok zone keys out :
  expectedDNSKEYs zone keys = Ok out <-> Forall2 (fun k rr => keyRR zone k = Ok rr) keys out.
Proof.
  revert out. induction keys as [|k keys IH]; intros out; cbn.
  - rewrite Forall2_nil_cons_inv_l || idtac. split; [intros [= <-]; constructor|].
    by intros ->%Forall2_nil_inv_l.
  - rewrite result_bind_Ok. setoid_rewrite result_bind_Ok. setoid_rewrite IH. split.
    + intros (rr & E & l & HF & [= <-]). by constructor.
    + intros (rr & l & E & HF & ->)%Forall2_cons_inv_l. eauto 10.
Qed.

(** The DS record a key stands for. *)
Definition derives (zone : string) (k : Key.t) (d : DSRR.t) : Prop :=
  exists rr, keyRR zone k = Ok rr /\ ToDS_SHA256 rr = Some d.

Lemma derivedDS_Ok zone keys out :
  derivedDS zone keys = Ok out <->
  exists ds, Forall2 (derives zone) keys ds /\ out = map dsKey ds.
Proof.
  unfold derives. revert out. induction keys as [|k keys IH]; intros out; cbn.
  - split; [intros [= <-]; exists []; by split; [constructor|]|].
    by intros (ds & ->%Forall2_nil_inv_l & ->).
  - rewrite result_bind_Ok. setoid_rewrite option_Ok. setoid_rewrite result_bind_Ok.
    setoid_rewrite IH. split.
    + intros (rr & E & d & Ed & l & (ds & HF & ->) & [= <-]).
      exists (d :: ds). split; [|done]. constructor; eauto.
    + intros (ds & (d & ds' & (rr & E & Ed) & HF & ->)%Forall2_cons_inv_l & ->).
      exists rr. split; [done|]. exists d. split; [done|]. eauto 10.
Qed.

Lemma expectedDS_Ok zone keys out :
  expectedDS zone keys = Ok out <->
  exists ds, Forall2 (derives zone) keys ds /\ out = Sort (map dsKey ds).
Proof.
  unfold expectedDS. rewrite result_bind_Ok. setoid_rewrite derivedDS_Ok. naive_solver.
Qed.

(** The RRset a signature over type [typ] covers in an answer. *)
Definition rrset (r : Msg.t) (typ : Z) : list RR :=
  List.filter (fun a => rrtype a =? typ) r.(Msg.Answer).

(** A response whose answer has a non-empty RRset of type [typ] owned by [owner] and a
    signature over exactly that RRset that is valid at [now] and verifies under [key]. *)
Definition signed_by (r : Msg.t) (typ : Z) (key : DNSKEY.t) (requireAD requireAA : bool)
    (owner : string) (now : time) : Prop :=
  (requireAD = true -> r.(Msg.AuthenticatedData) = true) /\
  (requireAA = true -> r.(Msg.Authoritative) = true) /\
  rrset r typ <> [] /\
  Forall (fun a => sameOwnerClass (Header a) owner = true) (rrset r typ) /\
  exists sig, RR_RRSIG sig ∈ r.(Msg.Answer) /\
    RRSIG.TypeCovered sig = typ /\ RRSIG.KeyTag sig = KeyTag key /\
    RRSIG.Algorithm sig = DNSKEY.Algorithm key /\
    sameOwnerClass (RRSIG.Hdr sig) owner = true /\ ValidityPeriod sig now = true /\
    Verify sig key (rrset r typ) = true.

Definition candidate (typ : Z) (key : DNSKEY.t) (a : RR) : option RRSIG.t :=
  match a with
  | RR_RRSIG s =>
      if (RRSIG.TypeCovered s =? typ) && (RRSIG.KeyTag s =? KeyTag key) &&
         (RRSIG.Algorithm s =? DNSKEY.Algorithm key)
      then Some s else None
  | _ => None
  end.

Lemma covered_cons typ key owner a answer :
  covered typ key owner (a :: answer) =
  (if (rrtype a =? typ) && negb (sameOwnerClass (Header a) owner)
   then Err (errors_New "covered RRset owner/class mismatch") else
   let? (rs, sigs) := covered typ key owner answer in
   Ok (if rrtype a =? typ then a :: rs else rs,
       match candidate typ key a with Some s => s :: sigs | None => sigs end)).
Proof.
  cbn. destruct (_ && negb _); [done|]. destruct (covered typ key owner answer) as [[rs sigs]|]; cbn; [|done].
  destruct a; cbn; try done. by destruct (_ && _).
Qed.

Lemma covered_Ok typ key owner answer p :
  covered typ key owner answer = Ok p <->
  Forall (fun a => sameOwnerClass (Header a) owner = true)
    (List.filter (fun a => rrtype a =? typ) answer) /\
  p = (List.filter (fun a => rrtype a =? typ) answer, omap (candidate typ key) answer).
Proof.
  revert p. induction answer as [|a answer IH]; intros p; [cbn; naive_solver|].
  rewrite covered_cons, guard_Ok, implb_false, result_bind_Ok. setoid_rewrite IH. cbn.
  destruct (rrtype a =? typ); [rewrite Forall_cons|];
    (split; [intros (H1 & p1 & (HF & ->) & [= <-])|intros H; destruct_and!; subst; split; [done|]; eauto]);
    naive_solver.
Qed.

Lemma verifySignatureIn_Ok r typ key requireAD requireAA owner now :
  verifySignatureIn r typ key requireAD requireAA owner now = Ok tt <->
  signed_by r typ key requireAD requireAA owner now.
Proof.
  unfold verifySignatureIn, signed_by, rrset. rewrite !guard_Ok, !implb_false, result_bind_Ok.
  assert (Hcand : forall sig, sig ∈ omap (candidate typ key) r.(Msg.Answer) <->
    RR_RRSIG sig ∈ r.(Msg.Answer) /\ RRSIG.TypeCovered sig = typ /\
    RRSIG.KeyTag sig = KeyTag key /\ RRSIG.Algorithm sig = DNSKEY.Algorithm key).
  { intros sig. rewrite list_elem_of_omap. split.
    - intros (a & Ha & Hs). destruct a; cbn in Hs; try done. case_match; simplify_eq.
      bool_prop. naive_solver.
    - intros (Hin & H1 & H2 & H3). exists (RR_RRSIG sig). split; [done|]. cbn.
      by rewrite H1, H2, H3, !Z.eqb_refl. }
  split.
  - intros (H1 & H2 & p & (HF & ->)%covered_Ok & [Hn He]%guard_Ok).
    apply Nat.eqb_neq in Hn. split_and!; [done..|by intros E; rewrite E in Hn|done|].
    apply unless_Ok in He as [(sig & Hin & Hv)%existsb_exists _].
    apply list_elem_of_In, Hcand in Hin. bool_prop. naive_solver.
  - intros (H1 & H2 & Hn & HF & sig & Hin & Ht & Hk & Ha & Ho & Hp & Hv).
    split_and!; [done..|]. exists (rrset r typ, omap (candidate typ key) (Msg.Answer r)).
    split; [by apply covered_Ok|]. apply guard_Ok. split.
    + apply Nat.eqb_neq. by intros E%nil_length_inv.
    + apply unless_Ok. split; [|done]. apply existsb_exists. exists sig.
      rewrite <- list_elem_of_In, Hcand. unfold rrset. rewrite Ho, Hp, Hv. naive_solver.
Qed.
End Signatures.

(** ** Denial of existence *)
Section Denial.
Context {PL : ProbeLib}.

(** The response proves that the delegation [name] has no DS record: a signed NSEC or NSEC3
    record at the name itself lists NS and none of DS, SOA, CNAME; or a signed NSEC3 record
    matches an encloser of the name inside the parent zone and a signed Opt-Out record with
    the same parameters covers the name one label below that encloser. *)
Inductive denies (r : Msg.t) (name parent : string) (keys : list DNSKEY.t) (now : time) : Prop :=
| denied_at_name rr :
    rr ∈ r.(Msg.Ns) -> direct_denial r name parent keys now rr = true ->
    denies r name parent keys now
| denied_by_opt_out before label encloser m cover :
    SplitDomainName name = before ++ label :: encloser -> encloser <> [] ->
    IsSubDomain parent (Fqdn (Join encloser ".")) = true ->
    RR_NSEC3 m ∈ r.(Msg.Ns) -> Match m (Fqdn (Join encloser ".")) = true ->
    validDenialSignature r (RR_NSEC3 m) parent keys now = true ->
    RR_NSEC3 cover ∈ r.(Msg.Ns) ->
    opt_out_cover r parent keys now m (Fqdn (Join (label :: encloser) ".")) cover = true ->
    denies r name parent keys now.

Lemma nsec3s_elem (ns : list RR) m : m ∈ omap as_NSEC3 ns <-> RR_NSEC3 m ∈ ns.
Proof.
  rewrite list_elem_of_omap. split; [|by exists (RR_NSEC3 m)].
  intros (rr & Hin & E). by destruct rr; simplify_eq/=.
Qed.

Lemma encloser_denial_Ok r name parent keys now label rest before :
  SplitDomainName name = before ++ label :: rest ->
  encloser_denial r parent keys now (omap as_NSEC3 r.(Msg.Ns)) label rest = Ok tt ->
  denies r name parent keys now.
Proof.
  revert before label. induction rest as [|l rest IH]; intros before label Hs; cbn -[Join]; [done|].
  assert (Hnext : SplitDomainName name = (before ++ [label]) ++ l :: rest)
    by by rewrite <- app_assoc.
  destruct (IsSubDomain parent _) eqn:Hsub; cbn -[Join]; [|exact (IH _ _ Hnext)].
  destruct (List.find _ _) as [m|] eqn:Hf; [|by apply (IH _ _ Hnext)].
  intros [(cover & Hc & Ho)%existsb_exists _]%unless_Ok.
  apply List.find_some in Hf as [Hm [? ?]%andb_true_iff].
  apply list_elem_of_In, nsec3s_elem in Hm, Hc.
  by apply (denied_by_opt_out _ _ _ _ _ before label (l :: rest) m cover).
Qed.

Lemma verifyNoDSProof_Ok r name parent keys now :
  verifyNoDSProof r name parent keys now = Ok tt -> denies r name parent keys now.
Proof.
  unfold verifyNoDSProof. destruct (existsb _ _) eqn:E.
  - intros _. apply existsb_exists in E as (rr & Hin%list_elem_of_In & Hd).
    by eapply denied_at_name.
  - destruct (SplitDomainName name) as [|l rest] eqn:Hs; [done|].
    by apply encloser_denial_Ok with (before := []).
Qed.

(** Whatever denies carries a signature of the parent over the denying record, by a key of
    the record's algorithm and tag, valid at that time. *)
Lemma validDenialSignature_sound r rr parent keys now :
  validDenialSignature r rr parent keys now = true ->
  exists sig key, RR_RRSIG sig ∈ r.(Msg.Ns) /\ key ∈ keys /\ ValidityPeriod sig now = true /\
    KeyTag key = RRSIG.KeyTag sig /\ Verify sig key [rr] = true /\
    EqualFold (RRSIG.SignerName sig) parent = true.
Proof.
  unfold validDenialSignature. destruct (_ || _); [done|].
  intros (a & Hin%list_elem_of_In & H)%existsb_exists. destruct a; try done.
  apply andb_true_iff in H as [H (key & Hk%list_elem_of_In & Hv)%existsb_exists].
  bool_prop. naive_solver.
Qed.
End Denial.
