(* ===== verification/Evidence.v ===== *)
(** * The evidence a probe reports is in its log.

    [collects P m S]: a run of [m] only appends to the log; if it returns [a], the events
    it appended satisfy [S a]; it panics only if [P]. *)
From S2P Require Import Prelude GoStrings GoTime Model Dns Effects Wp Probe ProbeFacts.

(** Inclusion between concatenations of the same lists of events. *)
Ltac events_sub :=
  let x := fresh in let H := fresh in
  intros x H; rewrite ?elem_of_app in *; tauto.

Section Evidence.
Context {PL : ProbeLib} {NW : Network}.

Definition collects (P : Prop) {A} (m : NetM A) (S : A -> list NetEvent -> Prop) : Prop :=
  forall w, exists new, (m w).2.(log) = new ++ w.(log) /\
    match (m w).1 with Val a => S a new | Fail_ _ => True | Panic => P end.

(** What holds of some events holds of more. *)
Definition persistent (T : list NetEvent -> Prop) : Prop :=
  forall new new', new ⊆ new' -> T new -> T new'.

Lemma suffix_sub (n1 n2 : list NetEvent) : n2 ⊆ n1 ++ n2.
Proof. intros x ?. apply elem_of_app. by right. Qed.
Lemma prefix_sub (n1 n2 : list NetEvent) : n1 ⊆ n1 ++ n2.
Proof. intros x ?. apply elem_of_app. by left. Qed.

Section Rules.
Context (P : Prop).

Lemma collects_mono {A} (m : NetM A) (S T : A -> list NetEvent -> Prop) :
  collects P m S -> (forall a new, S a new -> T a new) -> collects P m T.
Proof.
  intros Hm HST w. destruct (Hm w) as (new & E & H). exists new. split; [done|].
  destruct (m w).1; auto.
Qed.

Lemma collects_ret {A} (a : A) (S : A -> list NetEvent -> Prop) :
  S a [] -> collects P (ret a) S.
Proof. intros H w. by exists []. Qed.
Lemma collects_fail {A} e (S : A -> list NetEvent -> Prop) : collects P (fail e) S.
Proof. intros w. by exists []. Qed.
Lemma collects_panic {A} (S : A -> list NetEvent -> Prop) : P -> collects P panic S.
Proof. intros HP w. by exists []. Qed.
Lemma collects_lift {A} (r : result A) (S : A -> list NetEvent -> Prop) :
  (forall a, r = Ok a -> S a []) -> collects P (lift r) S.
Proof. intros H w. exists []. split; [done|]. destruct r; cbn; auto. Qed.

Lemma collects_check (r : result unit) : collects P (lift r) (fun _ _ => r = Ok tt).
Proof. apply collects_lift. by intros []. Qed.

Lemma collects_bind {A B} (m : NetM A) (k : A -> NetM B) S (T : B -> list NetEvent -> Prop) :
  collects P m S ->
  (forall a new, S a new -> collects P (k a) (fun b new' => T b (new' ++ new))) ->
  collects P (bind m k) T.
Proof.
  intros Hm Hk w. destruct (Hm w) as (n1 & E1 & H1). unfold bind.
  destruct (m w) as [[a|e|] w1]; cbn in *; [|by exists n1|by exists n1].
  destruct (Hk a n1 H1 w1) as (n2 & E2 & H2). exists (n2 ++ n1).
  by rewrite E2, E1, app_assoc.
Qed.

Lemma collects_try {A} (m : NetM A) (S : A -> list NetEvent -> Prop) :
  collects P m S ->
  collects P (try m) (fun r new => match r with Ok a => S a new | Err _ => True end).
Proof.
  intros Hm w. destruct (Hm w) as (n & E & H). exists n. unfold try.
  by destruct (m w) as [[a|e|] w1]; cbn in *.
Qed.
Lemma collects_wrap {A} f (m : NetM A) (S : A -> list NetEvent -> Prop) :
  collects P m S -> collects P (wrap f m) S.
Proof.
  intros Hm w. destruct (Hm w) as (n & E & H). exists n. unfold wrap.
  by destruct (m w) as [[a|e|] w1]; cbn in *.
Qed.

(** A loop keeps an invariant on the elements it has passed, its accumulator and the events. *)
Lemma collects_for_fold {A B} (l : list A) (f : B -> A -> NetM B)
    (I : list A -> B -> list NetEvent -> Prop) acc done new :
  I done acc new ->
  (forall done acc new x, I done acc new ->
     collects P (f acc x) (fun acc' new' => I (done ++ [x]) acc' (new' ++ new))) ->
  collects P (for_fold l acc f) (fun acc' new' => I (done ++ l) acc' (new' ++ new)).
Proof.
  intros HI Hf. revert acc done new HI. induction l as [|x l IH]; intros acc done new HI; cbn.
  - apply collects_ret. by rewrite app_nil_r.
  - eapply collects_bind; [exact (Hf _ _ _ _ HI)|]. intros acc' n1 HI'. cbn.
    eapply collects_mono; [exact (IH _ _ _ HI')|]. cbn. intros b n2. by rewrite <- !app_assoc.
Qed.

(** A loop that stops at the first failure has what each round established. *)
Lemma collects_for_each {A} (l : list A) (f : A -> NetM unit) (T : A -> list NetEvent -> Prop) :
  (forall x, persistent (T x)) -> (forall x, collects P (f x) (fun _ => T x)) ->
  collects P (for_each l f) (fun _ new => Forall (fun x => T x new) l).
Proof.
  intros Hp Hf. induction l as [|x l IH]; cbn; [by apply collects_ret|].
  eapply collects_bind; [apply Hf|]. intros [] new HT. eapply collects_mono; [exact IH|].
  cbn. intros [] new' HF. constructor.
  - eapply Hp; [|exact HT]. apply suffix_sub.
  - eapply Forall_impl; [exact HF|]. intros y. apply Hp, prefix_sub.
Qed.
End Rules.

(** ** Queries *)

(** [server] answered the question without an error code. *)
Definition answered (server name : string) (typ : Z) (recursive : bool) (r : Msg.t)
    (new : list NetEvent) : Prop :=
  Exchanged (question name typ recursive) server (Ok r) ∈ new /\ r.(Msg.Rcode) = RcodeSuccess.

Lemma collects_ExchangeContext P q server :
  collects P (ExchangeContext q server) (fun r new => Exchanged q server (Ok r) ∈ new).
Proof.
  intros w. unfold ExchangeContext. destruct (net_ExchangeContext q server (net w)) as [[r|e] n'].
  all: eexists [_]; cbn; split; [done|]. all: set_solver.
Qed.
Lemma collects_ctx_Err P : collects P ctx_Err (fun _ _ => True).
Proof. intros w. by exists []. Qed.
Lemma collects_NetNow P : collects P NetNow (fun t new => Clock t ∈ new).
Proof.
  intros w. unfold NetNow. destruct (net_Now (net w)) as [t n']. eexists [_]. split; [done|].
  cbn. set_solver.
Qed.
Lemma collects_range_names P m : collects P (range_names m) (fun _ _ => True).
Proof.
  intros w. unfold range_names. destruct (net_range m (net w)) as [l n']. by exists [].
Qed.

Lemma collects_exchange_attempts P n q server :
  collects P (exchange_attempts n q server) (fun r new => Exchanged q server (Ok r) ∈ new).
Proof.
  induction n as [|n IH]; cbn.
  all: eapply collects_bind; [apply collects_try, collects_ExchangeContext|].
  all: intros [r|e] new H; [by apply collects_ret|].
  all: eapply collects_bind; [apply collects_ctx_Err|]; intros [ce|] new' _;
    [apply collects_fail|].
  - apply collects_fail.
  - eapply collects_mono; [exact IH|]. cbn. set_solver.
Qed.

Lemma collects_query P server name typ recursive :
  collects P (query server name typ recursive) (answered server name typ recursive).
Proof.
  unfold query. eapply collects_bind; [apply collects_exchange_attempts|].
  intros r new H. destruct (Msg.Rcode r =? RcodeSuccess) eqn:E; [|apply collects_fail].
  apply collects_ret. bool_prop. by split.
Qed.

Lemma answered_persistent server name typ recursive r :
  persistent (answered server name typ recursive r).
Proof. intros new new' Hs [H ?]. split; [set_solver|done]. Qed.

(** A query followed by a check of its answer. *)
Lemma collects_checked P server name typ recursive (check : Msg.t -> result unit) :
  collects P (let* r := query server name typ recursive in lift (check r) ;; ret r)
    (fun r new => answered server name typ recursive r new /\ check r = Ok tt).
Proof.
  eapply collects_bind; [apply collects_query|]. intros r new H.
  eapply collects_bind; [apply collects_check|].
  intros [] new' Hc. apply collects_ret. split; [|done].
  eapply answered_persistent; [|exact H]. apply suffix_sub.
Qed.

(** ** DNSKEY evidence *)

(** A server's answer holds exactly the expected keys; its TTL is at most [ttl]. *)
Definition path_dnskeys (name : string) (want : list DNSKEY.t) (recursive : bool) (ttl : Z)
    (new : list NetEvent) (server : string) : Prop :=
  exists r, answered server name TypeDNSKEY recursive r new /\
    holds_dnskeys r want recursive (negb recursive) name /\
    (recursive = false -> rrsetTTL r.(Msg.Answer) TypeDNSKEY <= ttl).

(** What [d] reported for the keys of [zone] stands for: the local and every authoritative
    server, and with [includeResolvers] every resolver, answered with exactly these keys, and
    [d] is the largest TTL of the authoritative answers, in seconds, which is not zero. *)
Definition dnskey_evidence (p : Probe) (zone : string) (includeResolvers : bool)
    (keys : list Key.t) (d : duration) (new : list NetEvent) : Prop :=
  exists want ttl,
    Forall2 (fun k rr => keyRR (Fqdn zone) k = Ok rr) keys want /\
    Forall (path_dnskeys (Fqdn zone) want false ttl new) (p.(local) :: p.(authoritative)) /\
    (includeResolvers = true ->
     Forall (path_dnskeys (Fqdn zone) want true ttl new) p.(resolvers)) /\
    (exists server r, server ∈ p.(local) :: p.(authoritative) /\
       answered server (Fqdn zone) TypeDNSKEY false r new /\
       rrsetTTL r.(Msg.Answer) TypeDNSKEY = ttl) /\
    ttl <> 0 /\ d = dur_mul ttl Second.

Lemma path_dnskeys_persistent name want recursive ttl server :
  persistent (fun new => path_dnskeys name want recursive ttl new server).
Proof.
  intros new new' Hs (r & Ha & H). exists r. split; [|done]. by eapply answered_persistent.
Qed.
Lemma path_dnskeys_weaken name want recursive ttl ttl' new server :
  ttl <= ttl' -> path_dnskeys name want recursive ttl new server ->
  path_dnskeys name want recursive ttl' new server.
Proof. intros Hle (r & Ha & Hh & Ht). exists r. split_and!; [done..|]. intros ->. specialize (Ht eq_refl). lia. Qed.

(** The state of the loop over the authoritative servers. *)
Definition dnskey_so_far (name : string) (want : list DNSKEY.t) (servers : list string) (ttl : Z)
    (new : list NetEvent) : Prop :=
  Forall (path_dnskeys name want false ttl new) servers /\
  exists server r, server ∈ servers /\ answered server name TypeDNSKEY false r new /\
    rrsetTTL r.(Msg.Answer) TypeDNSKEY = ttl.

Lemma dnskey_so_far_next name want servers ttl new server r new' :
  dnskey_so_far name want servers ttl new ->
  answered server name TypeDNSKEY false r new' ->
  holds_dnskeys r want false true name ->
  dnskey_so_far name want (servers ++ [server])
    (if ttl <? rrsetTTL r.(Msg.Answer) TypeDNSKEY then rrsetTTL r.(Msg.Answer) TypeDNSKEY else ttl)
    (new' ++ new).
Proof.
  intros [HF (s & r0 & Hs & Ha0 & Ht)] Ha Hh. set (t := rrsetTTL r.(Msg.Answer) TypeDNSKEY) in *.
  assert (Hle : ttl <= (if ttl <? t then t else ttl) /\ t <= (if ttl <? t then t else ttl))
    by (destruct (Z.ltb_spec ttl t); lia).
  destruct Hle as [Hle1 Hle2]. split.
  - apply Forall_app. split.
    + eapply Forall_impl; [exact HF|]. intros x Hx. eapply path_dnskeys_weaken; [exact Hle1|].
      eapply path_dnskeys_persistent; [|exact Hx]. apply suffix_sub.
    + apply Forall_singleton. exists r. split_and!; [|done|intros _; exact Hle2].
      eapply answered_persistent; [|exact Ha]. apply prefix_sub.
  - destruct (ttl <? t).
    + exists server, r. split_and!; [set_solver| |done].
      eapply answered_persistent; [|exact Ha]. apply prefix_sub.
    + exists s, r0. split_and!; [set_solver| |done].
      eapply answered_persistent; [|exact Ha0]. apply suffix_sub.
Qed.

Lemma collects_dnskeyEvidence P p zone includeResolvers keys :
  collects P (dnskeyEvidence p zone includeResolvers keys)
    (dnskey_evidence p zone includeResolvers keys).
Proof.
  unfold dnskeyEvidence, dnskey_evidence. set (name := Fqdn zone).
  eapply collects_bind.
  { apply (collects_lift _ _ (fun want _ => Forall2 (fun k rr => keyRR name k = Ok rr) keys want)).
    intros want. apply expectedDNSKEYs_Ok. }
  intros want n0 Hwant. eapply collects_bind; [apply collects_wrap, collects_checked|].
  intros r n1 [Ha Hv%verifyDNSKEYSet_Ok]. eapply collects_bind.
  { apply (collects_for_fold P p.(authoritative) _
      (fun done => dnskey_so_far name want (p.(local) :: done)) _ [] n1).
    - split; [|exists p.(local), r; split_and!; [set_solver|done..]].
      apply Forall_singleton. exists r. by split_and!.
    - intros done ttl new server HI.
      eapply collects_bind; [apply collects_wrap, collects_checked|].
      intros r' n2 [Ha' Hv'%verifyDNSKEYSet_Ok]. apply collects_ret. cbn.
      by apply (dnskey_so_far_next _ _ (p.(local) :: done)). }
  cbn [app]. intros ttl n2 [HF HE]. eapply collects_bind.
  { apply (collects_mono P _ (fun _ new => includeResolvers = true ->
       Forall (fun s => path_dnskeys name want true ttl new s) p.(resolvers))); [|intros ?? H; exact H].
    destruct includeResolvers; [|by apply collects_ret].
    eapply collects_mono.
    - apply (collects_for_each P _ _ (fun s new => path_dnskeys name want true ttl new s));
        [intros s; apply path_dnskeys_persistent|]. intros s. apply collects_wrap.
      eapply collects_bind; [apply collects_query|]. intros r' n3 Ha'.
      eapply collects_mono; [apply collects_check|]. cbn. intros [] n4 Hv'%verifyDNSKEYSet_Ok.
      exists r'. split_and!; [|done|done]. eapply answered_persistent; [|done]. apply suffix_sub.
    - by intros [] new H _. }
  intros [] n3 HR. destruct (ttl =? 0) eqn:Et; [apply collects_fail|]. apply collects_ret. bool_prop.
  exists want, ttl. cbn [app].
  split_and!; [done| | | |done..].
  - eapply Forall_impl; [exact HF|]. intros s. apply path_dnskeys_persistent. events_sub.
  - intros Hi. eapply Forall_impl; [exact (HR Hi)|]. intros s.
    apply path_dnskeys_persistent. events_sub.
  - destruct HE as (s & r' & ? & Ha' & ?). exists s, r'. split_and!; [done| |done].
    eapply answered_persistent; [|exact Ha']. events_sub.
Qed.

(** ** Signature evidence *)

(** A server's answer carries a signature by [key] over its RRset of that type, valid at a
    clock reading of the same check. *)
Definition path_signed (name : string) (typ : Z) (key : DNSKEY.t) (recursive : bool)
    (new : list NetEvent) (server : string) : Prop :=
  exists r now, answered server name typ recursive r new /\ Clock now ∈ new /\
    signed_by r typ key recursive (negb recursive) name now.

Definition signature_evidence (p : Probe) (name : string) (typ : Z) (includeResolvers : bool)
    (key : Key.t) (new : list NetEvent) : Prop :=
  exists rr, keyRR name key = Ok rr /\
    Forall (path_signed name typ rr false new) (p.(local) :: p.(authoritative)) /\
    (includeResolvers = true -> Forall (path_signed name typ rr true new) p.(resolvers)).

Lemma path_signed_persistent name typ key recursive server :
  persistent (fun new => path_signed name typ key recursive new server).
Proof.
  intros new new' Hs (r & now & Ha & Hc & H). exists r, now. split_and!; [|by apply Hs|done].
  by eapply answered_persistent.
Qed.

(** The check every path of [verifySignature] makes, whatever the errors are wrapped in. *)
Lemma collects_signed P (check : Msg.t -> time -> NetM unit) server name typ key recursive :
  (forall r now, collects P (check r now) (fun _ _ =>
     verifySignatureIn r typ key recursive (negb recursive) name now = Ok tt)) ->
  collects P
    (let* r := query server name typ recursive in let* now := NetNow in check r now)
    (fun _ new => path_signed name typ key recursive new server).
Proof.
  intros Hcheck.
  eapply collects_bind; [apply collects_query|]. intros r n1 Ha.
  eapply collects_bind; [apply collects_NetNow|]. intros now n2 Hc.
  eapply collects_mono; [apply Hcheck|].
  cbn. intros [] n3 Hv%verifySignatureIn_Ok. exists r, now. split_and!; [| |done].
  - eapply answered_persistent; [|exact Ha]. events_sub.
  - rewrite !elem_of_app. tauto.
Qed.

Lemma collects_signed_paths P f servers name typ key recursive :
  collects P
    (for_each servers (fun server =>
      let* r := query server name typ recursive in
      let* now := NetNow in
      wrap (f server) (lift (verifySignatureIn r typ key recursive (negb recursive) name now))))
    (fun _ new => Forall (path_signed name typ key recursive new) servers).
Proof.
  apply (collects_for_each P _ _ (fun s new => path_signed name typ key recursive new s)).
  - intros s. apply path_signed_persistent.
  - intros s. apply collects_signed. intros r now. apply collects_wrap, collects_check.
Qed.

Lemma collects_verifySignature P p name typ key includeResolvers :
  collects P (verifySignature p name typ key includeResolvers)
    (fun _ => signature_evidence p name typ includeResolvers key).
Proof.
  unfold verifySignature, signature_evidence. eapply collects_bind.
  { apply (collects_lift _ _ (fun rr _ => keyRR name key = Ok rr)). by intros rr. }
  intros rr n0 Hrr. cbn beta in Hrr. eapply collects_bind.
  { apply collects_wrap, (collects_signed P _ p.(local) name typ rr false).
    intros r now. apply collects_check. }
  intros [] n1 Hl. eapply collects_bind; [apply collects_signed_paths|].
  intros [] n2 HA. eapply collects_mono.
  { apply (collects_mono P _ (fun _ new => includeResolvers = true ->
      Forall (path_signed name typ rr true new) p.(resolvers))); [|intros ?? H; exact H].
    destruct includeResolvers; [|by apply collects_ret].
    eapply collects_mono; [apply (collects_signed_paths P)|]. by intros [] new H _. }
  cbn. intros [] n3 HR. exists rr. split_and!; [done|constructor|].
  - eapply path_signed_persistent; [|exact Hl]. events_sub.
  - eapply Forall_impl; [exact HA|]. intros s. apply path_signed_persistent. events_sub.
  - intros Hi. eapply Forall_impl; [exact (HR Hi)|]. intros s.
    apply path_signed_persistent. events_sub.
Qed.

(** ** DS evidence through the resolvers *)
Definition path_ds (name : string) (want : list DSRR.t) (new : list NetEvent) (server : string)
    : Prop :=
  exists r, answered server name TypeDS true r new /\ r.(Msg.AuthenticatedData) = true /\
    holds_ds r want false name.

Definition ds_evidence (p : Probe) (zone : string) (keys : list Key.t) (new : list NetEvent) : Prop :=
  exists want, Forall2 (derives (Fqdn zone)) keys want /\
    Forall (path_ds (Fqdn zone) want new) p.(resolvers).

Lemma path_ds_persistent name want server :
  persistent (fun new => path_ds name want new server).
Proof. intros new new' Hs (r & Ha & H). exists r. split; [|done]. by eapply answered_persistent. Qed.

(** The comparison is with the sorted list [expectedDS] returned. *)
Lemma collects_expectedDS P zone keys :
  collects P (lift (expectedDS zone keys))
    (fun out _ => exists want, Forall2 (derives zone) keys want /\ out = Sort (map dsKey want)).
Proof. apply collects_lift. intros out. apply expectedDS_Ok. Qed.

Lemma collects_DSEvidence P p zone keys :
  collects P (probe_DSEvidence p zone keys) (fun _ => ds_evidence p zone keys).
Proof.
  unfold probe_DSEvidence, ds_evidence. eapply collects_bind; [apply collects_expectedDS|].
  intros ? n0 (want & Hw & ->). eapply collects_mono.
  - apply (collects_for_each P _ _ (fun s new => path_ds (Fqdn zone) want new s)).
    + intros s. apply path_ds_persistent.
    + intros s. eapply collects_bind; [apply collects_wrap, collects_query|]. intros r n1 Ha.
      destruct (Msg.AuthenticatedData r) eqn:Ead; [|apply collects_fail].
      eapply collects_mono; [apply collects_wrap, collects_check|].
      cbn beta. intros [] n2 Hd%exactDS_Ok. exists r. split_and!; [|done|done].
      eapply answered_persistent; [|exact Ha]. events_sub.
  - cbn. intros [] new HF. exists want. split; [done|].
    eapply Forall_impl; [exact HF|]. intros s. apply path_ds_persistent. events_sub.
Qed.

(** ** Iterated lookups *)

(** What a round over [servers] has established: some of them, as many as counted, answered
    with evidence [good], and the recorded TTL is the largest of theirs. *)
Definition round_state (good : string -> Z -> list NetEvent -> Prop) (servers : list string)
    (acc : Round.t) (new : list NetEvent) : Prop :=
  exists ss, sublist ss servers /\ Z.of_nat (length ss) = Round.verified acc /\
    0 <= Round.maxTTL acc /\
    Forall (fun s => exists ttl, good s ttl new /\ ttl <= Round.maxTTL acc) ss /\
    (Round.maxTTL acc = 0 \/ exists s, s ∈ ss /\ good s (Round.maxTTL acc) new).

(** Two distinct servers gave evidence; [ttl] is the largest TTL, or zero if none is positive. *)
Definition two_servers (good : string -> Z -> list NetEvent -> Prop) (ttl : Z)
    (new : list NetEvent) : Prop :=
  exists s1 s2 t1 t2, s1 <> s2 /\ good s1 t1 new /\ good s2 t2 new /\ t1 <= ttl /\ t2 <= ttl /\
    (ttl = 0 \/ exists s, good s ttl new).

Section Rounds.
Context (good : string -> Z -> list NetEvent -> Prop).
Context (Hgood : forall s ttl, persistent (good s ttl)).

Lemma round_start new : round_state good [] Round.initial new.
Proof. exists []. split_and!; [done..|by left]. Qed.

Lemma round_weaken servers servers' acc acc' new new' :
  sublist servers servers' -> Round.verified acc' = Round.verified acc ->
  Round.maxTTL acc' = Round.maxTTL acc -> new ⊆ new' ->
  round_state good servers acc new -> round_state good servers' acc' new'.
Proof.
  intros Hs Hv Ht Hn (ss & H1 & H2 & H3 & H4 & H5). exists ss. rewrite Hv, Ht. split_and!; [|done..| |].
  - by etrans.
  - eapply Forall_impl; [exact H4|]. intros s (ttl & Hg & ?). exists ttl. split; [|done].
    by eapply Hgood.
  - destruct H5 as [?|(s & ? & ?)]; [by left|]. right. exists s. split; [done|]. by eapply Hgood.
Qed.

Lemma round_verify servers acc new server ttl new' :
  round_state good servers acc new -> good server ttl new' ->
  round_state good (servers ++ [server]) (Round.verify ttl acc) (new' ++ new).
Proof.
  intros (ss & H1 & H2 & H3 & H4 & H5) Hg. exists (ss ++ [server]).
  assert (Hg' : good server ttl (new' ++ new)) by (eapply Hgood; [|exact Hg]; events_sub).
  unfold Round.verify. cbn. split_and!.
  - by apply sublist_app.
  - rewrite length_app. cbn. lia.
  - destruct (Z.ltb_spec (Round.maxTTL acc) ttl); lia.
  - apply Forall_app. split.
    + eapply Forall_impl; [exact H4|]. intros s (t & Hs & Hle). exists t. split.
      * eapply Hgood; [|exact Hs]. events_sub.
      * destruct (Z.ltb_spec (Round.maxTTL acc) ttl); lia.
    + apply Forall_singleton. exists ttl. split; [done|].
      destruct (Z.ltb_spec (Round.maxTTL acc) ttl); lia.
  - destruct (Z.ltb_spec (Round.maxTTL acc) ttl).
    + right. exists server. split; [set_solver|done].
    + destruct H5 as [?|(s & Hin & Hs)]; [by left|]. right. exists s.
      split; [set_solver|]. eapply Hgood; [|exact Hs]. events_sub.
Qed.

Lemma round_two_servers servers acc new :
  NoDup servers -> round_state good servers acc new -> 2 <= Round.verified acc ->
  two_servers good (Round.maxTTL acc) new.
Proof.
  intros Hnd (ss & Hs & Hv & _ & HF & HT) Hle.
  assert (Hnd' : NoDup ss) by by eapply sublist_NoDup.
  destruct ss as [|s1 [|s2 ss]]; cbn in Hv; [lia..|].
  inversion_clear HF as [|? ? (t1 & G1 & L1) HF']. inversion_clear HF' as [|? ? (t2 & G2 & L2) _].
  exists s1, s2, t1, t2. split_and!; [|done..|].
  - apply NoDup_cons in Hnd' as [Hni _]. set_solver.
  - destruct HT as [?|(s & _ & ?)]; [by left|right; by exists s].
Qed.

(** A step of a round either adds one piece of evidence or leaves the count alone. *)
Definition round_step (P : Prop) (f : Round.t -> string -> NetM Round.t) : Prop :=
  forall acc server, collects P (f acc server) (fun acc' new =>
    (exists ttl, acc' = Round.verify ttl acc /\ good server ttl new) \/
    (Round.verified acc' = Round.verified acc /\ Round.maxTTL acc' = Round.maxTTL acc)).

Lemma collects_round P f servers :
  round_step P f ->
  collects P (for_fold servers Round.initial f) (round_state good servers).
Proof.
  intros Hf. eapply collects_mono.
  - apply (collects_for_fold P servers f (round_state good) Round.initial [] []);
      [apply round_start|].
    intros done acc new server HI. eapply collects_mono; [apply Hf|]. cbn.
    intros acc' new' [(ttl & -> & Hg)|[Hv Ht]]; [by apply round_verify|].
    eapply round_weaken; [| | | |exact HI]; try done; [by apply sublist_inserts_r|events_sub].
  - cbn. intros acc new. by rewrite app_nil_r.
Qed.
End Rounds.

Lemma unique_aux_spec seen l :
  NoDup (unique_aux seen l) /\ forall x, x ∈ unique_aux seen l -> x ∉ seen.
Proof.
  revert seen. induction l as [|x l IH]; intros seen; cbn; [split; [constructor|set_solver]|].
  destruct (bool_decide_reflect (x ∈ seen)); [apply IH|].
  destruct (IH (x :: seen)) as [Hn Hs]. split.
  - constructor; [|done]. intros Hin%Hs. set_solver.
  - intros y [->|Hy]%elem_of_cons; [done|]. apply Hs in Hy. set_solver.
Qed.
Lemma unique_NoDup l : NoDup (unique l).
Proof. apply unique_aux_spec. Qed.
Lemma root_servers_NoDup : NoDup root_servers.
Proof. by apply (bool_decide_unpack _). Qed.

(** ** What each iterated lookup reads *)
Definition no_resolvers (p : Probe) : Prop := p.(resolvers) = [].

Lemma collects_referralServers p r :
  collects (no_resolvers p) (referralServers p r) (fun _ _ => True).
Proof.
  unfold referralServers. destruct (Nat.ltb _ _); [by apply collects_ret|].
  eapply collects_bind; [apply collects_range_names|]. intros entries n0 _.
  eapply collects_bind; [|intros; by apply collects_ret].
  apply (collects_for_fold (no_resolvers p) entries _ (fun _ _ _ => True) [] [] []); [done|].
  intros _ acc new entry _.
  apply (collects_for_fold (no_resolvers p) [TypeA; TypeAAAA] _ (fun _ _ _ => True) acc [] []); [done|].
  intros _ acc' _ typ _. destruct (resolvers p) as [|resolver ?] eqn:Er; [by apply collects_panic|].
  eapply collects_bind; [apply collects_try, collects_query|].
  intros [resp|e] n1 _; by apply collects_ret.
Qed.

(** ** DS evidence from the parent's servers *)
Definition parent_ds (name : string) (want : list DSRR.t) (server : string) (ttl : Z)
    (new : list NetEvent) : Prop :=
  exists r, answered server name TypeDS false r new /\ holds_ds r want true name /\
    rrsetTTL r.(Msg.Answer) TypeDS = ttl.

Definition parent_ds_evidence (zone : string) (keys : list Key.t) (d : duration)
    (new : list NetEvent) : Prop :=
  exists want ttl, Forall2 (derives (Fqdn zone)) keys want /\
    two_servers (parent_ds (Fqdn zone) want) ttl new /\ 0 < ttl /\ d = dur_mul ttl Second.

Lemma parent_ds_persistent name want server ttl : persistent (parent_ds name want server ttl).
Proof. intros new new' Hs (r & Ha & H). exists r. split; [|done]. by eapply answered_persistent. Qed.

Lemma two_servers_persistent good ttl :
  (forall s t, persistent (good s t)) -> persistent (two_servers good ttl).
Proof.
  intros Hg new new' Hs (s1 & s2 & t1 & t2 & Hne & H1 & H2 & L1 & L2 & HT).
  exists s1, s2, t1, t2. split_and!; [done|by eapply Hg..|done|done|].
  destruct HT as [?|(s & ?)]; [by left|right; exists s; by eapply Hg].
Qed.

Lemma ds_step_round p name want :
  round_step (parent_ds name want) (no_resolvers p) (ds_step p name (Sort (map dsKey want))).
Proof.
  intros acc server. unfold ds_step.
  eapply collects_bind; [apply collects_try, collects_query|].
  intros [r|e] n1 Ha; [|apply collects_ret; by right].
  destruct (hasType _ TypeDS).
  - destruct (exactDS _ _ _ _) as [[]|e] eqn:Ed; apply collects_ret; [left|by right].
    apply exactDS_Ok in Ed. exists (rrsetTTL r.(Msg.Answer) TypeDS). split; [done|]. by exists r.
  - eapply collects_bind; [apply collects_referralServers|]. intros next n2 _.
    destruct (Nat.ltb _ _); [apply collects_ret; by right|].
    destruct (hasType _ _); [apply collects_fail|apply collects_ret; by right].
Qed.

Lemma collects_ds_rounds p name want depth servers :
  NoDup servers ->
  collects (no_resolvers p) (ds_rounds p depth name (Sort (map dsKey want)) servers)
    (fun d new => exists ttl, two_servers (parent_ds name want) ttl new /\ 0 < ttl /\
                              d = dur_mul ttl Second).
Proof.
  revert servers. induction depth as [|depth IH]; intros servers Hnd; cbn; [apply collects_fail|].
  eapply collects_bind; [apply collects_round, ds_step_round; apply parent_ds_persistent|].
  intros round n1 HR. destruct (_ && _) eqn:E.
  - apply collects_ret. bool_prop. exists (Round.maxTTL round). split; [|done].
    eapply round_two_servers; [apply parent_ds_persistent|exact Hnd|exact HR|done].
  - destruct (0 <? Round.verified round); [apply collects_fail|].
    destruct (Round.last round); [apply collects_fail|].
    pose proof (unique_NoDup (Round.referrals round)) as Hu.
    destruct (unique _) as [|s servers']; [apply collects_fail|].
    eapply collects_mono; [by apply IH|]. cbn. intros d n2 (ttl & HT & H). exists ttl.
    split; [|done]. eapply two_servers_persistent; [apply parent_ds_persistent| |exact HT]. events_sub.
Qed.

Lemma collects_AuthoritativeDSEvidence p zone keys :
  collects (no_resolvers p) (probe_AuthoritativeDSEvidence p zone keys)
    (parent_ds_evidence zone keys).
Proof.
  unfold probe_AuthoritativeDSEvidence, parent_ds_evidence.
  eapply collects_bind; [apply collects_expectedDS|]. intros ? n0 (want & Hw & ->).
  eapply collects_mono; [apply collects_ds_rounds, root_servers_NoDup|].
  cbn. intros d n1 (ttl & HT & H). exists want, ttl. split; [done|]. split; [|exact H].
  eapply two_servers_persistent; [apply parent_ds_persistent| |exact HT]. events_sub.
Qed.

(** ** Delegation evidence *)
Definition ns_targets (r : Msg.t) (name : string) : list string :=
  omap (fun rr =>
    match rr with
    | RR_NS h ns =>
        if EqualFold (Fqdn (RR_Header.Name h)) name then Some (ToLower (Fqdn ns)) else None
    | _ => None
    end) (r.(Msg.Answer) ++ r.(Msg.Ns)).

Definition parent_ns (name : string) (want : list string) (server : string) (ttl : Z)
    (new : list NetEvent) : Prop :=
  ttl = 0 /\ exists r, answered server name TypeNS false r new /\
    forall x, x ∈ ns_targets r name <-> x ∈ want.

(** The expected names, trimmed, fully qualified and in lower case. *)
Definition wanted_ns (expected : list string) : list string :=
  map (fun item => ToLower (Fqdn (TrimSpace item))) expected.

Definition delegation_evidence (zone : string) (expected : list string) (new : list NetEvent)
    : Prop :=
  two_servers (parent_ns (Fqdn zone) (wanted_ns expected)) 0 new.

Lemma elem_of_Compact l x : x ∈ Compact l <-> x ∈ l.
Proof.
  induction l as [|a l IH]; [done|]. destruct l as [|b l]; [done|]. cbn [Compact].
  destruct (String.eqb_spec a b) as [->|Hne]; [rewrite IH; set_solver|].
  rewrite !(elem_of_cons _ _ a). by rewrite IH.
Qed.
Lemma elem_of_Sort l x : x ∈ Sort l <-> x ∈ l.
Proof. by rewrite Sort_Permutation. Qed.

Lemma parent_ns_persistent name want server ttl : persistent (parent_ns name want server ttl).
Proof.
  intros new new' Hs [-> (r & Ha & H)]. split; [done|]. exists r. split; [|done].
  by eapply answered_persistent.
Qed.

Lemma delegation_step_round p name expected :
  round_step (parent_ns name (wanted_ns expected)) (no_resolvers p)
    (delegation_step p name (expectedNS expected)).
Proof.
  intros acc server. unfold delegation_step.
  eapply collects_bind; [apply collects_try, collects_query|].
  intros [r|e] n1 Ha; [|apply collects_ret; by right].
  destruct (Nat.ltb _ _).
  - destruct (delegatedNS r name != expectedNS expected) eqn:E; [apply collects_fail|].
    apply collects_ret. left. bool_prop. exists 0. split; [done|]. split; [done|]. exists r. split; [done|].
    intros x. unfold delegatedNS, expectedNS in E. fold (ns_targets r name) in E.
    rewrite <- (elem_of_Sort (ns_targets r name)), <- elem_of_Compact, E.
    by rewrite elem_of_Compact, elem_of_Sort.
  - eapply collects_bind; [apply collects_referralServers|]. intros next n2 _.
    apply collects_ret; by right.
Qed.

Lemma collects_delegation_rounds p name expected depth servers :
  NoDup servers ->
  collects (no_resolvers p) (delegation_rounds p depth name (expectedNS expected) servers)
    (fun _ => two_servers (parent_ns name (wanted_ns expected)) 0).
Proof.
  revert servers. induction depth as [|depth IH]; intros servers Hnd; cbn; [apply collects_fail|].
  eapply collects_bind; [apply collects_round, delegation_step_round; apply parent_ns_persistent|].
  intros round n1 HR. destruct (2 <=? _) eqn:E.
  - apply collects_ret. bool_prop.
    eapply round_two_servers in HR as (s1 & s2 & t1 & t2 & Hne & [-> H1] & [-> H2] & _);
      [|apply parent_ns_persistent|done..].
    exists s1, s2, 0, 0. by split_and!; [| | | | |left].
  - destruct (0 <? Round.verified round); [apply collects_fail|].
    pose proof (unique_NoDup (Round.referrals round)) as Hu.
    destruct (unique _) as [|s servers']; [destruct (Round.last round); apply collects_fail|].
    eapply collects_mono; [by apply IH|]. cbn. intros [] n2 HT.
    eapply two_servers_persistent; [apply parent_ns_persistent| |exact HT]. events_sub.
Qed.

Lemma collects_DelegationEvidence p zone expected :
  collects (no_resolvers p) (probe_DelegationEvidence p zone expected)
    (fun _ => delegation_evidence zone expected).
Proof.
  unfold probe_DelegationEvidence. destruct (Nat.ltb _ 2); [apply collects_fail|].
  apply collects_delegation_rounds, root_servers_NoDup.
Qed.

(** ** Evidence that there is no DS record *)

(** A negative response whose denial is signed by the DNSKEY records of the zone owning its
    SOA, a proper ancestor of the name, as [resolver] returned them with the AD flag. *)
Definition denied_response (name resolver : string) (requireAA : bool) (r : Msg.t)
    (new : list NetEvent) : Prop :=
  let parent := soa_owner r.(Msg.Ns) in
  (requireAA = true -> r.(Msg.Authoritative) = true) /\
  hasType r.(Msg.Answer) TypeDS = false /\
  parent <> "" /\ IsSubDomain parent name = true /\ EqualFold parent name = false /\
  exists kr now, answered resolver parent TypeDNSKEY true kr new /\
    kr.(Msg.AuthenticatedData) = true /\
    Forall (fun k => sameOwnerClass k.(DNSKEY.Hdr) parent = true) (dnskeys kr) /\
    dnskeys kr <> [] /\ Clock now ∈ new /\ denies r name parent (dnskeys kr) now.

Lemma denied_response_persistent name resolver requireAA r :
  persistent (denied_response name resolver requireAA r).
Proof.
  intros new new' Hs (H1 & H2 & H3 & H4 & H5 & kr & now & Ha & H6 & H7 & H8 & Hc & H9).
  split_and!; [done..|]. exists kr, now. split_and!; [|done..|by apply Hs|done].
  by eapply answered_persistent.
Qed.

Lemma collects_verifyNoDS P r name resolver requireAA :
  collects P (verifyNoDS r name resolver requireAA)
    (fun _ => denied_response name resolver requireAA r).
Proof.
  unfold verifyNoDS, denied_response.
  destruct (requireAA && _) eqn:Eaa; [apply collects_fail|]. rewrite implb_false in Eaa.
  destruct (hasType _ _) eqn:Eds; [apply collects_fail|].
  set (parent := soa_owner _). destruct (_ || _) eqn:Ep; [apply collects_fail|]. bool_prop.
  eapply collects_bind; [apply collects_wrap, collects_query|]. intros kr n1 Ha.
  destruct (Msg.AuthenticatedData kr) eqn:Ead; cbn [negb]; [|apply collects_fail].
  eapply collects_bind.
  { apply (collects_lift _ _ (fun keys _ =>
      Forall (fun k => sameOwnerClass k.(DNSKEY.Hdr) parent = true) (dnskeys kr) /\
      keys = dnskeys kr)).
    intros keys [HF E]%collect_owned_Ok. by rewrite map_id in E. }
  intros ? n2 [HF ->]. destruct (Nat.eqb _ _) eqn:En; [apply collects_fail|].
  eapply collects_bind; [apply collects_NetNow|]. intros now n3 Hc.
  eapply collects_mono; [apply collects_check|]. cbn beta. intros [] n4 Hd%verifyNoDSProof_Ok.
  split_and!; [done..|]. exists kr, now. split_and!; [|done|done| |rewrite !elem_of_app; tauto|done].
  - eapply answered_persistent; [|exact Ha]. events_sub.
  - intros E. by rewrite E in En.
Qed.

Definition parent_no_ds (name first : string) (server : string) (ttl : Z) (new : list NetEvent)
    : Prop :=
  ttl = 0 /\ exists r, answered server name TypeDS false r new /\
    denied_response name first true r new.

Definition path_no_ds (name : string) (new : list NetEvent) (server : string) : Prop :=
  exists r, answered server name TypeDS true r new /\ denied_response name server false r new.

Definition no_ds_evidence (p : Probe) (zone : string) (new : list NetEvent) : Prop :=
  Forall (path_no_ds (Fqdn zone) new) p.(resolvers) /\
  exists first rest, p.(resolvers) = first :: rest /\ rest <> [] /\
    two_servers (parent_no_ds (Fqdn zone) first) 0 new.

Lemma parent_no_ds_persistent name first server ttl :
  persistent (parent_no_ds name first server ttl).
Proof.
  intros new new' Hs [-> (r & Ha & H)]. split; [done|]. exists r.
  split; [by eapply answered_persistent|by eapply denied_response_persistent].
Qed.
Lemma path_no_ds_persistent name server : persistent (fun new => path_no_ds name new server).
Proof.
  intros new new' Hs (r & Ha & H). exists r.
  split; [by eapply answered_persistent|by eapply denied_response_persistent].
Qed.

Lemma no_ds_step_round p name first :
  round_step (parent_no_ds name first) (no_resolvers p) (no_ds_step p name first).
Proof.
  intros acc server. unfold no_ds_step.
  eapply collects_bind; [apply collects_try, collects_query|].
  intros [r|e] n1 Ha; [|apply collects_ret; by right].
  destruct (hasType _ TypeDS); [apply collects_fail|].
  destruct (hasType _ TypeSOA).
  - eapply collects_bind; [apply collects_try, collects_verifyNoDS|].
    intros [[]|e] n2 Hd; apply collects_ret; [left|by right].
    exists 0. split; [done|]. split; [done|]. exists r. split.
    + eapply answered_persistent; [|exact Ha]. events_sub.
    + eapply denied_response_persistent; [|exact Hd]. events_sub.
  - eapply collects_bind; [apply collects_referralServers|]. intros next n2 _.
    apply collects_ret; by right.
Qed.

Lemma collects_no_ds_rounds p name first depth servers :
  NoDup servers ->
  collects (no_resolvers p) (no_ds_rounds p depth name first servers)
    (fun _ => two_servers (parent_no_ds name first) 0).
Proof.
  revert servers. induction depth as [|depth IH]; intros servers Hnd; cbn; [apply collects_fail|].
  eapply collects_bind; [apply collects_round, no_ds_step_round; apply parent_no_ds_persistent|].
  intros round n1 HR. destruct (2 <=? _) eqn:E.
  - apply collects_ret. bool_prop.
    eapply round_two_servers in HR as (s1 & s2 & t1 & t2 & Hne & [-> H1] & [-> H2] & _);
      [|apply parent_no_ds_persistent|done..].
    exists s1, s2, 0, 0. by split_and!; [| | | | |left].
  - destruct (0 <? Round.verified round); [apply collects_fail|].
    pose proof (unique_NoDup (Round.referrals round)) as Hu.
    destruct (unique _) as [|s servers']; [destruct (Round.last round); apply collects_fail|].
    eapply collects_mono; [by apply IH|]. cbn. intros [] n2 HT.
    eapply two_servers_persistent; [apply parent_no_ds_persistent| |exact HT]. events_sub.
Qed.

Lemma collects_NoDSEvidence p zone :
  collects (no_resolvers p) (probe_NoDSEvidence p zone) (fun _ => no_ds_evidence p zone).
Proof.
  unfold probe_NoDSEvidence, no_ds_evidence.
  destruct (resolvers p) as [|first [|second rest]] eqn:Er; [apply collects_fail..|].
  rewrite <- Er. eapply collects_bind.
  - apply (collects_for_each _ p.(resolvers) _ (fun s new => path_no_ds (Fqdn zone) new s)).
    + intros s. apply path_no_ds_persistent.
    + intros s. apply collects_wrap. eapply collects_bind; [apply collects_query|]. intros r n1 Ha.
      eapply collects_mono; [apply collects_verifyNoDS|]. cbn beta. intros [] n2 Hd. exists r. split.
      * eapply answered_persistent; [|exact Ha]. events_sub.
      * eapply denied_response_persistent; [|exact Hd]. events_sub.
  - intros [] n1 HF. eapply collects_mono; [apply collects_no_ds_rounds, root_servers_NoDup|].
    cbn beta. intros [] n2 HT. split.
    + eapply Forall_impl; [exact HF|]. intros s. apply path_no_ds_persistent. events_sub.
    + exists first, (second :: rest). split_and!; [done..|].
      eapply two_servers_persistent; [apply parent_no_ds_persistent| |exact HT]. events_sub.
Qed.

(** ** Attempts *)

(** The exchanges of one question: [failures] failed, newest first, then [final]. *)
Definition attempted (q : Request.t) (server : string) (failures : list error) (final : result Msg.t)
    : list NetEvent :=
  Exchanged q server final :: map (fun e => Exchanged q server (Err e)) failures.

Lemma exchange_attempts_spec n q server w :
  exists failures final,
    (exchange_attempts n q server w).2.(log) = attempted q server failures final ++ w.(log) /\
    (length failures <= n)%nat /\
    match (exchange_attempts n q server w).1 with
    | Val r => final = Ok r
    | Fail_ e => exists e', final = Err e' /\
        ((e = e' /\ length failures = n) \/ net_Err (exchange_attempts n q server w).2.(net) = Some e)
    | Panic => False
    end.
Proof.
  revert w. induction n as [|n IH]; intros w; cbn; unfold bind, try, ExchangeContext;
    destruct (net_ExchangeContext q server (net w)) as [[r|e] n']; cbn.
  1,3: exists [], (Ok r); split_and!; [done|cbn; lia|done].
  - exists [], (Err e). destruct (net_Err n') eqn:Ec; cbn; split_and!; eauto 10.
  - destruct (net_Err n') as [ce|] eqn:Ec; cbn.
    + exists [], (Err e). split_and!; [done|cbn; lia|eauto 10].
    + destruct (IH (mkNetWorld n' (Exchanged q server (Err e) :: log w))) as (fs & final & E & Hle & H).
      exists (fs ++ [e]), final. rewrite E. unfold attempted. rewrite map_app, length_app. cbn.
      split_and!; [by rewrite <- app_assoc|lia|].
      destruct (exchange_attempts n q server _) as [[r|e1|] w']; cbn in *; [done| |done].
      destruct H as (e' & -> & [[-> Hn]|Hc]); exists e'; split; [done|left; split; [done|lia]|done|by right].
Qed.

(** C24: a query asks one server the one question at most three times, stops at
    the first answer, and returns exactly that answer when its response code is success; it
    fails otherwise only because the final answer carries another code, all three exchanges
    failed, or the caller's context ended. *)
Theorem query_attempts server name typ recursive w :
  let q := question name typ recursive in
  exists failures final,
    (query server name typ recursive w).2.(log) = attempted q server failures final ++ w.(log) /\
    (length failures <= 2)%nat /\
    match (query server name typ recursive w).1 with
    | Val r => final = Ok r /\ r.(Msg.Rcode) = RcodeSuccess
    | Fail_ e =>
        (exists r, final = Ok r /\ r.(Msg.Rcode) <> RcodeSuccess) \/
        (exists e', final = Err e' /\
           ((e = e' /\ length failures = 2%nat) \/
            net_Err (query server name typ recursive w).2.(net) = Some e))
    | Panic => False
    end.
Proof.
  intros q. destruct (exchange_attempts_spec 2 q server w) as (fs & final & E & Hle & H).
  exists fs, final. unfold query. fold q. unfold bind.
  destruct (exchange_attempts 2 q server w) as [[r|e|] w']; cbn in *; [|by eauto|done].
  destruct (Msg.Rcode r =? RcodeSuccess) eqn:Er; bool_prop; cbn; split_and!; eauto.
Qed.
End Evidence.
