(* ===== verification/StateFile.v ===== *)
(** * internal/state/store.go: the state file.

    The file system is a directory of names over inodes, with what a crash may undo
    written out: directory operations not yet synced are lost from some point on, and the
    content of a file not yet synced is arbitrary.  Every system call may fail; the states
    between two calls are the [history] a crash can fall into. *)
From S2P Require Import Prelude GoStrings GoTime Model Effects.

(** ** Files *)
Module Inode.
Record t := mk { content : string; synced : bool }.
End Inode.

Inductive DirOp :=
| Link (name : string) (ino : nat)
| Unlink (name : string)
| Rename (old new : string).

Definition apply_op (d : gmap string nat) (op : DirOp) : gmap string nat :=
  match op with
  | Link name ino => <[name := ino]> d
  | Unlink name => delete name d
  | Rename old new =>
      match d !! old with
      | Some ino => <[new := ino]> (delete old d)
      | None => d
      end
  end.
Definition apply_ops (d : gmap string nat) (ops : list DirOp) : gmap string nat :=
  fold_left apply_op ops d.

Module FS.
Record t := mk {
  base : gmap string nat;        (* the directory on disk *)
  pending : list DirOp;          (* operations on it since the last sync, oldest first *)
  inodes : gmap nat Inode.t;
}.
End FS.

Definition directory (fs : FS.t) : gmap string nat := apply_ops fs.(FS.base) fs.(FS.pending).
Definition read (fs : FS.t) (name : string) : option string :=
  match directory fs !! name with
  | Some ino => Inode.content <$> fs.(FS.inodes) !! ino
  | None => None
  end.

(** What a crash leaves: a prefix of the pending operations, and files whose content
    was not synced with any content. *)
Inductive crash (fs : FS.t) : FS.t -> Prop :=
| crash_at k inodes' :
    (forall ino s, fs.(FS.inodes) !! ino = Some (Inode.mk s true) ->
                   inodes' !! ino = Some (Inode.mk s true)) ->
    crash fs (FS.mk (apply_ops fs.(FS.base) (take k fs.(FS.pending))) [] inodes').

Definition with_pending (op : DirOp) (fs : FS.t) : FS.t :=
  FS.mk fs.(FS.base) (fs.(FS.pending) ++ [op]) fs.(FS.inodes).
Definition set_inode (ino : nat) (i : Inode.t) (fs : FS.t) : FS.t :=
  FS.mk fs.(FS.base) fs.(FS.pending) (<[ino := i]> fs.(FS.inodes)).
Definition sync_dir (fs : FS.t) : FS.t := FS.mk (directory fs) [] fs.(FS.inodes).

(** ** The kernel and the JSON encoding *)

(** Which calls fail and how, and the names [os.CreateTemp] picks. *)
Class Kernel := {
  K : Type;
  fault : K -> option error * K;
  (* what a failed write leaves in the file *)
  short_write : string -> K -> string * K;
  fresh_temp : string -> FS.t -> string;
}.
(** [os.CreateTemp(dir, ".state-*")] makes a new file, which is not the state file. *)
Class KernelOk `{!Kernel} (path : string) : Prop := {
  fresh_temp_new fs : directory fs !! fresh_temp path fs = None;
  fresh_temp_path fs : fresh_temp path fs <> path;
}.

(** A decoded state: a map absent from the document stays nil. *)
Module Decoded.
Record t := mk {
  Version : Z; EnrollmentArmedAt : time;
  Workflows : option (gmap string Workflow.t);
  Idempotency : option (gmap string string);
  Notifications : option (gmap string Notification.t);
}.
End Decoded.

(** encoding/json on model.State; [json_Unmarshal b init] decodes into [init]. *)
Class Json := {
  json_MarshalIndent : State.t -> result string;
  json_Unmarshal : string -> Decoded.t -> result Decoded.t;
}.

(** The open store: the lock file is held until [Close]. *)
Module Store.
Record t := mk { path : string; data : State.t; held : bool }.
End Store.

Definition currentVersion : Z := 3.

Section Store.
Context {KN : Kernel} {JS : Json}.

Record Disk := mkDisk {
  kernel : K;
  fs : FS.t;
  history : list FS.t;      (* the states after each call, newest first *)
  locked : gset string;     (* the advisory locks held in the system *)
}.
Definition D (A : Type) : Type := Comp Disk A.

Definition on_fs (f : FS.t -> FS.t) (w : Disk) : Disk :=
  mkDisk w.(kernel) (f w.(fs)) (f w.(fs) :: w.(history)) w.(locked).

(** A system call: it fails without an effect, or has its effect. *)
Definition sys {A} (f : FS.t -> A * FS.t) : D A := fun w =>
  match fault w.(kernel) with
  | (Some e, k') => (Fail_ e, mkDisk k' w.(fs) w.(history) w.(locked))
  | (None, k') =>
      let '(a, fs') := f w.(fs) in
      (Val a, mkDisk k' fs' (fs' :: w.(history)) w.(locked))
  end.
Definition sys_check : D unit := sys (fun fs => (tt, fs)).

Definition new_ino (fs : FS.t) : nat := fresh (dom fs.(FS.inodes) : gset nat).

Definition CreateTemp (path : string) : D (string * nat) :=
  sys (fun fs =>
    let name := fresh_temp path fs in let ino := new_ino fs in
    ((name, ino), with_pending (Link name ino) (set_inode ino (Inode.mk "" false) fs))).

(** [tmp.Write]: a failed write leaves some other content. *)
Definition Write (ino : nat) (b : string) : D unit := fun w =>
  match fault w.(kernel) with
  | (Some e, k') =>
      let '(part, k'') := short_write b k' in
      (Fail_ e, on_fs (set_inode ino (Inode.mk part false)) (mkDisk k'' w.(fs) w.(history) w.(locked)))
  | (None, k') =>
      (Val tt, on_fs (set_inode ino (Inode.mk b false)) (mkDisk k' w.(fs) w.(history) w.(locked)))
  end.
Definition Sync (ino : nat) : D unit :=
  sys (fun fs =>
    (tt, match fs.(FS.inodes) !! ino with
         | Some i => set_inode ino (Inode.mk i.(Inode.content) true) fs
         | None => fs
         end)).
Definition os_Rename (old new : string) : D unit :=
  sys (fun fs => (tt, with_pending (Rename old new) fs)).
Definition os_Remove (name : string) : D unit :=
  sys (fun fs => (tt, with_pending (Unlink name) fs)).
Definition dir_Sync : D unit := sys (fun fs => (tt, sync_dir fs)).

(** [m] with a deferred [cleanup], which is told whether [m] succeeded. *)
Definition deferring (m : D unit) (cleanup : bool -> D unit) : D unit :=
  let* r := try m in
  cleanup (is_ok r) ;;
  lift r.

Definition writeAtomic (path : string) (data : State.t) : D unit :=
  sys_check ;; (* os.MkdirAll *)
  let* b := lift (json_MarshalIndent data) in
  let* (name, ino) := CreateTemp path in
  deferring
    (sys_check ;; (* tmp.Chmod *)
     Write ino b ;;
     Sync ino ;;
     sys_check ;; (* tmp.Close *)
     os_Rename name path ;;
     sys_check ;; (* os.Open(dir) *)
     (let* r := try dir_Sync in
      match r with
      | Err e => let* _ := try sys_check in fail e (* d.Close *)
      | Ok _ => sys_check (* d.Close *)
      end))
    (fun ok =>
       let* _ := try sys_check in (* tmp.Close *)
       if ok then ret tt else let* _ := try (os_Remove name) in ret tt).

(** ** The store *)
(** [cloneState]: a value copy of every map. *)
Definition cloneState (s : State.t) : State.t :=
  State.mk s.(State.Version) s.(State.EnrollmentArmedAt)
    (list_to_map (map_to_list s.(State.Workflows)))
    (list_to_map (map_to_list s.(State.Idempotency)))
    (list_to_map (map_to_list s.(State.Notifications))).

Definition Snapshot_ (s : Store.t) : State.t := cloneState s.(Store.data).

Definition Update_ (s : Store.t) (fn : State.t -> result State.t) : D Store.t :=
  let* clone := lift (fn (cloneState s.(Store.data))) in
  writeAtomic s.(Store.path) clone ;;
  ret (Store.mk s.(Store.path) clone s.(Store.held)).

Definition lock_path (path : string) : string := path +:+ ".lock".

(** [os.OpenFile(path+".lock", O_CREATE|O_RDWR)]. *)
Definition open_lock (path : string) : D unit :=
  sys (fun fs =>
    (tt, match directory fs !! lock_path path with
         | Some _ => fs
         | None =>
             let ino := new_ino fs in
             with_pending (Link (lock_path path) ino) (set_inode ino (Inode.mk "" false) fs)
         end)).
(** [unix.Flock(LOCK_EX|LOCK_NB)]. *)
Definition flock (path : string) : D unit := fun w =>
  match fault w.(kernel) with
  | (Some e, k') => (Fail_ e, mkDisk k' w.(fs) w.(history) w.(locked))
  | (None, k') =>
      if bool_decide (path ∈ w.(locked))
      then (Fail_ (errors_New "resource temporarily unavailable"),
            mkDisk k' w.(fs) w.(history) w.(locked))
      else (Val tt, mkDisk k' w.(fs) w.(history) ({[path]} ∪ w.(locked)))
  end.
Definition unlock (path : string) : D unit := fun w =>
  (Val tt, mkDisk w.(kernel) w.(fs) w.(history) (w.(locked) ∖ {[path]})).

(** [Close]: the lock is gone whatever closing the file returns. *)
Definition Close (s : Store.t) : D unit :=
  if s.(Store.held) then unlock s.(Store.path) ;; sys_check else ret tt.

(** [os.ReadFile]; [None] is os.ErrNotExist, which leaves no bytes either. *)
Definition ReadFile (path : string) : D (option string) := sys (fun fs => (read fs path, fs)).

Definition initial_data : Decoded.t := Decoded.mk currentVersion time_zero (Some ∅) (Some ∅) (Some ∅).

Definition decode_state (b : string) : result State.t :=
  let? d :=
    if b == "" then Ok initial_data else
    let? d := map_err (fun e => Errorf "decode state: %w" [AWrap e])
                (json_Unmarshal b initial_data) in
    if (Decoded.Version d <? 1) || (currentVersion <? Decoded.Version d)
    then Err (Errorf "unsupported state version %d" [AInt (Decoded.Version d)])
    else Ok d in
  Ok (State.mk (Decoded.Version d) (Decoded.EnrollmentArmedAt d)
        (default ∅ (Decoded.Workflows d)) (default ∅ (Decoded.Idempotency d))
        (default ∅ (Decoded.Notifications d))).

(** [_ = s.Close(); return nil, err]. *)
Definition closing {A} (s : Store.t) (m : D A) : D A :=
  let* r := try m in
  match r with
  | Ok a => ret a
  | Err e => let* _ := try (Close s) in fail e
  end.

Definition Open (path : string) : D Store.t :=
  sys_check ;; (* os.MkdirAll *)
  open_lock path ;;
  wrap (fun e => Errorf "state is locked by another controller: %w" [AWrap e]) (flock path) ;;
  let opened := Store.mk path (State.mk currentVersion time_zero ∅ ∅ ∅) true in
  let* b := closing opened (ReadFile path) in
  let* s := closing opened (lift (decode_state (default "" b))) in
  if State.Version s <? currentVersion then
    let s' := s <| State.Version := currentVersion |> in
    closing opened
      (wrap (fun e => Errorf "persist state v%d to v%d migration: %w"
               [AInt (State.Version s); AInt currentVersion; AWrap e])
         (writeAtomic path s')) ;;
    ret (Store.mk path s' true)
  else ret (Store.mk path s true).
End Store.
