(* ===== verification/StateFileFacts.v ===== *)
(** * The state file survives crashes and failures: what [writeAtomic], [Update] and
    [Open] leave on disk at every point. *)
From S2P Require Import Prelude GoStrings GoTime Model Effects Wp StateFile.

(** ** What every crash leaves in a file *)

(** Whatever prefix of the directory operations survives, the file [path] is synced with a
    content in [C], or absent if [C] allows that. *)
Definition holds (path : string) (C : option string -> Prop) (fs : FS.t) : Prop :=
  forall k, match apply_ops fs.(FS.base) (take k fs.(FS.pending)) !! path with
            | Some ino => exists s, fs.(FS.inodes) !! ino = Some (Inode.mk s true) /\ C (Some s)
            | None => C None
            end.

Lemma holds_crash path C fs fs' : holds path C fs -> crash fs fs' -> C (read fs' path).
Proof.
  intros H [k inodes' Hi]. specialize (H k). unfold read, directory. cbn.
  destruct (_ !! path) as [ino|]; [|done]. destruct H as (s & Hs & HC). by rewrite (Hi _ _ Hs).
Qed.

Lemma holds_after_crash path C fs fs' : holds path C fs -> crash fs fs' -> holds path C fs'.
Proof.
  intros H [k inodes' Hi] k'. specialize (H k). cbn. rewrite take_nil. cbn.
  destruct (_ !! path) as [ino|]; [|done]. destruct H as (s & Hs & HC). eauto.
Qed.

(** A crash settles the content. *)
Lemma holds_crash_exact path C fs fs' :
  holds path C fs -> crash fs fs' -> holds path (fun c => c = read fs' path) fs'.
Proof.
  intros H [k inodes' Hi] k'. specialize (H k). unfold read, directory. cbn. rewrite take_nil. cbn.
  destruct (_ !! path) as [ino|]; [|done]. destruct H as (s & Hs & _). exists s. by rewrite (Hi _ _ Hs).
Qed.

(** A crash that loses no directory operation. *)
Lemma crash_complete fs : crash fs (FS.mk (directory fs) [] fs.(FS.inodes)).
Proof.
  pose proof (crash_at fs (length (FS.pending fs)) (FS.inodes fs) (fun _ _ H => H)) as H.
  by rewrite take_ge in H.
Qed.

Lemma holds_all path C fs :
  holds path C fs ->
  match directory fs !! path with
  | Some ino => exists s, fs.(FS.inodes) !! ino = Some (Inode.mk s true) /\ C (Some s)
  | None => C None
  end.
Proof. intros H. specialize (H (length (FS.pending fs))). by rewrite take_ge in H. Qed.

Lemma holds_read path C fs : holds path C fs -> C (read fs path).
Proof.
  intros H%holds_all. unfold read. destruct (directory fs !! path); [|done].
  destruct H as (s & -> & ?). done.
Qed.

Lemma holds_mono path (C C' : option string -> Prop) fs :
  (forall c, C c -> C' c) -> holds path C fs -> holds path C' fs.
Proof.
  intros HC H k. specialize (H k). destruct (_ !! path); [|by apply HC].
  destruct H as (s & ? & ?). eauto.
Qed.

(** One more directory operation. *)
Lemma take_snoc {A} k (l : list A) x :
  take k (l ++ [x]) = take k l \/ take k (l ++ [x]) = l ++ [x].
Proof.
  destruct (decide (k <= length l)%nat); [left; by rewrite take_app_le|right; rewrite take_ge; [done|]].
  rewrite length_app. cbn. lia.
Qed.

Lemma directory_pending op fs : directory (with_pending op fs) = apply_op (directory fs) op.
Proof. unfold directory, with_pending, apply_ops. cbn. by rewrite fold_left_app. Qed.

Lemma holds_pending path C op fs :
  holds path C fs ->
  match apply_op (directory fs) op !! path with
  | Some ino => exists s, fs.(FS.inodes) !! ino = Some (Inode.mk s true) /\ C (Some s)
  | None => C None
  end ->
  holds path C (with_pending op fs).
Proof.
  intros H Hop k. cbn. destruct (take_snoc k (FS.pending fs) op) as [->| ->]; [apply H|].
  unfold apply_ops. by rewrite fold_left_app.
Qed.

Lemma holds_unlink path C name fs :
  name <> path -> holds path C fs -> holds path C (with_pending (Unlink name) fs).
Proof.
  intros Hn H. apply holds_pending; [done|]. cbn. rewrite lookup_delete_ne by done. by apply holds_all.
Qed.

Lemma holds_link path C name ino fs :
  name <> path -> holds path C fs -> holds path C (with_pending (Link name ino) fs).
Proof.
  intros Hn H. apply holds_pending; [done|]. cbn. rewrite lookup_insert_ne by done. by apply holds_all.
Qed.

Lemma read_unlink path name fs :
  name <> path -> read (with_pending (Unlink name) fs) path = read fs path.
Proof. intros Hn. unfold read. rewrite directory_pending. cbn. by rewrite lookup_delete_ne. Qed.

(** A file the state file's name never refers to. *)
Definition apart_from (path : string) (ino : nat) (fs : FS.t) : Prop :=
  forall k, apply_ops fs.(FS.base) (take k fs.(FS.pending)) !! path <> Some ino.

Lemma holds_set_inode path C ino i fs :
  apart_from path ino fs -> holds path C fs -> holds path C (set_inode ino i fs).
Proof.
  intros Ha H k. specialize (H k). specialize (Ha k). cbn.
  destruct (_ !! path) as [ino'|]; [|done]. destruct H as (s & Hs & HC). exists s.
  split; [|done]. rewrite lookup_insert_ne; [done|congruence].
Qed.

Lemma new_ino_fresh fs : fs.(FS.inodes) !! new_ino fs = None.
Proof. apply (not_elem_of_dom (D := gset nat)). unfold new_ino. apply is_fresh. Qed.

Lemma apart_fresh path C fs : holds path C fs -> apart_from path (new_ino fs) fs.
Proof.
  intros H k E. specialize (H k). rewrite E in H. destruct H as (s & Hs & _).
  by rewrite new_ino_fresh in Hs.
Qed.

Lemma holds_sync_dir path C b fs :
  holds path C fs -> read fs path = Some b -> holds path (fun c => c = Some b) (sync_dir fs).
Proof.
  intros H%holds_all Hr k. unfold read in Hr. cbn. rewrite take_nil. cbn.
  destruct (directory fs !! path) as [ino|]; [|done]. destruct H as (s & Hs & _).
  rewrite Hs in Hr. cbn in Hr. exists s. split; [done|congruence].
Qed.

(** ** The stages of an atomic write *)

(** The temporary file [name] with inode [ino], apart from the state file. *)
Definition staged (path : string) (C : option string -> Prop) (name : string) (ino : nat)
    (i : Inode.t) (fs : FS.t) : Prop :=
  holds path C fs /\ apart_from path ino fs /\ name <> path /\
  directory fs !! name = Some ino /\ fs.(FS.inodes) !! ino = Some i.

Lemma staged_create `{!Kernel} path C fs `{!KernelOk path} :
  holds path C fs ->
  staged path C (fresh_temp path fs) (new_ino fs) (Inode.mk "" false)
    (with_pending (Link (fresh_temp path fs) (new_ino fs))
       (set_inode (new_ino fs) (Inode.mk "" false) fs)).
Proof.
  intros Hh. pose proof (fresh_temp_path (path := path) fs) as Hn.
  pose proof (apart_fresh _ _ _ Hh) as Ha. split_and!.
  - apply holds_link; [done|]. by apply holds_set_inode.
  - intros k. cbn. destruct (take_snoc k (FS.pending fs) (Link (fresh_temp path fs) (new_ino fs)))
      as [->| ->]; [apply Ha|]. unfold apply_ops. rewrite fold_left_app. cbn.
    rewrite lookup_insert_ne by done. specialize (Ha (length (FS.pending fs))).
    by rewrite take_ge in Ha.
  - done.
  - rewrite directory_pending. cbn. by rewrite lookup_insert_eq.
  - cbn. by rewrite lookup_insert_eq.
Qed.

Lemma staged_set path C name ino i i' fs :
  staged path C name ino i fs -> staged path C name ino i' (set_inode ino i' fs).
Proof.
  intros (H & Ha & Hn & Hd & Hi). split_and!; try done; [by apply holds_set_inode|].
  cbn. by rewrite lookup_insert_eq.
Qed.

Lemma staged_rename path C name ino b fs :
  staged path C name ino (Inode.mk b true) fs ->
  let fs' := with_pending (Rename name path) fs in
  holds path (fun c => C c \/ c = Some b) fs' /\ read fs' path = Some b.
Proof.
  intros (H & Ha & Hn & Hd & Hi) fs'. split.
  - apply holds_pending; [eapply holds_mono; [|exact H]; by left|]. cbn. rewrite Hd, lookup_insert_eq.
    exists b. split; [done|by right].
  - unfold fs', read. rewrite directory_pending. cbn. by rewrite Hd, lookup_insert_eq, Hi.
Qed.

(** ** Running with faults

    [does H m f Q]: from the file system [f], whatever fails, [m] passes only through
    states satisfying [H], takes no lock, and ends as [Q] says. *)
Section Does.
Context {KN : Kernel}.

Definition grown (H : FS.t -> Prop) (w w' : Disk) : Prop :=
  (exists new, w'.(history) = new ++ w.(history) /\ Forall H new) /\ w'.(locked) = w.(locked).

Lemma grown_refl H w : grown H w w.
Proof. split; [|done]. by exists []. Qed.
Lemma grown_trans H w1 w2 w3 : grown H w1 w2 -> grown H w2 w3 -> grown H w1 w3.
Proof.
  intros [(n1 & E1 & F1) L1] [(n2 & E2 & F2) L2]. split; [|congruence].
  exists (n2 ++ n1). rewrite E2, E1, app_assoc. split; [done|by apply Forall_app].
Qed.

Definition does (H : FS.t -> Prop) {A} (m : D A) (f : FS.t) (Q : Outcome A -> FS.t -> Prop) : Prop :=
  forall w, w.(fs) = f -> grown H w (m w).2 /\ Q (m w).1 (m w).2.(fs).

Context (H : FS.t -> Prop).

Lemma does_mono {A} (m : D A) f (Q Q' : Outcome A -> FS.t -> Prop) :
  does H m f Q -> (forall o f', Q o f' -> Q' o f') -> does H m f Q'.
Proof. intros Hm HQ w Hw. destruct (Hm w Hw). auto. Qed.

Lemma does_ret {A} (a : A) f (Q : Outcome A -> FS.t -> Prop) : Q (Val a) f -> does H (ret a) f Q.
Proof. intros HQ w <-. split; [apply grown_refl|done]. Qed.
Lemma does_fail {A} e f (Q : Outcome A -> FS.t -> Prop) : Q (Fail_ e) f -> does H (fail e) f Q.
Proof. intros HQ w <-. split; [apply grown_refl|done]. Qed.
Lemma does_lift {A} (r : result A) f (Q : Outcome A -> FS.t -> Prop) :
  Q (outcome r) f -> does H (lift r) f Q.
Proof. intros HQ w <-. split; [apply grown_refl|done]. Qed.

Lemma does_bind {A B} (m : D A) (k : A -> D B) f Q :
  does H m f (fun o f' => match o with
                          | Val a => does H (k a) f' Q
                          | Fail_ e => Q (Fail_ e) f'
                          | Panic => Q Panic f'
                          end) ->
  does H (bind m k) f Q.
Proof.
  intros Hm w Hw. destruct (Hm w Hw) as [G1 HQ]. unfold bind.
  destruct (m w) as [[a|e|] w1]; cbn in *; [|done..].
  destruct (HQ w1 eq_refl) as [G2 HQ2]. split; [by eapply grown_trans|done].
Qed.
Lemma does_try {A} (m : D A) f (Q : Outcome (result A) -> FS.t -> Prop) :
  does H m f (fun o f' => match o with
                          | Val a => Q (Val (Ok a)) f'
                          | Fail_ e => Q (Val (Err e)) f'
                          | Panic => Q Panic f'
                          end) ->
  does H (try m) f Q.
Proof. intros Hm w Hw. destruct (Hm w Hw). unfold try. by destruct (m w) as [[]]. Qed.

Lemma does_sys {A} (g : FS.t -> A * FS.t) f (Q : Outcome A -> FS.t -> Prop) :
  H (g f).2 -> Q (Val (g f).1) (g f).2 -> (forall e, Q (Fail_ e) f) -> does H (sys g) f Q.
Proof.
  intros HH HQ HE w <-. unfold sys. destruct (fault (kernel w)) as [[e|] k']; cbn.
  - split; [|apply HE]. split; [|done]. by exists [].
  - destruct (g (fs w)) as [a f']. cbn in *. split; [|done]. split; [|done].
    exists [f']. split; [done|by repeat constructor].
Qed.

Lemma does_Write ino b f (Q : Outcome unit -> FS.t -> Prop) :
  (forall c, H (set_inode ino (Inode.mk c false) f)) ->
  Q (Val tt) (set_inode ino (Inode.mk b false) f) ->
  (forall e c, Q (Fail_ e) (set_inode ino (Inode.mk c false) f)) -> does H (Write ino b) f Q.
Proof.
  intros HH HQ HE w <-. unfold Write. destruct (fault (kernel w)) as [[e|] k'].
  - destruct (short_write b k') as [part k'']. cbn. split; [|apply HE]. split; [|done].
    eexists [_]. split; [done|by repeat constructor].
  - cbn. split; [|done]. split; [|done]. eexists [_]. split; [done|by repeat constructor].
Qed.

Lemma does_Sync ino i f (Q : Outcome unit -> FS.t -> Prop) :
  f.(FS.inodes) !! ino = Some i ->
  H (set_inode ino (Inode.mk i.(Inode.content) true) f) ->
  Q (Val tt) (set_inode ino (Inode.mk i.(Inode.content) true) f) ->
  (forall e, Q (Fail_ e) f) -> does H (Sync ino) f Q.
Proof. intros Hi HH HQ HE. apply does_sys; rewrite ?Hi; done. Qed.
End Does.

(** ** The atomic write *)
Section WriteAtomic.
Context {KN : Kernel} {JS : Json} (path : string) {KO : KernelOk path}.
Context (C : option string -> Prop) (b : string).

(** The states a write of [b] passes through: a crash leaves the old content or [b]. *)
Definition old_or_new (f : FS.t) : Prop := holds path (fun c => C c \/ c = Some b) f.
(** A write that failed: nothing happened to the file, or it already is the new one. *)
Definition undone_or_renamed (f : FS.t) : Prop :=
  holds path C f \/ (old_or_new f /\ read f path = Some b).

Lemma holds_old_or_new f : holds path C f -> old_or_new f.
Proof. apply holds_mono. by left. Qed.
Lemma undone_or_renamed_safe f : undone_or_renamed f -> old_or_new f.
Proof. intros [?|[? _]]; [by apply holds_old_or_new|done]. Qed.
Lemma undone_or_renamed_unlink name f :
  name <> path -> undone_or_renamed f -> undone_or_renamed (with_pending (Unlink name) f).
Proof.
  intros Hn [Hh|[Hh Hr]]; [left; by apply holds_unlink|right].
  split; [by apply holds_unlink|by rewrite read_unlink].
Qed.

(** The deferred cleanup after a failure. *)
Lemma does_cleanup name e f :
  name <> path -> undone_or_renamed f ->
  does old_or_new
    ((let* _ := try sys_check in
      if false then ret tt else let* _ := try (os_Remove name) in ret tt) ;; lift (Err e)) f
    (fun o f' => o = Fail_ (A := unit) e /\ undone_or_renamed f').
Proof.
  intros Hn Hu. assert (Hs := undone_or_renamed_safe f Hu).
  assert (Hu' := undone_or_renamed_unlink name f Hn Hu).
  assert (Hs' := undone_or_renamed_safe _ Hu').
  apply does_bind, does_bind, does_try, does_sys; [done| |intros _];
    apply does_bind, does_try, does_sys; [done| |intros _|done| |intros _];
    apply does_ret, does_lift; done.
Qed.

(** From the rename on: the new content is in place, and durable once the directory is. *)
Definition finish : D unit :=
  sys_check ;;
  (let* r := try dir_Sync in
   match r with
   | Err e => let* _ := try sys_check in fail e
   | Ok _ => sys_check
   end).

Lemma does_finish f :
  old_or_new f -> read f path = Some b ->
  does old_or_new finish f
    (fun o f' => match o with
                 | Val _ => holds path (fun c => c = Some b) f'
                 | Fail_ _ => undone_or_renamed f'
                 | Panic => False
                 end).
Proof.
  intros Hh Hr. unfold finish. assert (Hd := holds_sync_dir _ _ _ _ Hh Hr).
  assert (Hd' : old_or_new (sync_dir f)) by (eapply holds_mono; [|exact Hd]; by right).
  assert (Hu : undone_or_renamed f) by by right.
  assert (Hu' : undone_or_renamed (sync_dir f)).
  { right. split; [done|]. by apply (holds_read path (fun c => c = Some b)). }
  apply does_bind, does_sys; [done| |intros e; done].
  apply does_bind, does_try, does_sys; [done| |intros e].
  - by apply does_sys.
  - apply does_bind, does_try, does_sys; [done|by apply does_fail|intros _; by apply does_fail].
Qed.

(** What a write establishes of its outcome. *)
Definition written (o : Outcome unit) (f : FS.t) : Prop :=
  match o with
  | Val _ => holds path (fun c => c = Some b) f
  | Fail_ _ => undone_or_renamed f
  | Panic => False
  end.

Lemma staged_safe name ino i f : staged path C name ino i f -> old_or_new f.
Proof. intros [Hh _]. by apply holds_old_or_new. Qed.
Lemma staged_undone name ino i f : staged path C name ino i f -> undone_or_renamed f.
Proof. intros [Hh _]. by left. Qed.

(** The body of the write, on its temporary file. *)
Lemma does_body name ino i f :
  staged path C name ino i f ->
  does old_or_new
    (sys_check ;; Write ino b ;; Sync ino ;; sys_check ;; os_Rename name path ;; finish) f written.
Proof.
  intros Hst. assert (Hw : forall c, staged path C name ino (Inode.mk c false) (set_inode ino (Inode.mk c false) f))
    by (intros c; by eapply staged_set).
  apply does_bind, does_sys; [by eapply staged_safe| |intros e; by eapply staged_undone].
  apply does_bind, does_Write; [intros c; by eapply staged_safe| |intros e c; by eapply staged_undone].
  specialize (Hw b). set (f1 := set_inode _ _ f) in *.
  assert (Hs : staged path C name ino (Inode.mk b true) (set_inode ino (Inode.mk b true) f1))
    by by eapply staged_set.
  apply does_bind. eapply does_Sync; [apply Hw|by eapply staged_safe| |intros e; by eapply staged_undone].
  apply does_bind, does_sys; [by eapply staged_safe| |intros e; by eapply staged_undone].
  destruct (staged_rename _ _ _ _ _ _ Hs) as [Hr1 Hr2].
  apply does_bind, does_sys; [done| |intros e; by eapply staged_undone].
  by apply does_finish.
Qed.

Lemma does_deferring name (m : D unit) f :
  name <> path -> does old_or_new m f written ->
  does old_or_new
    (deferring m (fun ok =>
       let* _ := try sys_check in
       if ok then ret tt else let* _ := try (os_Remove name) in ret tt)) f written.
Proof.
  intros Hn Hm. unfold deferring. apply does_bind, does_try.
  eapply does_mono; [exact Hm|]. cbn. intros [[]|e|] f' HQ; cbn in *; [| |done].
  - assert (Hs : old_or_new f') by (eapply holds_mono; [|exact HQ]; by right).
    apply does_bind, does_bind, does_try, does_sys; [done| |intros _]; by apply does_ret, does_lift.
  - eapply does_mono; [by apply does_cleanup|]. by intros o f'' [-> ?].
Qed.

Lemma does_writeAtomic data f :
  json_MarshalIndent data = Ok b -> holds path C f ->
  does old_or_new (writeAtomic path data) f written.
Proof.
  intros Hj Hh. unfold writeAtomic. rewrite Hj. pose proof (holds_old_or_new f Hh) as Hs.
  apply does_bind, does_sys; [done| |intros e; by left].
  apply does_bind, does_lift. cbn. pose proof (staged_create path C f Hh) as Hst.
  apply does_bind, does_sys; [by eapply staged_safe| |intros e; by left]. cbn.
  apply does_deferring; [apply Hst|]. by eapply does_body.
Qed.
End WriteAtomic.

(** Whatever is written: a success leaves its text, a failure the old content or its text. *)
Lemma does_write `{!Kernel, !Json} path `{!KernelOk path} (C : option string -> Prop) data f :
  holds path C f ->
  let text c := exists b, json_MarshalIndent data = Ok b /\ c = Some b in
  does (holds path (fun c => C c \/ text c)) (writeAtomic path data) f (fun o f' =>
    match o with
    | Val _ => holds path text f'
    | Fail_ _ => holds path (fun c => C c \/ text c) f'
    | Panic => False
    end).
Proof.
  intros Hh text. destruct (json_MarshalIndent data) as [b|e] eqn:Hj.
  - assert (Hm : forall g, holds path (fun c => C c \/ c = Some b) g -> holds path (fun c => C c \/ text c) g)
      by (intros g; apply holds_mono; intros c [?| ->]; [by left|right; by exists b]).
    intros w Hw. destruct (does_writeAtomic path C b data f Hj Hh w Hw) as [[(new & E & F) L] HQ].
    split; [split; [|done]; exists new; split; [done|by eapply Forall_impl]|].
    destruct (writeAtomic path data w).1 as [[]|e|]; [| |done].
    + revert HQ. apply holds_mono. intros c ->. by exists b.
    + apply Hm. by apply undone_or_renamed_safe.
  - assert (Hf : holds path (fun c => C c \/ text c) f) by (revert Hh; apply holds_mono; by left).
    unfold writeAtomic. rewrite Hj. apply does_bind, does_sys; [done| |done].
    by apply does_bind, does_lift.
Qed.

(** ** Update *)
Section Update.
Context {KN : Kernel} {JS : Json} (path : string) {KO : KernelOk path}.

(** C19: [Update] on a store whose file every crash leaves with a content in
    [C].  A mutation that fails changes nothing.  Otherwise, whichever system calls fail and
    wherever a crash hits, the file is found with a content in [C] or with the complete new
    state.  When the update succeeds, the new state is published and no crash can undo it;
    when it fails, the file is as before, or the new state already stands in it although the
    running store keeps the old one.  No lock changes and nothing panics. *)
Theorem update_is_atomic (C : option string -> Prop) s fn w :
  s.(Store.path) = path -> holds path C w.(fs) ->
  let o := (Update_ s fn w).1 in let w' := (Update_ s fn w).2 in
  o <> Panic /\ w'.(locked) = w.(locked) /\
  match fn (cloneState s.(Store.data)) with
  | Err e => o = Fail_ e /\ w' = w
  | Ok clone =>
      forall b, json_MarshalIndent clone = Ok b ->
      exists new, w'.(history) = new ++ w.(history) /\
        (forall f f', f ∈ new -> crash f f' -> C (read f' path) \/ read f' path = Some b) /\
        match o with
        | Val s' => s' = Store.mk path clone s.(Store.held) /\
                    forall f', crash w'.(fs) f' -> read f' path = Some b
        | _ => (forall f', crash w'.(fs) f' -> C (read f' path)) \/
               (read w'.(fs) path = Some b /\
                forall f', crash w'.(fs) f' -> C (read f' path) \/ read f' path = Some b)
        end
  end.
Proof.
  intros Hp Hh. unfold Update_, bind, lift. rewrite Hp.
  destruct (fn (cloneState (Store.data s))) as [clone|e]; cbn; [|by split_and!].
  destruct (json_MarshalIndent clone) as [b|e] eqn:Hj.
  - destruct (does_writeAtomic path C b clone (fs w) Hj Hh w eq_refl) as [[(new & E & F) L] HQ].
    destruct (writeAtomic path clone w) as [[[]|e|] w']; cbn in *; [| |done].
    all: split_and!; [done..|]; intros b' [= <-]; exists new; rewrite Forall_forall in F.
    all: split; [done|]; split; [intros f f' Hin Hc; exact (holds_crash path _ f f' (F f Hin) Hc)|].
    + split; [done|]. intros f' Hc. by eapply holds_crash in HQ.
    + destruct HQ as [HQ|[HQ Hr]]; [left|right; split; [done|]]; intros f' Hc;
        by eapply holds_crash in HQ.
  - assert (Hf : does (fun _ => True) (writeAtomic path clone) (fs w)
      (fun o _ => exists e', o = Fail_ e')).
    { unfold writeAtomic. rewrite Hj. apply does_bind, does_sys; [done| |eauto].
      apply does_bind, does_lift. cbn. eauto. }
    destruct (Hf w eq_refl) as [[_ L] [e' E]].
    destruct (writeAtomic path clone w) as [[[]| |] w']; cbn in *; try done.
Qed.
End Update.

(** ** Open *)
Section Open.
Context {KN : Kernel} {JS : Json} (path : string) {KO : KernelOk path}.

Lemma wp_sys {A} (g : FS.t -> A * FS.t) (Q : Outcome A -> Disk -> Prop) w :
  (forall e k', Q (Fail_ e) (mkDisk k' w.(fs) w.(history) w.(locked))) ->
  (forall k', Q (Val (g w.(fs)).1)
     (mkDisk k' (g w.(fs)).2 ((g w.(fs)).2 :: w.(history)) w.(locked))) ->
  wp (sys g) Q w.
Proof.
  intros HE HV. unfold wp, sys. destruct (fault (kernel w)) as [[e|] k']; [apply HE|].
  specialize (HV k'). by destruct (g (fs w)).
Qed.

Lemma wp_does H {A} (m : D A) P (Q : Outcome A -> Disk -> Prop) w :
  does H m w.(fs) P ->
  (forall o w', w'.(locked) = w.(locked) -> P o w'.(fs) -> Q o w') -> wp m Q w.
Proof. intros Hm HQ. destruct (Hm w eq_refl) as [[_ L] HP]. by apply HQ. Qed.

(** An unlocked store: what [closing] restores. *)
Lemma wp_closing {A} (m : D A) (Q : Outcome A -> Disk -> Prop) p d w :
  wp m (fun o w' => match o with
                    | Val a => Q (Val a) w'
                    | Fail_ e => forall k', Q (Fail_ e)
                        (mkDisk k' w'.(fs) w'.(history) (w'.(locked) ∖ {[p]})) /\
                        Q (Fail_ e) (mkDisk k' w'.(fs) (w'.(fs) :: w'.(history)) (w'.(locked) ∖ {[p]}))
                    | Panic => Q Panic w'
                    end) w ->
  wp (closing (Store.mk p d true) m) Q w.
Proof.
  intros Hm. unfold closing. apply wp_bind, wp_try. eapply wp_mono; [exact Hm|].
  intros [a|e|] w' H; [by apply wp_ret| |done].
  apply wp_bind, wp_try. unfold Close. cbn. apply wp_bind. unfold wp at 1, unlock. cbn.
  apply wp_sys; [intros e' k'|intros k']; apply wp_fail; apply H.
Qed.

Lemma lock_path_ne : lock_path path <> path.
Proof.
  unfold lock_path. intros E%(f_equal String.length). revert E.
  assert (L : forall a b, String.length (a +:+ b) = (String.length a + String.length b)%nat).
  { intros a b. induction a as [|x a IH]; [done|]. exact (f_equal S IH). }
  rewrite L. cbn. lia.
Qed.

Definition with_lock_file (f : FS.t) : FS.t :=
  match directory f !! lock_path path with
  | Some _ => f
  | None => with_pending (Link (lock_path path) (new_ino f))
              (set_inode (new_ino f) (Inode.mk "" false) f)
  end.

Lemma holds_with_lock C f : holds path C f -> holds path C (with_lock_file f).
Proof.
  intros Hh. unfold with_lock_file. destruct (directory f !! lock_path path); [done|].
  apply holds_link; [apply lock_path_ne|]. apply holds_set_inode; [by eapply apart_fresh|done].
Qed.

Lemma read_with_lock C f : holds path C f -> read (with_lock_file f) path = read f path.
Proof.
  intros Hh%holds_all. unfold with_lock_file, read. destruct (directory f !! lock_path path); [done|].
  rewrite directory_pending. cbn -[directory]. rewrite lookup_insert_ne by apply lock_path_ne.
  change (directory (set_inode _ _ f)) with (directory f). destruct (directory f !! path) as [ino|]; [|done].
  destruct Hh as (s & Hs & _). rewrite lookup_insert_ne; [done|]. intros <-. by rewrite new_ino_fresh in Hs.
Qed.

(** The decoded state as the store keeps it: at the current version. *)
Definition at_current (s : State.t) : State.t := s <| State.Version := currentVersion |>.

(** [Open] on a file every crash leaves with a content in [C]: it needs the lock to be free,
    holds it exactly when it succeeds, and then has the state decoded from what it read, at the
    current version; a migrated state is in the file. *)
Lemma Open_spec C w :
  holds path C w.(fs) ->
  wp (Open path) (fun o w' =>
    match o with
    | Val s => path ∉ w.(locked) /\ w'.(locked) = {[path]} ∪ w.(locked) /\
               exists st, decode_state (default "" (read w.(fs) path)) = Ok st /\
                 s = Store.mk path (if State.Version st <? currentVersion then at_current st else st) true /\
                 holds path (fun c => if State.Version st <? currentVersion
                                      then exists b, json_MarshalIndent (at_current st) = Ok b /\ c = Some b
                                      else C c) w'.(fs)
    | Fail_ _ => w'.(locked) = w.(locked)
    | Panic => False
    end) w.
Proof.
  intros Hh. unfold Open. apply wp_bind, wp_sys; [done|intros k1].
  apply wp_bind, wp_sys; [done|intros k2]. cbn [fst snd fs history locked].
  change (match directory (fs w) !! lock_path path with Some _ => fs w | None => _ end)
    with (with_lock_file (fs w)).
  pose proof (holds_with_lock _ _ Hh) as Hh'. pose proof (read_with_lock _ _ Hh) as Hr.
  apply wp_bind, wp_wrap. unfold wp at 1, flock. cbn [kernel fs history locked].
  destruct (fault k2) as [[e|] k3]; cbn; [done|]. case_bool_decide as Hl; cbn; [done|].
  assert (Hd : forall L : gset string, L = {[path]} ∪ locked w -> L ∖ {[path]} = locked w) by set_solver.
  apply wp_bind, wp_closing, wp_sys; [intros e k4 k5; cbn; by split; apply Hd|intros k4]. cbn. rewrite Hr.
  apply wp_bind, wp_closing, wp_lift;
    [intros st Hst|intros e Hst k5; cbn; by split; apply Hd]. cbn in Hst.
  destruct (State.Version st <? currentVersion) eqn:Hv.
  - apply wp_bind, wp_closing, wp_wrap. eapply wp_does; [exact (does_write path _ _ _ Hh')|].
    intros [[]|e|] w' L Hp; cbn in *; [|intros k5; rewrite L; split; by apply Hd|done].
    rewrite L. split_and!; [done..|]. exists st. by rewrite Hv.
  - apply wp_ret. split_and!; [done..|]. exists st. by rewrite Hv.
Qed.

(** The state as encoding/json decodes it from its own encoding. *)
Definition decoded (s : State.t) : Decoded.t :=
  Decoded.mk s.(State.Version) s.(State.EnrollmentArmedAt) (Some s.(State.Workflows))
    (Some s.(State.Idempotency)) (Some s.(State.Notifications)).

Lemma decode_current b s :
  b <> "" -> json_Unmarshal b initial_data = Ok (decoded s) -> s.(State.Version) = currentVersion ->
  decode_state b = Ok s.
Proof.
  intros Hb Hj Hv. unfold decode_state. rewrite (proj2 (eqb_false b "") Hb), Hj. cbn. rewrite Hv. cbn.
  by destruct s; cbn in *; subst.
Qed.

(** After an update that succeeded and a crash at any later moment, an [Open] that succeeds
    returns the published data, if the encoding of that data can be read back. *)
Lemma update_then_open (C : option string -> Prop) s fn w s' f' w2 :
  s.(Store.path) = path -> holds path C w.(fs) ->
  (Update_ s fn w).1 = Val s' ->
  s'.(Store.data).(State.Version) = currentVersion ->
  (forall b, json_MarshalIndent s'.(Store.data) = Ok b ->
     b <> "" /\ json_Unmarshal b initial_data = Ok (decoded s'.(Store.data))) ->
  crash (Update_ s fn w).2.(fs) f' -> w2.(fs) = f' ->
  match (Open path w2).1 with
  | Val s2 => s2 = Store.mk path s'.(Store.data) true /\ path ∉ w2.(locked) /\
              (Open path w2).2.(locked) = {[path]} ∪ w2.(locked)
  | Fail_ _ => (Open path w2).2.(locked) = w2.(locked)
  | Panic => False
  end.
Proof.
  intros Hp Hh Hu Hv Hj Hc Hw2. unfold Update_, bind, lift in Hu, Hc. rewrite Hp in Hu, Hc.
  destruct (fn (cloneState (Store.data s))) as [clone|e]; cbn in Hu, Hc; [|done].
  assert (Hdata : Store.data s' = clone).
  { destruct (writeAtomic path clone w) as [[[]| |] w']; cbn in Hu; by simplify_eq. }
  rewrite Hdata in *. destruct (json_MarshalIndent clone) as [b|e] eqn:Hm.
  - destruct (Hj b eq_refl) as [Hb Hun].
    destruct (does_writeAtomic path C b clone (fs w) Hm Hh w eq_refl) as [_ HQ].
    destruct (writeAtomic path clone w) as [[[]| |] w']; cbn in *; [|done..].
    pose proof (holds_after_crash _ _ _ _ HQ Hc) as Hf. rewrite <- Hw2 in Hf.
    pose proof (Open_spec _ w2 Hf) as HO. unfold wp in HO. rewrite (holds_read _ _ _ Hf) in HO.
    destruct (Open path w2) as [[s2|e|] w3]; cbn in *; [|done..].
    destruct HO as (? & ? & st & Hst & -> & _). rewrite (decode_current b clone) in Hst by done.
    injection Hst as <-. rewrite Hv. by split_and!.
  - assert (Hf : does (fun _ => True) (writeAtomic path clone) (fs w) (fun o _ => o <> Val tt)).
    { unfold writeAtomic. rewrite Hm. apply does_bind, does_sys; [done| |done].
      by apply does_bind, does_lift. }
    destruct (Hf w eq_refl) as [_ HQ]. destruct (writeAtomic path clone w) as [[[]| |] w']; done.
Qed.
End Open.
