(* ===== verification/Core.v ===== *)
(** * internal/controller/controller.go, state changes: the operations that write
    workflows, notifications and idempotency records through the store. *)
From S2P Require Import Prelude GoStrings GoTime Model Config Dns Keys Effects.

Definition parentModeExisting : string := "existing".
Definition parentModeInitial : string := "initial".

(** ** Zone selection (selected, selectedEnrollment) *)
Definition zone_name (s : string) : string := TrimSuffix (ToLower s) ".".

Definition listed (zone : string) (l : list string) : bool :=
  existsb (fun x => zone_name x == zone_name zone) l.

Definition selected (c : Config.t) (zone : string) : bool :=
  let r := c.(Config.Rotation) in
  if listed zone r.(Rotation.ExcludeZones) then false
  else match r.(Rotation.IncludeZones) with
       | [] => true
       | _ => listed zone r.(Rotation.IncludeZones)
       end.

Definition selectedEnrollment (c : Config.t) (zone : string) : bool :=
  let e := c.(Config.Enrollment) in
  if (e.(Enrollment.Scope_) != "all_selected") || negb (selected c zone) then false
  else if listed zone e.(Enrollment.ExcludeZones) then false
  else match e.(Enrollment.IncludeZones) with
       | [] => true
       | _ => listed zone e.(Enrollment.IncludeZones)
       end.

Section Core.
Context {SV : Services} {DL : DnsLib} (c : Config.t).

(** The mutation a [nil] closure stands for. *)
Definition no_change (x : Workflow.t) : M Workflow.t := ret x.

Definition transition (w : Workflow.t) (phase : Phase) (next : time)
    (mutate : Workflow.t -> M Workflow.t) : M unit :=
  Update (fun s =>
    let k := WorkflowKey w.(Workflow.Zone) w.(Workflow.Kind) in
    let x := workflow_at s k in
    let* now := Now in
    let x := x <| Workflow.Phase := phase |> <| Workflow.PhaseStartedAt := now |>
               <| Workflow.NextActionAt := next |> <| Workflow.LastError := "" |>
               <| Workflow.Attempts := 0 |> in
    let* x := mutate x in
    ret (put_workflow k x s)).

(** [time.Minute * time.Duration(1<<min(attempts, 8))]; a negative shift count panics. *)
Definition backoff (attempts : Z) : M duration :=
  let n := Z.min attempts 8 in
  if n <? 0 then panic else ret (dur_mul Minute (Z.shiftl 1 n)).

Definition recordRetry (w : Workflow.t) (cause : error) : M unit :=
  Update (fun s =>
    let k := WorkflowKey w.(Workflow.Zone) w.(Workflow.Kind) in
    let x := workflow_at s k in
    let x := x <| Workflow.Attempts := int64 (x.(Workflow.Attempts) + 1) |>
               <| Workflow.LastError := Error cause |> in
    let* b := backoff x.(Workflow.Attempts) in
    let* now := Now in
    let x := x <| Workflow.NextActionAt := Add now b |> in
    ret (put_workflow k x s)).

Definition blocked_event_id (zone : string) (kind : Kind) (fingerprint : string) : string :=
  dnssec_id (zone +:+ "|" +:+ Kind_string kind +:+ "|" +:+ fingerprint +:+ "|blocked").

(** [block] ignores a failed write and always returns the reason as an error. *)
Definition block {A} (zone : string) (kind : Kind) (reason : string) : M A :=
  let* _ := try (Update (fun s =>
    let k := WorkflowKey zone kind in
    let x := workflow_at s k in
    let x := x <| Workflow.Zone := zone |> <| Workflow.Kind := kind |>
               <| Workflow.Phase := PhaseBlocked |> <| Workflow.LastError := reason |>
               <| Workflow.NextActionAt := time_zero |> in
    let s := put_workflow k x s in
    if (kind == KindEnroll) && c.(Config.LMTP).(LMTP.Enabled) then
      let eventID := blocked_event_id zone kind x.(Workflow.KeysetFingerprint) in
      match s.(State.Notifications) !! eventID with
      | Some _ => ret s
      | None =>
          let* completed := Now in
          let* next := Now in
          ret (put_notification eventID
                 (Notification.mk eventID "blocked" zone kind completed 0
                    x.(Workflow.NewKeyID) x.(Workflow.NewZSKID) "" 0 next "" time_zero) s)
      end
    else ret s)) in
  fail (errors_New reason).

(** [complete]: one atomic update makes the workflow idle, an enrollment's role
    workflows idle as well, and files the completion event. *)
Definition completed_event_id (w : Workflow.t) (now : time) : string :=
  dnssec_id (Sprintf "%s|%s|%s" [AStr w.(Workflow.Zone); AStr (Kind_string w.(Workflow.Kind));
                                 AStr (FormatRFC3339Nano now)]).

Definition idle_role (w : Workflow.t) (now : time) (s : State.t) (role : Kind) : State.t :=
  let roleKey := WorkflowKey w.(Workflow.Zone) role in
  put_workflow roleKey
    ((workflow_at s roleKey) <| Workflow.Zone := w.(Workflow.Zone) |>
       <| Workflow.Kind := role |> <| Workflow.Phase := PhaseIdle |>
       <| Workflow.LastCompletedAt := now |>) s.

Definition complete (w : Workflow.t) : M unit :=
  let* now := Now in
  let eventID := completed_event_id w now in
  Update (fun s =>
    let k := WorkflowKey w.(Workflow.Zone) w.(Workflow.Kind) in
    let last := (workflow_at s k).(Workflow.LastCompletedAt) in
    let x := zero_Workflow <| Workflow.Zone := w.(Workflow.Zone) |>
               <| Workflow.Kind := w.(Workflow.Kind) |> <| Workflow.Phase := PhaseIdle |>
               <| Workflow.LastCompletedAt := now |> in
    let '(x, s) :=
      if w.(Workflow.Kind) == KindEnroll then
        (x <| Workflow.ZoneID := w.(Workflow.ZoneID) |>
           <| Workflow.NewKeyID := w.(Workflow.NewKeyID) |>
           <| Workflow.NewZSKID := w.(Workflow.NewZSKID) |>
           <| Workflow.DiscoveredAt := w.(Workflow.DiscoveredAt) |>
           <| Workflow.KeysetFingerprint := w.(Workflow.KeysetFingerprint) |>
           <| Workflow.EnrollmentDisposition := "enrolled" |>,
         fold_left (idle_role w now) [KindKSK; KindZSK] s)
      else (x, s) in
    let x := if Before now last then x <| Workflow.LastCompletedAt := last |> else x in
    let s := put_workflow k x s in
    ret (if c.(Config.LMTP).(LMTP.Enabled) then
           put_notification eventID
             (Notification.mk eventID "completed" w.(Workflow.Zone) w.(Workflow.Kind) now
                w.(Workflow.OldKeyID) w.(Workflow.NewKeyID) w.(Workflow.NewZSKID)
                w.(Workflow.RegistrarSTID) 0 now "" time_zero) s
         else s)).

(** The first workflow of a zone that is active, in iteration order. *)
Definition first_active (zone : string) (l : list (string * Workflow.t)) : option Workflow.t :=
  snd <$> List.find (fun kw => (kw.2.(Workflow.Zone) == zone) && Active kw.2) l.

(** The fields [start] and [Trigger] set on a workflow they begin. *)
Definition begin_rotation (now : time) (manual : bool) (idem : string) (w : Workflow.t)
  : Workflow.t :=
  w <| Workflow.Phase := PhasePrepublish |> <| Workflow.PhaseStartedAt := now |>
    <| Workflow.NextActionAt := now |> <| Workflow.LastError := "" |>
    <| Workflow.Attempts := 0 |> <| Workflow.Manual := manual |>
    <| Workflow.IdempotencyKey := idem |>.

Definition start (zone : string) (kind : Kind) (manual : bool) (idem : string) : M unit :=
  let* now := Now in
  Update (fun s =>
    let* ws := range_workflows s.(State.Workflows) in
    match first_active zone ws with
    | Some w => fail (Errorf "zone already has active %s workflow"
                        [AStr (Kind_string w.(Workflow.Kind))])
    | None =>
        let k := WorkflowKey zone kind in
        let w := default (zero_Workflow <| Workflow.Zone := zone |> <| Workflow.Kind := kind |>)
                   (s.(State.Workflows) !! k) in
        let s := put_workflow k (begin_rotation now manual idem w) s in
        ret (if idem != "" then put_idempotency idem k s else s)
    end).

(** ** bootstrap *)
Definition idle_since (zone : string) (kind : Kind) (now : time) : Workflow.t :=
  zero_Workflow <| Workflow.Zone := zone |> <| Workflow.Kind := kind |>
    <| Workflow.Phase := PhaseIdle |> <| Workflow.LastCompletedAt := now |>.

Definition ensure_idle (zone : string) (now : time) (s : State.t) (kind : Kind) : State.t :=
  let k := WorkflowKey zone kind in
  match s.(State.Workflows) !! k with
  | Some _ => s
  | None => put_workflow k (idle_since zone kind now) s
  end.

Definition bootstrap_roles (zone scheme : string) (now : time) (s : State.t) : State.t :=
  if scheme == "split" then fold_left (ensure_idle zone now) [KindZSK; KindKSK] s
  else if scheme == "csk" then ensure_idle zone now s KindSplit
  else s.

(** The two circuit-breaker counters over the enrollment workflows. *)
Definition pending_enrollments (ws : list (string * Workflow.t)) : Z :=
  Z.of_nat (length (List.filter
    (fun kw => (kw.2.(Workflow.Kind) == KindEnroll) && Active kw.2) ws)).
Definition recent_enrollments (now : time) (ws : list (string * Workflow.t)) : Z :=
  Z.of_nat (length (List.filter
    (fun kw => (kw.2.(Workflow.Kind) == KindEnroll) && negb (IsZero kw.2.(Workflow.DiscoveredAt))
               && (Sub now kw.2.(Workflow.DiscoveredAt) <? 24 * Hour)) ws)).

Definition ineligible_reason : string :=
  "automatic enrollment requires a clean split KSK/ZSK zone at first discovery".

Definition bootstrap (zone : Zone.t) (scheme : string) (keys : list Key.t) : M unit :=
  let* now := Now in
  let name := zone.(Zone.Name) in
  let enr := c.(Config.Enrollment) in
  Update (fun s =>
    let s := bootstrap_roles name scheme now s in
    let enrollKey := WorkflowKey name KindEnroll in
    let blank := zero_Workflow <| Workflow.Zone := name |>
                   <| Workflow.ZoneID := zone.(Zone.ID) |> <| Workflow.Kind := KindEnroll |> in
    if bool_decide (is_Some (s.(State.Workflows) !! enrollKey))
       || IsZero s.(State.EnrollmentArmedAt) || negb enr.(Enrollment.Enabled)
       || negb (selectedEnrollment c name)
    then ret s
    else if scheme == "csk" then
      ret (put_workflow enrollKey
             (blank <| Workflow.Phase := PhaseIdle |> <| Workflow.LastCompletedAt := now |>
                <| Workflow.EnrollmentDisposition := "ineligible" |>
                <| Workflow.LastError := ineligible_reason |>) s)
    else
    let inventory := validateEnrollmentInventory name keys 0 0 "" enr.(Enrollment.AllowedAlgorithms) in
    let* ws := range_workflows s.(State.Workflows) in
    if (enr.(Enrollment.MaxPending) <=? pending_enrollments ws)
       || (enr.(Enrollment.MaxNewPerDay) <=? recent_enrollments now ws) then
      ret (put_workflow enrollKey
             (blank <| Workflow.Phase := PhaseBlocked |> <| Workflow.DiscoveredAt := now |>
                <| Workflow.LastError := "automatic enrollment circuit breaker exceeded" |>) s)
    else
    let candidate := blank <| Workflow.Phase := PhaseEnrollDiscovered |>
          <| Workflow.PhaseStartedAt := now |> <| Workflow.NextActionAt := now |>
          <| Workflow.DiscoveredAt := now |> <| Workflow.ParentMode := parentModeInitial |>
          <| Workflow.EnrollmentDisposition := "candidate" |> in
    let candidate :=
      match inventory with
      | Ok (ksk, zsk, fingerprint) =>
          candidate <| Workflow.NewKeyID := ksk.(Key.ID) |>
            <| Workflow.NewZSKID := zsk.(Key.ID) |>
            <| Workflow.KeysetFingerprint := fingerprint |>
            <| Workflow.NextActionAt := Add now enr.(Enrollment.DiscoveryGrace) |>
      | Err e =>
          candidate <| Workflow.LastError :=
            "waiting for a stable clean split inventory: " +:+ Error e |>
      end in
    ret (put_workflow enrollKey candidate s)).

End Core.
