(* ===== verification/Rollover.v ===== *)
(** * internal/controller/controller.go, the ZSK, KSK and split rollover handlers:
    one definition per phase handler, in the order the phases run. *)
From S2P Require Import Prelude GoStrings GoTime Model Config Dns Keys Effects Core.

Section Rollover.
Context {SV : Services} {DL : DnsLib} (c : Config.t).

(** [c.transition(w, phase, c.clock.Now(), mutate)] *)
Definition transition_now (w : Workflow.t) (phase : Phase) (mutate : Workflow.t -> M Workflow.t)
  : M unit :=
  let* now := Now in
  transition w phase now mutate.

(** [c.transition(w, phase, c.clock.Now().Add(wait), mutate)] *)
Definition transition_after (w : Workflow.t) (phase : Phase) (wait : duration)
    (mutate : Workflow.t -> M Workflow.t) : M unit :=
  let* now := Now in
  transition w phase (Add now wait) mutate.

Definition clear_evidence (x : Workflow.t) : M Workflow.t :=
  ret (x <| Workflow.EvidenceAt := time_zero |>).

(** [time.Duration(ttl)*time.Second + PropagationMargin] *)
Definition ttl_wait (ttl : Z) : duration := dur_add (dur_mul ttl Second) (Margin c).
(** [maxDuration(ttl, minimum) + PropagationMargin] *)
Definition evidence_wait (ttl minimum : duration) : duration :=
  dur_add (maxDuration ttl minimum) (Margin c).

Definition is_split (w : Workflow.t) : bool := w.(Workflow.Kind) == KindSplit.
Definition is_initial_split (w : Workflow.t) : bool :=
  is_split w && (w.(Workflow.ParentMode) == parentModeInitial).

(** ** prepublish *)
Definition recordCreateAttempt (w : Workflow.t) (zskSlot : bool) : M unit :=
  let* now := Now in
  Update (fun s =>
    let key := WorkflowKey w.(Workflow.Zone) w.(Workflow.Kind) in
    match s.(State.Workflows) !! key with
    | None => fail (errors_New "workflow changed before key create intent could be persisted")
    | Some current =>
        if (current.(Workflow.Phase) != PhasePrepublish)
           || (current.(Workflow.OldKeyID) != w.(Workflow.OldKeyID))
           || (current.(Workflow.NewKeyID) != w.(Workflow.NewKeyID))
           || (current.(Workflow.NewZSKID) != w.(Workflow.NewZSKID)) then
          fail (errors_New "workflow changed before key create intent could be persisted")
        else
        let attemptedAt := if zskSlot then current.(Workflow.NewZSKCreateAttemptedAt)
                           else current.(Workflow.NewKeyCreateAttemptedAt) in
        if negb (IsZero attemptedAt) then
          fail (Errorf "key create was already attempted at %s" [AStr (FormatRFC3339 attemptedAt)])
        else
        ret (put_workflow key
               (if zskSlot then current <| Workflow.NewZSKCreateAttemptedAt := now |>
                else current <| Workflow.NewKeyCreateAttemptedAt := now |>) s)
    end).

(** The replacement slot the key does not belong to. *)
Definition reuses_other_slot (w : Workflow.t) (zskSlot : bool) (id : Z) : bool :=
  (zskSlot && (id == w.(Workflow.NewKeyID)))
  || (negb zskSlot && (id == w.(Workflow.NewZSKID)) && (w.(Workflow.NewZSKID) != 0)).

Definition algorithm_mismatch (label algorithm : string) : bool :=
  (label == "") || negb (EqualFold label algorithm).

(** The existing keys that could be the replacement; the first key that looks like
    one but is not exactly right is an error. *)
Fixpoint adoptCandidates (zone : Zone.t) (w : Workflow.t) (typ algorithm : string) (oldID : Z)
    (active allowTransitionalCSK zskSlot : bool) (keys : list Key.t) : result (list Key.t) :=
  match keys with
  | [] => Ok []
  | k :: keys' =>
      let rest := adoptCandidates zone w typ algorithm oldID active allowTransitionalCSK zskSlot keys' in
      if (k.(Key.ID) == oldID) || (k.(Key.Active) != active) || negb k.(Key.Published) then rest
      else if reuses_other_slot w zskSlot k.(Key.ID) then
        Err (Errorf "candidate %s key %d reuses the other replacement slot"
               [AStr typ; AInt k.(Key.ID)])
      else if (k.(Key.KeyType) != typ)
              && (negb allowTransitionalCSK || (k.(Key.KeyType) != "csk")) then rest
      else if algorithm_mismatch k.(Key.Algorithm) algorithm then
        Err (Errorf "candidate %s key %d has algorithm %q, want %q"
               [AStr typ; AInt k.(Key.ID); AStr k.(Key.Algorithm); AStr algorithm])
      else
      let? data := map_err (fun e => Errorf "candidate %s key: %w" [AStr typ; AWrap e])
                     (validatedKeyRole zone.(Zone.Name) k typ allowTransitionalCSK) in
      let? _ := map_err (fun e => Errorf "candidate %s key %d: %w" [AStr typ; AInt k.(Key.ID); AWrap e])
                  (validateAlgorithmLabel k.(Key.Algorithm) data.(DNSSECData.Algorithm)) in
      let? l := rest in
      Ok (k :: l)
  end.

Definition adoptOrCreate (zone : Zone.t) (keys : list Key.t) (w : Workflow.t)
    (typ algorithm : string) (oldID : Z) (active allowTransitionalCSK zskSlot : bool) : M Key.t :=
  let* candidates := lift (adoptCandidates zone w typ algorithm oldID active
                             allowTransitionalCSK zskSlot keys) in
  match candidates with
  | [k] => ret k
  | _ :: _ => fail (Errorf "multiple candidate %s keys" [AStr typ])
  | [] =>
      let attemptedAt := if zskSlot then w.(Workflow.NewZSKCreateAttemptedAt)
                         else w.(Workflow.NewKeyCreateAttemptedAt) in
      if negb (IsZero attemptedAt) then
        fail (Errorf "%s create was already attempted at %s; waiting for one exact read-back candidate"
                [AStr typ; AStr (FormatRFC3339 attemptedAt)])
      else
      let* _ := recordCreateAttempt w zskSlot in
      let* created := CreateKey zone.(Zone.ID) typ algorithm active in
      if (created.(Key.ID) <=? 0) || (created.(Key.ID) == oldID)
         || reuses_other_slot w zskSlot created.(Key.ID)
         || (created.(Key.Active) != active) || negb created.(Key.Published) then
        fail (Errorf "created %s response has invalid id or active/published state" [AStr typ])
      else if algorithm_mismatch created.(Key.Algorithm) algorithm then
        fail (Errorf "created %s response has algorithm %q, want %q"
                [AStr typ; AStr created.(Key.Algorithm); AStr algorithm])
      else
      let* data := wrap (fun e => Errorf "created %s response: %w" [AStr typ; AWrap e])
                     (lift (validatedKeyRole zone.(Zone.Name) created typ allowTransitionalCSK)) in
      let* _ := wrap (fun e => Errorf "created %s response: %w" [AStr typ; AWrap e])
                  (lift (validateAlgorithmLabel created.(Key.Algorithm) data.(DNSSECData.Algorithm))) in
      ret created
  end.

Definition prepublish (zone : Zone.t) (keys : list Key.t) (w : Workflow.t) : M unit :=
  let name := zone.(Zone.Name) in
  let kind := w.(Workflow.Kind) in
  let typ := if is_split w then "csk" else Kind_string kind in
  if w.(Workflow.OldKeyID) == 0 then
    match exactlyOneActive keys typ with
    | Err e => block c name kind (Error e)
    | Ok old =>
        transition_now w PhasePrepublish (fun x => ret (x <| Workflow.OldKeyID := old.(Key.ID) |>))
    end
  else
  match byID keys w.(Workflow.OldKeyID) with
  | None => block c name kind "recorded old key missing"
  | Some old =>
      let algorithm := if old.(Key.Algorithm) == "" then c.(Config.Rotation).(Rotation.Algorithm)
                       else old.(Key.Algorithm) in
      if is_split w && (w.(Workflow.ParentMode) == "") then
        let set_mode mode :=
          transition_now w PhasePrepublish (fun x => ret (x <| Workflow.ParentMode := mode |>)) in
        let* oldData := lift (DNSSECDataForKey name old) in
        let* remote := DomainDNSSEC name in
        if remote.(DomainDNSSECState.Enabled)
           && sameMaterial remote.(DomainDNSSECState.Data) [oldData] then
          set_mode parentModeExisting
        else if negb remote.(DomainDNSSECState.Enabled)
                && (length remote.(DomainDNSSECState.Data) == 0%nat) then
          let* _ := wrap (fun e => Errorf
                       "initial delegation requires proven parent DS absence: %w" [AWrap e])
                      (NoDSEvidence name) in
          set_mode parentModeInitial
        else
          block c name kind "InternetX DNSSEC state is neither exact active old CSK nor exact disabled-empty initial state"
      else if is_split w then
        if w.(Workflow.NewKeyID) == 0 then
          let* k := adoptOrCreate zone keys w "ksk" algorithm old.(Key.ID) true true false in
          transition_now w PhasePrepublish (fun x => ret (x <| Workflow.NewKeyID := k.(Key.ID) |>))
        else if w.(Workflow.NewZSKID) == 0 then
          let* k := adoptOrCreate zone keys w "zsk" algorithm old.(Key.ID) false true true in
          transition_now w PhaseWaitPublish
            (fun x => ret (x <| Workflow.NewZSKID := k.(Key.ID) |>
                             <| Workflow.EvidenceAt := time_zero |>))
        else transition_now w PhaseWaitPublish clear_evidence
      else if w.(Workflow.NewKeyID) == 0 then
        let active := kind == KindKSK in
        let* k := adoptOrCreate zone keys w (Kind_string kind) algorithm old.(Key.ID) active
                    false false in
        transition_now w PhaseWaitPublish
          (fun x => ret (x <| Workflow.NewKeyID := k.(Key.ID) |>
                           <| Workflow.EvidenceAt := time_zero |>))
      else transition_now w PhaseWaitPublish clear_evidence
  end.

(** ** waitPublish *)
Definition is_ksk_or_split (w : Workflow.t) : bool :=
  (w.(Workflow.Kind) == KindKSK) || is_split w.

Definition waitPublish (zone : Zone.t) (keys : list Key.t) (w : Workflow.t) : M unit :=
  let name := zone.(Zone.Name) in
  let kind := w.(Workflow.Kind) in
  match recordedKeys keys w.(Workflow.OldKeyID) w.(Workflow.NewKeyID) with
  | Err e => block c name kind (Error e)
  | Ok (old, newKey) =>
      if is_split w && bool_decide (byID keys w.(Workflow.NewZSKID) = None) then
        block c name kind "recorded new ZSK missing"
      else
      match validatePrepublishInventory name keys w with
      | Err e => block c name kind (Error e)
      | Ok _ =>
          let evidenceKeys := publishedKeys keys in
          let* ttl := if is_initial_split w then AuthoritativeDNSKEYEvidence name evidenceKeys
                      else DNSKEYEvidence name evidenceKeys in
          let checkSignature k := if is_initial_split w then AuthoritativeDNSKEYRRSIGBy name k
                                  else DNSKEYRRSIGBy name k in
          let* _ :=
            if is_ksk_or_split w then
              let* _ := wrap (fun e => Errorf "old KSK/CSK overlap signature missing: %w" [AWrap e])
                          (checkSignature old) in
              wrap (fun e => Errorf "new KSK overlap signature missing: %w" [AWrap e])
                (checkSignature newKey)
            else ret tt in
          if IsZero w.(Workflow.EvidenceAt) then
            transition_after w PhaseWaitPublish
              (evidence_wait ttl c.(Config.Rotation).(Rotation.MinimumDNSKEYWait))
              (fun x =>
                 let* now := Now in
                 ret (x <| Workflow.DNSKEYTTL := dur_div ttl Second |>
                        <| Workflow.EvidenceAt := now |>))
          else
          transition_now w (if is_ksk_or_split w then PhaseParentRemove else PhaseActivateNew)
            clear_evidence
      end
  end.

(** ** activateNew *)
Definition activateNew (zone : Zone.t) (keys : list Key.t) (w : Workflow.t) : M unit :=
  let name := zone.(Zone.Name) in
  let kind := w.(Workflow.Kind) in
  let proceed :=
    match byID keys (if is_split w then w.(Workflow.NewZSKID) else w.(Workflow.NewKeyID)) with
    | None => block c name kind "new signing key missing"
    | Some k =>
        let* _ := if negb k.(Key.Active) then SetKey zone.(Zone.ID) k true true else ret tt in
        transition_now w PhaseWaitNewSignature clear_evidence
    end in
  if is_split w then
    match validatePrepublishInventory name keys w, validateActiveSplitInventory name keys w with
    | Err preErr, Err postErr =>
        block c name kind (Sprintf "split activation inventory is neither exact pre-state nor exact post-state; full DNSKEY prepublication recovery may be required: pre=%v; post=%v" [AErr preErr; AErr postErr])
    | _, _ => proceed
    end
  else proceed.

(** ** waitNewSignature *)
Fixpoint validateSignerRoles (name : string) (items : list (Key.t * string)) : result unit :=
  match items with
  | [] => Ok tt
  | (key, role) :: items' =>
      let? data := validatedKeyRole name key role false in
      let? _ := map_err (fun e => Errorf "key %d algorithm label: %w" [AInt key.(Key.ID); AWrap e])
                  (validateAlgorithmLabel key.(Key.Algorithm) data.(DNSSECData.Algorithm)) in
      validateSignerRoles name items'
  end.

Definition validateSplitSignerTransitionEvidence (zone : Zone.t) (keys : list Key.t)
    (w : Workflow.t) : M Z :=
  let name := zone.(Zone.Name) in
  let* _ := lift (validateActiveSplitInventory name keys w) in
  let* p := lift (recordedKeys keys w.(Workflow.OldKeyID) w.(Workflow.NewKeyID)) in
  let '(old, newKSK) := p in
  match byID keys w.(Workflow.NewZSKID) with
  | None => fail (Errorf "recorded replacement ZSK %d is missing" [AInt w.(Workflow.NewZSKID)])
  | Some newZSK =>
      if (old.(Key.KeyType) != "ksk") || (newKSK.(Key.KeyType) != "ksk")
         || (newZSK.(Key.KeyType) != "zsk") then
        fail (Errorf "PowerDNS signer roles are %q/%q/%q, want exact ksk/ksk/zsk"
                [AStr old.(Key.KeyType); AStr newKSK.(Key.KeyType); AStr newZSK.(Key.KeyType)])
      else
      let* _ := lift (validateSignerRoles name [(old, "ksk"); (newKSK, "ksk"); (newZSK, "zsk")]) in
      let* expected := lift (DNSSECDataForKey name newKSK) in
      let* remote := DomainDNSSEC name in
      if negb remote.(DomainDNSSECState.Enabled)
         || negb (sameMaterial remote.(DomainDNSSECState.Data) [expected]) then
        fail (errors_New "InternetX material is not exact new-only replacement KSK")
      else
      let* _ := wrap (fun e => Errorf "authoritative parent DS: %w" [AWrap e])
                  (AuthoritativeDSEvidence name [newKSK]) in
      let* _ := wrap (fun e => Errorf "AD-validating parent DS: %w" [AWrap e])
                  (DSEvidence name [newKSK]) in
      let* _ := wrap (fun e => Errorf "exact DNSKEY evidence: %w" [AWrap e])
                  (DNSKEYEvidence name (publishedKeys keys)) in
      let* _ := wrap (fun e => Errorf "replacement KSK DNSKEY signature: %w" [AWrap e])
                  (DNSKEYRRSIGBy name newKSK) in
      let* _ := wrap (fun e => Errorf "replacement ZSK zone signature: %w" [AWrap e])
                  (RRSIGBy name newZSK) in
      let* _ := wrap (fun e => Errorf "parent delegation: %w" [AWrap e])
                  (DelegationEvidence name c.(Config.DNS).(DNSCfg.ExpectedNameservers)) in
      let* detail := GetZone zone.(Zone.ID) in
      let ttl := dur_div (maxTTL detail) Second in
      if ttl <=? 0 then fail (errors_New "zone maximum TTL is zero") else ret ttl
  end.

(** A larger live TTL restarts the full attestation wait. *)
Definition restart_signer_transition (w : Workflow.t) (currentTTL : Z) : M unit :=
  let* now := Now in
  transition w PhaseWaitNewSignature (Add now (ttl_wait currentTTL))
    (fun x => ret (x <| Workflow.ZoneTTL := currentTTL |> <| Workflow.EvidenceAt := now |>
                     <| Workflow.SplitSignerTransitionAt := now |>)).

Definition waitNewSignature (zone : Zone.t) (keys : list Key.t) (w : Workflow.t) : M unit :=
  let name := zone.(Zone.Name) in
  let kind := w.(Workflow.Kind) in
  let* p := lift (recordedKeys keys w.(Workflow.OldKeyID) w.(Workflow.NewKeyID)) in
  let '(old, _) := p in
  match byID keys (if is_split w then w.(Workflow.NewZSKID) else w.(Workflow.NewKeyID)) with
  | None => block c name kind "new signer missing"
  | Some newSigner =>
      let* _ := RRSIGBy name newSigner in
      if negb newSigner.(Key.Active) || negb newSigner.(Key.Published) then
        block c name kind "new signing key is not active and published"
      else if w.(Workflow.ZoneTTL) == 0 then
        let* detail := GetZone zone.(Zone.ID) in
        let ttl := maxTTL detail in
        if ttl <=? 0 then block c name kind "zone maximum TTL is zero"
        else transition_now w PhaseWaitNewSignature
               (fun x => ret (x <| Workflow.ZoneTTL := dur_div ttl Second |>))
      else
      let advance := transition_now w PhaseDeactivateOld clear_evidence in
      if is_split w then
        if IsZero w.(Workflow.SplitSignerTransitionAt) then
          let* _ := wrap (fun e => Errorf "old CSK overlap signature missing: %w" [AWrap e])
                      (RRSIGBy name old) in
          if IsZero w.(Workflow.EvidenceAt) then
            transition_after w PhaseWaitNewSignature (ttl_wait w.(Workflow.ZoneTTL))
              (fun x => let* now := Now in ret (x <| Workflow.EvidenceAt := now |>))
          else advance
        else
          let deadline := Add w.(Workflow.SplitSignerTransitionAt) (ttl_wait w.(Workflow.ZoneTTL)) in
          let* now := Now in
          if Before now deadline then transition w PhaseWaitNewSignature deadline no_change
          else
          let* currentTTL := wrap (fun e => Errorf "split signer-transition evidence: %w" [AWrap e])
                               (validateSplitSignerTransitionEvidence zone keys w) in
          if w.(Workflow.ZoneTTL) <? currentTTL then restart_signer_transition w currentTTL
          else advance
      else advance
  end.

(** ** deactivateOld *)
Definition deactivateOld (zone : Zone.t) (keys : list Key.t) (w : Workflow.t) : M unit :=
  let name := zone.(Zone.Name) in
  let kind := w.(Workflow.Kind) in
  let retire (old : Key.t) : M unit :=
    let* _ := if old.(Key.Active) then SetKey zone.(Zone.ID) old false true else ret tt in
    if kind == KindKSK then transition_now w PhaseDeleteOld no_change
    else transition_after w PhaseWaitRetire (ttl_wait w.(Workflow.ZoneTTL)) no_change in
  let prove_and_retire : M unit :=
    let* p := lift (recordedKeys keys w.(Workflow.OldKeyID) w.(Workflow.NewKeyID)) in
    let '(old, newKey) := p in
    if negb newKey.(Key.Active) || negb newKey.(Key.Published) then
      block c name kind "replacement key is not active and published"
    else
    let* _ :=
      if kind == KindZSK then
        wrap (fun e => Errorf "new ZSK signature missing before old-key deactivation: %w" [AWrap e])
          (RRSIGBy name newKey)
      else
        let* _ := wrap (fun e => Errorf "new KSK signature missing before old-key deactivation: %w" [AWrap e])
                    (DNSKEYRRSIGBy name newKey) in
        wrap (fun e => Errorf "parent DS evidence missing before old-key deactivation: %w" [AWrap e])
          (DSEvidence name [newKey]) in
    let* _ :=
      if is_split w then
        let bad := block c name kind "replacement ZSK is not active and published" in
        match byID keys w.(Workflow.NewZSKID) with
        | None => bad
        | Some z =>
            if negb z.(Key.Active) || negb z.(Key.Published) then bad
            else wrap (fun e => Errorf "new ZSK signature missing before CSK deactivation: %w" [AWrap e])
                   (RRSIGBy name z)
        end
      else ret tt in
    let* _ := wrap (fun e => Errorf "replacement DNSKEY evidence missing before old-key deactivation: %w" [AWrap e])
                (DNSKEYEvidence name (publishedKeys keys)) in
    if kind != KindKSK then
      let* detail := GetZone zone.(Zone.ID) in
      let current := dur_div (maxTTL detail) Second in
      if current <=? 0 then block c name kind "zone maximum TTL is zero"
      else if w.(Workflow.ZoneTTL) <? current then
        transition_after w PhaseDeactivateOld (ttl_wait current)
          (fun x => let* now := Now in
                    ret (x <| Workflow.ZoneTTL := current |> <| Workflow.EvidenceAt := now |>))
      else retire old
    else retire old in
  if is_split w then
    match validateActiveSplitInventory name keys w, validateDeactivatedSplitInventory name keys w with
    | Err preErr, Err postErr =>
        block c name kind (Sprintf "split deactivation inventory is neither exact pre-state nor exact post-state: pre=%v; post=%v" [AErr preErr; AErr postErr])
    | preErr, _ =>
        if negb (IsZero w.(Workflow.SplitSignerTransitionAt)) && is_ok preErr then
          let* currentTTL := wrap (fun e => Errorf "split signer-transition evidence before old-key deactivation: %w" [AWrap e])
                               (validateSplitSignerTransitionEvidence zone keys w) in
          if w.(Workflow.ZoneTTL) <? currentTTL then restart_signer_transition w currentTTL
          else prove_and_retire
        else prove_and_retire
    end
  else prove_and_retire.

(** ** waitRetire and deleteOld *)
Definition waitRetire (zone : Zone.t) (keys : list Key.t) (w : Workflow.t) : M unit :=
  let name := zone.(Zone.Name) in
  let* p := lift (recordedKeys keys w.(Workflow.OldKeyID) w.(Workflow.NewKeyID)) in
  let '(_, newKey) := p in
  let finish signer :=
    let* _ := RRSIGBy name signer in
    transition_now w PhaseDeleteOld no_change in
  if is_split w then
    match byID keys w.(Workflow.NewZSKID) with
    | None => block c name w.(Workflow.Kind) "new ZSK missing at retirement"
    | Some signer => finish signer
    end
  else finish newKey.

Definition deleteOld (zone : Zone.t) (keys : list Key.t) (w : Workflow.t) : M unit :=
  let name := zone.(Zone.Name) in
  let kind := w.(Workflow.Kind) in
  let no_replacement := block c name kind "active and published replacement key missing" in
  match byID keys w.(Workflow.NewKeyID) with
  | None => no_replacement
  | Some newKey =>
      if negb newKey.(Key.Active) || negb newKey.(Key.Published) then no_replacement
      else
      let old := byID keys w.(Workflow.OldKeyID) in
      let* dnskeys :=
        if (kind == KindZSK) || (kind == KindKSK) then
          match retirementInventory name keys w with
          | Err e => block c name kind (Error e)
          | Ok l => ret l
          end
        else ret [] in
      let* _ :=
        if is_ksk_or_split w then
          let* _ := DNSKEYRRSIGBy name newKey in
          let* _ := DSEvidence name [newKey] in
          let* _ := AuthoritativeDSEvidence name [newKey] in
          ret tt
        else ret tt in
      let* dnskeys :=
        if is_split w then
          let no_zsk := block c name kind "active and published replacement ZSK missing" in
          match byID keys w.(Workflow.NewZSKID) with
          | None => no_zsk
          | Some z =>
              if negb z.(Key.Active) || negb z.(Key.Published) then no_zsk
              else
              let* _ := RRSIGBy name z in
              let* remote := DomainDNSSEC name in
              let* expected := lift (DNSSECDataForKey name newKey) in
              if negb remote.(DomainDNSSECState.Enabled)
                 || negb (sameMaterial remote.(DomainDNSSECState.Data) [expected]) then
                block c name kind "InternetX material is not exact new-only KSK before old-key deletion"
              else ret ([newKey; z] ++ option_list old)
          end
        else if kind == KindZSK then
          let* _ := RRSIGBy name newKey in
          ret dnskeys
        else ret dnskeys in
      let* _ := wrap (fun e => Errorf "replacement DNSKEY evidence missing before deletion: %w" [AWrap e])
                  (DNSKEYEvidence name dnskeys) in
      let* _ :=
        match old with
        | None => ret tt
        | Some old =>
            if old.(Key.Active) then block c name kind "refusing to delete active old key"
            else DeleteKey zone.(Zone.ID) old.(Key.ID)
        end in
      complete c w
  end.

End Rollover.
