(* ===== verification/Parent.v ===== *)
(** * internal/controller/controller.go, the parent side of a rollover: replacing the
    registrar's material, following the registrar's job and waiting for the parent DS. *)
From S2P Require Import Prelude GoStrings GoTime Model Config Dns Keys Effects Core.
From S2P Require Import Rollover.

Section Parent.
Context {SV : Services} {DL : DnsLib} (c : Config.t).

(** ** parentReplace *)
Definition parent_ctid (w : Workflow.t) : string :=
  dnssec_id (Sprintf "%s|%s|%s|parent-replace"
    [AStr w.(Workflow.Zone); AStr (Kind_string w.(Workflow.Kind));
     AStr (FormatRFC3339Nano w.(Workflow.PhaseStartedAt))]).

(** Persist that the registrar write is about to be attempted. *)
Definition record_registrar_attempt (w : Workflow.t) (attemptedAt : time) : M unit :=
  Update (fun s =>
    let k := WorkflowKey w.(Workflow.Zone) w.(Workflow.Kind) in
    ret (put_workflow k
           ((workflow_at s k) <| Workflow.RegistrarAttemptedAt := attemptedAt |>) s)).

Definition record_job (job : Job.t) (x : Workflow.t) : M Workflow.t :=
  ret (x <| Workflow.RegistrarSTID := job.(Job.STID) |>
         <| Workflow.RegistrarJobID := job.(Job.ID) |>
         <| Workflow.RegistrarJobStatus := job.(Job.Status) |>
         <| Workflow.EvidenceAt := time_zero |>).

Definition parentReplace (zone : Zone.t) (keys : list Key.t) (w : Workflow.t) : M unit :=
  let name := zone.(Zone.Name) in
  let kind := w.(Workflow.Kind) in
  let initial := is_initial_split w in
  if w.(Workflow.RegistrarCTID) == "" then
    transition_now w PhaseParentRemove
      (fun x => ret (x <| Workflow.RegistrarCTID := parent_ctid w |>))
  else
  let* p := lift (recordedKeys keys w.(Workflow.OldKeyID) w.(Workflow.NewKeyID)) in
  let '(old, newKey) := p in
  match validatePrepublishInventory name keys w with
  | Err e => block c name kind (Error e)
  | Ok _ =>
      let published := publishedKeys keys in
      let* _ := wrap (fun e => Errorf "exact DNSKEY evidence missing immediately before parent write: %w" [AWrap e])
                  (if initial then AuthoritativeDNSKEYEvidence name published
                   else DNSKEYEvidence name published) in
      let* _ := wrap (fun e => Errorf "new KSK signature missing: %w" [AWrap e])
                  (if initial then AuthoritativeDNSKEYRRSIGBy name newKey
                   else DNSKEYRRSIGBy name newKey) in
      let* _ :=
        if is_split w then
          wrap (fun e => Errorf "old CSK zone signature missing immediately before parent write: %w" [AWrap e])
            (if initial then AuthoritativeRRSIGBy name old else RRSIGBy name old)
        else ret tt in
      let* oldData := lift (DNSSECDataForKey name old) in
      let* newData := lift (DNSSECDataForKey name newKey) in
      let* remote := DomainDNSSEC name in
      let enabled := remote.(DomainDNSSECState.Enabled) in
      let material := remote.(DomainDNSSECState.Data) in
      if enabled && sameMaterial material [newData] then
        transition_now w PhaseWaitParentRemove clear_evidence
      else
      let* _ :=
        if initial then
          if enabled || (length material != 0%nat) then
            block c name kind "InternetX initial DNSSEC state changed before write"
          else
            let* r := try (NoDSEvidence name) in
            match r with
            | Err e => block c name kind
                (Sprintf "parent DS appeared before initial InternetX write: %v" [AErr e])
            | Ok _ => ret tt
            end
        else if negb enabled || negb (sameMaterial material [oldData]) then
          block c name kind "InternetX material is not the exact active old KSK/CSK"
        else ret tt in
      if negb (IsZero w.(Workflow.RegistrarAttemptedAt)) then
        let* now := Now in
        if 24 * Hour <=? Sub now w.(Workflow.RegistrarAttemptedAt) then
          block c name kind "ambiguous InternetX write did not converge within 24h; manual reconciliation required"
        else
          fail (errors_New "InternetX write outcome is ambiguous; waiting for read-back without resubmitting")
      else
      let* attemptedAt := Now in
      let* _ := record_registrar_attempt w attemptedAt in
      let* job := UpdateDNSSEC name [newData] w.(Workflow.RegistrarCTID) in
      transition_now w PhaseWaitParentRemove (record_job job)
  end.

(** ** waitParentReplace *)
Definition reconcileUnavailableRegistrarJob (zone : string) (key : Key.t) (jobErr : error) : M unit :=
  if negb (is_job_unavailable jobErr) then fail jobErr
  else
  let* expected := lift (DNSSECDataForKey zone key) in
  let* remote := DomainDNSSEC zone in
  if negb remote.(DomainDNSSECState.Enabled)
     || negb (sameMaterial remote.(DomainDNSSECState.Data) [expected]) then
    fail (errors_New "InternetX job is unavailable and current registrar material does not exactly match the recorded replacement key")
  else ret tt.

(** A job that is recorded and not known to have succeeded is followed first. *)
Definition job_pending (w : Workflow.t) : bool :=
  (0 <? w.(Workflow.RegistrarJobID)) && negb (jobSucceeded w.(Workflow.RegistrarJobStatus)).

(** The job branch shared by the rollover and the enrollment wait; [what] names the job. *)
Definition follow_job (name : string) (key : Key.t) (w : Workflow.t) (phase : Phase) (what : string)
  : M unit :=
  let record status :=
    transition_now w phase (fun x => ret (x <| Workflow.RegistrarJobStatus := status |>)) in
  let* r := try (JobStatus w.(Workflow.RegistrarJobID)) in
  match r with
  | Err e =>
      let* _ := reconcileUnavailableRegistrarJob name key e in
      record "SUCCESS"
  | Ok status =>
      if jobFailed status then
        block c name w.(Workflow.Kind)
          (Sprintf ("InternetX " +:+ what +:+ " %d finished with %s")
             [AInt w.(Workflow.RegistrarJobID); AStr status])
      else if negb (jobSucceeded status) then
        fail (Errorf ("InternetX " +:+ what +:+ " %d is %s")
                [AInt w.(Workflow.RegistrarJobID); AStr status])
      else record status
  end.

(** Start (or restart) the full parent DS wait from this observation. *)
Definition begin_parent_wait (w : Workflow.t) (phase : Phase) (ttl : duration) : M unit :=
  transition_after w phase (evidence_wait c ttl c.(Config.Rotation).(Rotation.MinimumParentWait))
    (fun x =>
       let* now := Now in
       ret (x <| Workflow.ParentDSTTL := dur_div ttl Second |> <| Workflow.EvidenceAt := now |>)).

Definition waitParentReplace (zone : Zone.t) (keys : list Key.t) (w : Workflow.t) : M unit :=
  let name := zone.(Zone.Name) in
  let kind := w.(Workflow.Kind) in
  let proceed : M unit :=
    let* p := lift (recordedKeys keys w.(Workflow.OldKeyID) w.(Workflow.NewKeyID)) in
    let '(_, newKey) := p in
    if job_pending w then follow_job name newKey w PhaseWaitParentRemove "job"
    else
    let* ttl := AuthoritativeDSEvidence name [newKey] in
    if IsZero w.(Workflow.EvidenceAt) then begin_parent_wait w PhaseWaitParentRemove ttl
    else
    let* _ := DSEvidence name [newKey] in
    if negb newKey.(Key.Active) || negb newKey.(Key.Published) then
      block c name kind "new KSK is not active and published after parent wait"
    else
    let* _ := wrap (fun e => Errorf "new KSK DNSKEY evidence missing after parent wait: %w" [AWrap e])
                (DNSKEYEvidence name (publishedKeys keys)) in
    let* _ := wrap (fun e => Errorf "new KSK signature missing after parent wait: %w" [AWrap e])
                (DNSKEYRRSIGBy name newKey) in
    transition_now w (if is_split w then PhaseActivateNew else PhaseDeactivateOld) clear_evidence in
  if is_split w then
    match validatePrepublishInventory name keys w with
    | Err e => block c name kind (Sprintf "split inventory drifted during parent wait; full DNSKEY prepublication recovery required: %v" [AErr e])
    | Ok _ => proceed
    end
  else proceed.

End Parent.
