(* ===== verification/Enroll.v ===== *)
(** * internal/controller/controller.go, automatic initial enrollment: the four
    handlers that publish an existing split zone at the parent without touching a key. *)
From S2P Require Import Prelude GoStrings GoTime Sha256 Model Config Dns Keys Effects Core.
From S2P Require Import Rollover Parent.

Section Enroll.
Context {SV : Services} {DL : DnsLib} (c : Config.t).

Definition allowed_algorithms : list string := c.(Config.Enrollment).(Enrollment.AllowedAlgorithms).
Definition expected_nameservers : list string := c.(Config.DNS).(DNSCfg.ExpectedNameservers).

(** The recorded inventory, re-validated against the recorded IDs and fingerprint. *)
Definition recorded_inventory (name : string) (keys : list Key.t) (w : Workflow.t)
  : result (Key.t * Key.t * string) :=
  validateEnrollmentInventory name keys w.(Workflow.NewKeyID) w.(Workflow.NewZSKID)
    w.(Workflow.KeysetFingerprint) allowed_algorithms.

(** [err != nil || zone.ID != w.ZoneID], with the error the handlers report. *)
Definition recorded_inventory_and_zone (zone : Zone.t) (keys : list Key.t) (w : Workflow.t)
  : result (Key.t * Key.t) :=
  match recorded_inventory zone.(Zone.Name) keys w with
  | Err e => Err e
  | Ok (ksk, zsk, _) =>
      if zone.(Zone.ID) != w.(Workflow.ZoneID)
      then Err (errors_New "PowerDNS zone identity changed")
      else Ok (ksk, zsk)
  end.

Definition validateEnrollmentEvidence (zone : string) (keys : list Key.t) (ksk zsk : Key.t)
    (recursive : bool) : M unit :=
  let* _ := wrap (fun e => Errorf "parent delegation: %w" [AWrap e])
              (DelegationEvidence zone expected_nameservers) in
  if recursive then
    let* _ := DNSKEYEvidence zone (publishedKeys keys) in
    let* _ := DNSKEYRRSIGBy zone ksk in
    RRSIGBy zone zsk
  else
    let* _ := AuthoritativeDNSKEYEvidence zone (publishedKeys keys) in
    let* _ := AuthoritativeDNSKEYRRSIGBy zone ksk in
    AuthoritativeRRSIGBy zone zsk.

Definition mark_ineligible (w : Workflow.t) : M unit :=
  Update (fun s =>
    let k := WorkflowKey w.(Workflow.Zone) w.(Workflow.Kind) in
    let* now := Now in
    ret (put_workflow k
           ((workflow_at s k) <| Workflow.Phase := PhaseIdle |>
              <| Workflow.LastCompletedAt := now |> <| Workflow.NextActionAt := time_zero |>
              <| Workflow.EnrollmentDisposition := "ineligible" |>
              <| Workflow.LastError := ineligible_reason |>) s)).

Definition enrollDiscovered (zone : Zone.t) (keys : list Key.t) (w : Workflow.t) : M unit :=
  let name := zone.(Zone.Name) in
  let kind := w.(Workflow.Kind) in
  if (w.(Workflow.NewKeyID) == 0) || (w.(Workflow.NewZSKID) == 0)
     || (w.(Workflow.KeysetFingerprint) == "") then
    if keyScheme keys == "csk" then mark_ineligible w
    else
    let* inv := wrap (fun e => Errorf "waiting for a stable clean split inventory: %w" [AWrap e])
                  (lift (validateEnrollmentInventory name keys 0 0 "" allowed_algorithms)) in
    let '(ksk, zsk, fingerprint) := inv in
    transition_after w PhaseEnrollDiscovered c.(Config.Enrollment).(Enrollment.DiscoveryGrace)
      (fun x => ret (x <| Workflow.NewKeyID := ksk.(Key.ID) |>
                       <| Workflow.NewZSKID := zsk.(Key.ID) |>
                       <| Workflow.KeysetFingerprint := fingerprint |>
                       <| Workflow.EvidenceAt := time_zero |> <| Workflow.DNSKEYTTL := 0 |>))
  else
  match recorded_inventory name keys w with
  | Err e => block c name kind ("enrollment inventory drifted during discovery: " +:+ Error e)
  | Ok (ksk, zsk, _) =>
      if zone.(Zone.ID) != w.(Workflow.ZoneID) then
        block c name kind "PowerDNS zone identity changed during enrollment discovery"
      else
      let* remote := DomainDNSSEC name in
      let* expected := lift (DNSSECDataForKey name ksk) in
      if remote.(DomainDNSSECState.Enabled) then
        if negb (sameMaterial remote.(DomainDNSSECState.Data) [expected]) then
          block c name kind "InternetX already contains non-matching DNSSEC material"
        else
        let* _ := wrap (fun e => Errorf "existing enrollment adoption evidence: %w" [AWrap e])
                    (validateEnrollmentEvidence name keys ksk zsk true) in
        let* _ := wrap (fun e => Errorf "existing enrollment authoritative DS evidence: %w" [AWrap e])
                    (AuthoritativeDSEvidence name [ksk]) in
        let* _ := wrap (fun e => Errorf "existing enrollment validating DS evidence: %w" [AWrap e])
                    (DSEvidence name [ksk]) in
        complete c w
      else if length remote.(DomainDNSSECState.Data) != 0%nat then
        block c name kind "InternetX initial enrollment state is not disabled-empty"
      else
      let* _ := wrap (fun e => Errorf "initial enrollment requires proven parent DS absence: %w" [AWrap e])
                  (NoDSEvidence name) in
      let* _ := wrap (fun e => Errorf "initial enrollment requires exact parent delegation: %w" [AWrap e])
                  (DelegationEvidence name expected_nameservers) in
      transition_now w PhaseEnrollWaitPublish
        (fun x => ret (x <| Workflow.EvidenceAt := time_zero |> <| Workflow.DNSKEYTTL := 0 |>))
  end.

Definition enrollWaitPublish (zone : Zone.t) (keys : list Key.t) (w : Workflow.t) : M unit :=
  let name := zone.(Zone.Name) in
  match recorded_inventory_and_zone zone keys w with
  | Err e => block c name w.(Workflow.Kind)
               ("enrollment inventory drifted during publication wait: " +:+ Error e)
  | Ok (ksk, zsk) =>
      let* ttl := AuthoritativeDNSKEYEvidence name (publishedKeys keys) in
      let* _ := wrap (fun e => Errorf "enrollment KSK DNSKEY signature: %w" [AWrap e])
                  (AuthoritativeDNSKEYRRSIGBy name ksk) in
      let* _ := wrap (fun e => Errorf "enrollment ZSK zone signature: %w" [AWrap e])
                  (AuthoritativeRRSIGBy name zsk) in
      let* _ := DelegationEvidence name expected_nameservers in
      if IsZero w.(Workflow.EvidenceAt) then
        transition_after w PhaseEnrollWaitPublish
          (evidence_wait c ttl c.(Config.Rotation).(Rotation.MinimumDNSKEYWait))
          (fun x =>
             let* now := Now in
             ret (x <| Workflow.EvidenceAt := now |>
                    <| Workflow.DNSKEYTTL := dur_div ttl Second |>))
      else transition_now w PhaseEnrollParentAdd clear_evidence
  end.

(** The intent to write is persisted only on the workflow that was read. *)
Definition record_enrollment_attempt (w : Workflow.t) (attemptedAt : time) : M unit :=
  Update (fun s =>
    let k := WorkflowKey w.(Workflow.Zone) w.(Workflow.Kind) in
    let current := workflow_at s k in
    if (current.(Workflow.Phase) != PhaseEnrollParentAdd)
       || (current.(Workflow.RegistrarCTID) != w.(Workflow.RegistrarCTID))
       || negb (IsZero current.(Workflow.RegistrarAttemptedAt)) then
      fail (errors_New "enrollment workflow changed before registrar intent could be persisted")
    else ret (put_workflow k (current <| Workflow.RegistrarAttemptedAt := attemptedAt |>) s)).

Definition enroll_ctid (armed : time) (zone fingerprint : string) : string :=
  dnssec_id (FormatRFC3339Nano armed +:+ "|" +:+ zone +:+ "|" +:+ fingerprint +:+ "|enroll").

Definition enrollParentAdd (zone : Zone.t) (keys : list Key.t) (w : Workflow.t) : M unit :=
  let name := zone.(Zone.Name) in
  let kind := w.(Workflow.Kind) in
  if w.(Workflow.Phase) != PhaseEnrollParentAdd then ret tt
  else
  let* st := Snapshot in
  if IsZero w.(Workflow.RegistrarAttemptedAt) && IsZero st.(State.EnrollmentArmedAt) then
    block c name kind "automatic enrollment is disarmed before registrar write"
  else
  match recorded_inventory_and_zone zone keys w with
  | Err e => block c name kind ("enrollment inventory drifted before parent write: " +:+ Error e)
  | Ok (ksk, zsk) =>
      let* _ := wrap (fun e => Errorf "enrollment pre-write evidence: %w" [AWrap e])
                  (validateEnrollmentEvidence name keys ksk zsk false) in
      let* r := try (NoDSEvidence name) in
      match r with
      | Err e => block c name kind ("parent DS appeared before enrollment write: " +:+ Error e)
      | Ok _ =>
          let* newData := lift (DNSSECDataForKey name ksk) in
          let payloadHash := dnssecPayloadHash newData in
          if (w.(Workflow.RegistrarPayloadHash) != "")
             && (w.(Workflow.RegistrarPayloadHash) != payloadHash) then
            block c name kind "recorded InternetX enrollment payload hash changed"
          else
          let* remote := DomainDNSSEC name in
          if remote.(DomainDNSSECState.Enabled)
             && sameMaterial remote.(DomainDNSSECState.Data) [newData] then
            transition_now w PhaseEnrollWaitParent clear_evidence
          else if remote.(DomainDNSSECState.Enabled)
                  || (length remote.(DomainDNSSECState.Data) != 0%nat) then
            block c name kind "InternetX initial enrollment state changed before write"
          else if w.(Workflow.RegistrarCTID) == "" then
            let* st := Snapshot in
            let ctid := enroll_ctid st.(State.EnrollmentArmedAt) name
                          w.(Workflow.KeysetFingerprint) in
            transition_now w PhaseEnrollParentAdd
              (fun x => ret (x <| Workflow.RegistrarCTID := ctid |>
                               <| Workflow.RegistrarPayloadHash := payloadHash |>))
          else if w.(Workflow.RegistrarPayloadHash) == "" then
            block c name kind "InternetX enrollment payload hash was not persisted before write"
          else if negb (IsZero w.(Workflow.RegistrarAttemptedAt)) then
            let* now := Now in
            if 24 * Hour <=? Sub now w.(Workflow.RegistrarAttemptedAt) then
              block c name kind "ambiguous InternetX enrollment write did not converge within 24h; manual reconciliation required"
            else
              fail (errors_New "InternetX enrollment write outcome is ambiguous; waiting for read-back without resubmitting")
          else
          let* attemptedAt := Now in
          let* _ := record_enrollment_attempt w attemptedAt in
          let* job := UpdateDNSSEC name [newData] w.(Workflow.RegistrarCTID) in
          if job.(Job.ID) <=? 0 then
            block c name kind "InternetX enrollment acknowledgement omitted a positive job id"
          else transition_now w PhaseEnrollWaitParent (record_job job)
      end
  end.

Definition enrollWaitParent (zone : Zone.t) (keys : list Key.t) (w : Workflow.t) : M unit :=
  let name := zone.(Zone.Name) in
  let kind := w.(Workflow.Kind) in
  match recorded_inventory_and_zone zone keys w with
  | Err e => block c name kind ("enrollment inventory drifted during parent wait: " +:+ Error e)
  | Ok (ksk, zsk) =>
      if job_pending w then follow_job c name ksk w PhaseEnrollWaitParent "enrollment job"
      else
      let* ttl := AuthoritativeDSEvidence name [ksk] in
      if IsZero w.(Workflow.EvidenceAt) then begin_parent_wait c w PhaseEnrollWaitParent ttl
      else if w.(Workflow.ParentDSTTL) <? dur_div ttl Second then
        begin_parent_wait c w PhaseEnrollWaitParent ttl
      else
      let* _ := validateEnrollmentEvidence name keys ksk zsk true in
      let* _ := DSEvidence name [ksk] in
      let* remote := DomainDNSSEC name in
      let* data := lift (DNSSECDataForKey name ksk) in
      if negb remote.(DomainDNSSECState.Enabled)
         || negb (sameMaterial remote.(DomainDNSSECState.Data) [data]) then
        block c name kind "InternetX enrollment material is not the exact recorded KSK after parent wait"
      else complete c w
  end.

End Enroll.
