(* ===== verification/Reconcile.v ===== *)
(** * internal/controller/controller.go, reconciliation: dispatch of one workflow,
    of one zone, the notification outbox and the serialized [Tick]. *)
From S2P Require Import Prelude GoStrings GoTime Model Config Dns Keys Effects Core Rollover.
From S2P Require Import Parent Enroll.

Section Reconcile.
Context {SV : Services} {DL : DnsLib} (c : Config.t).

(** ** advance *)
(** The handler of a phase; [None] for the phases [advance] answers itself. *)
Definition phase_handler (zone : Zone.t) (keys : list Key.t) (w : Workflow.t) : option (M unit) :=
  match w.(Workflow.Phase) with
  | PhasePrepublish => Some (prepublish c zone keys w)
  | PhaseWaitPublish => Some (waitPublish c zone keys w)
  | PhaseActivateNew => Some (activateNew c zone keys w)
  | PhaseWaitNewSignature => Some (waitNewSignature c zone keys w)
  | PhaseDeactivateOld => Some (deactivateOld c zone keys w)
  | PhaseParentRemove => Some (parentReplace c zone keys w)
  | PhaseWaitParentRemove => Some (waitParentReplace c zone keys w)
  | PhaseWaitRetire => Some (waitRetire c zone keys w)
  | PhaseDeleteOld => Some (deleteOld c zone keys w)
  | PhaseEnrollDiscovered => Some (enrollDiscovered c zone keys w)
  | PhaseEnrollWaitPublish => Some (enrollWaitPublish c zone keys w)
  | PhaseEnrollParentAdd => Some (enrollParentAdd c zone keys w)
  | PhaseEnrollWaitParent => Some (enrollWaitParent c zone keys w)
  | PhaseBlocked | PhaseIdle | PhaseOther _ => None
  end.

(** The clock is read only when a next action time is recorded. *)
Definition not_due (w : Workflow.t) : M bool :=
  if IsZero w.(Workflow.NextActionAt) then ret false
  else let* now := Now in ret (Before now w.(Workflow.NextActionAt)).

Definition advance (zone : Zone.t) (keys : list Key.t) (w : Workflow.t) : M unit :=
  let* waiting := not_due w in
  if waiting then ret tt
  else
  match phase_handler zone keys w with
  | Some handler =>
      let* r := try handler in
      match r with
      | Ok _ => ret tt
      | Err e =>
          let* _ := try (recordRetry w e) in
          fail e
      end
  | None =>
      if w.(Workflow.Phase) == PhaseBlocked then ret tt
      else fail (Errorf "unknown phase %q" [AStr (Phase_string w.(Workflow.Phase))])
  end.

(** ** reconcileZone *)
Definition active_workflows (zone : string) (ws : list (string * Workflow.t)) : list Workflow.t :=
  List.filter (fun w => (w.(Workflow.Zone) == zone) && Active w) (map snd ws).

Definition enrollment_out_of_scope (name : string) (w : Workflow.t) : bool :=
  (w.(Workflow.Kind) == KindEnroll) && IsZero w.(Workflow.RegistrarAttemptedAt)
  && (negb c.(Config.Enrollment).(Enrollment.Enabled) || negb (selectedEnrollment c name)).

Definition reconcileZone (zone : Zone.t) : M unit :=
  let name := zone.(Zone.Name) in
  let* keys := ListKeys zone.(Zone.ID) in
  let scheme := keyScheme keys in
  if c.(Config.Mode) == "observe" then ret tt
  else
  let* _ := bootstrap c zone scheme keys in
  let* st := Snapshot in
  let* ws := range_workflows st.(State.Workflows) in
  match active_workflows name ws with
  | w :: _ :: _ => block c name w.(Workflow.Kind) "more than one active workflow for zone"
  | [w] =>
      if enrollment_out_of_scope name w then
        block c name KindEnroll "automatic enrollment was disabled or moved out of scope before registrar write"
      else advance zone keys w
  | [] =>
      if scheme == "csk" then ret tt
      else if scheme != "split" then
        block c name KindZSK "expected exactly one active KSK and one active ZSK"
      else
      let* now := Now in
      let z := workflow_at st (WorkflowKey name KindZSK) in
      let k := workflow_at st (WorkflowKey name KindKSK) in
      let r := c.(Config.Rotation) in
      if r.(Rotation.ZSKInterval) <=? Sub now z.(Workflow.LastCompletedAt) then
        start name KindZSK false ""
      else if r.(Rotation.KSKInterval) <=? Sub now k.(Workflow.LastCompletedAt) then
        start name KindKSK false ""
      else ret tt
  end.

(** ** deliverNotifications *)
Definition return_joined (errs : list error) : M unit :=
  match errors_Join errs with
  | None => ret tt
  | Some e => fail e
  end.

Definition expired (now : time) (kn : string * Notification.t) : bool :=
  negb (IsZero kn.2.(Notification.DeliveredAt))
  && (c.(Config.Controller).(ControllerCfg.IdempotencyRetention)
      <? Sub now kn.2.(Notification.DeliveredAt)).

Definition deliverable (now : time) (kn : string * Notification.t) : bool :=
  IsZero kn.2.(Notification.DeliveredAt)
  && (IsZero kn.2.(Notification.NextAttemptAt) || negb (Before now kn.2.(Notification.NextAttemptAt))).

Definition delete_notifications (ids : list string) (s : State.t) : State.t :=
  s <| State.Notifications := fold_left (fun m id => delete id m) ids s.(State.Notifications) |>.

(** What one delivery attempt records on the event, if it is still there and undelivered. *)
Definition record_delivery (now : time) (id : string) (r : result unit) (s : State.t) : M State.t :=
  match s.(State.Notifications) !! id with
  | None => ret s
  | Some current =>
      if negb (IsZero current.(Notification.DeliveredAt)) then ret s
      else
      match r with
      | Ok _ =>
          ret (put_notification id
                 (current <| Notification.DeliveredAt := now |>
                    <| Notification.LastError := "" |>
                    <| Notification.NextAttemptAt := time_zero |>) s)
      | Err e =>
          let attempts := int64 (current.(Notification.Attempts) + 1) in
          let* b := backoff attempts in
          ret (put_notification id
                 (current <| Notification.Attempts := attempts |>
                    <| Notification.LastError := Error e |>
                    <| Notification.NextAttemptAt := Add now b |>) s)
      end
  end.

Definition zero_Notification : Notification.t :=
  Notification.mk "" "" "" (KindOther "") time_zero 0 0 0 "" 0 time_zero "" time_zero.

Definition deliver_one (now : time) (st : State.t) (id : string) : M (list error) :=
  let event := default zero_Notification (st.(State.Notifications) !! id) in
  let* r := try (Send event) in
  let* u := try (Update (record_delivery now id r)) in
  match u, r with
  | Err updateErr, _ => ret [updateErr]
  | Ok _, Err e => ret [Errorf "notification %s: %w" [AStr id; AWrap e]]
  | Ok _, Ok _ => ret []
  end.

Fixpoint deliver_all (now : time) (st : State.t) (ids : list string) : M (list error) :=
  match ids with
  | [] => ret []
  | id :: ids' =>
      let* e := deliver_one now st id in
      let* es := deliver_all now st ids' in
      ret (e ++ es)
  end.

Definition deliverNotifications : M unit :=
  let* now := Now in
  let* st := Snapshot in
  let* ns := range_notifications st.(State.Notifications) in
  let gone := map fst (List.filter (expired now) ns) in
  let* st :=
    match gone with
    | [] => ret st
    | _ =>
        let* _ := Update (fun s => ret (delete_notifications gone s)) in
        Snapshot
    end in
  if negb c.(Config.LMTP).(LMTP.Enabled) then ret tt
  else
  let* ns := range_notifications st.(State.Notifications) in
  let ids := Sort (map fst (List.filter (deliverable now) ns)) in
  let* errs := deliver_all now st ids in
  return_joined errs.

(** ** Tick *)
Definition crlf : string := of_bytes [byte_of_code 13; byte_of_code 10].

Definition valid_zone_name (name : string) : bool :=
  IsDomainName (Fqdn name) && negb (ContainsAny name crlf).

(** One zone of the loop: the names seen with DNSSEC so far and the error, if any. *)
Definition tick_zone (st : State.t) (z : Zone.t) (seen : list string)
  : M (list string * list error) :=
  let name := z.(Zone.Name) in
  if negb (valid_zone_name name) then
    ret (seen, [Errorf "invalid PowerDNS zone name %q" [AStr name]])
  else
  let seen := if z.(Zone.DNSSEC) then name :: seen else seen in
  let mustReconcileEnrollment := Active (workflow_at st (WorkflowKey name KindEnroll)) in
  if negb z.(Zone.DNSSEC) || (negb (selected c name) && negb mustReconcileEnrollment) then
    ret (seen, [])
  else
  let* r := try (reconcileZone z) in
  match r with
  | Ok _ => ret (seen, [])
  | Err e => ret (seen, [Errorf "%s: %w" [AStr name; AWrap e]])
  end.

Fixpoint tick_zones (st : State.t) (zones : list Zone.t) (seen : list string) (errs : list error)
  : M (list string * list error) :=
  match zones with
  | [] => ret (seen, errs)
  | z :: zones' =>
      let* r := tick_zone st z seen in
      let '(seen, es) := r in
      tick_zones st zones' seen (errs ++ es)
  end.

(** Enrollments whose zone has disappeared or lost DNSSEC are blocked. *)
Fixpoint block_vanished (seen : list string) (ws : list (string * Workflow.t)) (errs : list error)
  : M (list error) :=
  match ws with
  | [] => ret errs
  | (_, w) :: ws' =>
      if (w.(Workflow.Kind) == KindEnroll) && Active w
         && negb (bool_decide (w.(Workflow.Zone) ∈ seen)) then
        let* r := try (A := unit) (block c w.(Workflow.Zone) w.(Workflow.Kind)
                         "enrollment zone disappeared or DNSSEC was disabled") in
        block_vanished seen ws' (errs ++ match r with Ok _ => [] | Err e => [e] end)
      else block_vanished seen ws' errs
  end.

Definition Tick : M unit :=
  let enforce := c.(Config.Mode) == "enforce" in
  let* errs :=
    if enforce then
      let* r := try deliverNotifications in
      ret (match r with Ok _ => [] | Err e => [e] end)
    else ret [] in
  let* zs := try ListZones in
  match zs with
  | Err e => return_joined (errs ++ [e])
  | Ok zones =>
      let* st := Snapshot in
      let* r := tick_zones st zones [] errs in
      let '(seen, errs) := r in
      let* errs :=
        if enforce then
          let* st := Snapshot in
          let* ws := range_workflows st.(State.Workflows) in
          block_vanished seen ws errs
        else ret errs in
      return_joined errs
  end.

End Reconcile.
