(* ===== verification/Waits.v ===== *)
(** * Waiting times, retries and the TTL bound: what the recorded times mean. *)
From S2P Require Import Prelude GoStrings GoTime Model Config Dns Keys KeysFacts Effects.
From S2P Require Import Wp Core Rollover Parent Enroll Reconcile.

(** A TTL in seconds as the DNS carries it. *)
Definition ttl32 (ttl : Z) : Prop := 0 <= ttl < 2 ^ 32.
(** A configured duration: at most 73 years. *)
Definition moderate (d : duration) : Prop := 0 <= d <= 2 ^ 61.

Lemma ttl_seconds ttl : ttl32 ttl -> dur_mul ttl Second = ttl * Second /\ 0 <= ttl * Second < 2 ^ 62.
Proof.
  unfold ttl32, dur_mul, Second. intros H. rewrite int64_id; [lia|]. unfold in_int64. lia.
Qed.

Section Waits.
Context {SV : Services} {DL : DnsLib} (c : Config.t).

(** For 32-bit TTLs and moderate configured durations no waiting time overflows: the wait
    after an observation is exactly the larger of the observed TTL and the configured
    minimum, plus the propagation margin, and the wait on a zone TTL is that TTL plus the margin. *)
Lemma waits_cover_ttl ttl minimum :
  ttl32 ttl -> moderate minimum -> moderate (Margin c) ->
  evidence_wait c (ttl * Second) minimum = Z.max (ttl * Second) minimum + Margin c /\
  ttl_wait c ttl = ttl * Second + Margin c /\
  ttl * Second <= evidence_wait c (ttl * Second) minimum /\
  minimum <= evidence_wait c (ttl * Second) minimum.
Proof.
  intros Ht Hmin Hm. destruct (ttl_seconds ttl Ht) as [Hs Hb]. unfold moderate in *.
  assert (He : evidence_wait c (ttl * Second) minimum = Z.max (ttl * Second) minimum + Margin c).
  { unfold evidence_wait, maxDuration, dur_add.
    destruct (minimum <? ttl * Second) eqn:E; bool_prop;
      (rewrite int64_id; [lia|unfold in_int64; lia]). }
  rewrite He. unfold ttl_wait, dur_add. rewrite Hs, int64_id; [lia|unfold in_int64; lia].
Qed.

(** *** The largest TTL of a zone *)
Definition largest (rs : list RRSet.t) (m : Z) : Z :=
  fold_left (fun m r => if m <? r.(RRSet.TTL) then r.(RRSet.TTL) else m) rs m.

Lemma largest_bounds rs m :
  m <= largest rs m /\ Forall (fun r => r.(RRSet.TTL) <= largest rs m) rs /\
  (largest rs m = m \/ exists r, r ∈ rs /\ largest rs m = r.(RRSet.TTL)).
Proof.
  revert m. induction rs as [|r rs IH]; intros m; cbn; [split; [lia|split; [constructor|by left]]|].
  destruct (IH (if m <? RRSet.TTL r then RRSet.TTL r else m)) as (H1 & H2 & H3).
  fold (largest rs (if m <? RRSet.TTL r then RRSet.TTL r else m)) in *.
  rewrite Forall_cons. destruct (m <? RRSet.TTL r) eqn:E; bool_prop.
  - split_and!; [lia|lia|done|]. right. destruct H3 as [->|(r' & ? & ->)];
      [exists r|exists r']; split; set_solver.
  - split_and!; [lia|lia|done|]. destruct H3 as [->|(r' & ? & ->)]; [by left|].
    right. exists r'. set_solver.
Qed.

(** [maxTTL] bounds the TTL of every record set of the zone and never falls below one day;
    it is one of these values, so a wait on it covers every record a cache may hold, and
    the handlers' check for a zero maximum TTL never fires. *)
Lemma max_ttl_bound z :
  Forall (fun r => ttl32 r.(RRSet.TTL)) z.(Zone.RRsets) ->
  let ttl := dur_div (maxTTL z) Second in
  86400 <= ttl /\ ttl32 ttl /\
  Forall (fun r => r.(RRSet.TTL) <= ttl) z.(Zone.RRsets) /\
  (ttl = 86400 \/ exists r, r ∈ z.(Zone.RRsets) /\ r.(RRSet.TTL) = ttl).
Proof.
  intros Hall. destruct (largest_bounds z.(Zone.RRsets) 86400) as (H1 & H2 & H3).
  set (m := largest z.(Zone.RRsets) 86400) in *.
  assert (Hm : ttl32 m).
  { destruct H3 as [->|(r & Hr & ->)]; [unfold ttl32; lia|].
    rewrite Forall_forall in Hall. by apply Hall. }
  assert (Httl : dur_div (maxTTL z) Second = m).
  { unfold maxTTL. fold (largest z.(Zone.RRsets) 86400). fold m.
    rewrite (proj1 (ttl_seconds m Hm)). unfold dur_div. apply Z.quot_mul. done. }
  cbv zeta. rewrite Httl. split_and!; try done.
  destruct H3 as [|(r & ? & ?)]; [by left|]. right. by exists r.
Qed.

(** *** Retries *)
Lemma backoff_value n wd :
  0 <= n -> backoff n wd = (Val (2 ^ Z.min n 8 * Minute), wd).
Proof.
  intros Hn. unfold backoff. cbv zeta. destruct (Z.min n 8 <? 0) eqn:E; bool_prop; [lia|].
  unfold ret, dur_mul. rewrite Z.shiftl_1_l.
  assert (H : 0 < 2 ^ Z.min n 8 <= 2 ^ 8) by (split; [apply Z.pow_pos_nonneg|apply Z.pow_le_mono_r]; lia).
  rewrite int64_id; [f_equal; f_equal; lia|]. unfold in_int64, Minute, Second. lia.
Qed.

(** A failed step is retried after 2, 4, 8, ... minutes: the stored attempt count grows by
    one, the error is recorded, and the next action is set min(2^n, 256) minutes after the
    clock, where n is the new count; nothing else changes, and if the write fails nothing
    changes at all. *)
Lemma retry_backoff w cause wd :
  let k := WorkflowKey w.(Workflow.Zone) w.(Workflow.Kind) in
  let x := workflow_at wd.(data) k in
  let n := x.(Workflow.Attempts) + 1 in
  0 <= x.(Workflow.Attempts) < 2 ^ 63 - 1 ->
  let wd' := (recordRetry w cause wd).2 in
  Minute * 2 <= 2 ^ Z.min n 8 * Minute <= 256 * Minute /\
  ((exists now, (recordRetry w cause wd).1 = Val tt /\ EvNow now ∈ wd'.(trace) /\
      wd'.(data) = put_workflow k
        (x <| Workflow.Attempts := n |> <| Workflow.LastError := Error cause |>
           <| Workflow.NextActionAt := Add now (2 ^ Z.min n 8 * Minute) |>) wd.(data)) \/
   (exists e, (recordRetry w cause wd).1 = Fail_ e /\ wd'.(data) = wd.(data))).
Proof.
  cbv zeta. intros Hn. split.
  { split.
    - assert (2 ^ 1 <= 2 ^ Z.min (Workflow.Attempts (workflow_at (data wd)
        (WorkflowKey (Workflow.Zone w) (Workflow.Kind w))) + 1) 8) by (apply Z.pow_le_mono_r; lia).
      unfold Minute, Second. lia.
    - assert (2 ^ Z.min (Workflow.Attempts (workflow_at (data wd)
        (WorkflowKey (Workflow.Zone w) (Workflow.Kind w))) + 1) 8 <= 2 ^ 8) by (apply Z.pow_le_mono_r; lia).
      unfold Minute, Second. lia. }
  set (k := WorkflowKey _ _) in *. set (x := workflow_at _ _) in *.
  change (wp (recordRetry w cause) (fun o w' =>
    (exists now, o = Val tt /\ EvNow now ∈ w'.(trace) /\ w'.(data) = put_workflow k
        (x <| Workflow.Attempts := x.(Workflow.Attempts) + 1 |>
           <| Workflow.LastError := Error cause |>
           <| Workflow.NextActionAt := Add now (2 ^ Z.min (x.(Workflow.Attempts) + 1) 8 * Minute) |>)
        wd.(data)) \/ (exists e, o = Fail_ e /\ w'.(data) = wd.(data))) wd).
  unfold recordRetry. wp_step. fold k. fold x. wp_step. unfold wp at 1.
  record_simpl. rewrite int64_id by (unfold in_int64; lia).
  rewrite backoff_value by lia. cbn [fst snd]. do 2 wp_step. wp_step. split.
  - intros ?. left. exists t. split_and!; [done|set_solver|done].
  - intros e ?. right. by exists e.
Qed.
End Waits.
