(* ===== verification/Operator.v ===== *)
(** * internal/controller/controller.go, operator requests: ArmEnrollment, Trigger,
    Resume and ReconcileSplitSignerTransition. *)
From S2P Require Import Prelude GoStrings GoTime Model Config Dns Keys Effects Core.
From S2P Require Import Rollover Reconcile.

Definition normalize_zone (s : string) : string := TrimSuffix (ToLower (TrimSpace s)) ".".
Definition normalize_zones (zones : list string) : list string :=
  Compact (Sort (map normalize_zone zones)).

Definition valid_idempotency_key (idem : string) : bool :=
  (16 <=? len idem) && (len idem <=? 128).

Section Operator.
Context {SV : Services} {DL : DnsLib} (c : Config.t).

Definition observe_mode_error : error := errors_New "controller is in observe mode".
Definition idem_length_error : error :=
  errors_New "idempotency key must be between 16 and 128 characters".
Definition idem_reuse_error : error :=
  errors_New "idempotency key already used for a different request".

(** The replay check inside an update: a known key makes the update a no-op or a conflict. *)
Definition unless_replayed (idem fingerprint : string) (s : State.t) (k : M State.t) : M State.t :=
  match s.(State.Idempotency) !! idem with
  | Some existing =>
      if existing == fingerprint then ret s
      else fail (errors_New "idempotency key conflict")
  | None => k
  end.

(** ** ArmEnrollment *)
Definition arm_fingerprint : string := "enrollment-arm".

Definition baseline_zone (now : time) (s : State.t) (zone : Zone.t) : State.t :=
  let key := WorkflowKey zone.(Zone.Name) KindEnroll in
  if negb zone.(Zone.DNSSEC) then s
  else match s.(State.Workflows) !! key with
       | Some _ => s
       | None =>
           put_workflow key
             (zero_Workflow <| Workflow.Zone := zone.(Zone.Name) |>
                <| Workflow.ZoneID := zone.(Zone.ID) |> <| Workflow.Kind := KindEnroll |>
                <| Workflow.Phase := PhaseIdle |> <| Workflow.LastCompletedAt := now |>
                <| Workflow.EnrollmentDisposition := "baseline" |>) s
       end.

Definition ArmEnrollment (idem : string) : M unit :=
  let enr := c.(Config.Enrollment) in
  let armed_error := errors_New "automatic enrollment is already armed" in
  if c.(Config.Mode) != "enforce" then fail observe_mode_error
  else if negb enr.(Enrollment.Enabled) || (enr.(Enrollment.Scope_) != "all_selected") then
    fail (errors_New "automatic enrollment is not explicitly enabled for all_selected scope")
  else if negb (valid_idempotency_key idem) then fail idem_length_error
  else
  let* st := Snapshot in
  match st.(State.Idempotency) !! idem with
  | Some existing => if existing == arm_fingerprint then ret tt else fail idem_reuse_error
  | None =>
      if negb (IsZero st.(State.EnrollmentArmedAt)) then fail armed_error
      else
      let* zones := ListZones in
      let* now := Now in
      Update (fun s =>
        if negb (IsZero s.(State.EnrollmentArmedAt)) then fail armed_error
        else
        let s := fold_left (baseline_zone now) zones s in
        ret (put_idempotency idem arm_fingerprint (s <| State.EnrollmentArmedAt := now |>)))
  end.

(** ** Trigger *)
(** [byName]: each zone under its name and under its name without the final dot;
    a later zone overrides an earlier one. *)
Definition zones_by_name (spell : string -> string) (available : list Zone.t)
  : gmap string Zone.t :=
  fold_left (fun m z =>
    <[TrimSuffix (spell z.(Zone.Name)) "." := z]> (<[spell z.(Zone.Name) := z]> m))
    available ∅.

Definition identity_spelling (s : string) : string := s.

(** The zone a request names, if it may be rotated. *)
Definition eligible_zone (byName : gmap string Zone.t) (name : string) : result Zone.t :=
  let absent := Errorf "zone %s is absent or not DNSSEC-enabled" [AStr name] in
  match byName !! name with
  | None => Err absent
  | Some z =>
      if negb z.(Zone.DNSSEC) then Err absent
      else if negb (selected c z.(Zone.Name)) then
        Err (Errorf "zone %s is outside the configured rotation scope" [AStr name])
      else Ok z
  end.

Fixpoint trigger_canonical (kind : Kind) (byName : gmap string Zone.t) (names : list string)
  : M (list string) :=
  match names with
  | [] => ret []
  | name :: names' =>
      let* z := lift (eligible_zone byName name) in
      let* keys := ListKeys z.(Zone.ID) in
      let scheme := keyScheme keys in
      if (kind == KindSplit) && (scheme != "csk") then
        fail (Errorf "zone %s is not a CSK zone" [AStr name])
      else if (kind != KindSplit) && (scheme != "split") then
        fail (Errorf "zone %s is not split KSK/ZSK" [AStr name])
      else
      let* rest := trigger_canonical kind byName names' in
      ret (z.(Zone.Name) :: rest)
  end.

(** The first of the zones that already has an active workflow. *)
Fixpoint first_busy (ws : gmap string Workflow.t) (zones : list string) : M unit :=
  match zones with
  | [] => ret tt
  | zone :: zones' =>
      let* l := range_workflows ws in
      match first_active zone l with
      | Some w => fail (Errorf "zone %s already has active %s workflow"
                          [AStr zone; AStr (Kind_string w.(Workflow.Kind))])
      | None => first_busy ws zones'
      end
  end.

Definition trigger_zone (kind : Kind) (now : time) (idem : string) (s : State.t) (zone : string)
  : State.t :=
  let k := WorkflowKey zone kind in
  put_workflow k
    (begin_rotation now true idem
       ((workflow_at s k) <| Workflow.Zone := zone |> <| Workflow.Kind := kind |>)) s.

Definition trigger_fingerprint (kind : Kind) (normalized : list string) : string :=
  Kind_string kind +:+ "|" +:+ Join normalized ",".

(** What [Trigger] does under the lock of the store.  It does not hold the controller's mutex,
    so a tick may have run since its snapshot. *)
Definition trigger_commit (kind : Kind) (fingerprint : string) (canonical : list string) (now : time)
    (idem : string) (s : State.t) : M State.t :=
  unless_replayed idem fingerprint s
    (let* _ := first_busy s.(State.Workflows) canonical in
     ret (put_idempotency idem fingerprint
            (fold_left (trigger_zone kind now idem) canonical s))).

Definition Trigger (kind : Kind) (zones : list string) (idem : string) : M unit :=
  if c.(Config.Mode) != "enforce" then fail observe_mode_error
  else if negb (valid_idempotency_key idem) then fail idem_length_error
  else
  let normalized := normalize_zones zones in
  let fingerprint := trigger_fingerprint kind normalized in
  let* st := Snapshot in
  match st.(State.Idempotency) !! idem with
  | Some existing => if existing == fingerprint then ret tt else fail idem_reuse_error
  | None =>
      let* available := ListZones in
      let byName := zones_by_name identity_spelling available in
      let* canonical := trigger_canonical kind byName normalized in
      let* now := Now in
      Update (trigger_commit kind fingerprint canonical now idem)
  end.

(** ** Resume *)
Definition three_distinct (w : Workflow.t) : bool :=
  (w.(Workflow.OldKeyID) != w.(Workflow.NewKeyID))
  && (w.(Workflow.OldKeyID) != w.(Workflow.NewZSKID))
  && (w.(Workflow.NewKeyID) != w.(Workflow.NewZSKID)).
Definition initial_and_recorded (w : Workflow.t) : bool :=
  (w.(Workflow.ParentMode) == parentModeInitial) && (w.(Workflow.OldKeyID) != 0)
  && (w.(Workflow.NewKeyID) != 0) && (w.(Workflow.NewZSKID) != 0).
Definition no_registrar_attempt (w : Workflow.t) : bool :=
  IsZero w.(Workflow.RegistrarAttemptedAt) && (w.(Workflow.RegistrarJobID) == 0)
  && (w.(Workflow.RegistrarCTID) == "") && (w.(Workflow.RegistrarSTID) == "")
  && (w.(Workflow.RegistrarJobStatus) == "").

(** The evidence [Resume] collects for one zone. *)
Definition resume_zone (st : State.t) (kind : Kind) (byName : gmap string Zone.t) (name : string)
  : M (string * Workflow.t) :=
  let* zone := lift (eligible_zone byName name) in
  match st.(State.Workflows) !! WorkflowKey zone.(Zone.Name) kind with
  | None => fail (Errorf "zone %s has no blocked split workflow" [AStr name])
  | Some w =>
      if w.(Workflow.Phase) != PhaseBlocked then
        fail (Errorf "zone %s has no blocked split workflow" [AStr name])
      else if negb (initial_and_recorded w) then
        fail (Errorf "zone %s is not an initialized initial-delegation split workflow" [AStr name])
      else if negb (three_distinct w) then
        fail (Errorf "zone %s does not record three distinct key IDs" [AStr name])
      else if negb (no_registrar_attempt w) then
        fail (Errorf "zone %s already records a registrar mutation attempt" [AStr name])
      else
      let* keys := ListKeys zone.(Zone.ID) in
      let* _ := wrap (fun e => Errorf "zone %s inventory cannot be resumed: %w" [AStr name; AWrap e])
                  (lift (validatePrepublishInventory zone.(Zone.Name) keys w)) in
      let* remote := DomainDNSSEC zone.(Zone.Name) in
      if remote.(DomainDNSSECState.Enabled)
         || (length remote.(DomainDNSSECState.Data) != 0%nat) then
        fail (Errorf "zone %s registrar DNSSEC state is not disabled-empty" [AStr name])
      else
      let* _ := wrap (fun e => Errorf "zone %s parent DS absence is not proven: %w" [AStr name; AWrap e])
                  (NoDSEvidence zone.(Zone.Name)) in
      ret (zone.(Zone.Name), w)
  end.

Fixpoint resume_all (st : State.t) (kind : Kind) (byName : gmap string Zone.t) (names : list string)
  : M (list (string * Workflow.t)) :=
  match names with
  | [] => ret []
  | name :: names' =>
      let* r := resume_zone st kind byName name in
      let* rest := resume_all st kind byName names' in
      ret (r :: rest)
  end.

(** The workflow read during validation is still the one stored. *)
Definition same_recovery (s : State.t) (kind : Kind) (item : string * Workflow.t) : bool :=
  match s.(State.Workflows) !! WorkflowKey item.1 kind with
  | None => false
  | Some current =>
      (current.(Workflow.Phase) == PhaseBlocked)
      && (current.(Workflow.OldKeyID) == item.2.(Workflow.OldKeyID))
      && (current.(Workflow.NewKeyID) == item.2.(Workflow.NewKeyID))
      && (current.(Workflow.NewZSKID) == item.2.(Workflow.NewZSKID))
  end.

Definition recover_workflow (kind : Kind) (now : time) (s : State.t) (item : string * Workflow.t)
  : State.t :=
  let key := WorkflowKey item.1 kind in
  put_workflow key
    ((workflow_at s key) <| Workflow.Phase := PhaseWaitPublish |>
       <| Workflow.PhaseStartedAt := now |> <| Workflow.NextActionAt := now |>
       <| Workflow.EvidenceAt := time_zero |> <| Workflow.DNSKEYTTL := 0 |>
       <| Workflow.LastError := "" |> <| Workflow.Attempts := 0 |>) s.

Definition resume_fingerprint (kind : Kind) (phase : Phase) (normalized : list string) : string :=
  "resume|" +:+ Kind_string kind +:+ "|" +:+ Phase_string phase +:+ "|" +:+ Join normalized ",".

Definition Resume (kind : Kind) (zones : list string) (phase : Phase) (idem : string) : M unit :=
  if c.(Config.Mode) != "enforce" then fail observe_mode_error
  else if (kind != KindSplit) || (phase != PhaseWaitPublish) then
    fail (errors_New "only split workflows may be resumed to wait_publish")
  else if negb (valid_idempotency_key idem) then fail idem_length_error
  else
  let normalized := normalize_zones zones in
  if (length normalized == 0%nat) || Nat.ltb 100 (length normalized) then
    fail (errors_New "between one and 100 zones are required")
  else
  let fingerprint := resume_fingerprint kind phase normalized in
  let* st := Snapshot in
  match st.(State.Idempotency) !! idem with
  | Some existing => if existing == fingerprint then ret tt else fail idem_reuse_error
  | None =>
      let* available := ListZones in
      let byName := zones_by_name ToLower available in
      let* recoveries := resume_all st kind byName normalized in
      let* now := Now in
      Update (fun s =>
        unless_replayed idem fingerprint s
          (match List.find (fun item => negb (same_recovery s kind item)) recoveries with
           | Some item =>
               fail (Errorf "zone %s workflow changed during resume validation" [AStr item.1])
           | None =>
               ret (put_idempotency idem fingerprint
                      (fold_left (recover_workflow kind now) recoveries s))
           end))
  end.

(** ** ReconcileSplitSignerTransition *)
Definition attest (now : time) (ttl : Z) (w : Workflow.t) : Workflow.t :=
  w <| Workflow.SplitSignerTransitionAt := now |> <| Workflow.EvidenceAt := now |>
    <| Workflow.ZoneTTL := ttl |> <| Workflow.NextActionAt := Add now (ttl_wait c ttl) |>
    <| Workflow.LastError := "" |> <| Workflow.Attempts := 0 |>.

Definition ReconcileSplitSignerTransition (requestedZone idem : string) : M unit :=
  if c.(Config.Mode) != "enforce" then fail observe_mode_error
  else if negb (valid_idempotency_key idem) then fail idem_length_error
  else
  let name := normalize_zone requestedZone in
  if name == "" then fail (errors_New "one zone is required")
  else
  let fingerprint := "reconcile-split-signer|" +:+ name in
  let* st := Snapshot in
  match st.(State.Idempotency) !! idem with
  | Some existing => if existing == fingerprint then ret tt else fail idem_reuse_error
  | None =>
      let* available := ListZones in
      let absent := Errorf "zone %s is absent or not DNSSEC-enabled" [AStr name] in
      match List.find (fun z => TrimSuffix (ToLower z.(Zone.Name)) "." == name) available with
      | None => fail absent
      | Some zone =>
          let zname := zone.(Zone.Name) in
          if (zname == "") || negb zone.(Zone.DNSSEC) then fail absent
          else if negb (selected c zname) then
            fail (Errorf "zone %s is outside the configured rotation scope" [AStr name])
          else
          let key := WorkflowKey zname KindSplit in
          match st.(State.Workflows) !! key with
          | None => fail (Errorf "zone %s has no split workflow in wait_new_signature" [AStr name])
          | Some w =>
              if w.(Workflow.Phase) != PhaseWaitNewSignature then
                fail (Errorf "zone %s has no split workflow in wait_new_signature" [AStr name])
              else if negb (initial_and_recorded w) then
                fail (Errorf "zone %s is not an initialized initial-delegation split workflow" [AStr name])
              else if negb (three_distinct w) then
                fail (Errorf "zone %s does not record three distinct key IDs" [AStr name])
              else if IsZero w.(Workflow.RegistrarAttemptedAt) || (w.(Workflow.RegistrarCTID) == "") then
                fail (Errorf "zone %s has no recorded registrar transaction" [AStr name])
              else if negb (IsZero w.(Workflow.SplitSignerTransitionAt)) then
                fail (Errorf "zone %s already has a split signer-transition attestation" [AStr name])
              else
              let* keys := ListKeys zone.(Zone.ID) in
              let* live := wrap (fun e => Errorf "zone %s cannot reconcile split signer transition: %w" [AStr name; AWrap e])
                             (validateSplitSignerTransitionEvidence c zone keys w) in
              let ttl := if live <? w.(Workflow.ZoneTTL) then w.(Workflow.ZoneTTL) else live in
              let* now := Now in
              let changed := Errorf "zone %s workflow changed during signer-transition validation"
                               [AStr zname] in
              Update (fun s =>
                unless_replayed idem fingerprint s
                  (match s.(State.Workflows) !! key with
                   | None => fail changed
                   | Some current =>
                       if (current.(Workflow.Phase) != PhaseWaitNewSignature)
                          || (current.(Workflow.OldKeyID) != w.(Workflow.OldKeyID))
                          || (current.(Workflow.NewKeyID) != w.(Workflow.NewKeyID))
                          || (current.(Workflow.NewZSKID) != w.(Workflow.NewZSKID))
                          || negb (IsZero current.(Workflow.SplitSignerTransitionAt))
                       then fail changed
                       else ret (put_idempotency idem fingerprint
                                   (put_workflow key (attest now ttl current) s))
                   end))
          end
      end
  end.

End Operator.
