(* ===== verification/Report.v ===== *)
(** * internal/controller/controller.go, read-only requests: Plan, Zones, Status, Audit. *)
From S2P Require Import Prelude GoStrings GoTime Model Config Dns Keys Effects Core.

Module ZoneStatus.
Record t := mk {
  Zone : string;
  DNSSEC : bool;
  Scheme : string;
  Managed : bool;
  EnrollmentStatus : string;
  BlockedReason : string;
  Workflows : list Workflow.t;
}.
#[export] Instance eta_ZoneStatus : Eta t :=
  fun r => mk (r.(Zone)) (r.(DNSSEC)) (r.(Scheme)) (r.(Managed)) (r.(EnrollmentStatus)) (r.(BlockedReason)) (r.(Workflows)).
#[export] Instance set_Zone : Field Zone.
Proof. derive_field eta_ZoneStatus. Defined.
#[export] Instance set_DNSSEC : Field DNSSEC.
Proof. derive_field eta_ZoneStatus. Defined.
#[export] Instance set_Scheme : Field Scheme.
Proof. derive_field eta_ZoneStatus. Defined.
#[export] Instance set_Managed : Field Managed.
Proof. derive_field eta_ZoneStatus. Defined.
#[export] Instance set_EnrollmentStatus : Field EnrollmentStatus.
Proof. derive_field eta_ZoneStatus. Defined.
#[export] Instance set_BlockedReason : Field BlockedReason.
Proof. derive_field eta_ZoneStatus. Defined.
#[export] Instance set_Workflows : Field Workflows.
Proof. derive_field eta_ZoneStatus. Defined.
End ZoneStatus.
Export (hints) ZoneStatus.

Module Status.
Record t := mk {
  Mode : string;
  Ready : bool;
  Zones : Z;
  Blocked : Z;
  EnrollmentArmed : bool;
  Enrolling : Z;
  Managed : Z;
  PendingNotifications : Z;
}.
#[export] Instance eta_Status : Eta t :=
  fun r => mk (r.(Mode)) (r.(Ready)) (r.(Zones)) (r.(Blocked)) (r.(EnrollmentArmed)) (r.(Enrolling)) (r.(Managed)) (r.(PendingNotifications)).
#[export] Instance set_Mode : Field Mode.
Proof. derive_field eta_Status. Defined.
#[export] Instance set_Ready : Field Ready.
Proof. derive_field eta_Status. Defined.
#[export] Instance set_Zones : Field Zones.
Proof. derive_field eta_Status. Defined.
#[export] Instance set_Blocked : Field Blocked.
Proof. derive_field eta_Status. Defined.
#[export] Instance set_EnrollmentArmed : Field EnrollmentArmed.
Proof. derive_field eta_Status. Defined.
#[export] Instance set_Enrolling : Field Enrolling.
Proof. derive_field eta_Status. Defined.
#[export] Instance set_Managed : Field Managed.
Proof. derive_field eta_Status. Defined.
#[export] Instance set_PendingNotifications : Field PendingNotifications.
Proof. derive_field eta_Status. Defined.
End Status.
Export (hints) Status.

Module Plan.
Record t := mk { Kind_ : Kind; Zones : list string; Mutations : list string }.
#[export] Instance eta_Plan : Eta t :=
  fun r => mk (r.(Kind_)) (r.(Zones)) (r.(Mutations)).
#[export] Instance set_Kind_ : Field Kind_.
Proof. derive_field eta_Plan. Defined.
#[export] Instance set_Zones : Field Zones.
Proof. derive_field eta_Plan. Defined.
#[export] Instance set_Mutations : Field Mutations.
Proof. derive_field eta_Plan. Defined.
End Plan.
Export (hints) Plan.

Module AuditResult.
Record t := mk { Zone : string; Scheme : string; RegistrarMatch : bool; Error_ : string }.
#[export] Instance eta_AuditResult : Eta t :=
  fun r => mk (r.(Zone)) (r.(Scheme)) (r.(RegistrarMatch)) (r.(Error_)).
#[export] Instance set_Zone : Field Zone.
Proof. derive_field eta_AuditResult. Defined.
#[export] Instance set_Scheme : Field Scheme.
Proof. derive_field eta_AuditResult. Defined.
#[export] Instance set_RegistrarMatch : Field RegistrarMatch.
Proof. derive_field eta_AuditResult. Defined.
#[export] Instance set_Error_ : Field Error_.
Proof. derive_field eta_AuditResult. Defined.
End AuditResult.
Export (hints) AuditResult.

(** ** Plan *)
Definition plan_mutations (kind : Kind) : list string :=
  match kind with
  | KindZSK =>
      ["publish inactive ZSK"; "observe and wait authoritative DNSKEY TTL"; "activate new ZSK";
       "cryptographically prove new zone signatures"; "deactivate old ZSK";
       "wait persisted pre-switch zone TTL"; "delete old ZSK"]
  | KindKSK =>
      ["publish active KSK and prove double DNSKEY signatures";
       "observe and wait authoritative DNSKEY TTL";
       "replace InternetX material with new-only KSK";
       "observe authoritative parent and wait full DS TTL";
       "verify exact new-only DS through validating resolvers"; "deactivate and delete old KSK"]
  | KindSplit =>
      ["publish active KSK and inactive ZSK"; "prove and wait DNSKEY propagation";
       "replace parent material and wait DS TTL";
       "activate ZSK and prove overlapping CSK/ZSK signatures";
       "wait zone TTL, deactivate CSK, wait zone TTL again"; "verify and delete CSK"]
  | KindEnroll | KindOther _ => []
  end.

Definition Plan_ (kind : Kind) (zones : list string) : Plan.t :=
  Plan.mk kind zones (plan_mutations kind).

(** ** Zones *)
(** What one enrollment workflow says about its zone. *)
Definition enrollment_status (w : Workflow.t) (current : string) : string :=
  match w.(Workflow.Phase) with
  | PhaseIdle =>
      if w.(Workflow.EnrollmentDisposition) == "" then "managed"
      else w.(Workflow.EnrollmentDisposition)
  | PhaseEnrollDiscovered => "candidate"
  | PhaseEnrollWaitPublish => "waiting"
  | PhaseEnrollParentAdd => "registrar_pending"
  | PhaseEnrollWaitParent => "parent_wait"
  | PhaseBlocked => "blocked"
  | _ => current
  end.

(** One workflow of the zone, added to the status under construction. *)
Definition add_workflow (zs : ZoneStatus.t) (w : Workflow.t) : ZoneStatus.t :=
  let enroll := w.(Workflow.Kind) == KindEnroll in
  ZoneStatus.mk zs.(ZoneStatus.Zone) zs.(ZoneStatus.DNSSEC) zs.(ZoneStatus.Scheme)
    (if enroll then (w.(Workflow.Phase) == PhaseIdle)
                    && (w.(Workflow.EnrollmentDisposition) != "ineligible")
     else zs.(ZoneStatus.Managed))
    (if enroll then enrollment_status w zs.(ZoneStatus.EnrollmentStatus)
     else zs.(ZoneStatus.EnrollmentStatus))
    (if w.(Workflow.Phase) == PhaseBlocked then w.(Workflow.LastError)
     else zs.(ZoneStatus.BlockedReason))
    (zs.(ZoneStatus.Workflows) ++ [w]).

Definition sort_workflows (zs : ZoneStatus.t) : ZoneStatus.t :=
  ZoneStatus.mk zs.(ZoneStatus.Zone) zs.(ZoneStatus.DNSSEC) zs.(ZoneStatus.Scheme)
    zs.(ZoneStatus.Managed) zs.(ZoneStatus.EnrollmentStatus) zs.(ZoneStatus.BlockedReason)
    (SortBy (fun w => Kind_string w.(Workflow.Kind)) zs.(ZoneStatus.Workflows)).

Definition csk_blocked_reason : string := "explicit confirmed CSK-to-split migration required".

Definition vanished_status (w : Workflow.t) : ZoneStatus.t :=
  ZoneStatus.mk w.(Workflow.Zone) false "unknown" false
    (if w.(Workflow.Phase) != PhaseBlocked then "candidate" else "blocked")
    w.(Workflow.LastError) [w].

Section Report.
Context {SV : Services} {DL : DnsLib} (c : Config.t).

Definition zone_shown (st : State.t) (z : Zone.t) : bool :=
  let e := workflow_at st (WorkflowKey z.(Zone.Name) KindEnroll) in
  (z.(Zone.DNSSEC) && selected c z.(Zone.Name))
  || (Active e || (e.(Workflow.Phase) == PhaseBlocked)).

Definition zone_status (st : State.t) (z : Zone.t) : M ZoneStatus.t :=
  let* keys := ListKeys z.(Zone.ID) in
  let scheme := keyScheme keys in
  let zs := ZoneStatus.mk z.(Zone.Name) true scheme false "disarmed"
              (if scheme == "csk" then csk_blocked_reason else "") [] in
  let* ws := range_workflows st.(State.Workflows) in
  let mine := List.filter (fun w => w.(Workflow.Zone) == z.(Zone.Name)) (map snd ws) in
  ret (sort_workflows (fold_left add_workflow mine zs)).

Fixpoint zone_statuses (st : State.t) (zones : list Zone.t) : M (list ZoneStatus.t) :=
  match zones with
  | [] => ret []
  | z :: zones' =>
      if zone_shown st z then
        let* zs := zone_status st z in
        let* rest := zone_statuses st zones' in
        ret (zs :: rest)
      else zone_statuses st zones'
  end.

Definition Zones : M (list ZoneStatus.t) :=
  let* zones := ListZones in
  let* st := Snapshot in
  let* out := zone_statuses st zones in
  let seen := map Zone.Name (List.filter (zone_shown st) zones) in
  let* ws := range_workflows st.(State.Workflows) in
  let vanished := List.filter
    (fun w => (w.(Workflow.Kind) == KindEnroll) && Active w
              && negb (bool_decide (w.(Workflow.Zone) ∈ seen))) (map snd ws) in
  ret (SortBy ZoneStatus.Zone (out ++ map vanished_status vanished)).

(** ** Status: the zero status with the mode accompanies an error. *)
Definition count {A} (f : A -> bool) (l : list A) : Z := Z.of_nat (length (List.filter f l)).

Definition Status_ : M Status.t :=
  let* z := Zones in
  let* st := Snapshot in
  let* ws := range_workflows st.(State.Workflows) in
  let* ns := range_notifications st.(State.Notifications) in
  let enrollments := List.filter (fun w => w.(Workflow.Kind) == KindEnroll) (map snd ws) in
  ret (Status.mk c.(Config.Mode) true (Z.of_nat (length z))
         (count (fun x => x.(ZoneStatus.BlockedReason) != "") z)
         (negb (IsZero st.(State.EnrollmentArmedAt)))
         (count Active enrollments)
         (count (fun w => negb (Active w) && (w.(Workflow.EnrollmentDisposition) != "ineligible"))
            enrollments)
         (count (fun n => IsZero n.(Notification.DeliveredAt)) (map snd ns))).

(** ** Audit *)
Definition audit_differs : string := "InternetX material differs from active local KSK/CSK".

(** The audit of one zone: an error of any step is the zone's result. *)
Definition audit_zone (z : Zone.t) : M AuditResult.t :=
  let name := z.(Zone.Name) in
  let failed scheme e := AuditResult.mk name scheme false (Error e) in
  let* rk := try (ListKeys z.(Zone.ID)) in
  match rk with
  | Err e => ret (failed "" e)
  | Ok keys =>
      let scheme := keyScheme keys in
      match exactlyOneActive keys (if scheme == "csk" then "csk" else "ksk") with
      | Err e => ret (failed scheme e)
      | Ok key =>
          match DNSSECDataForKey name key with
          | Err e => ret (failed scheme e)
          | Ok expected =>
              let* rr := try (DomainDNSSEC name) in
              match rr with
              | Err e => ret (failed scheme e)
              | Ok remote =>
                  let matches := remote.(DomainDNSSECState.Enabled)
                                 && sameMaterial remote.(DomainDNSSECState.Data) [expected] in
                  ret (AuditResult.mk name scheme matches (if matches then "" else audit_differs))
              end
          end
      end
  end.

Fixpoint audit_zones (zones : list Zone.t) : M (list AuditResult.t) :=
  match zones with
  | [] => ret []
  | z :: zones' =>
      if negb z.(Zone.DNSSEC) || negb (selected c z.(Zone.Name)) then audit_zones zones'
      else
      let* r := audit_zone z in
      let* rest := audit_zones zones' in
      ret (r :: rest)
  end.

Definition Audit : M (list AuditResult.t) :=
  let* zones := ListZones in
  let* out := audit_zones zones in
  ret (SortBy AuditResult.Zone out).
End Report.
