(* ===== verification/Json.v ===== *)
(** * Go's encoding/json as the program uses it: documents as trees, the text of
    [json.Marshal] and of [json.Encoder], the scanner, and the rules by which a document is
    decoded into a struct, a slice, a map or a basic type.

    Rejecting a document is modelled, the wording of the rejection is not ([JsonErrors]).
    Keys are matched under ASCII case folding, and numbers are the integers the program's
    types hold. *)
From S2P Require Import Prelude GoStrings.

Inductive json :=
| JNull
| JBool (b : bool)
| JNum (literal : string)
| JStr (s : string)
| JArr (l : list json)
| JObj (members : list (string * json)).

(** What [err.Error()] says of a document encoding/json rejects. *)
Class JsonErrors := { json_error : string -> error }.

(** ** UTF-8 *)
Definition continuation : ascii -> bool := in_range 128 191.

(** The size of the rune at the front, [None] for an invalid sequence ([utf8.DecodeRune]). *)
Definition rune_size (l : list ascii) : option nat :=
  match l with
  | [] => None
  | a :: l1 =>
      let z := byte_code a in
      if z <? 128 then Some 1%nat else
      match l1 with
      | [] => None
      | b :: l2 =>
          if in_range 194 223 a then (if continuation b then Some 2%nat else None) else
          match l2 with
          | [] => None
          | d :: l3 =>
              let second := if z =? 224 then in_range 160 191 b
                            else if z =? 237 then in_range 128 159 b else continuation b in
              if in_range 224 239 a then (if second && continuation d then Some 3%nat else None) else
              match l3 with
              | [] => None
              | e :: _ =>
                  let second := if z =? 240 then in_range 144 191 b
                                else if z =? 244 then in_range 128 143 b else continuation b in
                  if in_range 240 244 a && second && continuation d && continuation e
                  then Some 4%nat else None
              end
          end
      end
  end.

(** [utf8.AppendRune]. *)
Definition encode_rune (r : Z) : list ascii :=
  let cont z := byte_of_code (128 + z mod 64) in
  if r <? 128 then [byte_of_code r]
  else if r <? 2048 then [byte_of_code (192 + r / 64); cont r]
  else if r <? 65536 then [byte_of_code (224 + r / 4096); cont (r / 64); cont r]
  else [byte_of_code (240 + r / 262144); cont (r / 4096); cont (r / 64); cont r].
Definition rune_error : list ascii := encode_rune 65533.

(** ** Writing *)
(** Four hexadecimal digits after [\u]. *)
Definition unicode_escape (z : Z) : list ascii :=
  [backslash; "u"%char; hex_digit (z / 4096); hex_digit (z / 256 mod 16);
   hex_digit (z / 16 mod 16); hex_digit (z mod 16)].

(** One byte below 128 inside a string, with HTML characters escaped. *)
Definition escape_byte (a : ascii) : list ascii :=
  let z := byte_code a in
  if (z =? 34) || (z =? 92) then [backslash; a]
  else if z =? 8 then [backslash; "b"%char]
  else if z =? 12 then [backslash; "f"%char]
  else if z =? 10 then [backslash; "n"%char]
  else if z =? 13 then [backslash; "r"%char]
  else if z =? 9 then [backslash; "t"%char]
  else if (z <? 32) || (z =? 60) || (z =? 62) || (z =? 38) then unicode_escape z
  else [a].

(** A multi-byte rune stands for itself, except the two line separators. *)
Definition escape_rune (l : list ascii) : list ascii :=
  let at_ b z := byte_code b =? z in
  match l with
  | [a; b; d] =>
      if at_ a 226 && at_ b 128 && (at_ d 168 || at_ d 169)
      then unicode_escape (8232 + (byte_code d - 168)) else l
  | _ => l
  end.

Fixpoint escape_bytes (fuel : nat) (l : list ascii) : list ascii :=
  match fuel, l with
  | S fuel', a :: l' =>
      if byte_code a <? 128 then escape_byte a ++ escape_bytes fuel' l' else
      match rune_size l with
      | None => unicode_escape 65533 ++ escape_bytes fuel' l'
      | Some n => escape_rune (take n l) ++ escape_bytes fuel' (drop n l)
      end
  | _, _ => []
  end.
Definition json_string (s : string) : list ascii :=
  dquote :: escape_bytes (String.length s) (bytes s) ++ [dquote].

Definition comma_separated (parts : list (list ascii)) : list ascii :=
  match parts with
  | [] => []
  | p :: ps => p ++ List.concat (map (fun q => ","%char :: q) ps)
  end.

(** The compact text of a document. *)
Fixpoint json_bytes (v : json) : list ascii :=
  match v with
  | JNull => bytes "null"
  | JBool true => bytes "true"
  | JBool false => bytes "false"
  | JNum s => bytes s
  | JStr s => json_string s
  | JArr l => "["%char :: comma_separated (map json_bytes l) ++ ["]"%char]
  | JObj m =>
      "{"%char :: comma_separated (map (fun kv => json_string kv.1 ++ ":"%char :: json_bytes kv.2) m)
      ++ ["}"%char]
  end.

(** [json.Marshal], and [json.NewEncoder(w).Encode] with its line feed. *)
Definition json_Marshal (v : json) : string := of_bytes (json_bytes v).
Definition json_Encode (v : json) : string := of_bytes (json_bytes v ++ [byte_of_code 10]).

(** ** Indented output *)
Definition line_feed : ascii := byte_of_code 10.
Definition indentation (n : nat) : list ascii := line_feed :: replicate (2 * n) " "%char.

(** [json.MarshalIndent] and [Encoder.SetIndent] with two spaces. *)
Fixpoint indent_bytes (n : nat) (v : json) : list ascii :=
  match v with
  | JArr ((_ :: _) as l) =>
      "["%char :: comma_separated (map (fun v => indentation (S n) ++ indent_bytes (S n) v) l)
      ++ indentation n ++ ["]"%char]
  | JObj ((_ :: _) as m) =>
      "{"%char ::
      comma_separated (map (fun kv => indentation (S n) ++ json_string kv.1 ++ bytes ": " ++
                                      indent_bytes (S n) kv.2) m)
      ++ indentation n ++ ["}"%char]
  | _ => json_bytes v
  end.

(** ** Scanning *)
Definition json_space (a : ascii) : bool :=
  let z := byte_code a in (z =? 32) || (z =? 9) || (z =? 10) || (z =? 13).
Definition skip_space : list ascii -> list ascii := drop_while json_space.

Definition hex_value (a : ascii) : option Z :=
  let z := byte_code a in
  if is_digit a then Some (z - 48)
  else if in_range 97 102 a then Some (z - 87)
  else if in_range 65 70 a then Some (z - 55)
  else None.

(** [getu4]: four hexadecimal digits. *)
Definition unit4 (l : list ascii) : option (Z * list ascii) :=
  match l with
  | a :: b :: d :: e :: l' =>
      match hex_value a, hex_value b, hex_value d, hex_value e with
      | Some a, Some b, Some d, Some e => Some (4096 * a + 256 * b + 16 * d + e, l')
      | _, _, _, _ => None
      end
  | _ => None
  end.

Definition high_surrogate (z : Z) : bool := (55296 <=? z) && (z <=? 56319).
Definition low_surrogate (z : Z) : bool := (56320 <=? z) && (z <=? 57343).

(** The rune of a [\u] escape whose digits start at the front; a surrogate takes the escape
    after it along when the two make a pair, and is replaced otherwise. *)
Definition unicode_rune (l : list ascii) : option (list ascii * list ascii) :=
  match unit4 l with
  | None => None
  | Some (u, rest) =>
      if high_surrogate u || low_surrogate u then
        match rest with
        | a :: b :: l' =>
            if (byte_code a =? 92) && (byte_code b =? 117) then
              match unit4 l' with
              | Some (u', rest') =>
                  if high_surrogate u && low_surrogate u'
                  then Some (encode_rune (65536 + 1024 * (u - 55296) + (u' - 56320)), rest')
                  else Some (rune_error, rest)
              | None => Some (rune_error, rest)
              end
            else Some (rune_error, rest)
        | _ => Some (rune_error, rest)
        end
      else Some (encode_rune u, rest)
  end.

Definition simple_escape (a : ascii) : option ascii :=
  let z := byte_code a in
  if (z =? 34) || (z =? 92) || (z =? 47) then Some a
  else if z =? 98 then Some (byte_of_code 8)
  else if z =? 102 then Some (byte_of_code 12)
  else if z =? 110 then Some (byte_of_code 10)
  else if z =? 114 then Some (byte_of_code 13)
  else if z =? 116 then Some (byte_of_code 9)
  else None.

(** The rest of a string literal after its opening quote. *)
Fixpoint scan_string (fuel : nat) (l : list ascii) : option (list ascii * list ascii) :=
  match fuel, l with
  | S fuel', a :: l' =>
      let z := byte_code a in
      let continue chunk rest :=
        match scan_string fuel' rest with
        | Some (s, rest') => Some (chunk ++ s, rest')
        | None => None
        end in
      if z =? 34 then Some ([], l')
      else if z <? 32 then None
      else if z =? 92 then
        match l' with
        | [] => None
        | e :: l'' =>
            if byte_code e =? 117 then
              match unicode_rune l'' with
              | Some (chunk, rest) => continue chunk rest
              | None => None
              end
            else match simple_escape e with
                 | Some b => continue [b] l''
                 | None => None
                 end
        end
      else match rune_size l with
           | None => continue rune_error l'
           | Some n => continue (take n l) (drop n l)
           end
  | _, _ => None
  end.

Fixpoint span (f : ascii -> bool) (l : list ascii) : list ascii * list ascii :=
  match l with
  | a :: l' => if f a then let '(p, r) := span f l' in (a :: p, r) else ([], l)
  | [] => ([], [])
  end.

(** An optional part of a number: absent, or a mark with at least one digit behind it. *)
Definition scan_digits (mark rest : list ascii) : option (list ascii * list ascii) :=
  match span is_digit rest with
  | ([], _) => None
  | (ds, rest') => Some (mark ++ ds, rest')
  end.
Definition scan_fraction (l : list ascii) : option (list ascii * list ascii) :=
  match l with
  | a :: l' => if byte_code a =? 46 then scan_digits [a] l' else Some ([], l)
  | [] => Some ([], l)
  end.
Definition scan_exponent (l : list ascii) : option (list ascii * list ascii) :=
  match l with
  | a :: l' =>
      if (byte_code a =? 101) || (byte_code a =? 69) then
        match l' with
        | b :: l'' =>
            if (byte_code b =? 43) || (byte_code b =? 45) then scan_digits [a; b] l''
            else scan_digits [a] l'
        | [] => None
        end
      else Some ([], l)
  | [] => Some ([], l)
  end.
Definition scan_integer (l : list ascii) : option (list ascii * list ascii) :=
  match l with
  | a :: l' =>
      if byte_code a =? 48 then Some ([a], l')
      else if in_range 49 57 a then Some (span is_digit l)
      else None
  | [] => None
  end.
Definition scan_number (l : list ascii) : option (json * list ascii) :=
  let '(sign, l0) := match l with
                     | a :: l' => if byte_code a =? 45 then ([a], l') else ([], l)
                     | [] => ([], l)
                     end in
  match scan_integer l0 with
  | None => None
  | Some (i, l1) =>
      match scan_fraction l1 with
      | None => None
      | Some (f, l2) =>
          match scan_exponent l2 with
          | None => None
          | Some (e, l3) => Some (JNum (of_bytes (sign ++ i ++ f ++ e)), l3)
          end
      end
  end.

Definition scan_literal (l : list ascii) : option (json * list ascii) :=
  match has_prefix (bytes "null") l, has_prefix (bytes "true") l, has_prefix (bytes "false") l with
  | Some r, _, _ => Some (JNull, r)
  | _, Some r, _ => Some (JBool true, r)
  | _, _, Some r => Some (JBool false, r)
  | _, _, _ => scan_number l
  end.

Definition max_depth : nat := 10000.

(** The value at the front.  [depth] counts the arrays and objects still allowed around it;
    [fuel] bounds the steps by the length of the input.  The two loops read what follows an
    opening bracket, after the first value when [first] is false. *)
Fixpoint scan_value (fuel depth : nat) (l : list ascii) {struct fuel} : option (json * list ascii) :=
  match fuel with
  | O => None
  | S fuel' =>
      match skip_space l with
      | [] => None
      | a :: l' =>
          let z := byte_code a in
          if z =? 34 then
            match scan_string (length l') l' with
            | Some (s, rest) => Some (JStr (of_bytes s), rest)
            | None => None
            end
          else if z =? 91 then
            match depth with
            | O => None
            | S depth' =>
                match scan_elements fuel' depth' true l' with
                | Some (vs, rest) => Some (JArr vs, rest)
                | None => None
                end
            end
          else if z =? 123 then
            match depth with
            | O => None
            | S depth' =>
                match scan_members fuel' depth' true l' with
                | Some (ms, rest) => Some (JObj ms, rest)
                | None => None
                end
            end
          else scan_literal (a :: l')
      end
  end
with scan_elements (fuel depth : nat) (first : bool) (l : list ascii) {struct fuel}
  : option (list json * list ascii) :=
  match fuel with
  | O => None
  | S fuel' =>
      let element l :=
        match scan_value fuel' depth l with
        | None => None
        | Some (v, rest) =>
            match scan_elements fuel' depth false rest with
            | Some (vs, rest') => Some (v :: vs, rest')
            | None => None
            end
        end in
      match skip_space l with
      | [] => None
      | a :: l' =>
          if byte_code a =? 93 then Some ([], l')
          else if first then element l
          else if byte_code a =? 44 then element l'
          else None
      end
  end
with scan_members (fuel depth : nat) (first : bool) (l : list ascii) {struct fuel}
  : option (list (string * json) * list ascii) :=
  match fuel with
  | O => None
  | S fuel' =>
      let member l :=
        match skip_space l with
        | q :: l1 =>
            if negb (byte_code q =? 34) then None else
            match scan_string (length l1) l1 with
            | None => None
            | Some (k, l2) =>
                match skip_space l2 with
                | colon :: l3 =>
                    if negb (byte_code colon =? 58) then None else
                    match scan_value fuel' depth l3 with
                    | None => None
                    | Some (v, rest) =>
                        match scan_members fuel' depth false rest with
                        | Some (ms, rest') => Some ((of_bytes k, v) :: ms, rest')
                        | None => None
                        end
                    end
                | [] => None
                end
            end
        | [] => None
        end in
      match skip_space l with
      | [] => None
      | a :: l' =>
          if byte_code a =? 125 then Some ([], l')
          else if first then member l
          else if byte_code a =? 44 then member l'
          else None
      end
  end.

Definition scan (l : list ascii) : option (json * list ascii) :=
  scan_value (2 * length l + 2) max_depth l.

(** The first document of a stream ([Decoder.Decode]); the rest is not looked at.
    [None] also for an empty stream. *)
Definition decode_first (s : string) : option json :=
  match scan (bytes s) with
  | Some (v, _) => Some v
  | None => None
  end.
(** The only document of a text ([json.Unmarshal]). *)
Definition decode_all (s : string) : option json :=
  match scan (bytes s) with
  | Some (v, rest) => match skip_space rest with [] => Some v | _ => None end
  | None => None
  end.
(** Nothing but white space: [io.EOF] from a [Decoder]. *)
Definition blank (s : string) : bool :=
  match skip_space (bytes s) with [] => true | _ => false end.
(** [io.LimitReader(r, n)]. *)
Definition limited (n : Z) (s : string) : string :=
  if len s <=? n then s else of_bytes (take (Z.to_nat n) (bytes s)).
