(* ===== verification/JsonCodec.v ===== *)
(** * Go values as JSON documents: how encoding/json decodes a document into the program's
    types, and what it writes for them.  The wire types are those of internal/model and
    internal/controller; the member names are their struct tags. *)
From S2P Require Import Prelude GoStrings GoTime Model Json Report.

(** ** Decoding *)
(** A decoder gets the value the Go variable holds and the document; [None] is an error. *)
Definition Decoder (T : Type) : Type := json -> T -> option T.

(** [null] leaves a basic value alone. *)
Definition into_string : Decoder string := fun v old =>
  match v with
  | JNull => Some old
  | JStr s => Some s
  | _ => None
  end.
Definition into_bool : Decoder bool := fun v old =>
  match v with
  | JNull => Some old
  | JBool b => Some b
  | _ => None
  end.

(** [strconv.ParseInt] of a number literal: only an integer without fraction or exponent. *)
Fixpoint digits_value (acc : Z) (l : list ascii) : option Z :=
  match l with
  | [] => Some acc
  | a :: l' => if is_digit a then digits_value (10 * acc + (byte_code a - 48)) l' else None
  end.
Definition literal_value (s : string) : option Z :=
  match bytes s with
  | (a :: (_ :: _)) as l =>
      if byte_code a =? 45 then option_map Z.opp (digits_value 0 (List.tl l)) else digits_value 0 l
  | [a] => digits_value 0 [a]
  | [] => None
  end.
(** An integer of a type with the range [lo, hi]; a literal outside it is an error. *)
Definition into_integer (lo hi : Z) : Decoder Z := fun v old =>
  match v with
  | JNull => Some old
  | JNum s =>
      match literal_value s with
      | Some z => if (lo <=? z) && (z <=? hi) then Some z else None
      | None => None
      end
  | _ => None
  end.
Definition into_int : Decoder Z := into_integer min_int64 max_int64.
Definition into_uint (bits : Z) : Decoder Z := into_integer 0 (2 ^ bits - 1).

Definition into_kind : Decoder Kind := fun v old =>
  option_map Kind_of_string (into_string v (Kind_string old)).
Definition into_phase : Decoder Phase := fun v old =>
  option_map Phase_of_string (into_string v (Phase_string old)).

(** A slice: elements decode over those the slice already has; [null] makes it nil. *)
Fixpoint into_elements {T} (zero : T) (d : Decoder T) (vs : list json) (old : list T)
  : option (list T) :=
  match vs with
  | [] => Some []
  | v :: vs' =>
      match d v (default zero (head old)), into_elements zero d vs' (List.tl old) with
      | Some x, Some xs => Some (x :: xs)
      | _, _ => None
      end
  end.
Definition into_slice {T} (zero : T) (d : Decoder T) : Decoder (list T) := fun v old =>
  match v with
  | JNull => Some []
  | JArr vs => into_elements zero d vs old
  | _ => None
  end.

(** A struct: the members in the order of the document, each matched to a field by its exact
    name or else under case folding; an unknown member is an error only after
    [DisallowUnknownFields]. *)
Record field (T : Type) := mk_field { field_name : string; field_set : Decoder T }.
Arguments mk_field {T} _ _.
Arguments field_name {T} _.
Arguments field_set {T} _.

Definition find_field {T} (fields : list (field T)) (name : string) : option (field T) :=
  match List.find (fun f => field_name f == name) fields with
  | Some f => Some f
  | None => List.find (fun f => EqualFold (field_name f) name) fields
  end.

Fixpoint into_members {T} (strict : bool) (fields : list (field T)) (ms : list (string * json)) (t : T)
  : option T :=
  match ms with
  | [] => Some t
  | (name, v) :: ms' =>
      match find_field fields name with
      | None => if strict then None else into_members strict fields ms' t
      | Some f =>
          match field_set f v t with
          | Some t' => into_members strict fields ms' t'
          | None => None
          end
      end
  end.
Definition into_struct {T} (strict : bool) (fields : list (field T)) : Decoder T := fun v t =>
  match v with
  | JNull => Some t
  | JObj ms => into_members strict fields ms t
  | _ => None
  end.
Notation "name '~>' proj 'by' d" :=
  (mk_field name (fun v t => option_map (fun x => t <| proj := x |>) (d v (proj t))))
  (at level 60, proj at level 9, d at level 9) : go_scope.

(** [map[string]string], which may be nil. *)
Fixpoint into_string_members (ms : list (string * json)) (m : gmap string string)
  : option (gmap string string) :=
  match ms with
  | [] => Some m
  | (k, v) :: ms' =>
      match into_string v "" with
      | Some s => into_string_members ms' (<[k := s]> m)
      | None => None
      end
  end.
Definition into_string_map : Decoder (option (gmap string string)) := fun v m =>
  match v with
  | JNull => Some None
  | JObj ms => option_map Some (into_string_members ms (default ∅ m))
  | _ => None
  end.

(** Running a decoder on a text. *)
Section Texts.
Context {JE : JsonErrors}.

(** [json.Unmarshal(data, &t)]. *)
Definition json_Unmarshal_into {T} (d : Decoder T) (text : string) (t : T) : result T :=
  match decode_all text with
  | Some v => match d v t with Some t' => Ok t' | None => Err (json_error text) end
  | None => Err (json_error text)
  end.
(** [json.NewDecoder(r).Decode(&t)] on a fresh decoder. *)
Definition json_Decode_into {T} (d : Decoder T) (text : string) (t : T) : result T :=
  match decode_first text with
  | Some v => match d v t with Some t' => Ok t' | None => Err (json_error text) end
  | None => Err (json_error text)
  end.
End Texts.

(** ** Encoding *)
Definition jint (z : Z) : json := JNum (pretty z).
Definition jstrings (l : list string) : json := JArr (map JStr l).
(** A slice only ever grown by [append]: nil when empty. *)
Definition jslice {A} (f : A -> json) (l : list A) : json :=
  match l with
  | [] => JNull
  | _ => JArr (map f l)
  end.
(** [omitempty] members.  It never omits a [time.Time], which is a struct. *)
Definition omit_string (name s : string) : list (string * json) :=
  if s == "" then [] else [(name, JStr s)].
Definition omit_int (name : string) (z : Z) : list (string * json) :=
  if z =? 0 then [] else [(name, jint z)].
Definition omit_bool (name : string) (b : bool) : list (string * json) :=
  if b then [(name, JBool true)] else [].
Definition jtime (t : time) : json := JStr (FormatRFC3339Nano t).

(** A [map[string]string] is written with its keys sorted. *)
Definition jstring_map (l : list (string * string)) : json :=
  JObj (map (fun kv => (kv.1, JStr kv.2)) (SortBy fst l)).

(** ** The types of internal/model *)
(** The members of [model.Key] an API response may set. *)
Definition key_fields : list (field Key.t) :=
  ["id" ~> Key.ID by into_int; "keytype" ~> Key.KeyType by into_string;
   "active" ~> Key.Active by into_bool; "published" ~> Key.Published by into_bool;
   "dnskey" ~> Key.DNSKEY by into_string; "ds" ~> Key.DS by (into_slice "" into_string);
   "algorithm" ~> Key.Algorithm by into_string; "bits" ~> Key.Bits by into_int].
Definition zero_Key : Key.t := Key.mk 0 "" false false "" [] "" 0.

Definition content_fields : list (field rr_content) :=
  [mk_field "content" (fun v t => option_map (fun x => mk_rr_content x (Disabled t)) (into_string v (Content t)));
   mk_field "disabled" (fun v t => option_map (mk_rr_content (Content t)) (into_bool v (Disabled t)))].

Definition rrset_fields : list (field RRSet.t) :=
  ["name" ~> RRSet.Name by into_string; "type" ~> RRSet.Type_ by into_string;
   "ttl" ~> RRSet.TTL by (into_uint 32);
   "records" ~> RRSet.Records by
     (into_slice (mk_rr_content "" false) (into_struct false content_fields))].

Definition zone_fields : list (field Zone.t) :=
  ["id" ~> Zone.ID by into_string; "name" ~> Zone.Name by into_string;
   "kind" ~> Zone.Kind by into_string; "dnssec" ~> Zone.DNSSEC by into_bool;
   "rrsets" ~> Zone.RRsets by
     (into_slice (RRSet.mk "" "" 0 []) (into_struct false rrset_fields))].
Definition zero_Zone : Zone.t := Zone.mk "" "" "" false [].

Definition dnssec_fields : list (field DNSSECData.t) :=
  ["flags" ~> DNSSECData.Flags by (into_uint 16); "protocol" ~> DNSSECData.Protocol by (into_uint 8);
   "algorithm" ~> DNSSECData.Algorithm by (into_uint 8);
   "publicKey" ~> DNSSECData.PublicKey by into_string].
Definition zero_DNSSECData : DNSSECData.t := DNSSECData.mk 0 0 0 "".

Definition dnssec_json (d : DNSSECData.t) : json :=
  JObj [("flags", jint d.(DNSSECData.Flags)); ("protocol", jint d.(DNSSECData.Protocol));
        ("algorithm", jint d.(DNSSECData.Algorithm)); ("publicKey", JStr d.(DNSSECData.PublicKey))].

Definition workflow_json (w : Workflow.t) : json :=
  JObj ([("zone", JStr w.(Workflow.Zone))] ++ omit_string "zoneId" w.(Workflow.ZoneID) ++
    [("kind", JStr (Kind_string w.(Workflow.Kind))); ("phase", JStr (Phase_string w.(Workflow.Phase)))] ++
    omit_int "oldKeyId" w.(Workflow.OldKeyID) ++ omit_int "newKeyId" w.(Workflow.NewKeyID) ++
    omit_int "newZskId" w.(Workflow.NewZSKID) ++
    [("newKeyCreateAttemptedAt", jtime w.(Workflow.NewKeyCreateAttemptedAt));
     ("newZskCreateAttemptedAt", jtime w.(Workflow.NewZSKCreateAttemptedAt));
     ("phaseStartedAt", jtime w.(Workflow.PhaseStartedAt));
     ("nextActionAt", jtime w.(Workflow.NextActionAt));
     ("lastCompletedAt", jtime w.(Workflow.LastCompletedAt))] ++
    omit_string "lastError" w.(Workflow.LastError) ++ omit_int "attempts" w.(Workflow.Attempts) ++
    omit_bool "manual" w.(Workflow.Manual) ++
    omit_string "idempotencyKey" w.(Workflow.IdempotencyKey) ++
    omit_int "dnskeyTtlSeconds" w.(Workflow.DNSKEYTTL) ++
    omit_int "zoneTtlSeconds" w.(Workflow.ZoneTTL) ++
    omit_int "parentDsTtlSeconds" w.(Workflow.ParentDSTTL) ++
    [("evidenceAt", jtime w.(Workflow.EvidenceAt))] ++
    omit_string "registrarCtid" w.(Workflow.RegistrarCTID) ++
    omit_string "registrarStid" w.(Workflow.RegistrarSTID) ++
    omit_int "registrarJobId" w.(Workflow.RegistrarJobID) ++
    omit_string "registrarJobStatus" w.(Workflow.RegistrarJobStatus) ++
    [("registrarAttemptedAt", jtime w.(Workflow.RegistrarAttemptedAt))] ++
    omit_string "registrarPayloadHash" w.(Workflow.RegistrarPayloadHash) ++
    omit_string "parentMode" w.(Workflow.ParentMode) ++
    [("splitSignerTransitionAt", jtime w.(Workflow.SplitSignerTransitionAt));
     ("discoveredAt", jtime w.(Workflow.DiscoveredAt))] ++
    omit_string "keysetFingerprint" w.(Workflow.KeysetFingerprint) ++
    omit_string "enrollmentDisposition" w.(Workflow.EnrollmentDisposition)).

(** ** The reports of internal/controller *)
Definition zone_status_json (z : ZoneStatus.t) : json :=
  JObj ([("zone", JStr z.(ZoneStatus.Zone)); ("dnssec", JBool z.(ZoneStatus.DNSSEC));
         ("scheme", JStr z.(ZoneStatus.Scheme)); ("managed", JBool z.(ZoneStatus.Managed));
         ("enrollmentStatus", JStr z.(ZoneStatus.EnrollmentStatus))] ++
        omit_string "blockedReason" z.(ZoneStatus.BlockedReason) ++
        [("workflows", jslice workflow_json z.(ZoneStatus.Workflows))]).

Definition status_json (s : Status.t) : json :=
  JObj [("mode", JStr s.(Status.Mode)); ("ready", JBool s.(Status.Ready));
        ("zones", jint s.(Status.Zones)); ("blocked", jint s.(Status.Blocked));
        ("enrollmentArmed", JBool s.(Status.EnrollmentArmed));
        ("enrolling", jint s.(Status.Enrolling)); ("managed", jint s.(Status.Managed));
        ("pendingNotifications", jint s.(Status.PendingNotifications))].

Definition plan_json (p : Plan.t) : json :=
  JObj [("kind", JStr (Kind_string p.(Plan.Kind_))); ("zones", jstrings p.(Plan.Zones));
        ("mutations", jslice JStr p.(Plan.Mutations))].

Definition audit_json (a : AuditResult.t) : json :=
  JObj ([("zone", JStr a.(AuditResult.Zone)); ("scheme", JStr a.(AuditResult.Scheme));
         ("registrarMatch", JBool a.(AuditResult.RegistrarMatch))] ++
        omit_string "error" a.(AuditResult.Error_)).
