(* ===== verification/JsonFacts.v ===== *)
(** * Round trip of JSON texts: what [strconv.Itoa] and encoding/json write for an integer reads
    back as that integer, and a document whose strings are ASCII is read back from what
    encoding/json wrote for it. *)
From S2P Require Import Prelude GoStrings GoTime Json JsonCodec.

Lemma byte_of_code_code a : byte_of_code (byte_code a) = a.
Proof. unfold byte_of_code, byte_code. by rewrite N2Z.id, ascii_N_embedding. Qed.

Lemma digit_char (x : N) :
  (x < 10)%N -> is_digit (pretty_N_char x) = true /\ byte_code (pretty_N_char x) = 48 + Z.of_N x.
Proof.
  intros H. assert (x ∈ [0;1;2;3;4;5;6;7;8;9]%N) as Hx by (rewrite !elem_of_cons; lia).
  repeat (apply elem_of_cons in Hx as [->|Hx]; [by vm_compute|]). by apply elem_of_nil in Hx.
Qed.

(** [ds] are the digits of a positive number [x]. *)
Record decimal (x : N) (ds : list ascii) : Prop := {
  decimal_digits : Forall (fun a => is_digit a = true) ds;
  decimal_head : exists a ds', ds = a :: ds' /\ in_range 49 57 a = true;
  decimal_value : forall acc l,
    digits_value acc (ds ++ l) = digits_value (acc * 10 ^ Z.of_nat (length ds) + Z.of_N x) l;
}.

Lemma digits_value_digit acc (x : N) l :
  (x < 10)%N -> digits_value acc (pretty_N_char x :: l) = digits_value (10 * acc + Z.of_N x) l.
Proof.
  intros H. destruct (digit_char x H) as [Hd Hc]. cbn [digits_value]. rewrite Hd, Hc. f_equal. lia.
Qed.

Lemma pretty_N_go_decimal x :
  (0 < x)%N -> exists ds, decimal x ds /\ forall s, bytes (pretty_N_go x s) = ds ++ bytes s.
Proof.
  induction (N.lt_wf_0 x) as [x _ IH]. intros Hx.
  assert (Hm : (x mod 10 < 10)%N) by (apply N.mod_lt; lia).
  destruct (decide (x < 10)%N) as [Hs|Hs].
  - exists [pretty_N_char x]. split.
    + destruct (digit_char x Hs) as [Hd Hc]. split.
      * by constructor.
      * eexists _, []. split; [done|]. unfold in_range. rewrite Hc.
        apply andb_true_intro. split; apply Z.leb_le; lia.
      * intros acc l. cbn [app length]. rewrite (digits_value_digit _ _ _ Hs). f_equal. lia.
    + intros s. rewrite pretty_N_go_step by done.
      rewrite N.div_small, N.mod_small by done. by rewrite pretty_N_go_0.
  - destruct (IH (x / 10)%N) as (ds & [Hd (a & ds' & -> & Ha) Hv] & Hb).
    { apply N.div_lt; lia. } { apply N.div_str_pos; lia. }
    exists ((a :: ds') ++ [pretty_N_char (x mod 10)]). split; [split|].
    + apply Forall_app. split; [done|]. constructor; [by apply digit_char|done].
    + by eexists _, _.
    + intros acc l. rewrite <- app_assoc, Hv. cbn [app]. rewrite (digits_value_digit _ _ _ Hm).
      f_equal. rewrite (app_comm_cons ds' _ a), length_app.
      change (length [pretty_N_char (x mod 10)]) with 1%nat.
      rewrite Nat.add_1_r, Nat2Z.inj_succ, Z.pow_succ_r by lia.
      pose proof (N.div_mod x 10 ltac:(done)). lia.
    + intros s. rewrite pretty_N_go_step by done. rewrite Hb. by rewrite <- app_assoc.
Qed.

(** The text of an integer: its sign, and the digits of its absolute value. *)
Lemma pretty_Z_bytes (z : Z) :
  (z = 0 /\ bytes (pretty z) = ["0"%char]) \/
  (exists ds, 0 < z /\ decimal (Z.to_N z) ds /\ bytes (pretty z) = ds) \/
  (exists ds, z < 0 /\ decimal (Z.to_N (- z)) ds /\ bytes (pretty z) = "-"%char :: ds).
Proof.
  destruct z as [|p|p]; [by left|right; left|right; right];
    destruct (pretty_N_go_decimal (Npos p)) as (ds & Hd & Hb); try lia;
    exists ds; (split; [lia|]); (split; [exact Hd|]).
  - change (bytes (pretty_N_go (Npos p) "") = ds). by rewrite Hb, app_nil_r.
  - change (bytes ("-" +:+ pretty_N_go (Npos p) "") = "-"%char :: ds).
    change (bytes ("-" +:+ pretty_N_go (Npos p) "")) with ("-"%char :: bytes (pretty_N_go (Npos p) "")).
    by rewrite Hb, app_nil_r.
Qed.

Lemma literal_value_pretty (z : Z) : literal_value (pretty z) = Some z.
Proof.
  unfold literal_value.
  destruct (pretty_Z_bytes z) as [[-> E]|[(ds & Hz & [Hd (a & ds' & -> & Ha) Hv] & E)|(ds & Hz & [Hd (a & ds' & -> & Ha) Hv] & E)]].
  - by rewrite E.
  - rewrite E. assert (Hval : digits_value 0 (a :: ds') = Some z).
    { rewrite <- (app_nil_r (a :: ds')), Hv. cbn. f_equal. lia. }
    destruct ds' as [|b ds']; [done|]. destruct (Z.eqb_spec (byte_code a) 45) as [H|]; [|done].
    unfold in_range in Ha. rewrite H in Ha. discriminate Ha.
  - rewrite E. cbn [byte_code]. change (byte_code "-"%char =? 45) with true. cbn iota. cbn [List.tl].
    rewrite <- (app_nil_r (a :: ds')), Hv. cbn. f_equal. lia.
Qed.

(** ** Scanning *)
(** What may follow a number: nothing, or a byte that ends a value. *)
Definition boundary (rest : list ascii) : Prop :=
  match rest with
  | [] => True
  | a :: _ => a = ","%char \/ a = "]"%char \/ a = "}"%char \/ a = byte_of_code 10
  end.

Lemma span_digits ds rest :
  Forall (fun a => is_digit a = true) ds -> boundary rest -> span is_digit (ds ++ rest) = (ds, rest).
Proof.
  intros Hd Hb. induction Hd as [|a ds Ha Hd IH]; cbn [app span].
  - destruct rest as [|a rest]; [done|]. cbn. destruct Hb as [->|[->|[->| ->]]]; reflexivity.
  - by rewrite Ha, IH.
Qed.

Lemma scan_fraction_boundary rest : boundary rest -> scan_fraction rest = Some ([], rest).
Proof. destruct rest as [|a rest]; [done|]. intros [->|[->|[->| ->]]]; reflexivity. Qed.
Lemma scan_exponent_boundary rest : boundary rest -> scan_exponent rest = Some ([], rest).
Proof. destruct rest as [|a rest]; [done|]. intros [->|[->|[->| ->]]]; reflexivity. Qed.

Lemma scan_integer_decimal x ds rest :
  decimal x ds -> boundary rest -> scan_integer (ds ++ rest) = Some (ds, rest).
Proof.
  intros [Hd (a & ds' & -> & Ha) _] Hb. unfold scan_integer. cbn [app].
  destruct (Z.eqb_spec (byte_code a) 48) as [H|]; [unfold in_range in Ha; by rewrite H in Ha|].
  rewrite Ha. by rewrite (span_digits (a :: ds') rest Hd Hb : span is_digit (a :: ds' ++ rest) = _).
Qed.

Lemma scan_number_pretty (z : Z) rest :
  boundary rest -> scan_number (bytes (pretty z) ++ rest) = Some (JNum (pretty z), rest).
Proof.
  intros Hb. unfold scan_number.
  destruct (pretty_Z_bytes z) as [[-> E]|[(ds & Hz & Hdec & E)|(ds & Hz & Hdec & E)]].
  - rewrite E. cbn [app]. change (byte_code "0"%char =? 45) with false. cbn iota.
    change (scan_integer ("0"%char :: rest)) with (Some (["0"%char], rest)). cbn iota.
    by rewrite scan_fraction_boundary, scan_exponent_boundary.
  - rewrite E. pose proof Hdec as [_ (a & ds' & Ed & Ha) _]. rewrite Ed. cbn [app].
    destruct (Z.eqb_spec (byte_code a) 45) as [H|_]; [unfold in_range in Ha; by rewrite H in Ha|].
    change (a :: ds' ++ rest) with ((a :: ds') ++ rest). rewrite <- Ed.
    rewrite (scan_integer_decimal _ _ _ Hdec Hb), scan_fraction_boundary, scan_exponent_boundary by done.
    cbn [app]. by rewrite !app_nil_r, <- E, of_bytes_bytes.
  - rewrite E. cbn [app]. change (byte_code "-"%char =? 45) with true. cbn iota.
    rewrite (scan_integer_decimal _ _ _ Hdec Hb), scan_fraction_boundary, scan_exponent_boundary by done.
    cbn [app]. by rewrite !app_nil_r, <- E, of_bytes_bytes.
Qed.

(** The first byte of an integer. *)
Lemma pretty_head (z : Z) : exists a l, bytes (pretty z) = a :: l /\ (a = "-"%char \/ is_digit a = true).
Proof.
  destruct (pretty_Z_bytes z) as [[-> E]|[(ds & _ & [Hd (a & ds' & -> & _) _] & E)|(ds & _ & _ & E)]].
  - by eexists _, _; split; [done|right].
  - eexists _, _; split; [done|right]. by apply Forall_cons in Hd as [? _].
  - by eexists _, _; split; [done|left].
Qed.

Lemma byte_code_range a : 0 <= byte_code a < 256.
Proof. unfold byte_code. pose proof (N_ascii_bounded a). lia. Qed.

Definition ascii_bytes (l : list ascii) : Prop := Forall (fun a => byte_code a < 128) l.
Definition ascii_string (s : string) : Prop := ascii_bytes (bytes s).
#[export] Instance ascii_string_dec s : Decision (ascii_string s).
Proof. unfold ascii_string, ascii_bytes. apply _. Defined.

(** ** Strings *)
(** The scanner reads one escaped byte in one step. *)
Lemma scan_escaped a fuel tail :
  byte_code a < 128 ->
  scan_string (S fuel) (escape_byte a ++ tail) =
  match scan_string fuel tail with
  | Some (s, rest) => Some (a :: s, rest)
  | None => None
  end.
Proof.
  intros Ha. destruct a as [[] [] [] [] [] [] [] []]; try (exfalso; vm_compute in Ha; done); reflexivity.
Qed.

Lemma escape_byte_length a : (1 <= length (escape_byte a))%nat.
Proof. unfold escape_byte. repeat case_match; cbn; lia. Qed.

Lemma escape_bytes_cons n a l :
  byte_code a < 128 -> escape_bytes (S n) (a :: l) = escape_byte a ++ escape_bytes n l.
Proof. intros H. cbn. by rewrite (proj2 (Z.ltb_lt _ _) H). Qed.

Lemma scan_escape l n fuel rest :
  ascii_bytes l -> (length l <= n)%nat ->
  (length (escape_bytes n l ++ dquote :: rest) <= fuel)%nat ->
  scan_string fuel (escape_bytes n l ++ dquote :: rest) = Some (l, rest).
Proof.
  intros Hl. revert n fuel. induction Hl as [|a l Ha Hl IH]; intros n fuel Hn Hf.
  - destruct n; cbn in *; (destruct fuel; [lia|reflexivity]).
  - destruct n as [|n]; [cbn in Hn; lia|]. rewrite escape_bytes_cons in * by done.
    rewrite <- app_assoc in *. rewrite length_app in Hf. pose proof (escape_byte_length a).
    destruct fuel as [|fuel]; [lia|]. rewrite scan_escaped by done.
    rewrite IH; [done|cbn in Hn; lia|lia].
Qed.

Lemma length_bytes s : length (bytes s) = String.length s.
Proof. unfold bytes. induction s; cbn; [done|]. by f_equal. Qed.

(** A string literal, from behind its opening quote. *)
Lemma scan_json_string s rest :
  ascii_string s ->
  exists l, json_string s ++ rest = dquote :: l /\ scan_string (length l) l = Some (bytes s, rest).
Proof.
  intros Hs. exists (escape_bytes (String.length s) (bytes s) ++ dquote :: rest). split.
  - unfold json_string. cbn. by rewrite <- app_assoc.
  - apply scan_escape; [done|by rewrite length_bytes|done].
Qed.

(** ** Documents *)
(** Integers in decimal, and only ASCII strings. *)
Fixpoint plain (v : json) : Prop :=
  match v with
  | JNull | JBool _ => True
  | JNum s => exists z : Z, s = pretty z
  | JStr s => ascii_string s
  | JArr l => fold_right (fun v P => plain v /\ P) True l
  | JObj m => fold_right (fun kv P => (ascii_string kv.1 /\ plain kv.2) /\ P) True m
  end.

(** Nesting, and the number of steps the scanner takes. *)
Fixpoint height (v : json) : nat :=
  match v with
  | JArr l => S (fold_right (fun v n => Nat.max (height v) n) O l)
  | JObj m => S (fold_right (fun kv n => Nat.max (height kv.2) n) O m)
  | _ => O
  end.
Fixpoint steps (v : json) : nat :=
  match v with
  | JArr l => S (fold_right (fun v n => S (Nat.max (steps v) n)) 1%nat l)
  | JObj m => S (fold_right (fun kv n => S (Nat.max (steps kv.2) n)) 1%nat m)
  | _ => 1
  end.

Section Induction.
Variable P : json -> Prop.
Hypothesis Hnull : P JNull.
Hypothesis Hbool : forall b, P (JBool b).
Hypothesis Hnum : forall s, P (JNum s).
Hypothesis Hstr : forall s, P (JStr s).
Hypothesis Harr : forall l, Forall P l -> P (JArr l).
Hypothesis Hobj : forall m, Forall (fun kv => P kv.2) m -> P (JObj m).
Fixpoint json_ind' (v : json) : P v :=
  match v with
  | JNull => Hnull
  | JBool b => Hbool b
  | JNum s => Hnum s
  | JStr s => Hstr s
  | JArr l => Harr l ((fix go l : Forall P l :=
                         match l with
                         | [] => Forall_nil_2 P
                         | v :: l' => Forall_cons_2 P v l' (json_ind' v) (go l')
                         end) l)
  | JObj m => Hobj m ((fix go m : Forall (fun kv : string * json => P kv.2) m :=
                         match m with
                         | [] => Forall_nil_2 _
                         | kv :: m' => Forall_cons_2 _ kv m' (json_ind' kv.2) (go m')
                         end) m)
  end.
End Induction.

(** A document starts with a byte that is neither space nor punctuation of a list. *)
Definition starts (l : list ascii) : Prop :=
  exists a l', l = a :: l' /\ json_space a = false /\ byte_code a <> 93 /\ byte_code a <> 125 /\
    byte_code a <> 44.

(** A byte an integer may start with. *)
Lemma number_start a :
  a = "-"%char \/ is_digit a = true ->
  json_space a = false /\ byte_code a <> 93 /\ byte_code a <> 125 /\ byte_code a <> 44 /\
  forall fuel depth l, scan_value (S fuel) depth (a :: l) = scan_number (a :: l).
Proof.
  intros [->|H]; [by split_and!|].
  by destruct a as [[] [] [] [] [] [] [] []]; try discriminate H; split_and!.
Qed.

Lemma json_starts v rest : plain v -> starts (json_bytes v ++ rest).
Proof.
  destruct v as [|[]|s|s|l|m]; intros H; cbn in H; try done;
    try (eexists _, _; split; [reflexivity|]; by split_and!).
  destruct H as [z ->]. destruct (pretty_head z) as (a & l & E & Ha). cbn [json_bytes]. rewrite E.
  destruct (number_start a Ha) as (? & ? & ? & ? & _). by eexists _, _.
Qed.

Lemma skip_starts l : starts l -> skip_space l = l.
Proof. intros (a & l' & -> & H & _). unfold skip_space. cbn. by rewrite H. Qed.

Lemma scan_value_space fuel depth l :
  scan_value fuel depth (skip_space l) = scan_value fuel depth l.
Proof.
  destruct fuel as [|fuel]; [done|]. cbn [scan_value].
  assert (skip_space (skip_space l) = skip_space l) as ->; [|done].
  unfold skip_space. induction l as [|a l IH]; cbn; [done|].
  destruct (json_space a) eqn:E; [done|]. cbn. by rewrite E.
Qed.

(** ** The scanner's loops, unfolded *)
Lemma scan_elements_end fuel depth first l :
  scan_elements (S fuel) depth first ("]"%char :: l) = Some ([], l).
Proof. reflexivity. Qed.
Lemma scan_elements_next fuel depth l :
  scan_elements (S fuel) depth false (","%char :: l) =
  match scan_value fuel depth l with
  | None => None
  | Some (v, rest) =>
      match scan_elements fuel depth false rest with
      | Some (vs, rest') => Some (v :: vs, rest')
      | None => None
      end
  end.
Proof. reflexivity. Qed.
Lemma scan_elements_first fuel depth l :
  starts l ->
  scan_elements (S fuel) depth true l =
  match scan_value fuel depth l with
  | None => None
  | Some (v, rest) =>
      match scan_elements fuel depth false rest with
      | Some (vs, rest') => Some (v :: vs, rest')
      | None => None
      end
  end.
Proof.
  intros (a & l' & -> & Ha & H1 & _). cbn -[byte_code]. rewrite Ha.
  by rewrite (proj2 (Z.eqb_neq _ _) H1).
Qed.

Definition scan_member (fuel depth : nat) (k : string) (rest : list ascii)
  : option (list (string * json) * list ascii) :=
  match scan_value fuel depth rest with
  | None => None
  | Some (v, rest) =>
      match scan_members fuel depth false rest with
      | Some (ms, rest') => Some ((k, v) :: ms, rest')
      | None => None
      end
  end.

Lemma scan_members_end fuel depth first l :
  scan_members (S fuel) depth first ("}"%char :: l) = Some ([], l).
Proof. reflexivity. Qed.
Lemma scan_value_string fuel depth l :
  scan_value (S fuel) depth (dquote :: l) =
  match scan_string (length l) l with
  | Some (s, rest) => Some (JStr (of_bytes s), rest)
  | None => None
  end.
Proof. reflexivity. Qed.
Lemma scan_value_array fuel depth l :
  scan_value (S fuel) (S depth) ("["%char :: l) =
  match scan_elements fuel depth true l with
  | Some (vs, rest) => Some (JArr vs, rest)
  | None => None
  end.
Proof. reflexivity. Qed.
Lemma scan_value_object fuel depth l :
  scan_value (S fuel) (S depth) ("{"%char :: l) =
  match scan_members fuel depth true l with
  | Some (ms, rest) => Some (JObj ms, rest)
  | None => None
  end.
Proof. reflexivity. Qed.

(** A member whose opening quote was read. *)
Definition scan_key (fuel depth : nat) (l : list ascii) : option (list (string * json) * list ascii) :=
  match scan_string (length l) l with
  | None => None
  | Some (k, l2) =>
      match skip_space l2 with
      | colon :: l3 =>
          if negb (byte_code colon =? 58) then None else scan_member fuel depth (of_bytes k) l3
      | [] => None
      end
  end.
Lemma scan_members_first fuel depth l :
  scan_members (S fuel) depth true (dquote :: l) = scan_key fuel depth l.
Proof. reflexivity. Qed.
Lemma scan_members_next fuel depth l :
  scan_members (S fuel) depth false (","%char :: dquote :: l) = scan_key fuel depth l.
Proof. reflexivity. Qed.
Lemma scan_key_string fuel depth s rest :
  ascii_string s -> exists l, json_string s ++ ":"%char :: rest = dquote :: l /\
    scan_key fuel depth l = scan_member fuel depth s rest.
Proof.
  intros Hs. destruct (scan_json_string s (":"%char :: rest) Hs) as (l & -> & E).
  exists l. split; [done|]. unfold scan_key. rewrite E, of_bytes_bytes. reflexivity.
Qed.

(** What follows a value inside a list ends it. *)
Lemma boundary_elements ps rest :
  boundary (List.concat (map (fun q => ","%char :: q) ps) ++ "]"%char :: rest).
Proof. destruct ps; cbn; auto. Qed.
Lemma boundary_members ps rest :
  boundary (List.concat (map (fun q => ","%char :: q) ps) ++ "}"%char :: rest).
Proof. destruct ps; cbn; auto. Qed.

Section Lists.
Variable depth : nat.

(** The scanner reads [v] back wherever it has the fuel and the depth for it. *)
Definition reads (v : json) : Prop :=
  forall fuel rest, (steps v <= fuel)%nat -> boundary rest ->
  scan_value fuel depth (json_bytes v ++ rest) = Some (v, rest).

Definition element_steps (l : list json) : nat :=
  fold_right (fun v n => S (Nat.max (steps v) n)) 1%nat l.
Definition member_steps (m : list (string * json)) : nat :=
  fold_right (fun kv n => S (Nat.max (steps kv.2) n)) 1%nat m.

Lemma scan_elements_more l fuel rest :
  Forall reads l -> (element_steps l <= fuel)%nat ->
  scan_elements fuel depth false
    (List.concat (map (fun q => ","%char :: q) (map json_bytes l)) ++ "]"%char :: rest)
  = Some (l, rest).
Proof.
  intros Hl. revert fuel. induction Hl as [|v l Hv Hl IH]; intros fuel Hf.
  - destruct fuel; [cbn in Hf; lia|reflexivity].
  - cbn [element_steps fold_right] in Hf. fold (element_steps l) in Hf.
    destruct fuel as [|fuel]; [lia|]. cbn [map List.concat]. rewrite <- !app_comm_cons, <- app_assoc.
    rewrite scan_elements_next, (Hv fuel) by (lia || apply boundary_elements). by rewrite IH by lia.
Qed.

Lemma scan_elements_all l fuel rest :
  Forall reads l -> Forall plain l -> (element_steps l <= fuel)%nat ->
  scan_elements fuel depth true (comma_separated (map json_bytes l) ++ "]"%char :: rest)
  = Some (l, rest).
Proof.
  intros Hl Hp Hf. destruct Hl as [|v l Hv Hl].
  - destruct fuel; [cbn in Hf; lia|apply scan_elements_end].
  - cbn [element_steps fold_right] in Hf. fold (element_steps l) in Hf.
    destruct fuel as [|fuel]; [lia|]. apply Forall_cons in Hp as [Hp _].
    cbn [map comma_separated]. rewrite <- app_assoc, scan_elements_first by (by apply json_starts).
    rewrite Hv by (lia || apply boundary_elements). by rewrite scan_elements_more by (done || lia).
Qed.

Lemma scan_members_more m fuel rest :
  Forall (fun kv => reads kv.2) m -> Forall (fun kv => ascii_string kv.1) m ->
  (member_steps m <= fuel)%nat ->
  scan_members fuel depth false
    (List.concat (map (fun q => ","%char :: q)
       (map (fun kv => json_string kv.1 ++ ":"%char :: json_bytes kv.2) m)) ++ "}"%char :: rest)
  = Some (m, rest).
Proof.
  intros Hm Hs. revert fuel. induction Hm as [|[k v] m Hv Hm IH]; intros fuel Hf.
  - destruct fuel; [cbn in Hf; lia|apply scan_members_end].
  - cbn [member_steps fold_right snd] in Hf. fold (member_steps m) in Hf.
    apply Forall_cons in Hs as [Hk Hs]. cbn [fst snd] in Hk, Hv.
    destruct fuel as [|fuel]; [lia|]. cbn [map List.concat fst snd].
    rewrite <- !app_comm_cons, <- !app_assoc, <- app_comm_cons.
    destruct (scan_key_string fuel depth k (json_bytes v ++ List.concat (map (fun q => ","%char :: q)
       (map (fun kv => json_string kv.1 ++ ":"%char :: json_bytes kv.2) m)) ++ "}"%char :: rest) Hk)
      as (l & -> & E).
    rewrite scan_members_next, E. unfold scan_member. rewrite (Hv fuel) by (lia || apply boundary_members).
    by rewrite IH by (done || lia).
Qed.

Lemma scan_members_all m fuel rest :
  Forall (fun kv => reads kv.2) m -> Forall (fun kv => ascii_string kv.1) m ->
  (member_steps m <= fuel)%nat ->
  scan_members fuel depth true
    (comma_separated (map (fun kv => json_string kv.1 ++ ":"%char :: json_bytes kv.2) m)
     ++ "}"%char :: rest) = Some (m, rest).
Proof.
  intros Hm Hs Hf. destruct Hm as [|[k v] m Hv Hm].
  - destruct fuel; [cbn in Hf; lia|apply scan_members_end].
  - cbn [member_steps fold_right snd] in Hf. fold (member_steps m) in Hf.
    apply Forall_cons in Hs as [Hk Hs]. cbn [fst snd] in Hk, Hv.
    destruct fuel as [|fuel]; [lia|]. cbn [map comma_separated fst snd].
    rewrite <- !app_assoc, <- app_comm_cons.
    destruct (scan_key_string fuel depth k (json_bytes v ++ List.concat (map (fun q => ","%char :: q)
       (map (fun kv => json_string kv.1 ++ ":"%char :: json_bytes kv.2) m)) ++ "}"%char :: rest) Hk)
      as (l & -> & E).
    rewrite scan_members_first, E. unfold scan_member. rewrite (Hv fuel) by (lia || apply boundary_members).
    by rewrite scan_members_more by (done || lia).
Qed.
End Lists.

Lemma plain_elements l : plain (JArr l) <-> Forall plain l.
Proof. cbn. induction l; cbn; rewrite ?Forall_cons; naive_solver. Qed.
Lemma plain_members m :
  plain (JObj m) <-> Forall (fun kv => ascii_string kv.1) m /\ Forall (fun kv => plain kv.2) m.
Proof. cbn. induction m; cbn; rewrite ?Forall_cons; naive_solver. Qed.

Lemma scan_plain v depth : plain v -> (height v <= depth)%nat -> reads depth v.
Proof.
  revert depth. induction v as [|b|s|s|l IH|m IH] using json_ind'; intros depth Hp Hd fuel rest Hf Hb.
  - destruct fuel; [cbn in Hf; lia|reflexivity].
  - destruct fuel; [cbn in Hf; lia|]. by destruct b.
  - destruct Hp as [z ->]. destruct fuel as [|fuel]; [cbn in Hf; lia|]. cbn [json_bytes].
    rewrite <- (scan_number_pretty z rest Hb). destruct (pretty_head z) as (a & l & -> & Ha).
    destruct (number_start a Ha) as (_ & _ & _ & _ & E). apply E.
  - destruct fuel; [cbn in Hf; lia|]. destruct (scan_json_string s rest Hp) as (l & E1 & E2).
    cbn [json_bytes]. by rewrite E1, scan_value_string, E2, of_bytes_bytes.
  - destruct fuel as [|fuel]; [cbn in Hf; lia|]. destruct depth as [|depth]; [cbn in Hd; lia|].
    cbn [height] in Hd. cbn [steps] in Hf. fold (element_steps l) in Hf.
    apply plain_elements in Hp. cbn [json_bytes]. rewrite <- app_comm_cons, <- app_assoc.
    assert (Hr : Forall (reads depth) l).
    { clear Hf. induction IH as [|v l Hv IH IHl]; [constructor|]. apply Forall_cons in Hp as [Hpv Hp].
      cbn in Hd. constructor; [apply Hv; [done|lia]|apply IHl; [done|lia]]. }
    rewrite scan_value_array. cbn [app]. by rewrite (scan_elements_all depth) by (done || lia).
  - destruct fuel as [|fuel]; [cbn in Hf; lia|]. destruct depth as [|depth]; [cbn in Hd; lia|].
    cbn [height] in Hd. cbn [steps] in Hf. fold (member_steps m) in Hf.
    apply plain_members in Hp as [Hk Hp]. cbn [json_bytes]. rewrite <- app_comm_cons, <- app_assoc.
    assert (Hr : Forall (fun kv => reads depth kv.2) m).
    { clear Hf Hk. induction IH as [|v m Hv IH IHm]; [constructor|]. apply Forall_cons in Hp as [Hpv Hp].
      cbn in Hd. constructor; [apply Hv; [done|lia]|apply IHm; [done|lia]]. }
    rewrite scan_value_object. cbn [app]. by rewrite (scan_members_all depth) by (done || lia).
Qed.

(** The steps never exceed the length of the text. *)
Lemma comma_separated_length p ps :
  length (comma_separated (p :: ps)) = (length p + sum_list_with (fun q => S (length q)) ps)%nat.
Proof.
  cbn. rewrite length_app. f_equal. induction ps as [|q ps IH]; cbn; [done|].
  by rewrite length_app, IH.
Qed.

Lemma element_steps_cons v l : element_steps (v :: l) = S (Nat.max (steps v) (element_steps l)).
Proof. reflexivity. Qed.
Lemma member_steps_cons kv m :
  member_steps (kv :: m) = S (Nat.max (steps kv.2) (member_steps m)).
Proof. reflexivity. Qed.

Lemma steps_length v : plain v -> (steps v <= length (json_bytes v))%nat.
Proof.
  induction v as [|[]|s|s|l IH|m IH] using json_ind'; intros Hp; cbn [steps json_bytes]; try (cbn; lia); try done.
  - destruct Hp as [z ->]. destruct (pretty_head z) as (a & l & -> & _). cbn. lia.
  - apply plain_elements in Hp. cbn [length]. rewrite length_app. cbn [length].
    assert (H : (element_steps l <= S (length (comma_separated (map json_bytes l))))%nat); [|unfold element_steps in H; lia].
    destruct l as [|v l]; [done|]. cbn [map]. rewrite comma_separated_length.
    apply Forall_cons in IH as [Hv IH]. apply Forall_cons in Hp as [Hpv Hp]. specialize (Hv Hpv).
    assert (H : (element_steps l <= 1 + sum_list_with (fun q => S (length q)) (map json_bytes l))%nat).
    { clear Hv Hpv. induction IH as [|u l Hu IH IHl]; [cbn; lia|]. apply Forall_cons in Hp as [Hpu Hp].
      specialize (IHl Hp). specialize (Hu Hpu). rewrite element_steps_cons. cbn [map sum_list_with]. lia. }
    rewrite element_steps_cons. pose proof (json_starts v [] Hpv) as (? & ? & E & _).
    rewrite app_nil_r in E. apply (f_equal length) in E. cbn in E. lia.
  - apply plain_members in Hp as [_ Hp]. cbn [length]. rewrite length_app. cbn [length].
    set (f := fun kv : string * json => json_string kv.1 ++ ":"%char :: json_bytes kv.2).
    assert (Hf : forall kv, (S (S (length (json_bytes kv.2))) <= length (f kv))%nat).
    { intros kv. unfold f, json_string. rewrite length_app. cbn. rewrite length_app. cbn. lia. }
    assert (H : (member_steps m <= S (length (comma_separated (map f m))))%nat); [|unfold member_steps in H; lia].
    destruct m as [|kv m]; [done|]. cbn [map]. rewrite comma_separated_length.
    apply Forall_cons in IH as [Hv IH]. apply Forall_cons in Hp as [Hpv Hp]. specialize (Hv Hpv).
    assert (H : (member_steps m <= 1 + sum_list_with (fun q => S (length q)) (map f m))%nat).
    { clear Hv Hpv. induction IH as [|u m Hu IH IHl]; [cbn; lia|]. apply Forall_cons in Hp as [Hpu Hp].
      specialize (IHl Hp). specialize (Hu Hpu). specialize (Hf u).
      rewrite member_steps_cons. cbn [map sum_list_with]. lia. }
    rewrite member_steps_cons. specialize (Hf kv). lia.
Qed.

(** What [json.Marshal] writes for a plain document reads back as that document, also in front
    of what may follow it. *)
Lemma scan_marshal v rest :
  plain v -> (height v <= max_depth)%nat -> boundary rest ->
  scan (json_bytes v ++ rest) = Some (v, rest).
Proof.
  intros Hp Hh Hb. unfold scan. apply (scan_plain v max_depth Hp Hh); [|done].
  pose proof (steps_length v Hp). rewrite length_app. lia.
Qed.

Lemma decode_first_encode v :
  plain v -> (height v <= max_depth)%nat -> decode_first (json_Encode v) = Some v.
Proof. intros Hp Hh. unfold decode_first, json_Encode. rewrite bytes_of_bytes, scan_marshal by (cbn; auto). done. Qed.

Lemma decode_first_marshal v :
  plain v -> (height v <= max_depth)%nat -> decode_first (json_Marshal v) = Some v.
Proof.
  intros Hp Hh. unfold decode_first, json_Marshal. rewrite bytes_of_bytes.
  rewrite <- (app_nil_r (json_bytes v)), scan_marshal by done. done.
Qed.

Lemma limited_id n s : len s <= n -> limited n s = s.
Proof. intros H. unfold limited. by rewrite (proj2 (Z.leb_le _ _) H). Qed.

(** Documents of the program are shallow. *)
Lemma shallow n : (n <=? 8)%nat = true -> (n <= max_depth)%nat.
Proof. intros H%Nat.leb_le. transitivity 8%nat; [done|]. apply Nat.leb_le. vm_compute. reflexivity. Qed.
