(* ===== verification/TimeText.v ===== *)
(** * Reading RFC 3339 texts: [time.Time.UnmarshalJSON] on the text of a JSON string, and that it
    reads what [time.Time.MarshalJSON] writes.

    The lenient forms the parser takes besides RFC 3339 (an hour of one digit, a comma before
    the fraction) are not modelled. *)
From S2P Require Import Prelude GoStrings GoTime GoNetFacts Json JsonCodec JsonFacts.

(** ** The calendar, backwards *)
Definition isLeap (year : Z) : bool :=
  (year mod 4 =? 0) && (negb (year mod 100 =? 0) || (year mod 400 =? 0)).
Definition daysIn (month year : Z) : Z :=
  if month =? 2 then (if isLeap year then 29 else 28) else 30 + (month + month / 8) mod 2.
Definition days_of_civil (c : civil) : Z :=
  let y := year c - (if month c <=? 2 then 1 else 0) in
  let mp := (month c + 9) mod 12 in
  let yoe := y mod 400 in
  y / 400 * 146097 + (365 * yoe + yoe / 4 - yoe / 100 + ((153 * mp + 2) / 5 + day c - 1)) - 306.

(** ** The text *)
Definition parse_uint (l : list ascii) (lo hi : Z) : option Z :=
  match digits_value 0 l with
  | Some x => if (lo <=? x) && (x <=? hi) then Some x else None
  | None => None
  end.
(** [parseNanoseconds]: at most nine digits count. *)
Definition nanoseconds (ds : list ascii) : Z :=
  let ds := take 9 ds in default 0 (digits_value 0 ds) * 10 ^ (9 - Z.of_nat (length ds)).
Definition parse_fraction (l : list ascii) : Z * list ascii :=
  match l with
  | dot :: ((a :: _) as ds) =>
      if (byte_code dot =? 46) && is_digit a
      then let '(ds, rest) := span is_digit ds in (nanoseconds ds, rest)
      else (0, l)
  | _ => (0, l)
  end.
(** The offset from UTC in seconds. *)
Definition parse_zone (l : list ascii) : option Z :=
  match l with
  | [z] => if byte_code z =? 90 then Some 0 else None
  | [sign; h1; h2; colon; m1; m2] =>
      match parse_uint [h1; h2] 0 23, parse_uint [m1; m2] 0 59 with
      | Some h, Some m =>
          if negb (byte_code colon =? 58) then None
          else if byte_code sign =? 43 then Some ((h * 60 + m) * 60)
          else if byte_code sign =? 45 then Some (- ((h * 60 + m) * 60)) else None
      | _, _ => None
      end
  | _ => None
  end.
Definition parse_time (s : string) : option time :=
  match bytes s with
  | y1 :: y2 :: y3 :: y4 :: c1 :: o1 :: o2 :: c2 :: d1 :: d2 :: ct :: h1 :: h2 :: c3 :: n1 :: n2 :: c4
    :: s1 :: s2 :: rest =>
      match parse_uint [y1; y2; y3; y4] 0 9999, parse_uint [o1; o2] 1 12,
            parse_uint [h1; h2] 0 23, parse_uint [n1; n2] 0 59, parse_uint [s1; s2] 0 59 with
      | Some y, Some o, Some h, Some n, Some s =>
          match parse_uint [d1; d2] 1 (daysIn o y) with
          | Some d =>
              let at_ c z := byte_code c =? z in
              if at_ c1 45 && at_ c2 45 && at_ ct 84 && at_ c3 58 && at_ c4 58 then
                let '(ns, rest) := parse_fraction rest in
                match parse_zone rest with
                | Some offset =>
                    Some ((days_of_civil (mkCivil y o d) * 86400 + h * 3600 + n * 60 + s - offset) * Second + ns)
                | None => None
                end
              else None
          | None => None
          end
      | _, _, _, _, _ => None
      end
  | _ => None
  end.

(** [null] leaves a time alone. *)
Definition into_time : Decoder time := fun v old =>
  match v with
  | JNull => Some old
  | JStr s => parse_time s
  | _ => None
  end.

Example parse_examples :
  (parse_time "1970-01-01T00:00:00Z", parse_time "2024-02-29T03:25:45.05+01:00", parse_time "2023-02-29T00:00:00Z",
   parse_time "1970-01-01T00:00:00", parse_time "1970-01-01T00:00:60Z")
  = (Some (719162 * ns_per_day), Some ((719162 + 19782) * ns_per_day + (12345 - 3600) * Second + 50000000),
     None, None, None).
Proof. vm_compute. reflexivity. Qed.

(** ** The calendar inverts *)
(** The year of an era and the day of the year, both from March. *)
Lemma year_of_era doe :
  0 <= doe < 146097 ->
  let yoe := (doe - doe / 1460 + doe / 36524 - doe / 146096) / 365 in
  let doy := doe - (365 * yoe + yoe / 4 - yoe / 100) in
  0 <= yoe <= 399 /\ 0 <= doy <= 365 /\
  (doy = 365 -> yoe mod 4 = 3 /\ (yoe mod 100 = 99 -> yoe = 399)).
Proof.
  intros Hdoe. cbv zeta.
  assert (H1 : exists q, doe / 1460 = q /\ 1460 * q <= doe < 1460 * q + 1460) by (eexists; split; [done|Z.to_euclidean_division_equations; lia]).
  assert (H2 : exists q, doe / 36524 = q /\ 36524 * q <= doe < 36524 * q + 36524) by (eexists; split; [done|Z.to_euclidean_division_equations; lia]).
  assert (H3 : exists q, doe / 146096 = q /\ 146096 * q <= doe < 146096 * q + 146096) by (eexists; split; [done|Z.to_euclidean_division_equations; lia]).
  destruct H1 as (q1 & -> & H1), H2 as (q2 & -> & H2), H3 as (q3 & -> & H3).
  assert (H4 : exists q, (doe - q1 + q2 - q3) / 365 = q /\ 365 * q <= doe - q1 + q2 - q3 < 365 * q + 365) by (eexists; split; [done|Z.to_euclidean_division_equations; lia]).
  destruct H4 as (yoe & -> & H4).
  assert (H0 : 0 <= yoe <= 399) by lia.
  assert (H5 : exists q r, yoe / 4 = q /\ yoe mod 4 = r /\ yoe = 4 * q + r /\ 0 <= r < 4) by (do 2 eexists; split_and!; try done; Z.to_euclidean_division_equations; lia).
  assert (H6 : exists q r, yoe / 100 = q /\ yoe mod 100 = r /\ yoe = 100 * q + r /\ 0 <= r < 100) by (do 2 eexists; split_and!; try done; Z.to_euclidean_division_equations; lia).
  destruct H5 as (a & ra & -> & -> & Ha & Hra), H6 as (b & rb & -> & -> & Hb & Hrb).
  split; [done|]. split; [lia|]. intros E. split; [lia|]. intros ->. lia.
Qed.

Lemma div_unique_range a b q : 0 < b -> b * q <= a < b * q + b -> a / b = q.
Proof. intros Hb H. symmetry. apply (Z.div_unique_pos a b q (a - b * q)); lia. Qed.

(** Compute the closed instances of a term. *)
Ltac compute_closed t := let v := eval vm_compute in t in change t with v.

(** The month from March and the day of the month. *)
Lemma month_of_year doy :
  0 <= doy <= 365 ->
  let mp := (5 * doy + 2) / 153 in
  let m := if mp <? 10 then mp + 3 else mp - 9 in
  let d := doy - (153 * mp + 2) / 5 + 1 in
  0 <= mp <= 11 /\ 1 <= m <= 12 /\ (m + 9) mod 12 = mp /\ ((m <=? 2) = (10 <=? mp)) /\
  1 <= d <= (if m =? 2 then (if doy =? 365 then 29 else 28) else 30 + (m + m / 8) mod 2).
Proof.
  intros Hd. cbv zeta. set (mp := (5 * doy + 2) / 153).
  assert (Hm : 153 * mp <= 5 * doy + 2 < 153 * mp + 153)
    by (pose proof (Z.mul_div_le (5 * doy + 2) 153); pose proof (Z.mul_succ_div_gt (5 * doy + 2) 153); subst mp; lia).
  clearbody mp. assert (Hmp : mp ∈ [0; 1; 2; 3; 4; 5; 6; 7; 8; 9; 10; 11]) by (rewrite !elem_of_cons; lia).
  assert (H365 : (if doy =? 365 then 29 else 28) >= 28 /\ (doy = 365 -> (if doy =? 365 then 29 else 28) = 29))
    by (destruct (Z.eqb_spec doy 365); lia).
  generalize dependent (if doy =? 365 then 29 else 28). intros feb [Hf1 Hf2].
  repeat (apply elem_of_cons in Hmp as [->|Hmp]; [
    match goal with |- context [(153 * ?k + 2) / 5] => compute_closed ((153 * k + 2) / 5) end;
    match goal with |- context [if ?b then ?x else ?y] => compute_closed (if b then x else y) end;
    match goal with |- context [30 + (?m + ?m / 8) mod 2] => compute_closed (30 + (m + m / 8) mod 2) end;
    match goal with |- context [if ?b then feb else ?y] => compute_closed b end;
    split_and!; try done; lia|]).
  by apply elem_of_nil in Hmp.
Qed.

Lemma civil_round_trip days :
  let c := civil_of_days days in
  1 <= month c <= 12 /\ 1 <= day c <= daysIn (month c) (year c) /\ days_of_civil c = days.
Proof.
  cbv zeta. unfold civil_of_days. set (z := days + 306). set (era := z / 146097). set (doe := z mod 146097).
  assert (Hz : z = 146097 * era + doe) by (apply Z.div_mod; lia).
  assert (Hdoe : 0 <= doe < 146097) by (apply Z.mod_pos_bound; lia).
  pose proof (year_of_era doe Hdoe) as H. cbv zeta in H.
  set (yoe := (doe - doe / 1460 + doe / 36524 - doe / 146096) / 365) in *.
  set (doy := doe - (365 * yoe + yoe / 4 - yoe / 100)) in *.
  destruct H as (Hy & Hd & Hleap). pose proof (month_of_year doy Hd) as H. cbv zeta in H.
  set (mp := (5 * doy + 2) / 153) in *. set (m := if mp <? 10 then mp + 3 else mp - 9) in *.
  destruct H as (Hmp & Hm & Hmp9 & Hm2 & Hday). cbn [month day year]. split; [done|].
  assert (Hdiv : (yoe + era * 400) / 400 = era) by (apply div_unique_range; lia).
  assert (Hmod : (yoe + era * 400) mod 400 = yoe) by (rewrite Z.mod_add by lia; apply Z.mod_small; lia).
  split.
  - split; [lia|]. etrans; [apply Hday|]. unfold daysIn. destruct (Z.eqb_spec m 2) as [E|]; [|lia].
    rewrite E. change (2 <=? 2) with true. cbn iota.
    destruct (Z.eqb_spec doy 365) as [H|]; [|destruct (isLeap _); lia].
    destruct (Hleap H) as [H4 H100]. replace (isLeap (yoe + era * 400 + 1)) with true; [lia|].
    symmetry. unfold isLeap. replace (yoe + era * 400 + 1) with (yoe + 1 + era * 100 * 4) at 1 by lia.
    rewrite Z.mod_add by lia. replace (yoe + era * 400 + 1) with (yoe + 1 + era * 4 * 100) at 1 by lia.
    rewrite Z.mod_add by lia. replace (yoe + era * 400 + 1) with (yoe + 1 + era * 400) by lia.
    rewrite Z.mod_add by lia. apply andb_true_intro. split; [apply Z.eqb_eq; Z.to_euclidean_division_equations; lia|].
    apply orb_true_intro. destruct (Z.eqb_spec ((yoe + 1) mod 100) 0) as [H0|]; [right|by left].
    apply Z.eqb_eq. rewrite H100; [reflexivity|]. clear -H0 Hy. Z.to_euclidean_division_equations. lia.
  - unfold days_of_civil. cbn [month day year]. rewrite Hmp9.
    replace (yoe + era * 400 + (if m <=? 2 then 1 else 0) - (if m <=? 2 then 1 else 0)) with (yoe + era * 400) by lia.
    rewrite Hdiv, Hmod. unfold doy in *. lia.
Qed.

(** ** Digits *)
Lemma digits_value_app l1 l2 acc x :
  digits_value acc l1 = Some x -> digits_value acc (l1 ++ l2) = digits_value x l2.
Proof.
  revert acc. induction l1 as [|a l1 IH]; intros acc; cbn; [by intros [= ->]|]. destruct (is_digit a); [apply IH|done].
Qed.
Lemma digits_value_lower ds acc x :
  digits_value acc ds = Some x -> 0 <= acc -> acc * 10 ^ Z.of_nat (length ds) <= x.
Proof.
  revert acc. induction ds as [|a ds IH]; intros acc; [cbn; intros [= ->]; lia|]. cbn [digits_value length].
  destruct (is_digit a) eqn:Ha; [|done]. intros H Hacc.
  assert (48 <= byte_code a) by (unfold is_digit in Ha; by destruct a as [[] [] [] [] [] [] [] []]).
  apply IH in H; [|lia]. rewrite Nat2Z.inj_succ, Z.pow_succ_r by lia.
  pose proof (Z.pow_pos_nonneg 10 (Z.of_nat (length ds))). nia.
Qed.

Definition all_digits (l : list ascii) : Prop := Forall (fun a => is_digit a = true) l.

(** The digits of a number that fits a width. *)
Lemma pretty_fits (z : Z) (w : nat) :
  0 <= z < 10 ^ Z.of_nat w -> (0 < w)%nat ->
  all_digits (bytes (pretty z)) /\ digits_value 0 (bytes (pretty z)) = Some z /\
  (length (bytes (pretty z)) <= w)%nat.
Proof.
  intros Hz Hw. destruct (pretty_Z_bytes z) as [[-> E]|[(ds & Hp & [Hd (a & ds' & -> & Ha) Hv] & E)|(ds & Hn & _)]]; [| |lia].
  - rewrite E. split_and!; [by repeat constructor|done|cbn; lia].
  - rewrite E. assert (Hval : digits_value 0 (a :: ds') = Some z).
    { rewrite <- (app_nil_r (a :: ds')), Hv. cbn. f_equal. lia. }
    split_and!; [done|done|]. apply Forall_cons in Hd as [Hda _]. cbn [digits_value] in Hval.
    rewrite Hda in Hval. apply digits_value_lower in Hval; unfold in_range in Ha; [|lia].
    cbn [length]. destruct (decide (w < S (length ds'))%nat) as [Hl|]; [exfalso|lia].
    assert (10 ^ Z.of_nat w <= 10 ^ Z.of_nat (length ds')) by (apply Z.pow_le_mono_r; lia). nia.
Qed.

Lemma bytes_replicate n : bytes (String.concat "" (replicate n "0")) = replicate n "0"%char.
Proof.
  induction n as [|n IH]; [done|]. destruct n as [|n]; [done|].
  change (String.concat "" (replicate (S (S n)) "0")) with ("0" +:+ String.concat "" (replicate (S n) "0")).
  rewrite bytes_app, IH. done.
Qed.

Lemma digits_value_zeros n l : digits_value 0 (replicate n "0"%char ++ l) = digits_value 0 l.
Proof. induction n as [|n IH]; [done|]. cbn. apply IH. Qed.

(** A number padded to a width has that many digits and its own value. *)
Lemma padded_fits (z : Z) (w : nat) :
  0 <= z < 10 ^ Z.of_nat w -> (0 < w)%nat ->
  all_digits (bytes (padded w z)) /\ digits_value 0 (bytes (padded w z)) = Some z /\
  length (bytes (padded w z)) = w.
Proof.
  intros Hz Hw. destruct (pretty_fits z w Hz Hw) as (Hd & Hv & Hl). unfold padded. cbv zeta.
  rewrite bytes_app, bytes_replicate, digits_value_zeros. split_and!; [|done|].
  - apply Forall_app. split; [|done]. by apply Forall_replicate.
  - rewrite length_app, length_replicate. assert (E : String.length (pretty z) = length (bytes (pretty z))); [|lia].
    symmetry. apply length_bytes.
Qed.

(** ** The round trip *)
Lemma two_bytes l : length l = 2%nat -> exists a b : ascii, l = [a; b].
Proof. destruct l as [|a [|b [|? ?]]]; try done. by exists a, b. Qed.
Lemma four_bytes l : length l = 4%nat -> exists a b c d : ascii, l = [a; b; c; d].
Proof. destruct l as [|a [|b [|c [|d [|? ?]]]]]; try done. by exists a, b, c, d. Qed.

Lemma parse_uint_value l lo hi x : digits_value 0 l = Some x -> lo <= x <= hi -> parse_uint l lo hi = Some x.
Proof. intros H Hx. unfold parse_uint. rewrite H. by rewrite (proj2 (Z.leb_le lo x)), (proj2 (Z.leb_le x hi)) by lia. Qed.

(** Two digits of a field, and what they parse to. *)
Lemma padded_2 z lo hi :
  lo <= z <= hi -> 0 <= lo -> hi < 100 -> exists a b, bytes (padded 2 z) = [a; b] /\ parse_uint [a; b] lo hi = Some z.
Proof.
  intros Hz Hlo Hhi. destruct (padded_fits z 2) as (_ & Hv & Hl); [change (10 ^ Z.of_nat 2) with 100; lia|lia|].
  destruct (two_bytes _ Hl) as (a & b & E). exists a, b. split; [done|]. rewrite E in Hv. by apply parse_uint_value.
Qed.
Lemma padded_4 z :
  0 <= z <= 9999 -> exists a b c d, bytes (padded 4 z) = [a; b; c; d] /\ parse_uint [a; b; c; d] 0 9999 = Some z.
Proof.
  intros Hz. destruct (padded_fits z 4) as (_ & Hv & Hl); [change (10 ^ Z.of_nat 4) with 10000; lia|lia|].
  destruct (four_bytes _ Hl) as (a & b & c & d & E). exists a, b, c, d. split; [done|]. rewrite E in Hv.
  by apply parse_uint_value.
Qed.

Lemma digits_value_trailing k acc : digits_value acc (replicate k "0"%char) = Some (acc * 10 ^ Z.of_nat k).
Proof.
  revert acc. induction k as [|k IH]; intros acc; cbn [replicate digits_value]; [f_equal; cbn; lia|].
  change (is_digit "0"%char) with true. cbn iota. rewrite IH. change (byte_code "0"%char) with 48.
  rewrite Nat2Z.inj_succ, Z.pow_succ_r by lia. f_equal. lia.
Qed.

Lemma drop_while_zeros l : exists k, l = replicate k "0"%char ++ drop_while (Ascii.eqb "0"%char) l.
Proof.
  induction l as [|a l [k IH]]; [by exists O|]. cbn [drop_while].
  destruct (Ascii.eqb_spec "0"%char a) as [<-|]; [|by exists O]. exists (S k). cbn. by f_equal.
Qed.

Lemma span_digits_end ds rest a :
  all_digits ds -> is_digit a = false -> span is_digit (ds ++ a :: rest) = (ds, a :: rest).
Proof. intros H Ha. induction H as [|d ds Hd H IH]; cbn [app span]; [by rewrite Ha|]. by rewrite Hd, IH. Qed.

Lemma fraction_round_trip ns rest a :
  0 < ns < 1000000000 -> is_digit a = false ->
  parse_fraction ("."%char :: bytes (strip_trailing_zeros (padded 9 ns)) ++ a :: rest) = (ns, a :: rest).
Proof.
  intros Hns Ha. destruct (padded_fits ns 9) as (Hd & Hv & Hl); [change (10 ^ Z.of_nat 9) with 1000000000; lia|lia|].
  unfold strip_trailing_zeros. rewrite bytes_of_bytes. set (l := bytes (padded 9 ns)) in *.
  destruct (drop_while_zeros (rev l)) as [k Ek]. set (q := drop_while (Ascii.eqb "0"%char) (rev l)) in *.
  clearbody q. set (p := rev q).
  assert (El : l = p ++ replicate k "0"%char).
  { rewrite <- (rev_involutive l), Ek, rev_app_distr. f_equal. clear.
    induction k as [|k IH]; [done|]. cbn [replicate rev]. by rewrite IH, <- replicate_S_end. }
  clearbody p. rewrite El in Hd, Hv, Hl. apply Forall_app in Hd as [Hp _].
  assert (Hpv : exists v, digits_value 0 p = Some v).
  { clear -Hp. generalize 0. induction Hp as [|d p Hd Hp IH]; intros acc; cbn; [by eexists|]. rewrite Hd. apply IH. }
  destruct Hpv as [v Hpv]. rewrite (digits_value_app _ _ _ _ Hpv), digits_value_trailing in Hv. injection Hv as Hv.
  destruct p as [|d p]; [cbn in Hpv; injection Hpv as <-; lia|].
  pose proof Hp as Hp'. apply Forall_cons in Hp' as [Hd1 _]. unfold parse_fraction. cbn [app].
  change (byte_code "."%char =? 46) with true. rewrite Hd1. cbn [andb].
  change (d :: p ++ a :: rest) with ((d :: p) ++ a :: rest). rewrite span_digits_end by done.
  f_equal. unfold nanoseconds. rewrite length_app, length_replicate in Hl.
  rewrite take_ge by lia. rewrite Hpv. cbn [default]. rewrite <- Hv. f_equal. f_equal. lia.
Qed.

(** A time [MarshalJSON] accepts. *)
Definition year_ok (t : time) : Prop := 0 <= year (civil_of_days (t / ns_per_day)) <= 9999.
#[export] Instance year_ok_dec t : Decision (year_ok t).
Proof. unfold year_ok. apply _. Defined.

(** Days, seconds of the day and nanoseconds. *)
Lemma split_time t :
  let days := t / ns_per_day in let s := (t mod ns_per_day) / Second in let ns := t mod Second in
  0 <= s < 86400 /\ 0 <= ns < 1000000000 /\ t = (days * 86400 + s) * Second + ns.
Proof.
  cbv zeta. pose proof (Z.div_mod t ns_per_day ltac:(done)) as H1.
  pose proof (Z.mod_pos_bound t ns_per_day ltac:(done)) as H2.
  pose proof (Z.div_mod (t mod ns_per_day) Second ltac:(done)) as H3.
  pose proof (Z.mod_pos_bound t Second ltac:(done)) as H4.
  rewrite (Znumtheory.Zmod_div_mod Second ns_per_day t) in H4 |- * by (done || by exists 86400).
  set (a := t mod ns_per_day) in *. set (b := a / Second) in *. set (r := a mod Second) in *.
  unfold ns_per_day in *. change Second with 1000000000 in *. lia.
Qed.

Lemma parse_format t : year_ok t -> parse_time (FormatRFC3339Nano t) = Some t.
Proof.
  unfold year_ok. intros Hy. set (days := t / ns_per_day) in *. set (s := (t mod ns_per_day) / Second). set (ns := t mod Second).
  pose proof (civil_round_trip days) as (Hmo & Hda & Hdays). fold days in Hy.
  pose proof (split_time t) as (Hs & Hns & Et). cbv zeta in Hs, Hns, Et. fold days s ns in Hs, Hns, Et.
  assert (Hin : daysIn (month (civil_of_days days)) (year (civil_of_days days)) <= 31).
  { unfold daysIn. destruct (_ =? 2); [destruct (isLeap _); lia|]. Z.to_euclidean_division_equations. lia. }
  destruct (civil_of_days days) as [y mo d] eqn:Ec. cbn [year month day] in *.
  destruct (padded_4 y Hy) as (y1 & y2 & y3 & y4 & Ey & Py).
  destruct (padded_2 mo 1 12) as (o1 & o2 & Eo & Po); [lia..|].
  destruct (padded_2 d 1 (daysIn mo y)) as (d1 & d2 & Ed & Pd); [lia..|].
  assert (Hh : 0 <= s / 3600 <= 23) by (Z.to_euclidean_division_equations; lia).
  assert (Hn : 0 <= s / 60 mod 60 <= 59) by (Z.to_euclidean_division_equations; lia).
  assert (Hsec : 0 <= s mod 60 <= 59) by (Z.to_euclidean_division_equations; lia).
  destruct (padded_2 (s / 3600) 0 23) as (h1 & h2 & Eh & Ph); [lia..|].
  destruct (padded_2 (s / 60 mod 60) 0 59) as (n1 & n2 & En & Pn); [lia..|].
  destruct (padded_2 (s mod 60) 0 59) as (s1 & s2 & Es & Ps); [lia..|].
  assert (Hf : bytes (FormatRFC3339Nano t) = y1 :: y2 :: y3 :: y4 :: "-"%char :: o1 :: o2 :: "-"%char :: d1 :: d2
      :: "T"%char :: h1 :: h2 :: ":"%char :: n1 :: n2 :: ":"%char :: s1 :: s2
      :: (if ns =? 0 then ["Z"%char] else "."%char :: bytes (strip_trailing_zeros (padded 9 ns)) ++ ["Z"%char])).
  { unfold FormatRFC3339Nano, FormatRFC3339, format_seconds. fold ns days s. rewrite Ec. cbn [year month day].
    destruct (ns =? 0); rewrite !bytes_app, Ey, Eo, Ed, Eh, En, Es; reflexivity. }
  unfold parse_time. rewrite Hf, Py, Po, Ph, Pn, Ps, Pd. cbn [andb].
  assert (Hfrac : parse_fraction (if ns =? 0 then ["Z"%char] else
    "."%char :: bytes (strip_trailing_zeros (padded 9 ns)) ++ ["Z"%char]) = (ns, ["Z"%char])).
  { destruct (Z.eqb_spec ns 0) as [->|]; [done|]. apply fraction_round_trip; [lia|done]. }
  cbv zeta. rewrite Hfrac. cbn [parse_zone]. change (byte_code "Z"%char =? 90) with true. cbn iota.
  f_equal. rewrite Hdays, Et at 1. f_equal. f_equal. clear -Hs. Z.to_euclidean_division_equations. lia.
Qed.
