(* ===== verification/StateJson.v ===== *)
(** * The persisted state as a JSON document: what encoding/json writes for model.State and how
    it decodes one, with the struct tags of internal/model/model.go. *)
From S2P Require Import Prelude GoStrings GoTime Model Effects Report Json JsonCodec JsonFacts StateFile TimeText.

(** ** Encoding *)
Definition notification_json (n : Notification.t) : json :=
  JObj ([("id", JStr n.(Notification.ID))] ++ omit_string "event" n.(Notification.Event) ++
    [("zone", JStr n.(Notification.Zone)); ("kind", JStr (Kind_string n.(Notification.Kind)));
     ("completedAt", jtime n.(Notification.CompletedAt))] ++
    omit_int "oldKeyId" n.(Notification.OldKeyID) ++ omit_int "newKeyId" n.(Notification.NewKeyID) ++
    omit_int "newZskId" n.(Notification.NewZSKID) ++
    omit_string "registrarStid" n.(Notification.RegistrarSTID) ++
    omit_int "attempts" n.(Notification.Attempts) ++
    [("nextAttemptAt", jtime n.(Notification.NextAttemptAt))] ++
    omit_string "lastError" n.(Notification.LastError) ++
    [("deliveredAt", jtime n.(Notification.DeliveredAt))]).

(** A map that is not nil, its keys sorted. *)
Definition jmap {T} (f : T -> json) (m : gmap string T) : json :=
  JObj (map (fun kv => (kv.1, f kv.2)) (SortBy fst (map_to_list m))).

Definition state_json (s : State.t) : json :=
  JObj [("version", jint s.(State.Version)); ("enrollmentArmedAt", jtime s.(State.EnrollmentArmedAt));
        ("workflows", jmap workflow_json s.(State.Workflows));
        ("idempotency", jmap JStr s.(State.Idempotency));
        ("notifications", jmap notification_json s.(State.Notifications))].

(** ** Decoding *)
Definition workflow_fields : list (field Workflow.t) :=
  ["zone" ~> Workflow.Zone by into_string; "zoneId" ~> Workflow.ZoneID by into_string;
   "kind" ~> Workflow.Kind by into_kind; "phase" ~> Workflow.Phase by into_phase;
   "oldKeyId" ~> Workflow.OldKeyID by into_int; "newKeyId" ~> Workflow.NewKeyID by into_int;
   "newZskId" ~> Workflow.NewZSKID by into_int;
   "newKeyCreateAttemptedAt" ~> Workflow.NewKeyCreateAttemptedAt by into_time;
   "newZskCreateAttemptedAt" ~> Workflow.NewZSKCreateAttemptedAt by into_time;
   "phaseStartedAt" ~> Workflow.PhaseStartedAt by into_time;
   "nextActionAt" ~> Workflow.NextActionAt by into_time;
   "lastCompletedAt" ~> Workflow.LastCompletedAt by into_time;
   "lastError" ~> Workflow.LastError by into_string; "attempts" ~> Workflow.Attempts by into_int;
   "manual" ~> Workflow.Manual by into_bool;
   "idempotencyKey" ~> Workflow.IdempotencyKey by into_string;
   "dnskeyTtlSeconds" ~> Workflow.DNSKEYTTL by into_int; "zoneTtlSeconds" ~> Workflow.ZoneTTL by into_int;
   "parentDsTtlSeconds" ~> Workflow.ParentDSTTL by into_int; "evidenceAt" ~> Workflow.EvidenceAt by into_time;
   "registrarCtid" ~> Workflow.RegistrarCTID by into_string;
   "registrarStid" ~> Workflow.RegistrarSTID by into_string;
   "registrarJobId" ~> Workflow.RegistrarJobID by into_int;
   "registrarJobStatus" ~> Workflow.RegistrarJobStatus by into_string;
   "registrarAttemptedAt" ~> Workflow.RegistrarAttemptedAt by into_time;
   "registrarPayloadHash" ~> Workflow.RegistrarPayloadHash by into_string;
   "parentMode" ~> Workflow.ParentMode by into_string;
   "splitSignerTransitionAt" ~> Workflow.SplitSignerTransitionAt by into_time;
   "discoveredAt" ~> Workflow.DiscoveredAt by into_time;
   "keysetFingerprint" ~> Workflow.KeysetFingerprint by into_string;
   "enrollmentDisposition" ~> Workflow.EnrollmentDisposition by into_string].

Definition notification_fields : list (field Notification.t) :=
  ["id" ~> Notification.ID by into_string; "event" ~> Notification.Event by into_string;
   "zone" ~> Notification.Zone by into_string; "kind" ~> Notification.Kind by into_kind;
   "completedAt" ~> Notification.CompletedAt by into_time;
   "oldKeyId" ~> Notification.OldKeyID by into_int; "newKeyId" ~> Notification.NewKeyID by into_int;
   "newZskId" ~> Notification.NewZSKID by into_int;
   "registrarStid" ~> Notification.RegistrarSTID by into_string;
   "attempts" ~> Notification.Attempts by into_int;
   "nextAttemptAt" ~> Notification.NextAttemptAt by into_time;
   "lastError" ~> Notification.LastError by into_string;
   "deliveredAt" ~> Notification.DeliveredAt by into_time].
Definition zero_Notification : Notification.t :=
  Notification.mk "" "" "" (KindOther "") time_zero 0 0 0 "" 0 time_zero "" time_zero.

(** A map that may be nil: every member decodes into a zero value and replaces what the map
    holds under its name. *)
Fixpoint into_map_members {T} (zero : T) (d : Decoder T) (ms : list (string * json)) (m : gmap string T)
  : option (gmap string T) :=
  match ms with
  | [] => Some m
  | (k, v) :: ms' =>
      match d v zero with
      | Some x => into_map_members zero d ms' (<[k := x]> m)
      | None => None
      end
  end.
Definition into_map {T} (zero : T) (d : Decoder T) : Decoder (option (gmap string T)) := fun v m =>
  match v with
  | JNull => Some None
  | JObj ms => option_map Some (into_map_members zero d ms (default ∅ m))
  | _ => None
  end.

Definition state_fields : list (field Decoded.t) :=
  [mk_field "version" (fun v t => option_map (fun x =>
     Decoded.mk x (Decoded.EnrollmentArmedAt t) (Decoded.Workflows t) (Decoded.Idempotency t)
       (Decoded.Notifications t)) (into_int v (Decoded.Version t)));
   mk_field "enrollmentArmedAt" (fun v t => option_map (fun x =>
     Decoded.mk (Decoded.Version t) x (Decoded.Workflows t) (Decoded.Idempotency t)
       (Decoded.Notifications t)) (into_time v (Decoded.EnrollmentArmedAt t)));
   mk_field "workflows" (fun v t => option_map (fun x =>
     Decoded.mk (Decoded.Version t) (Decoded.EnrollmentArmedAt t) x (Decoded.Idempotency t)
       (Decoded.Notifications t))
     (into_map zero_Workflow (into_struct false workflow_fields) v (Decoded.Workflows t)));
   mk_field "idempotency" (fun v t => option_map (fun x =>
     Decoded.mk (Decoded.Version t) (Decoded.EnrollmentArmedAt t) (Decoded.Workflows t) x
       (Decoded.Notifications t)) (into_map "" into_string v (Decoded.Idempotency t)));
   mk_field "notifications" (fun v t => option_map (fun x =>
     Decoded.mk (Decoded.Version t) (Decoded.EnrollmentArmedAt t) (Decoded.Workflows t)
       (Decoded.Idempotency t) x)
     (into_map zero_Notification (into_struct false notification_fields) v (Decoded.Notifications t)))].

(** ** json.MarshalIndent and json.Unmarshal on the state *)
Definition workflow_times (w : Workflow.t) : list time :=
  [w.(Workflow.NewKeyCreateAttemptedAt); w.(Workflow.NewZSKCreateAttemptedAt); w.(Workflow.PhaseStartedAt);
   w.(Workflow.NextActionAt); w.(Workflow.LastCompletedAt); w.(Workflow.EvidenceAt);
   w.(Workflow.RegistrarAttemptedAt); w.(Workflow.SplitSignerTransitionAt); w.(Workflow.DiscoveredAt)].
Definition notification_times (n : Notification.t) : list time :=
  [n.(Notification.CompletedAt); n.(Notification.NextAttemptAt); n.(Notification.DeliveredAt)].
Definition state_times (s : State.t) : list time :=
  s.(State.EnrollmentArmedAt) ::
  List.concat (map (fun kv => workflow_times kv.2) (map_to_list s.(State.Workflows))) ++
  List.concat (map (fun kv => notification_times kv.2) (map_to_list s.(State.Notifications))).

(** ** States that survive their encoding: texts in ASCII, numbers in the range of their Go
    type, and every kind and phase written with its named constant where it has one. *)
Definition storable_workflow (w : Workflow.t) : Prop :=
  Forall ascii_string
    [w.(Workflow.Zone); w.(Workflow.ZoneID); Kind_string w.(Workflow.Kind); Phase_string w.(Workflow.Phase);
     w.(Workflow.LastError); w.(Workflow.IdempotencyKey); w.(Workflow.RegistrarCTID);
     w.(Workflow.RegistrarSTID); w.(Workflow.RegistrarJobStatus); w.(Workflow.RegistrarPayloadHash);
     w.(Workflow.ParentMode); w.(Workflow.KeysetFingerprint); w.(Workflow.EnrollmentDisposition)] /\
  Forall in_int64
    [w.(Workflow.OldKeyID); w.(Workflow.NewKeyID); w.(Workflow.NewZSKID); w.(Workflow.Attempts);
     w.(Workflow.DNSKEYTTL); w.(Workflow.ZoneTTL); w.(Workflow.ParentDSTTL); w.(Workflow.RegistrarJobID)] /\
  Kind_of_string (Kind_string w.(Workflow.Kind)) = w.(Workflow.Kind) /\
  Phase_of_string (Phase_string w.(Workflow.Phase)) = w.(Workflow.Phase).
Definition storable_notification (n : Notification.t) : Prop :=
  Forall ascii_string
    [n.(Notification.ID); n.(Notification.Event); n.(Notification.Zone); Kind_string n.(Notification.Kind);
     n.(Notification.RegistrarSTID); n.(Notification.LastError)] /\
  Forall in_int64
    [n.(Notification.OldKeyID); n.(Notification.NewKeyID); n.(Notification.NewZSKID);
     n.(Notification.Attempts)] /\
  Kind_of_string (Kind_string n.(Notification.Kind)) = n.(Notification.Kind).
Definition storable (s : State.t) : Prop :=
  in_int64 s.(State.Version) /\
  map_Forall (fun k w => ascii_string k /\ storable_workflow w) s.(State.Workflows) /\
  map_Forall (fun k v => ascii_string k /\ ascii_string v) s.(State.Idempotency) /\
  map_Forall (fun k n => ascii_string k /\ storable_notification n) s.(State.Notifications).
#[export] Instance storable_dec s : Decision (storable s).
Proof. unfold storable, storable_workflow, storable_notification, in_int64. apply _. Defined.

Section Codec.
Context {JE : JsonErrors}.

(** Only a time beyond the year 9999 cannot be written. *)
Definition marshal_state (s : State.t) : result string :=
  if decide (Forall year_ok (state_times s))
  then Ok (of_bytes (indent_bytes 0 (state_json s)))
  else Err (errors_New "json: error calling MarshalJSON for type time.Time: Time.MarshalJSON: year outside of range [0,9999]").
Definition unmarshal_state (b : string) (init : Decoded.t) : result Decoded.t :=
  json_Unmarshal_into (into_struct false state_fields) b init.

Definition state_codec : StateFile.Json := {|
  json_MarshalIndent := marshal_state;
  json_Unmarshal := unmarshal_state;
|}.
End Codec.
