(* ===== verification/Http.v ===== *)
(** * The parts of net/http and net/url the program's servers and clients use: requests,
    responses, header lookup, path escaping and status texts; and for the registrar and the
    PowerDNS client sending a request, the clock and timers, basic authentication. *)
From S2P Require Import Prelude GoStrings GoTime.

Module Request.
(** [Body] is [None] without a body. *)
Record t := mk { Method : string; URL : string; Header : list (string * string); Body : option string }.
End Request.

Module Response.
Record t := mk { StatusCode : Z; Header : list (string * string); Body : string }.
End Response.

(** [Header.Get]: the first value under the name, whose case does not matter. *)
Definition header_get (h : list (string * string)) (name : string) : string :=
  match List.find (fun kv => EqualFold kv.1 name) h with
  | Some kv => kv.2
  | None => ""
  end.

(** [Header.Set] on a name not yet there. *)
Definition header_set (name value : string) (h : list (string * string)) : list (string * string) :=
  h ++ [(name, value)].

(** [url.PathEscape]: letters, digits and a few signs stay, every other byte becomes [%XX]. *)
Definition path_safe (a : ascii) : bool :=
  is_upper a || is_lower a || is_digit a || existsb (Ascii.eqb a) (bytes "-_.~$&+:=@").
Definition upper_hex (z : Z) : ascii :=
  if z <? 10 then byte_of_code (48 + z) else byte_of_code (55 + z).
Definition path_escape_byte (a : ascii) : list ascii :=
  if path_safe a then [a]
  else ["%"%char; upper_hex (byte_code a / 16); upper_hex (byte_code a mod 16)].
Definition PathEscape (s : string) : string :=
  of_bytes (List.concat (map path_escape_byte (bytes s))).

(** [strings.TrimRight(s, "/")] *)
Definition trim_right_slashes (s : string) : string :=
  of_bytes (rev (drop_while (Ascii.eqb "/"%char) (rev (bytes s)))).

Definition StatusOK : Z := 200.
Definition StatusAccepted : Z := 202.
Definition StatusNoContent : Z := 204.
Definition StatusBadRequest : Z := 400.
Definition StatusNotFound : Z := 404.
Definition StatusMethodNotAllowed : Z := 405.
Definition StatusConflict : Z := 409.
Definition StatusBadGateway : Z := 502.
Definition StatusServiceUnavailable : Z := 503.

(** [http.StatusText]. *)
Definition status_texts : list (Z * string) :=
  [(100, "Continue"); (101, "Switching Protocols"); (102, "Processing"); (103, "Early Hints");
   (200, "OK"); (201, "Created"); (202, "Accepted"); (203, "Non-Authoritative Information");
   (204, "No Content"); (205, "Reset Content"); (206, "Partial Content"); (207, "Multi-Status");
   (208, "Already Reported"); (226, "IM Used"); (300, "Multiple Choices");
   (301, "Moved Permanently"); (302, "Found"); (303, "See Other"); (304, "Not Modified");
   (305, "Use Proxy"); (307, "Temporary Redirect"); (308, "Permanent Redirect");
   (400, "Bad Request"); (401, "Unauthorized"); (402, "Payment Required"); (403, "Forbidden");
   (404, "Not Found"); (405, "Method Not Allowed"); (406, "Not Acceptable");
   (407, "Proxy Authentication Required"); (408, "Request Timeout"); (409, "Conflict");
   (410, "Gone"); (411, "Length Required"); (412, "Precondition Failed");
   (413, "Request Entity Too Large"); (414, "Request URI Too Long");
   (415, "Unsupported Media Type"); (416, "Requested Range Not Satisfiable");
   (417, "Expectation Failed"); (418, "I'm a teapot"); (421, "Misdirected Request");
   (422, "Unprocessable Entity"); (423, "Locked"); (424, "Failed Dependency");
   (425, "Too Early"); (426, "Upgrade Required"); (428, "Precondition Required");
   (429, "Too Many Requests"); (431, "Request Header Fields Too Large");
   (451, "Unavailable For Legal Reasons"); (500, "Internal Server Error");
   (501, "Not Implemented"); (502, "Bad Gateway"); (503, "Service Unavailable");
   (504, "Gateway Timeout"); (505, "HTTP Version Not Supported");
   (506, "Variant Also Negotiates"); (507, "Insufficient Storage"); (508, "Loop Detected");
   (510, "Not Extended"); (511, "Network Authentication Required")].
Definition StatusText (code : Z) : string :=
  match List.find (fun ct => ct.1 =? code) status_texts with
  | Some ct => ct.2
  | None => ""
  end.

Definition successful (code : Z) : bool := (200 <=? code) && (code <? 300).

Lemma header_get_set h name value :
  Forall (fun kv => EqualFold kv.1 name = false) h ->
  header_get (header_set name value h) name = value.
Proof.
  unfold header_get, header_set. induction h as [|kv h IH]; cbn.
  - intros _. unfold EqualFold. by rewrite String.eqb_refl.
  - rewrite Forall_cons. intros [-> H]. by apply IH.
Qed.

(** The world of an HTTP client.  [web_Do] answers with the whole response or with an error;
    [web_Timer d] waits for a timer of [d] or until the context is cancelled, with its error;
    [web_url_error] is what [http.NewRequest] says of a URL that does not parse. *)
Class HttpStack := {
  Web : Type;
  web_Do : Request.t -> Web -> result Response.t * Web;
  web_Now : Web -> time * Web;
  web_Timer : duration -> Web -> result unit * Web;
  web_url_error : string -> option error;
}.

(** Time passes: the clock never goes back, and a timer that fires has waited. *)
Class ClockOk `{!HttpStack} := {
  web_clock : Web -> time;
  clock_now w : web_clock w <= (web_Now w).1 <= web_clock (web_Now w).2;
  clock_do r w : web_clock w <= web_clock (web_Do r w).2;
  clock_timer d w : web_clock w <= web_clock (web_Timer d w).2;
  clock_waits d w : (web_Timer d w).1 = Ok tt -> web_clock w + d <= web_clock (web_Timer d w).2;
}.

(** ** base64.StdEncoding *)
Definition base64_digit (z : Z) : ascii :=
  if z <? 26 then byte_of_code (65 + z)
  else if z <? 52 then byte_of_code (71 + z)
  else if z <? 62 then byte_of_code (z - 4)
  else if z =? 62 then "+"%char else "/"%char.
Fixpoint base64_bytes (fuel : nat) (l : list Z) : list ascii :=
  match fuel, l with
  | S fuel', a :: b :: d :: l' =>
      base64_digit (a / 4) :: base64_digit (16 * (a mod 4) + b / 16)
      :: base64_digit (4 * (b mod 16) + d / 64) :: base64_digit (d mod 64) :: base64_bytes fuel' l'
  | _, [a; b] =>
      [base64_digit (a / 4); base64_digit (16 * (a mod 4) + b / 16); base64_digit (4 * (b mod 16));
       "="%char]
  | _, [a] => [base64_digit (a / 4); base64_digit (16 * (a mod 4)); "="%char; "="%char]
  | _, _ => []
  end.
Definition base64 (s : string) : string :=
  of_bytes (base64_bytes (String.length s) (map byte_code (bytes s))).
(** [Request.SetBasicAuth]. *)
Definition basic_auth (username password : string) : string :=
  "Basic " +:+ base64 (username +:+ ":" +:+ password).

Example base64_examples :
  (base64 "", base64 "f", base64 "fo", base64 "foo", base64 "foobar")
  = ("", "Zg==", "Zm8=", "Zm9v", "Zm9vYmFy").
Proof. reflexivity. Qed.
