(* ===== verification/Control.v ===== *)
(** * internal/control/server.go: the control API, from the bytes of a request to the
    controller's operation and the bytes of the response; and the Unix socket it listens on. *)
From S2P Require Import Prelude GoStrings GoTime GoNet Model Config Dns Keys Effects Core.
From S2P Require Import Rollover Reconcile Operator Report Json JsonCodec Http.

(** ** Request payloads *)
Module RotationRequest.
Record t := mk { Kind : Model.Kind; Zones : list string; Confirm : bool }.
#[export] Instance eta_RotationRequest : Eta t := fun r => mk (r.(Kind)) (r.(Zones)) (r.(Confirm)).
#[export] Instance set_Kind : Field Kind.
Proof. derive_field eta_RotationRequest. Defined.
#[export] Instance set_Zones : Field Zones.
Proof. derive_field eta_RotationRequest. Defined.
#[export] Instance set_Confirm : Field Confirm.
Proof. derive_field eta_RotationRequest. Defined.
End RotationRequest.
Export (hints) RotationRequest.

Module ResumeRequest.
Record t := mk { Kind : Model.Kind; Zones : list string; Phase : Model.Phase; Confirm : bool }.
#[export] Instance eta_ResumeRequest : Eta t :=
  fun r => mk (r.(Kind)) (r.(Zones)) (r.(Phase)) (r.(Confirm)).
#[export] Instance set_Kind : Field Kind.
Proof. derive_field eta_ResumeRequest. Defined.
#[export] Instance set_Zones : Field Zones.
Proof. derive_field eta_ResumeRequest. Defined.
#[export] Instance set_Phase : Field Phase.
Proof. derive_field eta_ResumeRequest. Defined.
#[export] Instance set_Confirm : Field Confirm.
Proof. derive_field eta_ResumeRequest. Defined.
End ResumeRequest.
Export (hints) ResumeRequest.

Module SplitSignerTransitionRequest.
Record t := mk { Zone : string; Confirm : bool }.
#[export] Instance eta_SplitSignerTransitionRequest : Eta t := fun r => mk (r.(Zone)) (r.(Confirm)).
#[export] Instance set_Zone : Field Zone.
Proof. derive_field eta_SplitSignerTransitionRequest. Defined.
#[export] Instance set_Confirm : Field Confirm.
Proof. derive_field eta_SplitSignerTransitionRequest. Defined.
End SplitSignerTransitionRequest.
Export (hints) SplitSignerTransitionRequest.

Module ArmEnrollmentRequest.
Record t := mk { Confirm : bool }.
#[export] Instance eta_ArmEnrollmentRequest : Eta t := fun r => mk (r.(Confirm)).
#[export] Instance set_Confirm : Field Confirm.
Proof. derive_field eta_ArmEnrollmentRequest. Defined.
End ArmEnrollmentRequest.
Export (hints) ArmEnrollmentRequest.

Definition rotation_fields : list (field RotationRequest.t) :=
  ["kind" ~> RotationRequest.Kind by into_kind;
   "zones" ~> RotationRequest.Zones by (into_slice "" into_string);
   "confirm" ~> RotationRequest.Confirm by into_bool].
Definition resume_fields : list (field ResumeRequest.t) :=
  ["kind" ~> ResumeRequest.Kind by into_kind;
   "zones" ~> ResumeRequest.Zones by (into_slice "" into_string);
   "phase" ~> ResumeRequest.Phase by into_phase;
   "confirm" ~> ResumeRequest.Confirm by into_bool].
Definition signer_fields : list (field SplitSignerTransitionRequest.t) :=
  ["zone" ~> SplitSignerTransitionRequest.Zone by into_string;
   "confirm" ~> SplitSignerTransitionRequest.Confirm by into_bool].
Definition arm_fields : list (field ArmEnrollmentRequest.t) :=
  ["confirm" ~> ArmEnrollmentRequest.Confirm by into_bool].

(** ** Responses *)
Definition writeJSON (status : Z) (v : json) : Response.t :=
  Response.mk status [("Content-Type", "application/json")] (json_Encode v).
Definition writeError (status : Z) (err : error) : Response.t :=
  writeJSON status (JObj [("error", JStr (Error err))]).
Definition status_message (s : string) : json := JObj [("status", JStr s)].

(** [http.Error], which the mux answers with when no pattern matches. *)
Definition http_Error (header : list (string * string)) (status : Z) (text : string) : Response.t :=
  Response.mk status
    (header ++ [("Content-Type", "text/plain; charset=utf-8"); ("X-Content-Type-Options", "nosniff")])
    (text +:+ of_bytes [byte_of_code 10]).

Section Server.
Context {SV : Services} {DL : DnsLib} {JE : JsonErrors} (c : Config.t).

(** A strict decode of at most [limit] bytes of the body. *)
Definition decode_body {T} (fields : list (field T)) (zero : T) (limit : Z) (r : Request.t)
  : result T :=
  json_Decode_into (into_struct true fields) (limited limit (default "" (Request.Body r))) zero.

Definition idempotency_key (r : Request.t) : string :=
  TrimSpace (header_get (Request.Header r) "Idempotency-Key").

Definition confirm_error : error := errors_New "confirm must be true".

(** Run a controller operation: its error with status [bad], or [good]. *)
Definition respond {A} (m : M A) (bad : Z) (good : A -> Response.t) : M Response.t :=
  let* r := try m in
  ret (match r with
       | Err e => writeError bad e
       | Ok a => good a
       end).

Definition healthz (r : Request.t) : M Response.t := ret (writeJSON StatusOK (status_message "ok")).
Definition ready (r : Request.t) : M Response.t :=
  respond (Status_ c) StatusServiceUnavailable (fun st => writeJSON StatusOK (status_json st)).
Definition status (r : Request.t) : M Response.t :=
  respond (Status_ c) StatusBadGateway (fun st => writeJSON StatusOK (status_json st)).
Definition zones (r : Request.t) : M Response.t :=
  respond (Zones c) StatusBadGateway (fun z => writeJSON StatusOK (jslice zone_status_json z)).
Definition audit (r : Request.t) : M Response.t :=
  respond (Audit c) StatusBadGateway (fun a => writeJSON StatusOK (jslice audit_json a)).

Definition rotation_kind (k : Kind) : bool :=
  (k == KindZSK) || (k == KindKSK) || (k == KindSplit).

Definition decode (r : Request.t) : result RotationRequest.t :=
  let? req := decode_body rotation_fields (RotationRequest.mk (KindOther "") [] false) (64 * 1024) r in
  if negb (rotation_kind (RotationRequest.Kind req)) then
    Err (errors_New "kind must be zsk, ksk, or split")
  else if Nat.eqb (length (RotationRequest.Zones req)) 0 then
    Err (errors_New "at least one zone is required")
  else if Nat.ltb 100 (length (RotationRequest.Zones req)) then
    Err (errors_New "at most 100 zones are accepted")
  else Ok req.

Definition plan (r : Request.t) : M Response.t :=
  match decode r with
  | Err e => ret (writeError StatusBadRequest e)
  | Ok req =>
      ret (writeJSON StatusOK (plan_json (Plan_ (RotationRequest.Kind req) (RotationRequest.Zones req))))
  end.

Definition trigger (r : Request.t) : M Response.t :=
  match decode r with
  | Err e => ret (writeError StatusBadRequest e)
  | Ok req =>
      if negb (RotationRequest.Confirm req) then ret (writeError StatusBadRequest confirm_error) else
      respond (Trigger c (RotationRequest.Kind req) (RotationRequest.Zones req) (idempotency_key r))
        StatusConflict (fun _ => writeJSON StatusAccepted (status_message "accepted"))
  end.

Definition resume (r : Request.t) : M Response.t :=
  match decode_body resume_fields (ResumeRequest.mk (KindOther "") [] (PhaseOther "") false)
          (64 * 1024) r with
  | Err e => ret (writeError StatusBadRequest e)
  | Ok req =>
      let n := length (ResumeRequest.Zones req) in
      if (ResumeRequest.Kind req != KindSplit) || (ResumeRequest.Phase req != PhaseWaitPublish) then
        ret (writeError StatusBadRequest
               (errors_New "only split workflows may be resumed to wait_publish"))
      else if Nat.eqb n 0 || Nat.ltb 100 n then
        ret (writeError StatusBadRequest (errors_New "between one and 100 zones are required"))
      else if negb (ResumeRequest.Confirm req) then ret (writeError StatusBadRequest confirm_error)
      else
      respond (Resume c (ResumeRequest.Kind req) (ResumeRequest.Zones req) (ResumeRequest.Phase req)
                 (idempotency_key r))
        StatusConflict (fun _ => writeJSON StatusAccepted (status_message "accepted"))
  end.

Definition reconcileSplitSigner (r : Request.t) : M Response.t :=
  match decode_body signer_fields (SplitSignerTransitionRequest.mk "" false) (16 * 1024) r with
  | Err e => ret (writeError StatusBadRequest e)
  | Ok req =>
      if TrimSpace (SplitSignerTransitionRequest.Zone req) == "" then
        ret (writeError StatusBadRequest (errors_New "one zone is required"))
      else if negb (SplitSignerTransitionRequest.Confirm req) then
        ret (writeError StatusBadRequest confirm_error)
      else
      respond (ReconcileSplitSignerTransition c (SplitSignerTransitionRequest.Zone req)
                 (idempotency_key r))
        StatusConflict (fun _ => writeJSON StatusAccepted (status_message "attested"))
  end.

Definition armEnrollment (r : Request.t) : M Response.t :=
  match decode_body arm_fields (ArmEnrollmentRequest.mk false) (16 * 1024) r with
  | Err e => ret (writeError StatusBadRequest e)
  | Ok req =>
      if negb (ArmEnrollmentRequest.Confirm req) then ret (writeError StatusBadRequest confirm_error)
      else
      respond (ArmEnrollment c (idempotency_key r))
        StatusConflict (fun _ => writeJSON StatusAccepted (status_message "armed"))
  end.

(** ** Dispatch *)
(** The patterns registered in [New], in its order. *)
Definition routes : list (string * string * (Request.t -> M Response.t)) :=
  [("GET", "/healthz", healthz); ("GET", "/readyz", ready); ("GET", "/v1/status", status);
   ("GET", "/v1/zones", zones); ("GET", "/v1/audit", audit);
   ("POST", "/v1/rotations/plan", plan); ("POST", "/v1/rotations/trigger", trigger);
   ("POST", "/v1/rotations/resume", resume);
   ("POST", "/v1/rotations/reconcile-split-signer", reconcileSplitSigner);
   ("POST", "/v1/enrollment/arm", armEnrollment)].

(** A [GET] pattern also matches [HEAD]. *)
Definition method_matches (pattern method : string) : bool :=
  (method == pattern) || ((pattern == "GET") && (method == "HEAD")).

(** [http.ServeMux] on a clean path: one pattern per path, another method is refused.  The
    server drops the body of the answer to [HEAD]. *)
Definition mux (r : Request.t) : M Response.t :=
  match List.find (fun route => route.1.2 == Request.URL r) routes with
  | None => ret (http_Error [] StatusNotFound "404 page not found")
  | Some (method, _, handler) =>
      if method_matches method (Request.Method r) then handler r
      else ret (http_Error [("Allow", if method == "GET" then "GET, HEAD" else method)]
                  StatusMethodNotAllowed "Method Not Allowed")
  end.

(** [securityHeaders(mux)] *)
Definition serve (r : Request.t) : M Response.t :=
  let* resp := mux r in
  ret (Response.mk (Response.StatusCode resp)
         ([("Cache-Control", "no-store"); ("X-Content-Type-Options", "nosniff")]
          ++ Response.Header resp) (Response.Body resp)).
End Server.

(** ** The socket: Prepare and the end of Serve *)
Inductive Node := Directory (mode : Z) | Socket (mode : Z) | OtherFile.

(** The names of the file system, and which of the coming system calls fail. *)
Record SocketWorld := mkSocketWorld { nodes : gmap string Node; faults : list (option error) }.
Definition S_ (A : Type) : Type := Comp SocketWorld A.

(** A system call: it fails without an effect, or has its effect. *)
Definition socket_call {A} (f : gmap string Node -> result (A * gmap string Node)) : S_ A := fun w =>
  match w.(faults) with
  | Some e :: fs => (Fail_ e, mkSocketWorld w.(nodes) fs)
  | _ =>
      match f w.(nodes) with
      | Ok (a, ns) => (Val a, mkSocketWorld ns (List.tl w.(faults)))
      | Err e => (Fail_ e, mkSocketWorld w.(nodes) (List.tl w.(faults)))
      end
  end.

Section Prepare.
(** The mode the process's umask gives a new socket, and the errors of the kernel. *)
Context (umask_mode : Z) (in_use not_directory : error).

Definition socket_MkdirAll (dir : string) : S_ unit := socket_call (fun ns =>
  match ns !! dir with
  | None => Ok (tt, <[dir := Directory 448]> ns)
  | Some (Directory _) => Ok (tt, ns)
  | Some _ => Err not_directory
  end).
Definition socket_Lstat (path : string) : S_ (option Node) := socket_call (fun ns => Ok (ns !! path, ns)).
Definition socket_Remove (path : string) : S_ unit := socket_call (fun ns => Ok (tt, delete path ns)).
Definition socket_Listen (path : string) : S_ unit := socket_call (fun ns =>
  match ns !! path with
  | None => Ok (tt, <[path := Socket umask_mode]> ns)
  | Some _ => Err in_use
  end).
Definition socket_Chmod (path : string) (mode : Z) : S_ unit := socket_call (fun ns =>
  Ok (tt, alter (fun n => match n with Socket _ => Socket mode | _ => n end) path ns)).

(** [filepath.Dir]. *)
Definition socket_dir (path : string) : string :=
  let up := drop_while (fun a => negb (Ascii.eqb a "/"%char)) (rev (bytes path)) in
  Clean (of_bytes (rev up)).

(** Closing a Unix listener removes its socket. *)
Definition Prepare (path : string) : S_ unit :=
  socket_MkdirAll (socket_dir path) ;;
  let* st := socket_Lstat path in
  (match st with
   | None => ret tt
   | Some (Socket _) => socket_Remove path
   | Some _ => fail (Errorf "refusing to replace non-socket %s" [AStr path])
   end) ;;
  socket_Listen path ;;
  let* r := try (socket_Chmod path 384) in
  match r with
  | Err e => let* _ := try (socket_Remove path) in fail e
  | Ok _ => ret tt
  end.
End Prepare.
