(* ===== verification/Cli.v ===== *)
(** * internal/control/client.go and the commands of cmd/dnssecctl: from parsed flags to the
    request on the control socket, and from the response to what is printed. *)
From S2P Require Import Prelude GoStrings Model Json JsonCodec Effects Report StateJson Http Control.

(** The socket as the client sees it: a request is answered, or the connection fails. *)
Class Transport := {
  Wire : Type;
  http_Do : Request.t -> Wire -> result Response.t * Wire;
}.

(** ** Payloads *)
Definition rotation_json (r : RotationRequest.t) : json :=
  JObj ([("kind", JStr (Kind_string (RotationRequest.Kind r)));
         ("zones", jstrings (RotationRequest.Zones r))] ++ omit_bool "confirm" (RotationRequest.Confirm r)).
Definition resume_json (r : ResumeRequest.t) : json :=
  JObj [("kind", JStr (Kind_string (ResumeRequest.Kind r))); ("zones", jstrings (ResumeRequest.Zones r));
        ("phase", JStr (Phase_string (ResumeRequest.Phase r))); ("confirm", JBool (ResumeRequest.Confirm r))].
Definition signer_json (r : SplitSignerTransitionRequest.t) : json :=
  JObj [("zone", JStr (SplitSignerTransitionRequest.Zone r));
        ("confirm", JBool (SplitSignerTransitionRequest.Confirm r))].
Definition arm_json (r : ArmEnrollmentRequest.t) : json :=
  JObj [("confirm", JBool (ArmEnrollmentRequest.Confirm r))].

(** ** The types of the reports, as the client decodes them *)
Definition status_fields : list (field Status.t) :=
  ["mode" ~> Status.Mode by into_string; "ready" ~> Status.Ready by into_bool;
   "zones" ~> Status.Zones by into_int; "blocked" ~> Status.Blocked by into_int;
   "enrollmentArmed" ~> Status.EnrollmentArmed by into_bool;
   "enrolling" ~> Status.Enrolling by into_int; "managed" ~> Status.Managed by into_int;
   "pendingNotifications" ~> Status.PendingNotifications by into_int].
Definition plan_fields : list (field Plan.t) :=
  ["kind" ~> Plan.Kind_ by into_kind; "zones" ~> Plan.Zones by (into_slice "" into_string);
   "mutations" ~> Plan.Mutations by (into_slice "" into_string)].
Definition audit_fields : list (field AuditResult.t) :=
  ["zone" ~> AuditResult.Zone by into_string; "scheme" ~> AuditResult.Scheme by into_string;
   "registrarMatch" ~> AuditResult.RegistrarMatch by into_bool;
   "error" ~> AuditResult.Error_ by into_string].

Definition zone_status_fields : list (field ZoneStatus.t) :=
  ["zone" ~> ZoneStatus.Zone by into_string; "dnssec" ~> ZoneStatus.DNSSEC by into_bool;
   "scheme" ~> ZoneStatus.Scheme by into_string; "managed" ~> ZoneStatus.Managed by into_bool;
   "enrollmentStatus" ~> ZoneStatus.EnrollmentStatus by into_string;
   "blockedReason" ~> ZoneStatus.BlockedReason by into_string;
   "workflows" ~> ZoneStatus.Workflows by
     (into_slice zero_Workflow (into_struct false workflow_fields))].
Definition zero_ZoneStatus : ZoneStatus.t := ZoneStatus.mk "" false "" false "" "" [].

Section Client.
Context {TR : Transport} {JE : JsonErrors}.

(** A process: the connection and what it has printed. *)
Record Process := mkProcess { wire : Wire; stdout : string }.
Definition P_ (A : Type) : Type := Comp Process A.

Definition Do (r : Request.t) : P_ Response.t := fun w =>
  match http_Do r w.(wire) with
  | (a, n) => (outcome a, mkProcess n w.(stdout))
  end.

(** ** Client.do *)
(** What is left in a nil map after a decode whose error is ignored. *)
Definition error_members (body : string) : gmap string string :=
  match decode_first body with
  | Some (JObj ms) =>
      fold_left (fun m kv => <[kv.1 := match kv.2 with JStr s => s | _ => "" end]> m) ms ∅
  | _ => ∅
  end.

Definition client_do {T} (method path : string) (body : option json) (idem : string)
    (out : Decoder T) (zero : T) : P_ T :=
  let header :=
    [("Accept", "application/json")]
    ++ (match body with Some _ => [("Content-Type", "application/json")] | None => [] end)
    ++ (if idem != "" then [("Idempotency-Key", idem)] else []) in
  let* resp := Do (Request.mk method ("http://unix" +:+ path) header (option_map json_Marshal body)) in
  let text := limited (2 * 1024 * 1024) (Response.Body resp) in
  if negb (successful (Response.StatusCode resp)) then
    fail (Errorf "control API status %d: %s"
            [AInt (Response.StatusCode resp); AStr (default "" (error_members text !! "error"))])
  else lift (json_Decode_into out text zero).

Definition Get {T} (path : string) (out : Decoder T) (zero : T) : P_ T :=
  client_do "GET" path None "" out zero.
Definition Post {T} (path : string) (body : json) (idem : string) (out : Decoder T) (zero : T) : P_ T :=
  client_do "POST" path (Some body) idem out zero.

(** ** The commands *)
Definition printJSON (v : json) : P_ unit := fun w =>
  (Val tt, mkProcess w.(wire) (w.(stdout) +:+ of_bytes (indent_bytes 0 v ++ [line_feed]))).
Definition print_map (m : option (gmap string string)) : P_ unit :=
  printJSON (match m with Some m => jstring_map (map_to_list m) | None => JNull end).

Definition parseKind (v : string) : result Kind :=
  let k := Kind_of_string (ToLower v) in
  if negb (rotation_kind k) then Err (errors_New "kind must be zsk, ksk, or split") else Ok k.

Definition normalizeZones (z : list string) : list string :=
  List.filter (fun v => v != "")
    (map TrimSpace (List.concat (map (fun x => Split x ","%char) z))).

Definition confirm_required : error := errors_New "--confirm is required".

(** Post a payload and print the map of the answer. *)
Definition post_map (path : string) (body : json) (idem : string) : P_ unit :=
  let* out := Post path body idem into_string_map None in
  print_map out.

Definition armEnrollmentCmd (confirm : bool) (idem : string) : P_ unit :=
  if negb confirm then fail confirm_required else
  post_map "/v1/enrollment/arm" (arm_json (ArmEnrollmentRequest.mk true)) idem.

Definition triggerCmd (kind : string) (zones : list string) (confirm : bool) (idem : string) : P_ unit :=
  if negb confirm then fail confirm_required else
  let* k := lift (parseKind kind) in
  post_map "/v1/rotations/trigger" (rotation_json (RotationRequest.mk k (normalizeZones zones) true)) idem.

Definition resumeCmd (zones : list string) (confirm : bool) (idem : string) : P_ unit :=
  if negb confirm then fail confirm_required else
  post_map "/v1/rotations/resume"
    (resume_json (ResumeRequest.mk KindSplit (normalizeZones zones) PhaseWaitPublish true)) idem.

Definition reconcileSplitSignerCmd (zone : string) (confirm : bool) (idem : string) : P_ unit :=
  if negb confirm then fail confirm_required else
  post_map "/v1/rotations/reconcile-split-signer"
    (signer_json (SplitSignerTransitionRequest.mk (TrimSpace zone) true)) idem.

Definition planCmd (kind : string) (zones : list string) : P_ unit :=
  let* k := lift (parseKind kind) in
  let* p := Post "/v1/rotations/plan"
              (rotation_json (RotationRequest.mk k (normalizeZones zones) false)) ""
              (into_struct false plan_fields) (Plan.mk (KindOther "") [] []) in
  printJSON (plan_json p).

(** [getCmd]: the value type of the report is a parameter, as [out] is in the code. *)
Definition getCmd {T} (path : string) (out : Decoder T) (zero : T) (show : T -> json) : P_ unit :=
  let* v := Get path out zero in
  printJSON (show v).

Definition statusCmd : P_ unit :=
  getCmd "/v1/status" (into_struct false status_fields) (Status.mk "" false 0 0 false 0 0 0)
    status_json.
Definition zonesCmd : P_ unit :=
  getCmd "/v1/zones" (into_slice zero_ZoneStatus (into_struct false zone_status_fields)) []
    (jslice zone_status_json).
Definition auditCmd : P_ unit :=
  getCmd "/v1/audit" (into_slice (AuditResult.mk "" "" false "") (into_struct false audit_fields)) []
    (jslice audit_json).

Definition versionCmd (version commit date : string) : P_ unit :=
  printJSON (jstring_map [("version", version); ("commit", commit); ("date", date)]).
End Client.

