(* ===== verification/AutoDns.v ===== *)
(** * internal/autodns/client.go: the registrar client, from an API call to the HTTP request and
    from the response to the registrar's state. *)
From S2P Require Import Prelude GoStrings GoTime Model Effects Json JsonCodec Http.

(** ** Wire types *)
(** The [status] object of a response. *)
Module ResponseStatus.
Record t := mk { Code : string; ResultCode : string; Text : string; Type_ : string }.
#[export] Instance eta_ResponseStatus : Eta t :=
  fun r => mk (r.(Code)) (r.(ResultCode)) (r.(Text)) (r.(Type_)).
#[export] Instance set_Code : Field Code.
Proof. derive_field eta_ResponseStatus. Defined.
#[export] Instance set_ResultCode : Field ResultCode.
Proof. derive_field eta_ResponseStatus. Defined.
#[export] Instance set_Text : Field Text.
Proof. derive_field eta_ResponseStatus. Defined.
#[export] Instance set_Type_ : Field Type_.
Proof. derive_field eta_ResponseStatus. Defined.
End ResponseStatus.
Export (hints) ResponseStatus.

(** [response]; a [json.RawMessage] is the document it holds. *)
Module ApiResponse.
Record t := mk { STID : string; Status : ResponseStatus.t; Data : list json }.
#[export] Instance eta_ApiResponse : Eta t := fun r => mk (r.(STID)) (r.(Status)) (r.(Data)).
#[export] Instance set_STID : Field STID.
Proof. derive_field eta_ApiResponse. Defined.
#[export] Instance set_Status : Field Status.
Proof. derive_field eta_ApiResponse. Defined.
#[export] Instance set_Data : Field Data.
Proof. derive_field eta_ApiResponse. Defined.
End ApiResponse.
Export (hints) ApiResponse.

(** The record of a domain: [None] is a raw field the document does not have. *)
Module DomainInfo.
Record t := mk { Name : string; DNSSECData : option json; DNSSEC : option json }.
#[export] Instance eta_DomainInfo : Eta t := fun r => mk (r.(Name)) (r.(DNSSECData)) (r.(DNSSEC)).
#[export] Instance set_Name : Field Name.
Proof. derive_field eta_DomainInfo. Defined.
#[export] Instance set_DNSSECData : Field DNSSECData.
Proof. derive_field eta_DomainInfo. Defined.
#[export] Instance set_DNSSEC : Field DNSSEC.
Proof. derive_field eta_DomainInfo. Defined.
End DomainInfo.
Export (hints) DomainInfo.

(** The identity of a job, in an acknowledgement and in a job record. *)
Module JobInfo.
Record t := mk { ID : Z; Status : string }.
#[export] Instance eta_JobInfo : Eta t := fun r => mk (r.(ID)) (r.(Status)).
#[export] Instance set_ID : Field ID.
Proof. derive_field eta_JobInfo. Defined.
#[export] Instance set_Status : Field Status.
Proof. derive_field eta_JobInfo. Defined.
End JobInfo.
Export (hints) JobInfo.

Module JobRecord.
Record t := mk { Job : JobInfo.t }.
#[export] Instance eta_JobRecord : Eta t := fun r => mk (r.(Job)).
#[export] Instance set_Job : Field Job.
Proof. derive_field eta_JobRecord. Defined.
End JobRecord.
Export (hints) JobRecord.

Definition response_status_fields : list (field ResponseStatus.t) :=
  ["code" ~> ResponseStatus.Code by into_string;
   "resultCode" ~> ResponseStatus.ResultCode by into_string;
   "text" ~> ResponseStatus.Text by into_string; "type" ~> ResponseStatus.Type_ by into_string].
Definition zero_status : ResponseStatus.t := ResponseStatus.mk "" "" "" "".

(** A raw message takes any document, [null] too. *)
Definition into_raw : Decoder json := fun v _ => Some v.
Definition into_raw_field : Decoder (option json) := fun v _ => Some (Some v).

Definition response_fields (status : Decoder ResponseStatus.t) : list (field ApiResponse.t) :=
  ["stid" ~> ApiResponse.STID by into_string; "status" ~> ApiResponse.Status by status;
   "data" ~> ApiResponse.Data by (into_slice JNull into_raw)].
Definition into_response : Decoder ApiResponse.t :=
  into_struct false (response_fields (into_struct false response_status_fields)).
Definition zero_response : ApiResponse.t := ApiResponse.mk "" zero_status [].

(** A decode whose error is ignored: what does not fit its field leaves it alone. *)
Definition lenient_struct {T} (fields : list (field T)) : Decoder T := fun v t =>
  Some (match v with
        | JObj ms =>
            fold_left (fun t nv =>
              match find_field fields nv.1 with
              | Some f => default t (field_set f nv.2 t)
              | None => t
              end) ms t
        | _ => t
        end).
Definition error_response (text : string) : ApiResponse.t :=
  match decode_all text with
  | Some v =>
      default zero_response
        (lenient_struct (response_fields (lenient_struct response_status_fields)) v zero_response)
  | None => zero_response
  end.

Definition domain_fields : list (field DomainInfo.t) :=
  ["name" ~> DomainInfo.Name by into_string; "dnssecData" ~> DomainInfo.DNSSECData by into_raw_field;
   "dnssec" ~> DomainInfo.DNSSEC by into_raw_field].
Definition job_fields : list (field JobInfo.t) :=
  ["id" ~> JobInfo.ID by into_int; "status" ~> JobInfo.Status by into_string].
Definition zero_job : JobInfo.t := JobInfo.mk 0 "".
Definition job_record_fields : list (field JobRecord.t) :=
  ["job" ~> JobRecord.Job by (into_struct false job_fields)].

(** ** The client *)
Record Client := mkClient {
  base : string; username : string; password : string; context : Z; minimumInterval : duration;
}.
Definition New (base username password : string) (contextNumber : Z) (minimumInterval : duration)
  : Client :=
  mkClient (trim_right_slashes base) username password contextNumber minimumInterval.

(** requestError, and any other error of [do]. *)
Inductive do_error :=
| RequestError (method path : string) (status : Z) (code message : string)
| OtherError (e : error).
Definition do_error_error (e : do_error) : error :=
  match e with
  | RequestError method path status code message =>
      errors_New (Sprintf "autodns %s %s: status %d code %s: %s"
        [AStr method; AStr path; AInt status; AStr code; AStr message])
  | OtherError e => e
  end.

Definition ErrJobUnavailable : error := mkError "autodns job is no longer available" true.

Section Client.
Context {HS : HttpStack} {JE : JsonErrors} (c : Client).

(** The world, the client's [last], and the exchanges, newest first, each with the time the
    client had taken for it. *)
Record AutoWorld := mkAuto {
  web : Web; last : time; exchanges : list (time * Request.t * result Response.t);
}.
Definition A_ (A : Type) : Type := Comp AutoWorld A.

Definition AutoNow : A_ time := fun w =>
  match web_Now w.(web) with (t, n) => (Val t, mkAuto n w.(last) w.(exchanges)) end.
Definition AutoTimer (d : duration) : A_ unit := fun w =>
  match web_Timer d w.(web) with (r, n) => (outcome r, mkAuto n w.(last) w.(exchanges)) end.
Definition set_last (t : time) : A_ unit := fun w => (Val tt, mkAuto w.(web) t w.(exchanges)).
Definition get_last : A_ time := fun w => (Val w.(last), w).
Definition AutoDo (r : Request.t) : A_ Response.t := fun w =>
  match web_Do r w.(web) with
  | (a, n) => (outcome a, mkAuto n w.(last) ((w.(last), r, a) :: w.(exchanges)))
  end.

(** The pause before a request, and the time it is taken to be sent at. *)
Definition pace : A_ unit :=
  let* last := get_last in
  let* now := AutoNow in
  let wait := int64 (c.(minimumInterval) - Sub now last) in
  (if 0 <? wait then AutoTimer wait else ret tt) ;;
  let* t := AutoNow in
  set_last t.

Definition request (method path : string) (body : option json) (ctid : string) : Request.t :=
  Request.mk method (c.(base) +:+ path)
    ([("Authorization", basic_auth c.(username) c.(password));
      ("X-Domainrobot-Context", pretty c.(context))]
     ++ (if ctid != "" then [("X-Domainrobot-Ctid", ctid)] else [])
     ++ [("Accept", "application/json")]
     ++ (match body with Some _ => [("Content-Type", "application/json")] | None => [] end))
    (option_map json_Marshal body).

(** What a response means. *)
Definition interpret (method path : string) (resp : Response.t) : do_error + ApiResponse.t :=
  let text := limited (1024 * 1024) (Response.Body resp) in
  let code_of st := if ResponseStatus.Code st == "" then ResponseStatus.ResultCode st
                    else ResponseStatus.Code st in
  if negb (successful (Response.StatusCode resp)) then
    let st := ApiResponse.Status (error_response text) in
    let msg := if ResponseStatus.Text st == "" then StatusText (Response.StatusCode resp)
               else ResponseStatus.Text st in
    inl (RequestError method path (Response.StatusCode resp) (code_of st) msg)
  else
  match json_Decode_into into_response text zero_response with
  | Err e => inl (OtherError (Errorf "decode autodns response: %w" [AWrap e]))
  | Ok r =>
      let st := ApiResponse.Status r in
      if EqualFold (ResponseStatus.Type_ st) "ERROR" then
        inl (OtherError (Errorf "autodns code %s: %s" [AStr (code_of st); AStr (ResponseStatus.Text st)]))
      else inr r
  end.

Definition do (method path : string) (body : option json) (ctid : string)
  : A_ (do_error + ApiResponse.t) :=
  let* paced := try pace in
  match paced with
  | Err e => ret (inl (OtherError e))
  | Ok _ =>
      match web_url_error (c.(base) +:+ path) with
      | Some e => ret (inl (OtherError e))
      | None =>
          let* sent := try (AutoDo (request method path body ctid)) in
          ret (match sent with
               | Err e => inl (OtherError (Errorf "autodns %s: %w" [AStr method; AWrap e]))
               | Ok resp => interpret method path resp
               end)
      end
  end.

(** [do] with its error as an error. *)
Definition do_ (method path : string) (body : option json) (ctid : string) : A_ ApiResponse.t :=
  let* r := do method path body ctid in
  match r with
  | inl e => fail (do_error_error e)
  | inr r => ret r
  end.

Definition domain_path (zone : string) : string := "/domain/" +:+ PathEscape (TrimSuffix zone ".").

(** What a domain record says, from the end of [DomainDNSSEC]. *)
Definition classify (d : DomainInfo.t) : result DomainDNSSECState.t :=
  match DomainInfo.DNSSEC d, DomainInfo.DNSSECData d with
  | None, None => Ok (DomainDNSSECState.mk false [] true)
  | None, _ => Err (errors_New "decode autodns domain info: dnssec field is missing")
  | _, None => Err (errors_New "decode autodns domain info: dnssecData field is missing")
  | Some dnssec, Some data =>
      match dnssec with
      | JBool enabled =>
          match data with
          | JArr _ =>
              match into_slice zero_DNSSECData (into_struct false dnssec_fields) data [] with
              | Some keys => Ok (DomainDNSSECState.mk enabled keys false)
              | None =>
                  Err (Errorf "decode autodns domain info dnssecData: %w"
                         [AWrap (json_error (json_Marshal data))])
              end
          | _ =>
              Err (errors_New "decode autodns domain info: dnssecData must be an explicit array")
          end
      | _ => Err (errors_New "decode autodns domain info: dnssec must be an explicit boolean")
      end
  end.

Definition DomainDNSSEC (zone : string) : A_ DomainDNSSECState.t :=
  let* r := do_ "GET" (domain_path zone) None "" in
  match ApiResponse.Data r with
  | [v] =>
      match into_struct false domain_fields v (DomainInfo.mk "" None None) with
      | None =>
          fail (Errorf "decode autodns domain info: %w" [AWrap (json_error (json_Marshal v))])
      | Some d =>
          if ToLower (TrimSuffix (TrimSpace (DomainInfo.Name d)) ".") != ToLower (TrimSuffix zone ".") then
            fail (errors_New "decode autodns domain info: returned domain name does not match request")
          else lift (classify d)
      end
  | l => fail (Errorf "autodns domain info returned %d records" [AInt (Z.of_nat (length l))])
  end.

(** The payload of an update; the keys of a Go map are written in order. *)
Definition update_json (zone : string) (keys : list DNSSECData.t) : json :=
  JObj [("dnssec", JBool true); ("dnssecData", jslice dnssec_json keys);
        ("name", JStr (TrimSuffix zone "."))].

Definition UpdateDNSSEC (zone : string) (keys : list DNSSECData.t) (ctid : string) : A_ Job.t :=
  let* r := do_ "PUT" (domain_path zone) (Some (update_json zone keys)) ctid in
  let type := ResponseStatus.Type_ (ApiResponse.Status r) in
  let* job :=
    match ApiResponse.Data r with
    | [] => ret (Job.mk 0 (ApiResponse.STID r) (ToUpper type))
    | v :: _ =>
        match into_struct false job_fields v zero_job with
        | None =>
            fail (Errorf "decode autodns job acknowledgement: %w" [AWrap (json_error (json_Marshal v))])
        | Some d =>
            ret (Job.mk (JobInfo.ID d) (ApiResponse.STID r)
                   (if JobInfo.Status d != "" then ToUpper (JobInfo.Status d) else ToUpper type))
        end
    end in
  if EqualFold type "NOTIFY" && (Job.ID job =? 0) then
    fail (errors_New "autodns asynchronous response omitted job id")
  else ret job.

Definition JobStatus (id : Z) : A_ string :=
  if id <=? 0 then fail (errors_New "autodns job id must be positive") else
  let* r := do "GET" ("/job/" +:+ pretty id) None "" in
  match r with
  | inl e =>
      let err := do_error_error e in
      match e with
      | RequestError _ _ status code _ =>
          if (status =? StatusNotFound) && (code == "E300114")
          then fail (Errorf "%w: %w" [AWrap ErrJobUnavailable; AWrap err])
          else fail err
      | OtherError _ => fail err
      end
  | inr r =>
      match ApiResponse.Data r with
      | [v] =>
          match into_struct false job_record_fields v (JobRecord.mk zero_job) with
          | None => fail (Errorf "decode autodns job info: %w" [AWrap (json_error (json_Marshal v))])
          | Some data =>
              let job := JobRecord.Job data in
              if negb (JobInfo.ID job =? id) || (JobInfo.Status job == "") then
                fail (Errorf "autodns job info did not identify requested job %d" [AInt id])
              else ret (ToUpper (JobInfo.Status job))
          end
      | l => fail (Errorf "autodns job info returned %d records" [AInt (Z.of_nat (length l))])
      end
  end.
End Client.
