(* ===== verification/Pdns.v ===== *)
(** * internal/pdns/client.go: the PowerDNS client, from an API call to the HTTP request and from
    the response to zones and keys. *)
From S2P Require Import Prelude GoStrings GoTime Model Effects Json JsonCodec Http.

Record Client := mkClient { base : string; serverID : string; apiKey : string }.
Definition New (base serverID apiKey : string) : Client :=
  mkClient (trim_right_slashes base) serverID apiKey.

(** The [error] member of an error response, as far as the document can be read. *)
Definition api_error (text : string) : string :=
  match decode_all text with
  | Some (JObj ms) =>
      fold_left (fun e nv =>
        if EqualFold "error" nv.1 then default e (into_string nv.2 e) else e) ms ""
  | _ => ""
  end.

Section Client.
Context {HS : HttpStack} {JE : JsonErrors} (c : Client).

(** The world, and the exchanges, newest first. *)
Record PdnsWorld := mkPdns { web : Web; exchanges : list (Request.t * result Response.t) }.
Definition D_ (A : Type) : Type := Comp PdnsWorld A.

Definition PdnsDo (r : Request.t) : D_ Response.t := fun w =>
  match web_Do r w.(web) with
  | (a, n) => (outcome a, mkPdns n ((r, a) :: w.(exchanges)))
  end.

Definition request (method path : string) (body : option json) : Request.t :=
  Request.mk method (c.(base) +:+ path)
    ([("X-API-Key", c.(apiKey)); ("Accept", "application/json")]
     ++ (match body with Some _ => [("Content-Type", "application/json")] | None => [] end))
    (option_map json_Marshal body).

(** [do]; [out] is [None] when the response is not decoded.  An empty body leaves [out] alone,
    as [io.EOF] is not an error here. *)
Definition do {T} (method path : string) (body : option json) (out : option (Decoder T)) (zero : T)
  : D_ T :=
  match web_url_error (c.(base) +:+ path) with
  | Some e => fail e
  | None =>
      let* resp := wrap (fun e => Errorf "powerdns %s: %w" [AStr method; AWrap e])
                     (PdnsDo (request method path body)) in
      let code := Response.StatusCode resp in
      let text := limited (1024 * 1024) (Response.Body resp) in
      if negb (successful code) then
        let e := if api_error text == "" then StatusText code else api_error text in
        fail (Errorf "powerdns %s %s: status %d: %s" [AStr method; AStr path; AInt code; AStr e])
      else
      match out with
      | None => ret zero
      | Some d =>
          if code =? StatusNoContent then ret zero
          else if blank text then ret zero
          else lift (map_err (fun e => Errorf "decode powerdns response: %w" [AWrap e])
                       (json_Decode_into d text zero))
      end
  end.

Definition keysPath (zoneID : string) : string :=
  "/servers/" +:+ PathEscape c.(serverID) +:+ "/zones/" +:+ PathEscape zoneID +:+ "/cryptokeys".

Definition into_zone : Decoder Zone.t := into_struct false zone_fields.
Definition into_key : Decoder Key.t := into_struct false key_fields.

Definition ListZones : D_ (list Zone.t) :=
  do "GET" ("/servers/" +:+ PathEscape c.(serverID) +:+ "/zones") None
    (Some (into_slice zero_Zone into_zone)) [].

Definition GetZone (zoneID : string) : D_ Zone.t :=
  do "GET" ("/servers/" +:+ PathEscape c.(serverID) +:+ "/zones/" +:+ PathEscape zoneID) None
    (Some into_zone) zero_Zone.

Definition ListKeys (zoneID : string) : D_ (list Key.t) :=
  do "GET" (keysPath zoneID) None (Some (into_slice zero_Key into_key)) [].

Definition create_json (keyType algorithm : string) (active : bool) : json :=
  JObj [("active", JBool active); ("algorithm", JStr algorithm); ("keytype", JStr keyType);
        ("published", JBool true)].
Definition CreateKey (zoneID keyType algorithm : string) (active : bool) : D_ Key.t :=
  do "POST" (keysPath zoneID) (Some (create_json keyType algorithm active)) (Some into_key) zero_Key.

Definition set_json (keyType : string) (active published : bool) : json :=
  JObj [("active", JBool active); ("keytype", JStr keyType); ("published", JBool published)].
Definition SetKey (zoneID : string) (key : Key.t) (active published : bool) : D_ unit :=
  do "PUT" (keysPath zoneID +:+ "/" +:+ pretty key.(Key.ID))
    (Some (set_json key.(Key.KeyType) active published)) None tt.

Definition DeleteKey (zoneID : string) (id : Z) : D_ unit :=
  do "DELETE" (keysPath zoneID +:+ "/" +:+ pretty id) None None tt.
End Client.
