(* ===== verification/Lmtp.v ===== *)
(** * internal/lmtp/client.go: delivery of a notification over LMTP, with the parts of
    net/textproto, mime and time it uses. *)
From S2P Require Import Prelude GoStrings GoTime Model Config Dns Validate Effects Json Http.

Definition cr : ascii := byte_of_code 13.
Definition lf : ascii := byte_of_code 10.
Definition crlf : string := of_bytes [cr; lf].

(** ** net/textproto *)
(** The peer and the connection: the lines still to be read and the error behind them, what
    has been written, newest first, and which of the coming writes fail. *)
Record Conn := mkConn {
  inbound : list string; in_error : error; outbound : list string; faults : list (option error);
}.
Definition T_ (A : Type) : Type := Comp Conn A.

(** Writing and flushing a text. *)
Definition Write (text : string) : T_ unit := fun w =>
  match w.(faults) with
  | Some e :: fs => (Fail_ e, mkConn w.(inbound) w.(in_error) w.(outbound) fs)
  | fs => (Val tt, mkConn w.(inbound) w.(in_error) (text :: w.(outbound)) (List.tl fs))
  end.
Definition PrintfLine (text : string) : T_ unit := Write (text +:+ crlf).

(** A step of the connection that sends nothing yet and may fail: dialling, setting the
    deadline, writing into the buffer. *)
Definition Attempt : T_ unit := fun w =>
  match w.(faults) with
  | Some e :: fs => (Fail_ e, mkConn w.(inbound) w.(in_error) w.(outbound) fs)
  | fs => (Val tt, mkConn w.(inbound) w.(in_error) w.(outbound) (List.tl fs))
  end.

Definition protocol_error (what line : string) : error := errors_New (what +:+ line).
(** [textproto.Error] *)
Definition response_error (code : Z) (message : string) : error :=
  errors_New (padded 3 code +:+ " " +:+ message).

(** [strconv.Atoi] of three bytes. *)
Definition atoi3 (a b d : ascii) : option Z :=
  if is_digit b && is_digit d then
    let low := 10 * (byte_code b - 48) + (byte_code d - 48) in
    if is_digit a then Some (100 * (byte_code a - 48) + low)
    else if Ascii.eqb a "+"%char then Some low
    else if Ascii.eqb a "-"%char then Some (- low) else None
  else None.

(** One line of a response: its code, whether another line follows, the text and the error. *)
Record CodeLine := mkCodeLine { code : Z; continued : bool; message_ : string; error_ : option error }.
Definition parseCodeLine (line : string) (expect : Z) : CodeLine :=
  match bytes line with
  | a :: b :: d :: sep :: text =>
      if negb (Ascii.eqb sep " "%char || Ascii.eqb sep "-"%char)
      then mkCodeLine 0 false "" (Some (protocol_error "short response: " line)) else
      let more := Ascii.eqb sep "-"%char in
      match atoi3 a b d with
      | Some code =>
          if code <? 100 then mkCodeLine code more "" (Some (protocol_error "invalid response code: " line))
          else mkCodeLine code more (of_bytes text)
                 (if (100 <=? expect) && (expect <? 1000) && negb (code =? expect)
                  then Some (response_error code (of_bytes text)) else None)
      | None => mkCodeLine 0 more "" (Some (protocol_error "invalid response code: " line))
      end
  | _ => mkCodeLine 0 false "" (Some (protocol_error "short response: " line))
  end.

(** The lines after a first line that announces more: the text, and the lines behind the last
    one; [None] when the connection ends before it. *)
Fixpoint read_more (first : Z) (message : string) (lines : list string) : option (string * list string) :=
  match lines with
  | [] => None
  | line :: lines' =>
      let l := parseCodeLine line 0 in
      let same := match error_ l with None => code l =? first | Some _ => false end in
      let message' := message +:+ of_bytes [lf] +:+ (if same then message_ l else line) in
      if same && negb (continued l) then Some (message', lines') else read_more first message' lines'
  end.

(** [Reader.ReadResponse] for an expected code of three digits. *)
Definition ReadResponse (expect : Z) : T_ unit := fun w =>
  let rest lines := mkConn lines w.(in_error) w.(outbound) w.(faults) in
  match w.(inbound) with
  | [] => (Fail_ w.(in_error), w)
  | line :: lines =>
      let l := parseCodeLine line expect in
      if continued l then
        match read_more (code l) (message_ l) lines with
        | None => (Fail_ w.(in_error), rest [])
        | Some (message, lines') =>
            (match error_ l with
             | None => Val tt
             | Some e => Fail_ (if message != "" then response_error (code l) message else e)
             end, rest lines')
        end
      else (match error_ l with None => Val tt | Some e => Fail_ e end, rest lines)
  end.

(** The dot writer. *)
Inductive dot_state := DotBegin | DotBeginLine | DotCR | DotData.
(** One byte: the bytes written for it, and the next state. *)
Definition dot_byte (st : dot_state) (a : ascii) : list ascii * dot_state :=
  let data :=
    if Ascii.eqb a cr then ([a], DotCR)
    else if Ascii.eqb a lf then ([cr; a], DotBeginLine)
    else ([a], DotData) in
  match st with
  | DotBegin | DotBeginLine =>
      if Ascii.eqb a "."%char then ("."%char :: data.1, data.2) else data
  | DotData => data
  | DotCR => ([a], if Ascii.eqb a lf then DotBeginLine else DotData)
  end.
Fixpoint dot_write (st : dot_state) (l : list ascii) : list ascii * dot_state :=
  match l with
  | [] => ([], st)
  | a :: l' =>
      let '(out, st') := dot_byte st a in
      let '(outs, st'') := dot_write st' l' in
      (out ++ outs, st'')
  end.
Definition dot_close (st : dot_state) : list ascii :=
  (match st with
   | DotBegin | DotData => [cr; lf]
   | DotCR => [lf]
   | DotBeginLine => []
   end) ++ ["."%char; cr; lf].
(** Everything a dot writer sends for a text, from its creation to its [Close]. *)
Definition dot_encode (text : string) : string :=
  let '(out, st) := dot_write DotBegin (bytes text) in of_bytes (out ++ dot_close st).

(** ** mime.QEncoding *)
Definition needs_encoding (s : string) : bool :=
  existsb (fun a => negb (in_range 32 126 a) && negb (byte_code a =? 9)) (bytes s).
Definition q_literal (a : ascii) : bool :=
  in_range 33 126 a && negb (Ascii.eqb a "="%char) && negb (Ascii.eqb a "?"%char)
  && negb (Ascii.eqb a "_"%char).
Definition q_byte (a : ascii) : list ascii :=
  if byte_code a =? 32 then ["_"%char]
  else if q_literal a then [a]
  else ["="%char; upper_hex (byte_code a / 16); upper_hex (byte_code a mod 16)].
(** The most an encoded word may hold. *)
Definition max_content : nat := 63.

(** Runes are not split between encoded words. *)
Fixpoint q_encode (fuel current : nat) (l : list ascii) : list ascii :=
  match fuel, l with
  | S fuel', a :: _ =>
      let plain := (byte_code a =? 32) || q_literal a in
      let n := if plain then 1%nat else default 1%nat (rune_size l) in
      let size := if plain then 1%nat else (3 * n)%nat in
      let split := Nat.ltb max_content (current + size) in
      (if split then bytes "?= =?utf-8?q?" else [])
      ++ List.concat (map q_byte (take n l))
      ++ q_encode fuel' ((if split then 0 else current) + size) (drop n l)
  | _, _ => []
  end.
Definition QEncode (s : string) : string :=
  if needs_encoding s
  then of_bytes (bytes "=?utf-8?q?" ++ q_encode (String.length s) 0 (bytes s) ++ bytes "?=")
  else s.

(** ** time.RFC1123Z *)
Definition weekdays : list string := ["Mon"; "Tue"; "Wed"; "Thu"; "Fri"; "Sat"; "Sun"].
Definition months : list string :=
  ["Jan"; "Feb"; "Mar"; "Apr"; "May"; "Jun"; "Jul"; "Aug"; "Sep"; "Oct"; "Nov"; "Dec"].
(** Of an instant in UTC; the day 0001-01-01 was a Monday. *)
Definition FormatRFC1123Z (t : time) : string :=
  let days := t / ns_per_day in
  let d := civil_of_days days in
  let s := (t mod ns_per_day) / Second in
  default "" (weekdays !! Z.to_nat (days mod 7)) +:+ ", " +:+ padded 2 (day d) +:+ " " +:+
  default "" (months !! Z.to_nat (month d - 1)) +:+ " " +:+ padded 4 (year d) +:+ " " +:+
  padded 2 (s / 3600) +:+ ":" +:+ padded 2 (s / 60 mod 60) +:+ ":" +:+ padded 2 (s mod 60) +:+ " +0000".

Example format_epoch_mail : FormatRFC1123Z (719162 * ns_per_day) = "Thu, 01 Jan 1970 00:00:00 +0000".
Proof. vm_compute. reflexivity. Qed.

(** ** The client *)
Definition mailbox `{!Parsers} (value : string) : result string :=
  if ContainsAny value line_breaks then Err (errors_New "mailbox contains line break")
  else mail_ParseAddress value.

(** What the message says was done, and its first paragraph. *)
Definition action (event : Notification.t) : string * string :=
  if event.(Notification.Kind) == KindEnroll then
    if event.(Notification.Event) == "blocked" then
      ("DNSSEC enrollment blocked",
       "DNSSEC initial enrollment was blocked safely. Details are available in local controller status; no further registrar write was attempted.")
    else ("DNSSEC enrollment completed", "DNSSEC initial enrollment completed successfully.")
  else ("DNSSEC rotation completed", "DNSSEC key rotation completed successfully.").

Definition subject (event : Notification.t) : string :=
  QEncode (Sprintf "%s: %s (%s)" [AStr (action event).1; AStr (TrimSuffix event.(Notification.Zone) ".");
                                  AStr (Kind_string event.(Notification.Kind))]).

(** The lines of the header and of the body. *)
Definition header_lines (cfg : LMTP.t) (event : Notification.t) (from : string) (recipients : list string)
  : list string :=
  [Sprintf "From: %s" [AStr from];
   Sprintf "To: %s" [AStr (Join recipients ", ")];
   Sprintf "Date: %s" [AStr (FormatRFC1123Z event.(Notification.CompletedAt))];
   Sprintf "Message-ID: <%s@%s>" [AStr event.(Notification.ID); AStr cfg.(LMTP.Hostname)];
   Sprintf "Subject: %s" [AStr (subject event)];
   "Auto-Submitted: auto-generated"; "MIME-Version: 1.0"; "Content-Type: text/plain; charset=UTF-8";
   "Content-Transfer-Encoding: 8bit"].
Definition body_lines (event : Notification.t) : list string :=
  [(action event).2; "";
   Sprintf "Zone: %s" [AStr event.(Notification.Zone)];
   Sprintf "Type: %s" [AStr (Kind_string event.(Notification.Kind))];
   Sprintf "Completed: %s" [AStr (FormatRFC3339 event.(Notification.CompletedAt))];
   Sprintf "Old PowerDNS key ID: %d" [AInt event.(Notification.OldKeyID)];
   Sprintf "New PowerDNS key ID: %d" [AInt event.(Notification.NewKeyID)];
   Sprintf "New ZSK ID (split/enrollment): %d" [AInt event.(Notification.NewZSKID)];
   Sprintf "InternetX STID: %s" [AStr event.(Notification.RegistrarSTID)];
   Sprintf "Event ID: %s" [AStr event.(Notification.ID)]; "";
   "Reports never include private or public key material."].
Definition as_lines (lines : list string) : string := String.concat "" (map (fun l => l +:+ crlf) lines).
Definition message (cfg : LMTP.t) (event : Notification.t) (from : string) (recipients : list string)
  : string :=
  as_lines (header_lines cfg event from recipients) +:+ crlf +:+ as_lines (body_lines event).

Definition id_byte (a : ascii) : bool :=
  is_lower a || is_upper a || is_digit a || Ascii.eqb a "-"%char || Ascii.eqb a "_"%char
  || Ascii.eqb a "."%char.

Section Client.
Context {DL : DnsLib} {PA : Parsers}.

Definition validateEvent (cfg : LMTP.t) (event : Notification.t) : result unit :=
  let id := event.(Notification.ID) in
  if ContainsAny event.(Notification.Zone) line_breaks then
    Err (errors_New "notification zone contains line break")
  else if negb (IsDomainName (Fqdn event.(Notification.Zone))) then
    Err (errors_New "notification zone is not a valid DNS name")
  else if (len id =? 0) || (128 <? len id) then
    Err (errors_New "notification event id length is invalid")
  else if negb (forallb id_byte (bytes id)) then
    Err (errors_New "notification event id contains unsafe character")
  else if negb (IsDomainName (Fqdn cfg.(LMTP.Hostname))) || ContainsAny cfg.(LMTP.Hostname) line_breaks
  then Err (errors_New "LMTP hostname is not a safe DNS name")
  else Ok tt.

(** The addresses of the recipients, or the first error. *)
Fixpoint mailboxes (values : list string) : result (list string) :=
  match values with
  | [] => Ok []
  | v :: vs =>
      let? to := mailbox v in
      let? tos := mailboxes vs in
      Ok (to :: tos)
  end.

(** [command], with the first word of its format. *)
Definition command (want : Z) (word line : string) : T_ unit :=
  PrintfLine line ;;
  wrap (fun e => Errorf "LMTP command %s: %w" [AStr word; AWrap e]) (ReadResponse want).

(** From the connection to the last answer about the message: all of [Send] between its checks
    and its [QUIT]. *)
Definition deliver (cfg : LMTP.t) (event : Notification.t) (from : string) (recipients : list string)
  : T_ unit :=
  wrap (fun e => Errorf "dial LMTP: %w" [AWrap e]) Attempt ;;
  Attempt ;;
  wrap (fun e => Errorf "LMTP greeting: %w" [AWrap e]) (ReadResponse 220) ;;
  command 250 "LHLO" ("LHLO " +:+ cfg.(LMTP.Hostname)) ;;
  command 250 "MAIL" ("MAIL FROM:<" +:+ from +:+ ">") ;;
  for_each recipients (fun to => command 250 "RCPT" ("RCPT TO:<" +:+ to +:+ ">")) ;;
  command 354 "DATA" "DATA" ;;
  Attempt ;;
  Write (dot_encode (message cfg event from recipients)) ;;
  for_each recipients (fun _ =>
    wrap (fun e => Errorf "LMTP delivery response: %w" [AWrap e]) (ReadResponse 250)).

Definition Send (cfg : LMTP.t) (event : Notification.t) : T_ unit :=
  if negb cfg.(LMTP.Enabled) then fail (errors_New "LMTP notifications are disabled") else
  lift (validateEvent cfg event) ;;
  let* from := lift (mailbox cfg.(LMTP.From_)) in
  let* recipients := lift (mailboxes cfg.(LMTP.To_)) in
  deliver cfg event from recipients ;;
  let* _ := try (PrintfLine "QUIT") in
  let* _ := try (ReadResponse 221) in
  ret tt.
End Client.
