(* ===== verification/Safety.v ===== *)
(** * What must be known before the controller changes anything outside itself.

    [evidence c zone keys w past ev] says of one external write [ev] what the events
    before it, the keys read and the workflow have to show.  Every handler, and so
    [advance], writes only with that evidence. *)
From S2P Require Import Prelude GoStrings GoTime Model Config Dns Keys KeysFacts Effects.
From S2P Require Import Wp Core Rollover Parent Enroll Reconcile.

Section Safety.
Context {SV : Services} {DL : DnsLib} (c : Config.t).

(** The key recorded under [id] is in the inventory, active and published. *)
Definition live (keys : list Key.t) (id : Z) (k : Key.t) : Prop :=
  byID keys id = Some k /\ k.(Key.Active) = true /\ k.(Key.Published) = true.

(** The registrar was read and holds exactly the material of [k]. *)
Definition registrar_exact (past : list Event) (name : string) (k : Key.t) : Prop :=
  exists remote data,
    EvDomainDNSSEC name (Ok remote) ∈ past /\ DNSSECDataForKey name k = Ok data /\
    remote.(DomainDNSSECState.Enabled) = true /\
    sameMaterial remote.(DomainDNSSECState.Data) [data] = true.

(** The parent's DS set and the DNSKEY signature of [k] were observed. *)
Definition ds_observed (past : list Event) name k : Prop :=
  EvDSEvidence name [k] (Ok tt) ∈ past.
Definition dnskey_signed (past : list Event) name k : Prop :=
  EvDNSKEYRRSIGBy name k (Ok tt) ∈ past.
Definition zone_signed (past : list Event) name k : Prop :=
  EvRRSIGBy name k (Ok tt) ∈ past.
Definition dnskeys_observed (past : list Event) name ks : Prop :=
  exists ttl, EvDNSKEYEvidence name ks (Ok ttl) ∈ past.

(** Deleting: only the recorded, inactive old key, once its replacements carry the zone. *)
Definition deletion_evidence (zone : Zone.t) (keys : list Key.t) (w : Workflow.t)
    (past : list Event) (id : Z) : Prop :=
  let name := zone.(Zone.Name) in
  w.(Workflow.Phase) = PhaseDeleteOld /\
  exists old newKey,
    byID keys w.(Workflow.OldKeyID) = Some old /\ id = old.(Key.ID) /\
    old.(Key.Active) = false /\
    live keys w.(Workflow.NewKeyID) newKey /\
    (exists ks, dnskeys_observed past name ks) /\
    (is_ksk_or_split w = true ->
       dnskey_signed past name newKey /\ ds_observed past name newKey /\
        exists ttl, EvAuthoritativeDSEvidence name [newKey] (Ok ttl) ∈ past) /\
    (w.(Workflow.Kind) = KindZSK -> zone_signed past name newKey) /\
    (w.(Workflow.Kind) = KindZSK \/ w.(Workflow.Kind) = KindKSK ->
       exists l, retirementInventory name keys w = Ok l /\ dnskeys_observed past name l) /\
    (w.(Workflow.Kind) = KindSplit ->
       exists z, live keys w.(Workflow.NewZSKID) z /\ zone_signed past name z /\
          registrar_exact past name newKey /\ dnskeys_observed past name [newKey; z; old]).

(** Changing a key's state: activating the recorded replacement signer, or
    deactivating the recorded old key after the replacement was proven. *)
Definition activation_evidence (keys : list Key.t) (w : Workflow.t) (name : string) (k : Key.t)
  : Prop :=
  w.(Workflow.Phase) = PhaseActivateNew /\ k.(Key.Active) = false /\
  byID keys (if is_split w then w.(Workflow.NewZSKID) else w.(Workflow.NewKeyID)) = Some k /\
  (is_split w = true ->
     is_ok (validatePrepublishInventory name keys w)
     || is_ok (validateActiveSplitInventory name keys w) = true).

Definition deactivation_evidence (zone : Zone.t) (keys : list Key.t) (w : Workflow.t)
    (past : list Event) (old : Key.t) : Prop :=
  let name := zone.(Zone.Name) in
  w.(Workflow.Phase) = PhaseDeactivateOld /\ old.(Key.Active) = true /\
  byID keys w.(Workflow.OldKeyID) = Some old /\
  dnskeys_observed past name (publishedKeys keys) /\
  (exists newKey, live keys w.(Workflow.NewKeyID) newKey /\
      (w.(Workflow.Kind) = KindZSK -> zone_signed past name newKey) /\
      (w.(Workflow.Kind) <> KindZSK ->
        dnskey_signed past name newKey /\ ds_observed past name newKey)) /\
  (w.(Workflow.Kind) = KindSplit ->
     (exists z, live keys w.(Workflow.NewZSKID) z /\ zone_signed past name z) /\
      is_ok (validateActiveSplitInventory name keys w)
     || is_ok (validateDeactivatedSplitInventory name keys w) = true) /\
  (w.(Workflow.Kind) <> KindKSK ->
     exists detail, EvGetZone zone.(Zone.ID) (Ok detail) ∈ past /\
        dur_div (maxTTL detail) Second <= w.(Workflow.ZoneTTL)).

Definition set_evidence zone keys w past (k : Key.t) (active published : bool) : Prop :=
  published = true /\
  (if active then activation_evidence keys w zone.(Zone.Name) k
   else deactivation_evidence zone keys w past k).

(** The last thing that happened was a successful write of the state file in which
    the workflow's entry [x] satisfies [P]. *)
Definition persisted_just_before (w : Workflow.t) (P : Workflow.t -> Prop) (past : list Event)
  : Prop :=
  exists s past', past = EvPersist s (Ok tt) :: past' /\
    P (workflow_at s (WorkflowKey w.(Workflow.Zone) w.(Workflow.Kind))).

(** The attempt marker [f] of the entry is a clock reading of this run. *)
Definition marked (f : Workflow.t -> time) (past : list Event) (x : Workflow.t) : Prop :=
  EvNow (f x) ∈ past.

(** What the registrar holds before the write: the old key's material, or nothing
    together with a proof that the parent publishes no DS. *)
Definition registrar_before (zone : string) (past : list Event) (old : option Key.t) : Prop :=
  match old with
  | Some k => registrar_exact past zone k
  | None => exists remote, EvDomainDNSSEC zone (Ok remote) ∈ past /\
              remote.(DomainDNSSECState.Enabled) = false /\
              remote.(DomainDNSSECState.Data) = [] /\ EvNoDSEvidence zone (Ok tt) ∈ past
  end.

Definition rollover_write_evidence (zone : Zone.t) (keys : list Key.t) (w : Workflow.t)
    (past : list Event) (newKey : Key.t) : Prop :=
  let name := zone.(Zone.Name) in
  w.(Workflow.Phase) = PhaseParentRemove /\
  exists old,
    byID keys w.(Workflow.OldKeyID) = Some old /\ byID keys w.(Workflow.NewKeyID) = Some newKey /\
    validatePrepublishInventory name keys w = Ok tt /\
    registrar_before name past (if is_initial_split w then None else Some old) /\
    (if is_initial_split w
     then (exists ttl, EvAuthoritativeDNSKEYEvidence name (publishedKeys keys) (Ok ttl) ∈ past) /\
          EvAuthoritativeDNSKEYRRSIGBy name newKey (Ok tt) ∈ past
     else dnskeys_observed past name (publishedKeys keys) /\ dnskey_signed past name newKey).

Definition enrollment_write_evidence (zone : Zone.t) (keys : list Key.t) (w : Workflow.t)
    (past : list Event) (ksk : Key.t) : Prop :=
  let name := zone.(Zone.Name) in
  w.(Workflow.Phase) = PhaseEnrollParentAdd /\
  exists zsk,
    recorded_inventory_and_zone c zone keys w = Ok (ksk, zsk) /\
    registrar_before name past None /\
    (exists ttl, EvAuthoritativeDNSKEYEvidence name (publishedKeys keys) (Ok ttl) ∈ past) /\
    EvAuthoritativeDNSKEYRRSIGBy name ksk (Ok tt) ∈ past /\
    EvAuthoritativeRRSIGBy name zsk (Ok tt) ∈ past /\
    EvDelegationEvidence name (expected_nameservers c) (Ok tt) ∈ past.

(** A registrar write is never attempted a second time, follows its own durable
    intent, and submits exactly the recorded key. *)
Definition registrar_evidence (zone : Zone.t) (keys : list Key.t) (w : Workflow.t)
    (past : list Event) (name : string) (data : list DNSSECData.t) (ctid : string) : Prop :=
  name = zone.(Zone.Name) /\ IsZero w.(Workflow.RegistrarAttemptedAt) = true /\
  ctid = w.(Workflow.RegistrarCTID) /\ ctid <> "" /\
  persisted_just_before w (marked Workflow.RegistrarAttemptedAt past) past /\
  exists newKey newData,
    DNSSECDataForKey name newKey = Ok newData /\ data = [newData] /\
    (rollover_write_evidence zone keys w past newKey
     \/ enrollment_write_evidence zone keys w past newKey).

(** A key is created at most once per slot, after its own durable intent and only
    when no existing key can be adopted. *)
Definition creation_evidence (zone : Zone.t) (keys : list Key.t) (w : Workflow.t)
    (past : list Event) (typ algorithm : string) (active : bool) : Prop :=
  w.(Workflow.Phase) = PhasePrepublish /\
  exists (zskSlot csk : bool) (old : Key.t),
    let slot w := if zskSlot then w.(Workflow.NewZSKCreateAttemptedAt)
                  else w.(Workflow.NewKeyCreateAttemptedAt) in
    byID keys w.(Workflow.OldKeyID) = Some old /\ IsZero (slot w) = true /\
    persisted_just_before w (marked slot past) past /\
    adoptCandidates zone w typ algorithm old.(Key.ID) active csk zskSlot keys = Ok [].

Definition evidence (zone : Zone.t) (keys : list Key.t) (w : Workflow.t)
    (past : list Event) (ev : Event) : Prop :=
  match ev with
  | EvCreateKey zid typ algorithm active _ =>
      zid = zone.(Zone.ID) /\ creation_evidence zone keys w past typ algorithm active
  | EvSetKey zid k active published _ =>
      zid = zone.(Zone.ID) /\ set_evidence zone keys w past k active published
  | EvDeleteKey zid id _ => zid = zone.(Zone.ID) /\ deletion_evidence zone keys w past id
  | EvUpdateDNSSEC name data ctid _ => registrar_evidence zone keys w past name data ctid
  | _ => True
  end.

(** Events that are no external write. *)
Definition inward (ev : Event) : Prop := is_external_write ev = false.

Lemma inward_evidence zone keys w past ev : inward ev -> evidence zone keys w past ev.
Proof. by destruct ev. Qed.

Lemma emits_inward {A} zone keys w (m : M A) :
  emits inward m -> justifies (evidence zone keys w) m.
Proof. apply justifies_emits. intros ?? . apply inward_evidence. Qed.

Lemma inward_transition w phase next mutate :
  (forall x, emits inward (mutate x)) -> emits inward (transition w phase next mutate).
Proof. intros Hm. emits_auto. Qed.
Lemma inward_block {A} name kind reason : emits inward (block (A := A) c name kind reason).
Proof. emits_auto. Qed.
Lemma inward_complete w : emits inward (complete c w).
Proof. emits_auto. Qed.
Lemma inward_recordRetry w e : emits inward (recordRetry w e).
Proof. emits_auto. Qed.
End Safety.

#[export] Hint Resolve inward_transition inward_block inward_complete inward_recordRetry
  : emits.

Section SafetyHandlers.
Context {SV : Services} {DL : DnsLib} (c : Config.t).

Lemma inward_transition_now w phase mutate :
  (forall x, emits inward (mutate x)) -> emits inward (transition_now w phase mutate).
Proof. intros Hm. emits_auto. Qed.
Lemma inward_transition_after w phase d mutate :
  (forall x, emits inward (mutate x)) -> emits inward (transition_after w phase d mutate).
Proof. intros Hm. emits_auto. Qed.

(** [block] reports its reason as an error whatever the write of the block did. *)
Lemma wp_block {A} G base name kind reason (Q : Outcome A -> World -> Prop) w :
  (forall past ev, inward ev -> G past ev) -> extends G base w.(trace) ->
  (forall w', extends G base w'.(trace) -> Q (Fail_ (errors_New reason)) w') ->
  wp (block c name kind reason) Q w.
Proof.
  intros HG Hb HQ.
  assert (Hj : justifies G (block (A := A) c name kind reason))
    by (eapply justifies_emits; [exact HG|apply inward_block]).
  specialize (Hj w). revert Hj. unfold wp, block.
  set (u := try _). assert (Hu : exists r, (u w).1 = Val r).
  { unfold u, try, Update. cbv zeta.
    destruct (_ && _) eqn:?; [destruct (_ !! _) eqn:?|].
    all: unfold bind, Now, ret; repeat case_match; cbn in *; simplify_eq; eauto. }
  unfold bind. destruct (u w) as [o w1]; destruct Hu as [r Hr]; cbn in Hr; subst o; cbn.
  intros Hj. apply HQ. eapply extends_trans; [exact Hb|exact Hj].
Qed.

End SafetyHandlers.

Ltac unfold_api :=
  unfold ListZones, GetZone, ListKeys, CreateKey, SetKey, DeleteKey, DomainDNSSEC, UpdateDNSSEC,
    JobStatus, DNSKEYEvidence, AuthoritativeDNSKEYEvidence, NoDSEvidence, DSEvidence,
    AuthoritativeDSEvidence, RRSIGBy, AuthoritativeRRSIGBy, DNSKEYRRSIGBy,
    AuthoritativeDNSKEYRRSIGBy, DelegationEvidence, Send.

(** The trace so far is an extension when each event in front of the base is no write. *)
Ltac close_extends :=
  repeat first [assumption | apply extends_cons; [|exact I] | apply extends_refl].

Ltac safe_step :=
  lazymatch goal with
  | |- _ /\ _ => split; intros
  | |- extends _ _ _ => solve [close_extends]
  | |- wp ?m _ _ =>
      lazymatch m with
      | block _ _ _ _ =>
          match goal with
          | |- context [extends ?G ?b _] =>
              apply (wp_block _ G b); [intros ? ?; apply inward_evidence|close_extends|
                                       intros ? ?; wp_simpl]
          end
      | bind (block _ _ _ _) _ => wp_step
      | validateEnrollmentEvidence _ _ _ _ _ _ =>
          unfold validateEnrollmentEvidence; unfold_api; wp_simpl
      | recordCreateAttempt _ _ => unfold recordCreateAttempt; wp_simpl
      | record_registrar_attempt _ _ => unfold record_registrar_attempt; wp_simpl
      | record_enrollment_attempt _ _ => unfold record_enrollment_attempt; wp_simpl
      | _ =>
          first [ wp_step
                | match goal with
                  | |- context [extends ?G ?b _] =>
                      apply (wp_justifies G b);
                      [apply emits_inward; solve [emits_auto]|close_extends
                      |intros [?|?|] ? ? ?; wp_simpl]
                  end ]
      end
  end.

(** Decide the comparisons of kinds and phases whose two sides are constructors. *)
Ltac decide_kinds :=
  repeat match goal with
  | |- context [@eqb Kind ?i ?a ?b] =>
      let v := eval vm_compute in (@eqb Kind i a b) in
      lazymatch v with true => idtac | false => idtac end;
      replace (@eqb Kind i a b) with v by (vm_compute; reflexivity)
  end; cbn [orb andb negb].
Ltac kind_cases w :=
  unfold is_initial_split, is_ksk_or_split, is_split;
  let K := fresh "Hkind" in
  destruct (Workflow.Kind w) eqn:K; decide_kinds.

Ltac in_trace := repeat first [apply list_elem_of_here | apply list_elem_of_further].


(** Assemble a proof of [evidence] from the facts a symbolic execution collected. *)
Ltac prove_evidence :=
  intros; bool_prop; repeat match goal with H : _ \/ _ |- _ => destruct H end;
  try congruence; try assumption;
  lazymatch goal with
  | H : false = true |- _ => discriminate H
  | H : recordedKeys _ _ _ = Ok (_, _) |- _ =>
      apply recordedKeys_Ok in H; destruct H; prove_evidence
  | H : length _ = 0%nat |- _ => apply nil_length_inv in H; prove_evidence
  | H : unit |- _ => destruct H; prove_evidence
  | |- _ /\ _ => split; prove_evidence
  | |- exists _, _ => eexists; prove_evidence
  | |- live _ _ _ => split; prove_evidence
  | |- _ ∈ _ => in_trace
  | |- dnskeys_observed _ _ _ => eexists; in_trace
  | |- ds_observed _ _ _ => unfold ds_observed; in_trace
  | |- dnskey_signed _ _ _ => unfold dnskey_signed; in_trace
  | |- zone_signed _ _ _ => unfold zone_signed; in_trace
  | |- registrar_exact _ _ _ => unfold registrar_exact; prove_evidence
  | |- registrar_before _ _ _ => unfold registrar_before; prove_evidence
  | |- _ => first [match goal with H : ?x = _ |- ?y = _ => constr_eq x y; exact H end | done | congruence]
  end.

(** Execute a handler symbolically up to the external writes that need evidence. *)
Ltac execute_with h split_cases :=
  let wd := fresh "wd" in
  intros wd;
  lazymatch goal with
  | |- extends ?G ?b (trace (snd (?m wd))) =>
      change (wp m (fun _ w' => extends G b w'.(trace)) wd)
  end;
  unfold h; split_cases; unfold_api; wp_simpl; repeat safe_step;
  try (apply extends_cons; [close_extends|cbn -[dur_div Second]]).
Ltac execute h w := execute_with h ltac:(kind_cases w).

#[local] Opaque DNSSECDataForKey sameMaterial validatePrepublishInventory
  validateActiveSplitInventory validateDeactivatedSplitInventory retirementInventory
  recorded_inventory_and_zone byID dur_div.

Section Handlers.
Context {SV : Services} {DL : DnsLib} (c : Config.t).

Lemma deleteOld_evidence zone keys w :
  w.(Workflow.Phase) = PhaseDeleteOld -> justifies (evidence c zone keys w) (deleteOld c zone keys w).
Proof.
  intros Hp. execute @deleteOld w.
  all: split; [done|]; split; [done|].
  all: unfold is_ksk_or_split, is_split; rewrite Hkind; decide_kinds; prove_evidence.
Qed.

Lemma activateNew_evidence zone keys w :
  w.(Workflow.Phase) = PhaseActivateNew ->
  justifies (evidence c zone keys w) (activateNew c zone keys w).
Proof.
  intros Hp. execute @activateNew w.
  all: split; [done|]; split; [done|].
  all: unfold activation_evidence, is_split; rewrite Hkind; decide_kinds; simplify_eq.
  all: repeat match goal with H : validatePrepublishInventory _ _ _ = _ |- _ => rewrite H end.
  all: repeat match goal with H : validateActiveSplitInventory _ _ _ = _ |- _ => rewrite H end.
  all: cbn; prove_evidence.
Qed.

Lemma deactivateOld_evidence zone keys w :
  w.(Workflow.Phase) = PhaseDeactivateOld ->
  justifies (evidence c zone keys w) (deactivateOld c zone keys w).
Proof.
  intros Hp. execute @deactivateOld w.
  all: split; [done|]; split; [done|].
  all: unfold deactivation_evidence; rewrite Hkind.
  all: repeat match goal with H : validateDeactivatedSplitInventory _ _ _ = _ |- _ => rewrite H end.
  all: repeat match goal with H : validateActiveSplitInventory _ _ _ = _ |- _ => rewrite H end.
  all: cbn -[dur_div Second]; prove_evidence.
Qed.

Lemma workflow_at_put k x s : workflow_at (put_workflow k x s) k = x.
Proof. unfold workflow_at, put_workflow. record_simpl. by rewrite lookup_insert_eq. Qed.

Lemma adoptOrCreate_evidence zone keys w typ algorithm oldID active csk zskSlot :
  w.(Workflow.Phase) = PhasePrepublish ->
  (exists old, byID keys w.(Workflow.OldKeyID) = Some old /\ oldID = old.(Key.ID)) ->
  justifies (evidence c zone keys w)
    (adoptOrCreate zone keys w typ algorithm oldID active csk zskSlot).
Proof.
  intros Hp (old & Hold & ->). execute_with @adoptOrCreate idtac.
  all: split; [done|]; split; [done|].
  all: exists zskSlot, csk, old; split_and!; bool_prop; try done.
  all: eexists _, _; split; [done|].
  all: rewrite workflow_at_put; unfold marked; destruct zskSlot; record_simpl; in_trace.
Qed.

Lemma prepublish_evidence zone keys w :
  w.(Workflow.Phase) = PhasePrepublish ->
  justifies (evidence c zone keys w) (prepublish c zone keys w).
Proof.
  intros Hp. unfold prepublish.
  repeat lazymatch goal with
  | |- justifies _ (match ?x with _ => _ end) => destruct x eqn:?
  | |- justifies _ (bind (adoptOrCreate _ _ _ _ _ _ _ _ _) _) =>
      apply justifies_bind; [apply adoptOrCreate_evidence; by eauto|intros; apply emits_inward; emits_auto]
  end.
  all: apply emits_inward; emits_auto.
Qed.

Lemma parentReplace_evidence zone keys w :
  w.(Workflow.Phase) = PhaseParentRemove ->
  justifies (evidence c zone keys w) (parentReplace c zone keys w).
Proof.
  intros Hp. execute @parentReplace w.
  all: split; [done|]; split_and!; bool_prop; try done.
  all: try (eexists _, _; split; [done|]; rewrite workflow_at_put; unfold marked; record_simpl; in_trace).
  all: do 2 eexists; split_and!; [eassumption|done|left].
  all: unfold rollover_write_evidence, is_initial_split, is_split; rewrite Hkind; decide_kinds.
  all: try (rewrite (proj2 (eqb_true _ _)) by eassumption).
  all: try (rewrite (proj2 (eqb_false _ _)) by eassumption).
  all: prove_evidence.
Qed.

Lemma enrollParentAdd_evidence zone keys w :
  justifies (evidence c zone keys w) (enrollParentAdd c zone keys w).
Proof.
  execute_with @enrollParentAdd idtac.
  all: split; [done|]; bool_prop; split_and!; try done.
  all: try (eexists _, _; split; [done|]; rewrite workflow_at_put; unfold marked; record_simpl; in_trace).
  all: do 2 eexists; split_and!; [eassumption|done|right].
  all: split; [done|].
  all: prove_evidence.
Qed.

(** The handler [advance] dispatches to writes only with evidence. *)
Lemma phase_handler_evidence zone keys w h :
  phase_handler c zone keys w = Some h -> justifies (evidence c zone keys w) h.
Proof.
  unfold phase_handler. intros Hh. destruct (Workflow.Phase w) eqn:Hp; simplify_eq.
  all: first [ by apply prepublish_evidence | by apply activateNew_evidence
             | by apply deactivateOld_evidence | by apply deleteOld_evidence
             | by apply parentReplace_evidence | by apply enrollParentAdd_evidence
             | apply emits_inward; solve [emits_auto] ].
Qed.

Lemma advance_evidence zone keys w : justifies (evidence c zone keys w) (advance c zone keys w).
Proof.
  unfold advance. apply justifies_bind; [apply emits_inward; emits_auto|intros [|]].
  - apply emits_inward. emits_auto.
  - destruct (phase_handler c zone keys w) as [h|] eqn:Hh.
    + apply justifies_bind; [by eapply justifies_try, phase_handler_evidence|].
      intros. apply emits_inward. emits_auto.
    + apply emits_inward. emits_auto.
Qed.

End Handlers.
