(* ===== verification/TickSafety.v ===== *)
(** * The evidence for external writes, lifted from one handler to one zone and to a
    whole [Tick]; observe mode and the enrollment handlers as special cases. *)
From S2P Require Import Prelude GoStrings GoTime Model Config Dns Keys KeysFacts Effects.
From S2P Require Import Wp Core Rollover Parent Enroll Reconcile Safety.

Section TickSafety.
Context {SV : Services} {DL : DnsLib} (c : Config.t).

(** A write for [zone] follows a fresh inventory of its keys and belongs to one active
    workflow of the zone. *)
Definition zone_evidence (zone : Zone.t) (past : list Event) (ev : Event) : Prop :=
  is_external_write ev = true ->
  c.(Config.Mode) <> "observe" /\
  exists keys w,
    EvListKeys zone.(Zone.ID) (Ok keys) ∈ past /\
    w.(Workflow.Zone) = zone.(Zone.Name) /\ Active w = true /\
    enrollment_out_of_scope c zone.(Zone.Name) w = false /\
    evidence c zone keys w past ev.

(** A write of a tick is for a listed, signed, validly named zone. *)
Definition tick_evidence (past : list Event) (ev : Event) : Prop :=
  is_external_write ev = true ->
  exists zones zone,
    EvListZones (Ok zones) ∈ past /\ zone ∈ zones /\ zone.(Zone.DNSSEC) = true /\
    valid_zone_name zone.(Zone.Name) = true /\ zone_evidence zone past ev.

Lemma inward_zone zone past ev : inward ev -> zone_evidence zone past ev.
Proof. unfold inward, zone_evidence. congruence. Qed.
Lemma inward_tick past ev : inward ev -> tick_evidence past ev.
Proof. unfold inward, tick_evidence. congruence. Qed.

Lemma extends_zone_evidence zone keys w base tr :
  c.(Config.Mode) <> "observe" -> EvListKeys zone.(Zone.ID) (Ok keys) ∈ base ->
  w.(Workflow.Zone) = zone.(Zone.Name) -> Active w = true ->
  enrollment_out_of_scope c zone.(Zone.Name) w = false ->
  extends (evidence c zone keys w) base tr -> extends (zone_evidence zone) base tr.
Proof.
  intros Hm Hk Hz Ha Hs H. induction H as [|ev tr H IH Hev]; constructor; [done|].
  intros _. split; [done|]. exists keys, w. split_and!; try done. by eapply extends_elem.
Qed.

Lemma extends_tick_evidence zones zone base tr :
  EvListZones (Ok zones) ∈ base -> zone ∈ zones -> zone.(Zone.DNSSEC) = true ->
  valid_zone_name zone.(Zone.Name) = true ->
  extends (zone_evidence zone) base tr -> extends tick_evidence base tr.
Proof.
  intros Hl Hz Hd Hv H. induction H as [|ev tr H IH Hev]; constructor; [done|].
  intros Hw. exists zones, zone. split_and!; try done. by eapply extends_elem.
Qed.

Lemma inward_bootstrap zone scheme keys : emits inward (bootstrap c zone scheme keys).
Proof. emits_auto. Qed.
Lemma inward_start zone kind manual idem : emits inward (start zone kind manual idem).
Proof. emits_auto. Qed.

Lemma active_workflows_elem name ws w :
  w ∈ active_workflows name ws -> w.(Workflow.Zone) = name /\ Active w = true.
Proof.
  unfold active_workflows. rewrite list_elem_of_In, filter_In. intros [_ H].
  bool_prop. done.
Qed.
End TickSafety.

#[export] Hint Resolve inward_bootstrap inward_start : emits.

Section Lifting.
Context {SV : Services} {DL : DnsLib} (c : Config.t).

Lemma reconcileZone_evidence zone : justifies (zone_evidence c zone) (reconcileZone c zone).
Proof.
  intros wd.
  change (wp (reconcileZone c zone)
    (fun _ w' => extends (zone_evidence c zone) wd.(trace) w'.(trace)) wd).
  assert (Hin : forall {A} (m : M A), emits inward m -> justifies (zone_evidence c zone) m).
  { intros A m. apply justifies_emits. apply inward_zone. }
  unfold reconcileZone, ListKeys. wp_step. wp_step; [|by constructor; [constructor|apply inward_zone]].
  destruct (Config.Mode c == "observe") eqn:Hm; bool_prop; [wp_step; by constructor; [constructor|apply inward_zone]|].
  wp_step. apply (wp_justifies (zone_evidence c zone) wd.(trace));
    [apply Hin, inward_bootstrap|by constructor; [constructor|apply inward_zone]|].
  intros [?|?|] w1 Hx Hkeys; wp_simpl; try done.
  cbn [trace] in Hkeys. repeat wp_step.
  all: try solve [repeat first [exact Hx | apply extends_cons; [|by apply inward_zone]]].
  all: try solve [apply (wp_justifies (zone_evidence c zone) wd.(trace));
                  [apply Hin; solve [emits_auto]
                  |repeat first [exact Hx | apply extends_cons; [|by apply inward_zone]]
                  |by intros]].
  match goal with H : active_workflows _ _ = [?w] |- _ =>
    destruct (active_workflows_elem (Zone.Name zone) l w) as [Hw1 Hw2]; [rewrite H; by left|]
  end.
  eapply extends_trans; [exact Hx|].
  eapply extends_zone_evidence; [exact Hm| |exact Hw1|exact Hw2|eassumption
                                |refine (advance_evidence c zone a _ (mkWorld _ _ _))].
  eapply extends_elem; [exact Hkeys|by left].
Qed.

Lemma tick_zone_evidence zones st z seen wd :
  EvListZones (Ok zones) ∈ wd.(trace) -> z ∈ zones ->
  extends (tick_evidence c) wd.(trace) (tick_zone c st z seen wd).2.(trace).
Proof.
  intros Hl Hz. unfold tick_zone. cbv zeta.
  destruct (valid_zone_name (Zone.Name z)) eqn:Hv; [|constructor]. cbn [negb].
  destruct (Zone.DNSSEC z) eqn:Hd; [|constructor]. cbn [negb orb].
  destruct (_ && _); [constructor|].
  assert (H : extends (tick_evidence c) wd.(trace) (try (reconcileZone c z) wd).2.(trace)).
  { eapply extends_tick_evidence; try done. apply justifies_try, reconcileZone_evidence. }
  revert H. unfold bind. destruct (try (reconcileZone c z) wd) as [[[]| |] w1]; done.
Qed.

Lemma tick_zones_evidence all st zones seen errs wd :
  EvListZones (Ok all) ∈ wd.(trace) -> zones ⊆ all ->
  extends (tick_evidence c) wd.(trace) (tick_zones c st zones seen errs wd).2.(trace).
Proof.
  revert seen errs wd. induction zones as [|z zones IH]; intros seen errs wd Hl Hsub;
    [constructor|]. cbn [tick_zones]. unfold bind.
  pose proof (tick_zone_evidence all st z seen wd Hl ltac:(set_solver)) as H1.
  destruct (tick_zone c st z seen wd) as [[[seen' es]|e|] w1]; cbn [fst snd] in *; try done.
  eapply extends_trans; [exact H1|]. apply IH; [|set_solver]. by eapply extends_elem.
Qed.

Lemma inward_block_vanished seen ws errs : emits inward (block_vanished c seen ws errs).
Proof.
  revert errs. induction ws as [|[k w] ws IH]; intros errs; cbn [block_vanished]; emits_auto.
  all: apply IH.
Qed.

Lemma inward_deliver_all now st ids : emits inward (deliver_all now st ids).
Proof. induction ids; cbn [deliver_all]; emits_auto. Qed.

Lemma inward_deliverNotifications : emits inward (deliverNotifications c).
Proof.
  unfold deliverNotifications. pose proof inward_deliver_all. repeat (cbv beta zeta; emits_step).
  all: try done.
Qed.

Lemma Tick_evidence : justifies (tick_evidence c) (Tick c).
Proof.
  intros wd.
  change (wp (Tick c) (fun _ w' => extends (tick_evidence c) wd.(trace) w'.(trace)) wd).
  assert (Hin : forall {A} (m : M A), emits inward m -> justifies (tick_evidence c) m).
  { intros A m. apply justifies_emits. apply inward_tick. }
  unfold Tick, ListZones. wp_step.
  eapply wp_justifies; [apply Hin|constructor|].
  { pose proof inward_deliverNotifications. destruct (_ == "enforce"); emits_auto. }
  intros [errs|?|] w1 H1 _; wp_simpl; try done.
  do 3 wp_step.
  2: { eapply wp_justifies; [apply Hin; emits_auto| |by intros]. constructor; [exact H1|by apply inward_tick]. }
  do 3 wp_step.
  match goal with |- wp _ _ ?w => set (w2 := w) end.
  assert (H2 : extends (tick_evidence c) wd.(trace) w2.(trace))
    by (constructor; [exact H1|by apply inward_tick]).
  pose proof (tick_zones_evidence a w1.(data) a [] errs w2 ltac:(left) ltac:(done)) as H3.
  unfold wp. destruct (tick_zones c _ a [] errs w2) as [[[seen errs']|e|] w3];
    cbn [fst snd] in *; cbv beta iota.
  2,3: solve [eapply extends_trans; [exact H2|exact H3]].
  eapply extends_trans; [exact H2|]. eapply extends_trans; [exact H3|].
  apply Hin. pose proof inward_block_vanished.
  destruct (_ == "enforce"); emits_auto.
Qed.

End Lifting.

(** ** The theorems *)
Section Claims.
Context {SV : Services} {DL : DnsLib} (c : Config.t).

Lemma advance_event zone keys w wd n1 ev past :
  wd.(trace) = [] -> (advance c zone keys w wd).2.(trace) = n1 ++ ev :: past ->
  evidence c zone keys w past ev.
Proof.
  intros Hw Ht. pose proof (advance_evidence c zone keys w wd) as H.
  rewrite Hw, Ht in H. by apply extends_nil_inv in H.
Qed.


(** C2: a key is deleted only by a workflow in [delete_old], only the recorded old key
    and only while it is inactive; before the call the recorded replacement is active and
    published, the replacement DNSKEY set is visible, and (KSK, split) its DNSKEY signature
    and the parent's DS were observed recursively and authoritatively, (ZSK, split) the
    replacement signer's zone signature, (split) the registrar holds exactly its material,
    (ZSK, KSK) the whole inventory is exactly the retirement inventory. *)
Theorem delete_only_after_replacement zone keys w (wd : World) n1 zid id r past :
  wd.(trace) = [] ->
  (advance c zone keys w wd).2.(trace) = n1 ++ EvDeleteKey zid id r :: past ->
  zid = zone.(Zone.ID) /\ deletion_evidence zone keys w past id.
Proof. apply advance_event. Qed.

(** C3: a key is deactivated only by a workflow in [deactivate_old], only the recorded,
    still active old key, and stays published; before the call the replacement is active and
    published, the published DNSKEY set is visible, the replacement's zone signature (ZSK) or
    DNSKEY signature and parent DS (KSK, split) were observed, a split workflow's inventory is
    exactly the one its phase allows, and the zone's largest TTL read in this run does not
    exceed the TTL already waited for. *)
Theorem deactivate_only_after_proof zone keys w (wd : World) n1 zid k published r past :
  wd.(trace) = [] ->
  (advance c zone keys w wd).2.(trace) = n1 ++ EvSetKey zid k false published r :: past ->
  zid = zone.(Zone.ID) /\ published = true /\ deactivation_evidence zone keys w past k.
Proof. apply advance_event. Qed.

(** C4: a key is activated only by a workflow in [activate_new]: the recorded replacement
    signer, found inactive in the inventory; for a split workflow the inventory is exactly
    the pre-activation or the post-activation inventory. *)
Theorem activate_only_recorded_signer zone keys w (wd : World) n1 zid k published r past :
  wd.(trace) = [] ->
  (advance c zone keys w wd).2.(trace) = n1 ++ EvSetKey zid k true published r :: past ->
  zid = zone.(Zone.ID) /\ published = true /\ activation_evidence keys w zone.(Zone.Name) k.
Proof. apply advance_event. Qed.

(** C5: the registrar's DNSSEC material is written only when no earlier attempt is recorded,
    with the transaction ID recorded before, immediately after the attempt time was durably
    stored; the material is exactly the recorded replacement key's, and the keys, the
    registrar's previous content (exactly the old key's material, or nothing together with a
    proof of DS absence), the DNSKEY set and its signature were verified in this run. *)
Theorem registrar_write_follows_intent zone keys w (wd : World) n1 name data ctid r past :
  wd.(trace) = [] ->
  (advance c zone keys w wd).2.(trace) = n1 ++ EvUpdateDNSSEC name data ctid r :: past ->
  registrar_evidence c zone keys w past name data ctid.
Proof. apply advance_event. Qed.

End Claims.
