(* ===== verification/Phases.v ===== *)
(** * The phases of docs/spec.md as an abstract machine, and the refinement: one
    [advance] leaves the stored phase alone or takes one step of that machine, and
    touches nothing of the store but its own workflow. *)
From S2P Require Import Prelude GoStrings GoTime Model Config Dns Keys Effects Wp Core.
From S2P Require Import Rollover Parent Enroll Reconcile Safety.

(** ** The specification *)
(** The phase chains of the four kinds. *)
Definition zsk_chain : list Phase :=
  [PhasePrepublish; PhaseWaitPublish; PhaseActivateNew; PhaseWaitNewSignature;
   PhaseDeactivateOld; PhaseWaitRetire; PhaseDeleteOld; PhaseIdle].
Definition ksk_chain : list Phase :=
  [PhasePrepublish; PhaseWaitPublish; PhaseParentRemove; PhaseWaitParentRemove;
   PhaseDeactivateOld; PhaseDeleteOld; PhaseIdle].
Definition split_chain : list Phase :=
  [PhasePrepublish; PhaseWaitPublish; PhaseParentRemove; PhaseWaitParentRemove;
   PhaseActivateNew; PhaseWaitNewSignature; PhaseDeactivateOld; PhaseWaitRetire;
   PhaseDeleteOld; PhaseIdle].
Definition enroll_chain : list Phase :=
  [PhaseEnrollDiscovered; PhaseEnrollWaitPublish; PhaseEnrollParentAdd; PhaseEnrollWaitParent;
   PhaseIdle].
Definition chain (kind : Kind) : list Phase :=
  match kind with
  | KindZSK => zsk_chain
  | KindKSK => ksk_chain
  | KindSplit => split_chain
  | KindEnroll => enroll_chain
  | KindOther _ => []
  end.

(** [q] follows [p] directly in [l]. *)
Fixpoint next_in (p q : Phase) (l : list Phase) : bool :=
  match l with
  | a :: (b :: _) as l' => ((a == p) && (b == q)) || next_in p q l'
  | _ => false
  end.

Inductive spec_step (kind : Kind) (p : Phase) : Phase -> Prop :=
| step_next q : next_in p q (chain kind) = true -> spec_step kind p q
| step_block : spec_step kind p PhaseBlocked
(** An already delegated zone is adopted, a zone that lost its split keys is dismissed. *)
| step_adopt : kind = KindEnroll -> p = PhaseEnrollDiscovered -> spec_step kind p PhaseIdle
(** The signer-transition evidence is re-proven before the old key is deactivated; a
    larger live TTL restarts the wait. *)
| step_restart : kind = KindSplit -> p = PhaseDeactivateOld -> spec_step kind p PhaseWaitNewSignature.

(** The phase belongs to the kind's chain. *)
Definition well_phased (w : Workflow.t) : Prop :=
  w.(Workflow.Phase) ∈ chain w.(Workflow.Kind).

Lemma well_phased_step kind p q : spec_step kind p q -> q = PhaseBlocked \/ q ∈ chain kind.
Proof.
  intros [q' H| | -> _ | -> _]; [right|by left|right; set_solver..].
  induction (chain kind) as [|a [|b l] IH]; [done..|]. cbn in H. bool_prop.
  destruct H as [[_ <-]|H]; [by right; left|]. right. by apply IH.
Qed.

(** ** The relation one run of a handler keeps *)
Section Relation.
Variable w : Workflow.t.

Definition own_key : string := WorkflowKey w.(Workflow.Zone) w.(Workflow.Kind).
(** Completing an enrollment also writes the zone's two role workflows. *)
Definition role_keys : list string :=
  if w.(Workflow.Kind) == KindEnroll
  then [WorkflowKey w.(Workflow.Zone) KindKSK; WorkflowKey w.(Workflow.Zone) KindZSK] else [].
Definition stored_phase (s : State.t) : Phase := (workflow_at s own_key).(Workflow.Phase).

(** The own entry before and after: its phase stays or becomes a target, and it keeps
    its owner or gets the one of [w]. *)
Record entry_step (target : Phase -> Prop) (x y : Workflow.t) : Prop := {
  entry_phase : y.(Workflow.Phase) = x.(Workflow.Phase) \/ target y.(Workflow.Phase);
  entry_owner :
    (y.(Workflow.Zone) = x.(Workflow.Zone) /\ y.(Workflow.Kind) = x.(Workflow.Kind)) \/
    (y.(Workflow.Zone) = w.(Workflow.Zone) /\ y.(Workflow.Kind) = w.(Workflow.Kind));
}.

(** A role entry an enrollment completed. *)
Definition role_done (k : string) (s : State.t) : Prop :=
  exists x, s.(State.Workflows) !! k = Some x /\
    k = WorkflowKey x.(Workflow.Zone) x.(Workflow.Kind) /\
    x.(Workflow.Zone) = w.(Workflow.Zone) /\ x.(Workflow.Phase) = PhaseIdle /\
    x.(Workflow.Kind) ∈ named_kinds.

Record follows (target : Phase -> Prop) (s s' : State.t) : Prop := {
  follows_frame k : k <> own_key -> k ∉ role_keys ->
    s'.(State.Workflows) !! k = s.(State.Workflows) !! k;
  follows_roles k : k <> own_key -> k ∈ role_keys ->
    s'.(State.Workflows) !! k = s.(State.Workflows) !! k \/ role_done k s';
  follows_idempotency : s'.(State.Idempotency) = s.(State.Idempotency);
  follows_armed : s'.(State.EnrollmentArmedAt) = s.(State.EnrollmentArmedAt);
  follows_version : s'.(State.Version) = s.(State.Version);
  follows_entry : entry_step target (workflow_at s own_key) (workflow_at s' own_key);
}.

#[export] Instance follows_refl target : Reflexive (follows target).
Proof. intros s. split; auto. split; auto. Qed.
#[export] Instance follows_trans target : Transitive (follows target).
Proof.
  intros s1 s2 s3 [F1 R1 I1 A1 V1 [P1 O1]] [F2 R2 I2 A2 V2 [P2 O2]]. split; try congruence.
  - intros k Hk Hr. rewrite F2, F1; done.
  - intros k Hk Hr. unfold role_done in *. destruct (R2 k Hk Hr) as [->|]; auto.
  - split; [destruct P2 as [->|]; auto|].
    destruct O2 as [[-> ->]|]; auto.
Qed.

Lemma follows_put (target : Phase -> Prop) x s :
  entry_step target (workflow_at s own_key) x -> follows target s (put_workflow own_key x s).
Proof.
  intros Hx. split; try done.
  - intros k Hk _. unfold put_workflow; record_simpl. by rewrite lookup_insert_ne.
  - intros k Hk _. left. unfold put_workflow; record_simpl. by rewrite lookup_insert_ne.
  - unfold put_workflow, workflow_at at 2; record_simpl. by rewrite lookup_insert_eq.
Qed.

(** The entry is rewritten with its owner untouched. *)
Lemma entry_same target x y :
  y.(Workflow.Phase) = x.(Workflow.Phase) \/ target y.(Workflow.Phase) ->
  y.(Workflow.Zone) = x.(Workflow.Zone) -> y.(Workflow.Kind) = x.(Workflow.Kind) ->
  entry_step target x y.
Proof. intros. split; auto. Qed.

Lemma follows_notification target n e s s' :
  follows target s s' -> follows target s (put_notification n e s').
Proof. by intros []. Qed.
End Relation.

(** ** Every state change of a handler keeps the relation *)
Section Keeps.
Context {SV : Services} {DL : DnsLib} (c : Config.t) (w : Workflow.t) (target : Phase -> Prop).

Lemma yields_wp {A} (S : A -> Prop) (m : M A) :
  (forall wd, wp m (fun o w' => w'.(data) = wd.(data) /\ forall a, o = Val a -> S a) wd) ->
  yields S m.
Proof. done. Qed.

(** A mutation of [transition] leaves the phase and the owner it was given. *)
Definition kept (x y : Workflow.t) : Prop :=
  y.(Workflow.Phase) = x.(Workflow.Phase) /\ y.(Workflow.Zone) = x.(Workflow.Zone) /\
  y.(Workflow.Kind) = x.(Workflow.Kind).
Definition phase_kept (mutate : Workflow.t -> M Workflow.t) : Prop :=
  forall x, yields (kept x) (mutate x).

Lemma phase_kept_ret f : (forall x, kept x (f x)) -> phase_kept (fun x => ret (f x)).
Proof. intros H x. by apply yields_ret. Qed.
Lemma phase_kept_now f :
  (forall now x, kept x (f now x)) -> phase_kept (fun x => let* now := Now in ret (f now x)).
Proof.
  intros H x. eapply (yields_bind (fun _ => True)); [by apply yields_Now|].
  intros now _. by apply yields_ret.
Qed.

Lemma keeps_transition phase next mutate :
  phase_kept mutate -> target phase ->
  keeps (follows w target) (transition w phase next mutate).
Proof.
  intros Hm Hp. unfold transition. apply keeps_Update; [apply _|]. intros s.
  eapply (yields_bind (fun _ => True)); [by apply yields_Now|]. intros now _. cbv zeta.
  eapply yields_bind; [apply Hm|]. cbn beta. intros y (Hy & Hz & Hk).
  apply yields_ret, follows_put, entry_same; [right; rewrite Hy|rewrite Hz|rewrite Hk]; done.
Qed.

Lemma keeps_block {A} name kind reason :
  name = w.(Workflow.Zone) -> kind = w.(Workflow.Kind) -> target PhaseBlocked ->
  keeps (follows w target) (block (A := A) c name kind reason).
Proof.
  intros -> -> Hp. unfold block. apply keeps_bind; [apply _| |intros; apply keeps_fail; apply _].
  apply keeps_try, keeps_Update; [apply _|]. intros s. cbv zeta.
  set (x := _ <| Workflow.NextActionAt := _ |>).
  assert (H : follows w target s (put_workflow (own_key w) x s))
    by (apply follows_put; split; right; done).
  apply yields_wp. intros wd. fold (own_key w).
  repeat wp_step; split; try done; intros ? [= <-]; by try apply follows_notification.
Qed.

Lemma keeps_recordRetry e : keeps (follows w target) (recordRetry w e).
Proof.
  unfold recordRetry. apply keeps_Update; [apply _|]. intros s. cbv zeta.
  eapply (yields_bind (fun _ => True)).
  { intros wd. unfold backoff. by case_match. }
  intros b _. eapply (yields_bind (fun _ => True)); [by apply yields_Now|]. intros now _.
  apply yields_ret, follows_put, entry_same; auto.
Qed.

Lemma keeps_recordCreateAttempt slot : keeps (follows w target) (recordCreateAttempt w slot).
Proof.
  unfold recordCreateAttempt. apply keeps_bind; [apply _|apply keeps_Now; apply _|]. intros now.
  apply keeps_Update; [apply _|]. intros s. cbv zeta. apply yields_wp. intros wd.
  repeat wp_step; split; try done; intros ? [= <-]; apply follows_put.
  all: unfold own_key, workflow_at.
  all: match goal with H : _ !! _ = Some _ |- _ => rewrite H end.
  all: apply entry_same; destruct slot; auto.
Qed.

Lemma keeps_record_registrar_attempt t : keeps (follows w target) (record_registrar_attempt w t).
Proof.
  unfold record_registrar_attempt. apply keeps_Update; [apply _|]. intros s.
  apply yields_ret, follows_put, entry_same; auto.
Qed.

Lemma keeps_record_enrollment_attempt t :
  keeps (follows w target) (record_enrollment_attempt w t).
Proof.
  unfold record_enrollment_attempt. apply keeps_Update; [apply _|]. intros s. cbv zeta.
  apply yields_wp. intros wd. repeat wp_step; split; try done; intros ? [= <-].
  apply follows_put, entry_same; auto.
Qed.

Lemma keeps_mark_ineligible : target PhaseIdle -> keeps (follows w target) (mark_ineligible w).
Proof.
  intros Hp. unfold mark_ineligible. apply keeps_Update; [apply _|]. intros s. cbv zeta.
  apply yields_wp. intros wd. repeat wp_step; split; try done; intros ? [= <-].
  apply follows_put, entry_same; auto.
Qed.

Lemma lookup_idle_roles now s k :
  k ∉ [WorkflowKey w.(Workflow.Zone) KindKSK; WorkflowKey w.(Workflow.Zone) KindZSK] ->
  (fold_left (idle_role w now) [KindKSK; KindZSK] s).(State.Workflows) !! k
  = s.(State.Workflows) !! k.
Proof.
  intros Hk. cbn. unfold idle_role, put_workflow. record_simpl.
  rewrite !lookup_insert_ne by set_solver. done.
Qed.

Lemma role_done_idle_roles now s k :
  k ∈ [WorkflowKey w.(Workflow.Zone) KindKSK; WorkflowKey w.(Workflow.Zone) KindZSK] ->
  role_done w k (fold_left (idle_role w now) [KindKSK; KindZSK] s).
Proof.
  intros Hk. unfold role_done. cbn. unfold idle_role, put_workflow. record_simpl.
  destruct (decide (k = WorkflowKey w.(Workflow.Zone) KindZSK)) as [->|Hne].
  - rewrite lookup_insert_eq. eexists. split_and!; [done..|set_solver].
  - assert (k = WorkflowKey w.(Workflow.Zone) KindKSK) as -> by set_solver.
    rewrite lookup_insert_ne by done. rewrite lookup_insert_eq.
    eexists. split_and!; [done..|set_solver].
Qed.

Lemma follows_idle_roles now s x :
  w.(Workflow.Kind) = KindEnroll ->
  entry_step w target (workflow_at s (own_key w)) x ->
  follows w target s
    (put_workflow (own_key w) x (fold_left (idle_role w now) [KindKSK; KindZSK] s)).
Proof.
  intros Hk Hx. split; try done.
  - unfold role_keys. rewrite Hk, eqb_refl. intros k Hne Hr.
    rewrite <- (lookup_idle_roles now s k Hr). unfold put_workflow; record_simpl.
    by rewrite lookup_insert_ne.
  - unfold role_keys. rewrite Hk, eqb_refl. intros k Hne Hr. right.
    destruct (role_done_idle_roles now s k Hr) as (y & Hy & Hy').
    exists y. split; [|done]. unfold put_workflow; record_simpl. by rewrite lookup_insert_ne.
  - unfold put_workflow, workflow_at at 2; record_simpl. by rewrite lookup_insert_eq.
Qed.

Lemma keeps_complete : target PhaseIdle -> keeps (follows w target) (complete c w).
Proof.
  intros Hp. unfold complete. apply keeps_bind; [apply _|apply keeps_Now; apply _|]. intros now.
  cbv zeta. apply keeps_Update; [apply _|]. intros s. apply yields_wp. intros wd.
  fold (own_key w).
  destruct (Workflow.Kind w == KindEnroll) eqn:HE; bool_prop; apply wp_ret; split; try done.
  all: intros ? [= <-]; destruct (LMTP.Enabled (Config.LMTP c)); try apply follows_notification.
  all: first [apply follows_idle_roles|apply follows_put]; try done.
  all: match goal with |- context [if ?b then _ else _] => destruct b end; split; right; done.
Qed.
End Keeps.

(** ** Every handler keeps it *)
(** What the phase stored for [w] may become. *)
Definition allowed (w : Workflow.t) (p : Phase) : Prop :=
  p = w.(Workflow.Phase) \/ spec_step w.(Workflow.Kind) w.(Workflow.Phase) p.

Ltac solve_allowed :=
  unfold allowed;
  repeat match goal with
  | H : Workflow.Phase ?w = _ |- context [Workflow.Phase ?w] => rewrite H
  | H : Workflow.Kind ?w = _ |- context [Workflow.Kind ?w] => rewrite H
  end;
  first [ left; reflexivity | right; apply step_block
        | right; apply step_next; vm_compute; reflexivity
        | right; apply step_adopt; reflexivity | right; apply step_restart; reflexivity ].

Ltac phases_step :=
  lazymatch goal with
  | |- keeps (follows ?w _) ?m =>
      lazymatch m with
      | transition _ _ _ _ => apply keeps_transition; [|solve_allowed]
      | block _ _ _ _ => apply keeps_block; [solve [auto]|solve [auto]|solve_allowed]
      | complete _ _ => apply keeps_complete; solve_allowed
      | mark_ineligible _ => apply keeps_mark_ineligible; solve_allowed
      | recordRetry _ _ => apply keeps_recordRetry
      | recordCreateAttempt _ _ => apply keeps_recordCreateAttempt
      | record_registrar_attempt _ _ => apply keeps_record_registrar_attempt
      | record_enrollment_attempt _ _ => apply keeps_record_enrollment_attempt
      | _ => keeps_step
      end
  | |- phase_kept (fun x => let* now := Now in _) => apply phase_kept_now; done
  | |- phase_kept (fun x => ret _) => apply phase_kept_ret; done
  | |- phase_kept ?m => let h := head_of m in unfold h
  | |- _ => keeps_step
  end; cbv beta zeta.

Section Handlers.
Context {SV : Services} {DL : DnsLib} (c : Config.t) (zone : Zone.t) (keys : list Key.t).
Context (w : Workflow.t) (Hzone : zone.(Zone.Name) = w.(Workflow.Zone)).

Ltac follows_handler h w Hw Hp :=
  unfold well_phased in Hw; rewrite Hp in Hw; unfold h; kind_cases w;
  try (exfalso; apply (bool_decide_eq_true_2 _) in Hw; discriminate Hw);
  repeat phases_step.

Lemma follows_adoptOrCreate typ algorithm oldID active csk slot :
  keeps (follows w (allowed w)) (adoptOrCreate zone keys w typ algorithm oldID active csk slot).
Proof. unfold adoptOrCreate. repeat phases_step. Qed.
#[local] Hint Resolve follows_adoptOrCreate : keeps.

Lemma follows_prepublish :
  well_phased w -> w.(Workflow.Phase) = PhasePrepublish ->
  keeps (follows w (allowed w)) (prepublish c zone keys w).
Proof. intros Hw Hp. follows_handler @prepublish w Hw Hp. Qed.

Lemma follows_waitPublish :
  well_phased w -> w.(Workflow.Phase) = PhaseWaitPublish ->
  keeps (follows w (allowed w)) (waitPublish c zone keys w).
Proof. intros Hw Hp. follows_handler @waitPublish w Hw Hp. Qed.

Lemma follows_activateNew :
  well_phased w -> w.(Workflow.Phase) = PhaseActivateNew ->
  keeps (follows w (allowed w)) (activateNew c zone keys w).
Proof. intros Hw Hp. follows_handler @activateNew w Hw Hp. Qed.

Lemma follows_waitNewSignature :
  well_phased w -> w.(Workflow.Phase) = PhaseWaitNewSignature ->
  keeps (follows w (allowed w)) (waitNewSignature c zone keys w).
Proof. intros Hw Hp. follows_handler @waitNewSignature w Hw Hp. Qed.

Lemma follows_deactivateOld :
  well_phased w -> w.(Workflow.Phase) = PhaseDeactivateOld ->
  keeps (follows w (allowed w)) (deactivateOld c zone keys w).
Proof. intros Hw Hp. follows_handler @deactivateOld w Hw Hp. Qed.

Lemma follows_parentReplace :
  well_phased w -> w.(Workflow.Phase) = PhaseParentRemove ->
  keeps (follows w (allowed w)) (parentReplace c zone keys w).
Proof. intros Hw Hp. follows_handler @parentReplace w Hw Hp. Qed.

Lemma follows_waitParentReplace :
  well_phased w -> w.(Workflow.Phase) = PhaseWaitParentRemove ->
  keeps (follows w (allowed w)) (waitParentReplace c zone keys w).
Proof. intros Hw Hp. follows_handler @waitParentReplace w Hw Hp. Qed.

Lemma follows_waitRetire :
  well_phased w -> w.(Workflow.Phase) = PhaseWaitRetire ->
  keeps (follows w (allowed w)) (waitRetire c zone keys w).
Proof. intros Hw Hp. follows_handler @waitRetire w Hw Hp. Qed.

Lemma follows_deleteOld :
  well_phased w -> w.(Workflow.Phase) = PhaseDeleteOld ->
  keeps (follows w (allowed w)) (deleteOld c zone keys w).
Proof. intros Hw Hp. follows_handler @deleteOld w Hw Hp. Qed.

Lemma follows_enrollDiscovered :
  well_phased w -> w.(Workflow.Phase) = PhaseEnrollDiscovered ->
  keeps (follows w (allowed w)) (enrollDiscovered c zone keys w).
Proof. intros Hw Hp. follows_handler @enrollDiscovered w Hw Hp. Qed.

Lemma follows_enrollWaitPublish :
  well_phased w -> w.(Workflow.Phase) = PhaseEnrollWaitPublish ->
  keeps (follows w (allowed w)) (enrollWaitPublish c zone keys w).
Proof. intros Hw Hp. follows_handler @enrollWaitPublish w Hw Hp. Qed.

Lemma follows_enrollParentAdd :
  well_phased w -> w.(Workflow.Phase) = PhaseEnrollParentAdd ->
  keeps (follows w (allowed w)) (enrollParentAdd c zone keys w).
Proof. intros Hw Hp. follows_handler @enrollParentAdd w Hw Hp. Qed.

Lemma follows_enrollWaitParent :
  well_phased w -> w.(Workflow.Phase) = PhaseEnrollWaitParent ->
  keeps (follows w (allowed w)) (enrollWaitParent c zone keys w).
Proof. intros Hw Hp. follows_handler @enrollWaitParent w Hw Hp. Qed.

Lemma follows_phase_handler h :
  well_phased w -> phase_handler c zone keys w = Some h -> keeps (follows w (allowed w)) h.
Proof.
  unfold phase_handler. intros Hw Hh. destruct (Workflow.Phase w) eqn:Hp; simplify_eq.
  - by apply follows_prepublish.
  - by apply follows_waitPublish.
  - by apply follows_activateNew.
  - by apply follows_waitNewSignature.
  - by apply follows_deactivateOld.
  - by apply follows_parentReplace.
  - by apply follows_waitParentReplace.
  - by apply follows_waitRetire.
  - by apply follows_deleteOld.
  - by apply follows_enrollDiscovered.
  - by apply follows_enrollWaitPublish.
  - by apply follows_enrollParentAdd.
  - by apply follows_enrollWaitParent.
Qed.

Lemma follows_advance :
  well_phased w -> keeps (follows w (allowed w)) (advance c zone keys w).
Proof.
  intros Hw. unfold advance. apply keeps_bind; [apply _|repeat phases_step|intros [|]].
  - repeat phases_step.
  - destruct (phase_handler c zone keys w) as [h|] eqn:Hh; [|repeat phases_step].
    pose proof (follows_phase_handler h Hw Hh). repeat phases_step.
Qed.
End Handlers.

Section Claims.
Context {SV : Services} {DL : DnsLib} (c : Config.t).

(** C8: [advance] refines the phase machine of docs/spec.md.  From a workflow in a phase of
    its kind's chain, the stored phase afterwards is unchanged or one [spec_step] away;
    no other workflow entry (but for the two role entries a completed enrollment sets
    idle), idempotency record or arming time changes, whatever the services answer and
    wherever a write fails. *)
Theorem advance_refines_spec zone keys w wd :
  zone.(Zone.Name) = w.(Workflow.Zone) -> well_phased w ->
  workflow_at wd.(data) (own_key w) = w ->
  let s' := (advance c zone keys w wd).2.(data) in
  (stored_phase w s' = w.(Workflow.Phase) \/
   spec_step w.(Workflow.Kind) w.(Workflow.Phase) (stored_phase w s')) /\
  (forall k, k <> own_key w -> k ∉ role_keys w ->
     s'.(State.Workflows) !! k = wd.(data).(State.Workflows) !! k) /\
  s'.(State.Idempotency) = wd.(data).(State.Idempotency) /\
  s'.(State.EnrollmentArmedAt) = wd.(data).(State.EnrollmentArmedAt).
Proof.
  intros Hz Hw Hs. destruct (follows_advance c zone keys w Hz Hw wd) as [F _ I A _ [P _]].
  split; [|done]. rewrite Hs in P. destruct P as [P|[P|P]]; auto.
Qed.
End Claims.
