(* ===== verification/Single.v ===== *)
(** * "Each zone has at most one active workflow" (docs/spec.md): the invariant of the
    persisted state, and the operations that keep it. *)
From S2P Require Import Prelude GoStrings GoTime GoNetFacts Model Config Dns Keys Effects Wp Core.
From S2P Require Import Rollover Parent Enroll Reconcile Operator Phases.

(** ** Workflow keys *)
Fixpoint has_bar (l : list ascii) : bool :=
  match l with
  | [] => false
  | a :: l' => Ascii.eqb a "|"%char || has_bar l'
  end.

Lemma bar_split_inj l1 l2 r1 r2 :
  has_bar r1 = false -> has_bar r2 = false ->
  l1 ++ "|"%char :: r1 = l2 ++ "|"%char :: r2 -> l1 = l2 /\ r1 = r2.
Proof.
  assert (Hno : forall l r (r' : list ascii), has_bar r' = false -> l ++ "|"%char :: r <> r').
  { intros l. induction l as [|a l IH]; intros r r' Hr <-; cbn in Hr.
    - done.
    - bool_prop. by eapply IH. }
  intros H1 H2. revert l2. induction l1 as [|a l1 IH]; intros [|b l2] H; cbn in H; simplify_eq.
  - done.
  - exfalso. eapply Hno; [exact H1|reflexivity].
  - exfalso. eapply Hno; [exact H2|reflexivity].
  - match goal with E : l1 ++ _ = l2 ++ _ |- _ => by destruct (IH l2 E) as [-> ->] end.
Qed.

Lemma named_no_bar kind : kind ∈ named_kinds -> has_bar (bytes (Kind_string kind)) = false.
Proof.
  unfold named_kinds. rewrite !elem_of_cons, elem_of_nil.
  intros [-> | [-> | [-> | [-> | []]]]]; reflexivity.
Qed.
Lemma Kind_string_inj k1 k2 :
  k1 ∈ named_kinds -> k2 ∈ named_kinds -> Kind_string k1 = Kind_string k2 -> k1 = k2.
Proof.
  unfold named_kinds. rewrite !elem_of_cons, !elem_of_nil.
  intros [-> | [-> | [-> | [-> | []]]]] [-> | [-> | [-> | [-> | []]]]]; done.
Qed.

Lemma WorkflowKey_inj z1 k1 z2 k2 :
  k1 ∈ named_kinds -> k2 ∈ named_kinds ->
  WorkflowKey z1 k1 = WorkflowKey z2 k2 -> z1 = z2 /\ k1 = k2.
Proof.
  intros H1 H2 H. unfold WorkflowKey in H. apply (f_equal bytes) in H.
  rewrite !bytes_app in H. cbn in H.
  apply bar_split_inj in H as [Hz Hk]; [|by apply named_no_bar..].
  split; [by apply bytes_inj|]. by apply Kind_string_inj, bytes_inj.
Qed.

(** ** The invariant *)
Record consistent (s : State.t) : Prop := {
  consistent_keyed k x : s.(State.Workflows) !! k = Some x ->
    k = WorkflowKey x.(Workflow.Zone) x.(Workflow.Kind) /\ x.(Workflow.Kind) ∈ named_kinds;
  consistent_single k1 k2 x1 x2 :
    s.(State.Workflows) !! k1 = Some x1 -> s.(State.Workflows) !! k2 = Some x2 ->
    x1.(Workflow.Zone) = x2.(Workflow.Zone) -> Active x1 = true -> Active x2 = true -> k1 = k2;
}.

(** No workflow of [zone] is active. *)
Definition quiet (zone : string) (s : State.t) : Prop :=
  forall k x, s.(State.Workflows) !! k = Some x -> x.(Workflow.Zone) = zone -> Active x = false.

Lemma lookup_put_workflow k x s k' :
  (put_workflow k x s).(State.Workflows) !! k' = if decide (k' = k) then Some x
                                                else s.(State.Workflows) !! k'.
Proof.
  unfold put_workflow. record_simpl. case_decide; subst;
    [apply lookup_insert_eq|by apply lookup_insert_ne].
Qed.

(** Storing a workflow under its own key is safe when it is not active or when no other
    workflow of its zone is. *)
Lemma consistent_put x s :
  consistent s -> x.(Workflow.Kind) ∈ named_kinds ->
  (Active x = true -> forall k y, s.(State.Workflows) !! k = Some y ->
     y.(Workflow.Zone) = x.(Workflow.Zone) -> Active y = true ->
     k = WorkflowKey x.(Workflow.Zone) x.(Workflow.Kind)) ->
  consistent (put_workflow (WorkflowKey x.(Workflow.Zone) x.(Workflow.Kind)) x s).
Proof.
  intros [Hk Hs] Hn Ho. split.
  - intros k y. rewrite lookup_put_workflow. case_decide; [|apply Hk].
    intros [= <-]. by subst.
  - intros k1 k2 y1 y2. rewrite !lookup_put_workflow. repeat case_decide; subst; try done.
    + intros [= <-] H2 Hz Ha1 Ha2. symmetry. by eapply Ho.
    + intros H1 [= <-] Hz Ha1 Ha2. by eapply Ho.
    + apply Hs.
Qed.

(** [keeps preserved m]: whatever [m] answers, it leaves a consistent state consistent. *)
Definition preserved (s s' : State.t) : Prop := consistent s -> consistent s'.
#[export] Instance preserved_refl : Reflexive preserved.
Proof. by intros s H. Qed.
#[export] Instance preserved_trans : Transitive preserved.
Proof. intros s1 s2 s3 H1 H2 H. auto. Qed.

Lemma consistent_idempotency k v s : consistent s -> consistent (put_idempotency k v s).
Proof. by intros []. Qed.

Section Operations.
Context {SV : Services} {RO : RangeOk} {DL : DnsLib} (c : Config.t).

(** What a failed search for an active workflow says of the state searched. *)
Lemma first_active_None zone s l :
  l ≡ₚ map_to_list s.(State.Workflows) -> first_active zone l = None -> quiet zone s.
Proof.
  unfold first_active. intros Hp Hf k x Hx Hz.
  destruct (List.find _ l) as [y|] eqn:Hfind; [done|].
  destruct (Active x) eqn:Ha; [|done].
  assert (Hin : In (k, x) l) by (apply list_elem_of_In; rewrite Hp; by apply elem_of_map_to_list).
  pose proof (List.find_none _ _ Hfind _ Hin) as Hn. cbn in Hn.
  by rewrite Hz, eqb_refl, Ha in Hn.
Qed.

Lemma quiet_put zone x s :
  consistent s -> quiet zone s -> x.(Workflow.Zone) = zone -> x.(Workflow.Kind) ∈ named_kinds ->
  consistent (put_workflow (WorkflowKey x.(Workflow.Zone) x.(Workflow.Kind)) x s).
Proof.
  intros Hs Hq Hz Hn. apply consistent_put; [done..|].
  intros _ k y Hy Hyz Ha. rewrite (Hq k y Hy) in Ha; congruence.
Qed.

Lemma start_preserves zone kind manual idem :
  kind ∈ named_kinds -> keeps preserved (start zone kind manual idem).
Proof.
  intros Hkind. unfold start. apply keeps_bind; [apply _|apply keeps_Now; apply _|]. intros now.
  apply keeps_Update; [apply _|]. intros s. apply yields_wp. intros wd.
  wp_step. wp_step. destruct (first_active zone l) eqn:Hf; wp_step; [done|].
  split; [done|]. intros ? [= <-] Hs.
  assert (Hq : quiet zone s).
  { eapply first_active_None; [|exact Hf]. rewrite <- H. apply range_workflows_perm. }
  set (x := begin_rotation _ _ _ _).
  assert (Hx : x.(Workflow.Zone) = zone /\ x.(Workflow.Kind) = kind).
  { unfold x. destruct (State.Workflows s !! WorkflowKey zone kind) as [y|] eqn:Hy; [|done].
    destruct (consistent_keyed s Hs _ _ Hy) as [Hk Hn].
    apply WorkflowKey_inj in Hk as [-> ->]; done. }
  destruct Hx as [Hz Hk].
  assert (Hc : consistent (put_workflow (WorkflowKey x.(Workflow.Zone) x.(Workflow.Kind)) x s))
    by (apply (quiet_put zone); [done..|congruence]).
  rewrite Hz, Hk in Hc. destruct (idem != ""); [|exact Hc]. by apply consistent_idempotency.
Qed.

(** *** Trigger *)
Lemma first_busy_wp ws zones Q wd :
  (forall o w', w'.(data) = wd.(data) ->
     (o = Val tt -> forall zone, zone ∈ zones -> forall k x, ws !! k = Some x ->
        x.(Workflow.Zone) = zone -> Active x = false) -> Q o w') ->
  wp (first_busy ws zones) Q wd.
Proof.
  revert wd Q. induction zones as [|zone zones IH]; intros wd Q HQ; cbn [first_busy].
  - wp_step. apply HQ; [done|]. set_solver.
  - wp_step. wp_step. destruct (first_active zone l) eqn:Hf; [wp_step; apply HQ; done|].
    apply IH. cbn [data]. intros o w' Hd Ho. apply HQ; [done|]. intros -> z Hz.
    apply elem_of_cons in Hz as [->|Hz]; [|by apply Ho].
    apply (first_active_None zone (State.mk 0 0 ws ∅ ∅) l); [|done].
    cbn. rewrite <- H. apply range_workflows_perm.
Qed.

(** A state in which every active workflow of [zones] has kind [kind]. *)
Definition only_kind (kind : Kind) (zones : list string) (s : State.t) : Prop :=
  forall k x, s.(State.Workflows) !! k = Some x -> x.(Workflow.Zone) ∈ zones ->
    Active x = true -> x.(Workflow.Kind) = kind.

Lemma trigger_zone_preserves kind now idem s zone zones :
  kind ∈ named_kinds -> zone ∈ zones -> consistent s -> only_kind kind zones s ->
  consistent (trigger_zone kind now idem s zone) /\
  only_kind kind zones (trigger_zone kind now idem s zone).
Proof.
  intros Hk Hz Hs Ho. unfold trigger_zone. set (x := begin_rotation _ _ _ _).
  change (WorkflowKey zone kind) with (WorkflowKey x.(Workflow.Zone) x.(Workflow.Kind)).
  split.
  - apply consistent_put; [done..|]. intros _ k y Hy Hyz Ha.
    destruct (consistent_keyed s Hs k y Hy) as [-> _]. rewrite Hyz. f_equal.
    eapply Ho; [exact Hy| |done]. by rewrite Hyz.
  - intros k y. rewrite lookup_put_workflow. case_decide; [|by apply Ho].
    by intros [= <-].
Qed.

Lemma trigger_zones_preserve kind now idem zones todo s :
  kind ∈ named_kinds -> todo ⊆ zones -> consistent s -> only_kind kind zones s ->
  consistent (fold_left (trigger_zone kind now idem) todo s).
Proof.
  intros Hk. revert s. induction todo as [|z todo IH]; intros s Hsub Hs Ho; cbn; [done|].
  destruct (trigger_zone_preserves kind now idem s z zones) as [? ?]; [done|set_solver|done..|].
  apply IH; [set_solver|done..].
Qed.

Lemma Update_preserves fn :
  (forall s wd, wp (fn s) (fun o w' => w'.(data) = wd.(data) /\
     forall s', o = Val s' -> preserved s s') wd) ->
  keeps preserved (Update fn).
Proof. intros H. apply keeps_Update; [apply _|]. intros s. apply yields_wp. apply H. Qed.

Lemma keeps_same {A} (m : M A) :
  (forall w, (m w).2.(data) = w.(data)) -> keeps preserved m.
Proof. intros H w. rewrite H. by intros ?. Qed.

Lemma trigger_canonical_data kind byName names w :
  (trigger_canonical c kind byName names w).2.(data) = w.(data).
Proof.
  change (wp (trigger_canonical c kind byName names) (fun _ w' => w'.(data) = w.(data)) w).
  revert w. induction names as [|n names IH]; intros w; cbn [trigger_canonical]; [by wp_step|].
  unfold ListKeys. repeat (wp_step; try done).
  eapply wp_mono; [apply IH|]. cbn [data]. intros [] w' Hd; try done.
Qed.

Lemma keeps_trigger_canonical kind byName names :
  keeps preserved (trigger_canonical c kind byName names).
Proof. apply keeps_same. intros w. apply trigger_canonical_data. Qed.
#[local] Hint Resolve keeps_trigger_canonical : keeps.

Lemma trigger_commit_preserves kind fp canonical now idem :
  kind ∈ named_kinds -> keeps preserved (Update (trigger_commit kind fp canonical now idem)).
Proof.
  intros Hk. apply Update_preserves. intros s wd. unfold trigger_commit, unless_replayed.
  repeat wp_step; try done.
  - split; [done|]. by intros ? [= <-].
  - apply first_busy_wp. intros o w' Hd Hb. destruct o as [[]| |]; [|done..]. wp_step.
    split; [done|]. intros ? [= <-] Hs. apply consistent_idempotency.
    eapply trigger_zones_preserve; [done|reflexivity|done|].
    intros k x Hx Hz Ha. rewrite (Hb eq_refl _ Hz k x Hx eq_refl) in Ha. done.
Qed.
#[local] Hint Resolve trigger_commit_preserves : keeps.

Lemma Trigger_preserves kind zones idem :
  kind ∈ named_kinds -> keeps preserved (Trigger c kind zones idem).
Proof. intros Hk. unfold Trigger. repeat keeps_step. by apply trigger_commit_preserves. Qed.
End Operations.

(** *** Requests that rewrite entries without waking a zone *)
Section Rewrites.
Context {SV : Services} {RO : RangeOk} {DL : DnsLib} (c : Config.t).

(** Rewriting an active entry of its own key keeps the state consistent. *)
Lemma consistent_rewrite k x y s :
  consistent s -> s.(State.Workflows) !! k = Some x -> Active x = true ->
  y.(Workflow.Zone) = x.(Workflow.Zone) -> y.(Workflow.Kind) = x.(Workflow.Kind) ->
  consistent (put_workflow k y s).
Proof.
  intros Hs Hx Ha Hz Hk. destruct (consistent_keyed s Hs k x Hx) as [Hkey Hn].
  rewrite Hkey, <- Hz, <- Hk. apply consistent_put; [done|congruence|].
  intros _ k' y' Hy' Hyz Hya. rewrite Hz, Hk, <- Hkey.
  eapply consistent_single; [exact Hs|exact Hy'|exact Hx|congruence|done|done].
Qed.

Lemma blocked_active x : x.(Workflow.Phase) = PhaseBlocked -> Active x = true.
Proof. unfold Active. by intros ->. Qed.

Lemma recover_preserves kind now items s :
  consistent s ->
  Forall (fun item => exists x, s.(State.Workflows) !! WorkflowKey item.1 kind = Some x /\
                                Active x = true) items ->
  consistent (fold_left (recover_workflow kind now) items s).
Proof.
  revert s. induction items as [|[z w] items IH]; intros s Hs Hall; cbn; [done|].
  apply Forall_cons in Hall as [(x & Hx & Ha) Hall]. cbn in Hx.
  set (s1 := recover_workflow kind now s (z, w)).
  assert (Hat : workflow_at s (WorkflowKey z kind) = x) by (unfold workflow_at; by rewrite Hx).
  apply IH.
  - unfold s1, recover_workflow. cbn [fst]. rewrite Hat. by eapply consistent_rewrite.
  - eapply Forall_impl; [exact Hall|]. intros [z' w'] (x' & Hx' & Ha'). cbn in *.
    unfold s1, recover_workflow. cbn [fst]. rewrite Hat. setoid_rewrite lookup_put_workflow.
    case_decide; [by eexists|by exists x'].
Qed.

Lemma resume_all_data st kind byName names w :
  (resume_all c st kind byName names w).2.(data) = w.(data).
Proof.
  change (wp (resume_all c st kind byName names) (fun _ w' => w'.(data) = w.(data)) w).
  revert w. induction names as [|n names IH]; intros w; cbn [resume_all]; [by wp_step|].
  unfold resume_zone, ListKeys, DomainDNSSEC, NoDSEvidence. repeat (wp_step; try done).
  eapply wp_mono; [apply IH|]. cbn [data]. intros [] w' Hd; try done.
Qed.
Lemma keeps_resume_all st kind byName names :
  keeps preserved (resume_all c st kind byName names).
Proof. apply keeps_same. intros w. apply resume_all_data. Qed.
#[local] Hint Resolve keeps_resume_all : keeps.

Lemma Resume_preserves kind zones phase idem : keeps preserved (Resume c kind zones phase idem).
Proof.
  unfold Resume. repeat keeps_step.
  apply Update_preserves. intros s wd. unfold unless_replayed. repeat wp_step; try done.
  - split; [done|]. by intros ? [= <-].
  - split; [done|]. intros ? [= <-] Hs. apply consistent_idempotency, recover_preserves; [done|].
    apply Forall_forall. intros item Hitem%list_elem_of_In.
    match goal with H : List.find _ _ = None |- _ =>
      pose proof (List.find_none _ _ H _ Hitem) as Hsame end.
    cbn in Hsame. unfold same_recovery in Hsame. bool_prop.
    destruct (State.Workflows s !! _) as [x|]; [|done]. bool_prop.
    exists x. split; [done|]. by apply blocked_active.
Qed.

Lemma ReconcileSplitSignerTransition_preserves zone idem :
  keeps preserved (ReconcileSplitSignerTransition c zone idem).
Proof.
  unfold ReconcileSplitSignerTransition. repeat keeps_step.
  apply Update_preserves. intros s wd. unfold unless_replayed. repeat wp_step; try done.
  - split; [done|]. by intros ? [= <-].
  - split; [done|]. intros ? [= <-] Hs. apply consistent_idempotency. bool_prop.
    eapply consistent_rewrite; [done|eassumption| |done..].
    unfold Active. match goal with H : _ = PhaseWaitNewSignature |- _ => by rewrite H end.
Qed.

Lemma baseline_preserves now zones s :
  consistent s -> consistent (fold_left (baseline_zone now) zones s).
Proof.
  revert s. induction zones as [|z zones IH]; intros s Hs; cbn; [done|]. apply IH.
  unfold baseline_zone. destruct (negb _); [done|].
  destruct (State.Workflows s !! _); [done|].
  set (x := _ <| Workflow.EnrollmentDisposition := _ |>).
  change (WorkflowKey (Zone.Name z) KindEnroll) with (WorkflowKey x.(Workflow.Zone) x.(Workflow.Kind)).
  apply consistent_put; [done|unfold x; set_solver|done].
Qed.

Lemma ArmEnrollment_preserves idem : keeps preserved (ArmEnrollment c idem).
Proof.
  unfold ArmEnrollment. repeat keeps_step.
  apply Update_preserves. intros s wd. repeat wp_step; try done.
  split; [done|]. intros ? [= <-] Hs. apply consistent_idempotency.
  by destruct (baseline_preserves a1 a0 s Hs).
Qed.

(** *** One step of a workflow *)
Lemma advance_preserves zone keys w wd :
  consistent wd.(data) -> wd.(data).(State.Workflows) !! own_key w = Some w ->
  Active w = true -> well_phased w -> zone.(Zone.Name) = w.(Workflow.Zone) ->
  consistent (advance c zone keys w wd).2.(data).
Proof.
  intros Hs Hw Ha Hp Hz. destruct (follows_advance c zone keys w Hz Hp wd) as [F R _ _ _ [_ O]].
  set (s := wd.(data)) in *. set (s' := (advance c zone keys w wd).2.(data)) in *.
  assert (Hat : workflow_at s (own_key w) = w) by (unfold workflow_at; by rewrite Hw).
  destruct (consistent_keyed s Hs _ _ Hw) as [_ Hn].
  assert (Hown : forall x, s'.(State.Workflows) !! own_key w = Some x ->
    x.(Workflow.Zone) = w.(Workflow.Zone) /\ x.(Workflow.Kind) = w.(Workflow.Kind)).
  { intros x Hx. assert (Hx' : workflow_at s' (own_key w) = x)
      by (unfold workflow_at; by rewrite Hx).
    rewrite Hat, Hx' in O. tauto. }
  assert (Hrest : forall k x, k <> own_key w -> s'.(State.Workflows) !! k = Some x ->
    s.(State.Workflows) !! k = Some x \/
    (k = WorkflowKey x.(Workflow.Zone) x.(Workflow.Kind) /\ x.(Workflow.Kind) ∈ named_kinds /\
     Active x = false)).
  { intros k x Hk Hx. destruct (decide (k ∈ role_keys w)) as [Hr|Hr];
      [|left; by rewrite <- F].
    destruct (R k Hk Hr) as [E|(y & Hy & Hyk & _ & Hidle & Hyn)]; [left; by rewrite <- E|right].
    rewrite Hx in Hy. simplify_eq. split_and!; [done..|]. unfold Active. by rewrite Hidle. }
  assert (Hlone : forall k x, k <> own_key w -> s'.(State.Workflows) !! k = Some x ->
    x.(Workflow.Zone) = w.(Workflow.Zone) -> Active x = true -> False).
  { intros k x Hk Hx Hxz Hxa. destruct (Hrest k x Hk Hx) as [Hold|(_ & _ & ?)]; [|congruence].
    apply Hk. by eapply (consistent_single s Hs k (own_key w)). }
  split.
  - intros k x Hx. destruct (decide (k = own_key w)) as [->|Hk].
    + destruct (Hown x Hx) as [-> ->]. done.
    + destruct (Hrest k x Hk Hx) as [Hold|(? & ? & _)]; [by eapply consistent_keyed|done].
  - intros k1 k2 x1 x2 H1 H2 Hxz Ha1 Ha2.
    destruct (decide (k1 = own_key w)) as [->|Hk1], (decide (k2 = own_key w)) as [->|Hk2]; try done.
    + exfalso. eapply (Hlone k2); try done. destruct (Hown x1 H1). congruence.
    + exfalso. eapply (Hlone k1); try done. destruct (Hown x2 H2). congruence.
    + destruct (Hrest k1 x1 Hk1 H1) as [Ho1|(_ & _ & ?)]; [|congruence].
      destruct (Hrest k2 x2 Hk2 H2) as [Ho2|(_ & _ & ?)]; [|congruence].
      by eapply (consistent_single s Hs).
Qed.
End Rewrites.

(** *** bootstrap *)
Section Bootstrap.
Context {SV : Services} {RO : RangeOk} {DL : DnsLib} (c : Config.t).

Lemma ensure_idle_preserves zone now s kind :
  kind ∈ named_kinds -> consistent s -> consistent (ensure_idle zone now s kind).
Proof.
  intros Hk Hs. unfold ensure_idle. destruct (_ !! _); [done|].
  change (WorkflowKey zone kind) with (WorkflowKey (idle_since zone kind now).(Workflow.Zone)
    (idle_since zone kind now).(Workflow.Kind)).
  by apply consistent_put.
Qed.

Lemma ensure_idle_quiet zone now s kind : quiet zone s -> quiet zone (ensure_idle zone now s kind).
Proof.
  intros Hq. unfold ensure_idle. destruct (State.Workflows s !! _); [done|].
  intros k x. rewrite lookup_put_workflow. case_decide; [|by apply Hq].
  by intros [= <-].
Qed.

Lemma bootstrap_roles_preserves zone scheme now s :
  consistent s -> consistent (bootstrap_roles zone scheme now s).
Proof.
  intros Hs. unfold bootstrap_roles. cbn [fold_left].
  repeat case_match; repeat apply ensure_idle_preserves; try done; unfold named_kinds; set_solver.
Qed.
Lemma bootstrap_roles_quiet zone scheme now s :
  quiet zone s -> quiet zone (bootstrap_roles zone scheme now s).
Proof.
  intros Hq. unfold bootstrap_roles. cbn [fold_left].
  repeat case_match; repeat apply ensure_idle_quiet; done.
Qed.

Lemma bootstrap_preserves zone scheme keys wd :
  consistent wd.(data) -> quiet zone.(Zone.Name) wd.(data) ->
  consistent (bootstrap c zone scheme keys wd).2.(data).
Proof.
  intros Hs Hq.
  assert (Henroll : forall now s x, consistent s -> quiet zone.(Zone.Name) s ->
    x.(Workflow.Zone) = zone.(Zone.Name) -> x.(Workflow.Kind) = KindEnroll ->
    consistent (put_workflow (WorkflowKey zone.(Zone.Name) KindEnroll) x
                  (bootstrap_roles zone.(Zone.Name) scheme now s))).
  { intros now s x Hs' Hq' Hz Hk. rewrite <- Hz at 1. rewrite <- Hk at 1.
    apply (quiet_put zone.(Zone.Name)); [by apply bootstrap_roles_preserves
      |by apply bootstrap_roles_quiet|done|]. rewrite Hk. unfold named_kinds. set_solver. }
  change (wp (bootstrap c zone scheme keys) (fun _ w' => consistent w'.(data)) wd).
  unfold bootstrap. repeat wp_step.
  all: try (split; intros); wp_simpl; try done; try by apply bootstrap_roles_preserves.
  all: apply Henroll; try done.
  all: destruct (validateEnrollmentInventory _ _ _ _ _ _) as [[[? ?] ?]|]; done.
Qed.
End Bootstrap.

(** ** The theorems *)
Section Claims.
Context {SV : Services} {RO : RangeOk} {DL : DnsLib} (c : Config.t).

(** C9: if every entry is stored under its own key and no zone has two active workflows,
    advancing a stored active workflow leaves it so, on every branch and whatever fails. *)
Theorem advance_keeps_single_active zone keys w wd :
  consistent wd.(data) -> wd.(data).(State.Workflows) !! own_key w = Some w ->
  Active w = true -> well_phased w -> zone.(Zone.Name) = w.(Workflow.Zone) ->
  consistent (advance c zone keys w wd).2.(data).
Proof. apply advance_preserves. Qed.

(** C10: starting a due rotation and each operator request (Trigger, Resume, the
    signer-transition attestation, arming) leaves every entry under its own key and no zone
    with two active workflows, for any order in which Go iterates over the map; so does the
    update [Trigger] ends with, whatever ran since it read its snapshot. *)
Theorem requests_keep_single_active wd kind :
  consistent wd.(data) -> kind ∈ named_kinds ->
  (forall zone manual idem, consistent (start zone kind manual idem wd).2.(data)) /\
  (forall zones idem, consistent (Trigger c kind zones idem wd).2.(data)) /\
  (forall fp canonical now idem, consistent (Update (trigger_commit kind fp canonical now idem) wd).2.(data)) /\
  (forall zones phase idem, consistent (Resume c kind zones phase idem wd).2.(data)) /\
  (forall zone idem, consistent (ReconcileSplitSignerTransition c zone idem wd).2.(data)) /\
  (forall idem, consistent (ArmEnrollment c idem wd).2.(data)).
Proof.
  intros Hs Hk. split_and!; intros.
  - by apply start_preserves.
  - by apply Trigger_preserves.
  - by apply trigger_commit_preserves.
  - by apply Resume_preserves.
  - by apply ReconcileSplitSignerTransition_preserves.
  - by apply ArmEnrollment_preserves.
Qed.

(** Registering a zone keeps the invariant when no workflow of the zone is active. *)
Lemma bootstrap_keeps_single_active zone scheme keys wd :
  consistent wd.(data) -> quiet zone.(Zone.Name) wd.(data) ->
  consistent (bootstrap c zone scheme keys wd).2.(data).
Proof. apply bootstrap_preserves. Qed.
End Claims.
