(* ===== verification/OperatorFacts.v ===== *)
(** * Operator requests: idempotency, state-only effects, read-only reports. *)
From S2P Require Import Prelude GoStrings GoTime Model Config Dns Keys KeysFacts Effects.
From S2P Require Import Wp Core Rollover Reconcile Operator Report Safety.

Section OperatorFacts.
Context {SV : Services} {DL : DnsLib} (c : Config.t).

(** The request succeeded: it is recorded under its key. *)
Definition recorded (idem fingerprint : string) (s : State.t) : Prop :=
  s.(State.Idempotency) !! idem = Some fingerprint.

Lemma recorded_put idem fp s : recorded idem fp (put_idempotency idem fp s).
Proof. unfold recorded, put_idempotency. record_simpl. apply lookup_insert_eq. Qed.

(** [records m]: when [m] succeeds, the store holds the fingerprint under [idem]. *)
Definition records (idem fp : string) (m : M unit) : Prop :=
  forall wd, wp m (fun o w' => o = Val tt -> recorded idem fp w'.(data)) wd.

Lemma records_fail idem fp e : records idem fp (fail e).
Proof. intros wd. by wp_step. Qed.
Lemma records_bind {A} idem fp (m : M A) k :
  (forall a, records idem fp (k a)) -> records idem fp (bind m k).
Proof.
  intros Hk wd. unfold wp, bind. destruct (m wd) as [[a|e|] w1]; cbn; [apply Hk|done..].
Qed.
Lemma records_Update idem fp fn :
  (forall s wd, wp (fn s) (fun o _ => forall s', o = Val s' -> recorded idem fp s') wd) ->
  records idem fp (Update fn).
Proof.
  intros H wd. apply wp_Update. eapply wp_mono; [apply H|]. cbn.
  intros [s| |] w' Hs; [|done..]. split; intros; [by apply Hs|done].
Qed.
Lemma records_if idem fp (b : bool) m1 m2 :
  records idem fp m1 -> records idem fp m2 -> records idem fp (if b then m1 else m2).
Proof. by destruct b. Qed.

Ltac records_step :=
  lazymatch goal with
  | |- records _ _ (bind Snapshot _) => fail
  | |- records _ _ (bind _ _) => apply records_bind; intros ?
  | |- records _ _ (if _ then fail _ else _) => apply records_if; [apply records_fail|]
  end.

(** The replay check at the head of every request. *)
Lemma records_replay idem fp e (m : State.t -> M unit) :
  (forall s, records idem fp (m s)) ->
  records idem fp (let* st := Snapshot in
    match st.(State.Idempotency) !! idem with
    | Some existing => if existing == fp then ret tt else fail e
    | None => m st
    end).
Proof.
  intros Hm wd. wp_step. wp_step.
  destruct (State.Idempotency (data wd) !! idem) as [x|] eqn:Hx; [|apply Hm].
  destruct (x == fp) eqn:E; bool_prop; wp_step; [|done]. intros _. unfold recorded. by subst.
Qed.

Lemma unless_replayed_records idem fp s (k : M State.t) :
  (forall wd, wp k (fun o _ => forall s', o = Val s' -> recorded idem fp s') wd) ->
  forall wd, wp (unless_replayed idem fp s k) (fun o _ => forall s', o = Val s' -> recorded idem fp s') wd.
Proof.
  intros Hk wd. unfold unless_replayed.
  destruct (State.Idempotency s !! idem) as [x|] eqn:Hx; [|apply Hk].
  destruct (x == fp) eqn:E; bool_prop; wp_step; [|done]. intros ? [= <-]. unfold recorded. by subst.
Qed.

Lemma Trigger_records kind zones idem :
  records idem (trigger_fingerprint kind (normalize_zones zones)) (Trigger c kind zones idem).
Proof.
  unfold Trigger, trigger_commit. repeat records_step. cbv zeta.
  refine (records_replay _ _ _ _ _); intros st. repeat records_step. apply records_Update.
  intros s. apply unless_replayed_records. intros wd. wp_step.
  unfold wp. destruct (first_busy _ _ wd) as [[]  w1]; cbn; [|done..].
  intros ? [= <-]. apply recorded_put.
Qed.

Lemma Resume_records kind zones phase idem :
  records idem (resume_fingerprint kind phase (normalize_zones zones)) (Resume c kind zones phase idem).
Proof.
  unfold Resume. cbv zeta. repeat records_step.
  refine (records_replay _ _ _ _ _); intros st. repeat records_step. apply records_Update.
  intros s. apply unless_replayed_records. intros wd. repeat wp_step; [done|].
  intros ? [= <-]. apply recorded_put.
Qed.

Lemma ReconcileSplitSignerTransition_records zone idem :
  records idem ("reconcile-split-signer|" +:+ normalize_zone zone)
    (ReconcileSplitSignerTransition c zone idem).
Proof.
  unfold ReconcileSplitSignerTransition. cbv zeta. repeat records_step.
  refine (records_replay _ _ _ _ _); intros st. repeat records_step.
  destruct (List.find _ _) as [z|]; [|apply records_fail].
  repeat records_step.
  destruct (_ !! _) as [w|]; [|apply records_fail].
  repeat records_step. repeat records_step.
  apply records_Update. intros s. apply unless_replayed_records. intros wd.
  repeat wp_step; try done. intros ? [= <-]. apply recorded_put.
Qed.

Lemma ArmEnrollment_records idem : records idem arm_fingerprint (ArmEnrollment c idem).
Proof.
  unfold ArmEnrollment. cbv zeta. repeat records_step.
  refine (records_replay _ _ _ _ _); intros st. records_step.
  repeat records_step. apply records_Update. intros s wd.
  repeat wp_step; [done|]. intros ? [= <-]. apply recorded_put.
Qed.

(** A request that succeeded, repeated on a state that recorded it. *)
Lemma replay_run idem fp e (m : State.t -> M unit) wd :
  recorded idem fp wd.(data) ->
  (let* st := Snapshot in
   match st.(State.Idempotency) !! idem with
   | Some existing => if existing == fp then ret tt else fail e
   | None => m st
   end) wd = (Val tt, wd).
Proof. unfold recorded, bind, Snapshot. intros ->. by rewrite eqb_refl. Qed.

(** A request that succeeded once is a no-op when repeated with the same idempotency key:
    it succeeds again without calling any service and without changing the state, in
    whatever world the recorded key is still there. *)
Lemma requests_idempotent kind zones phase zone idem wd wd' :
  wd'.(data).(State.Idempotency) = wd.(data).(State.Idempotency) ->
  (forall w0, Trigger c kind zones idem w0 = (Val tt, wd) ->
     Trigger c kind zones idem wd' = (Val tt, wd')) /\
  (forall w0, Resume c kind zones phase idem w0 = (Val tt, wd) ->
     Resume c kind zones phase idem wd' = (Val tt, wd')) /\
  (forall w0, ReconcileSplitSignerTransition c zone idem w0 = (Val tt, wd) ->
     ReconcileSplitSignerTransition c zone idem wd' = (Val tt, wd')) /\
  (forall w0, ArmEnrollment c idem w0 = (Val tt, wd) -> ArmEnrollment c idem wd' = (Val tt, wd')).
Proof.
  intros Hsame.
  assert (Hrec : forall fp m w0, records idem fp m -> m w0 = (Val tt, wd) -> recorded idem fp wd'.(data)).
  { intros fp m w0 Hm Hrun. specialize (Hm w0). unfold wp in Hm. rewrite Hrun in Hm.
    unfold recorded. rewrite Hsame. by apply Hm. }
  split_and!; intros w0 H.
  - apply Hrec with (1 := Trigger_records kind zones idem) in H as Hr. revert H.
    unfold Trigger, trigger_commit. repeat case_match; try done. cbv zeta. intros _. by refine (replay_run _ _ _ _ _ _).
  - apply Hrec with (1 := Resume_records kind zones phase idem) in H as Hr. revert H.
    unfold Resume. cbv zeta. repeat case_match; try done. intros _. by refine (replay_run _ _ _ _ _ _).
  - apply Hrec with (1 := ReconcileSplitSignerTransition_records zone idem) in H as Hr. revert H.
    unfold ReconcileSplitSignerTransition. cbv zeta. repeat case_match; try done.
    intros _. by refine (replay_run _ _ _ _ _ _).
  - apply Hrec with (1 := ArmEnrollment_records idem) in H as Hr. revert H.
    unfold ArmEnrollment. cbv zeta. repeat case_match; try done. intros _. by refine (replay_run _ _ _ _ _ _).
Qed.
End OperatorFacts.

(** ** Effects *)
Section Effects.
Context {SV : Services} {DL : DnsLib} (c : Config.t).

(** Neither the state nor anything outside is changed. *)
Definition harmless (ev : Event) : Prop := is_write ev = false.
(** Nothing but the state file is changed. *)
Definition state_only (ev : Event) : Prop :=
  is_write ev = false \/ exists s r, ev = EvPersist s r.

Lemma state_only_persist s r : state_only (EvPersist s r).
Proof. right. by eexists _, _. Qed.

Ltac harmless_event := intros; first [by left | apply state_only_persist | reflexivity].

Lemma state_only_trigger_canonical kind byName names :
  emits state_only (trigger_canonical c kind byName names).
Proof. induction names as [|n names IH]; cbn [trigger_canonical]; emits_auto; harmless_event. Qed.
Lemma state_only_first_busy ws zones : emits state_only (first_busy ws zones).
Proof. induction zones as [|z zones IH]; cbn [first_busy]; emits_auto; harmless_event. Qed.
Lemma state_only_resume_all st kind byName names :
  emits state_only (resume_all c st kind byName names).
Proof. induction names as [|n names IH]; cbn [resume_all]; emits_auto; harmless_event. Qed.
#[local] Hint Resolve state_only_trigger_canonical state_only_first_busy state_only_resume_all : emits.

Lemma harmless_zone_statuses st zones : emits harmless (zone_statuses c st zones).
Proof. induction zones as [|z zones IH]; cbn [zone_statuses]; emits_auto; harmless_event. Qed.
Lemma harmless_audit_zones zones : emits harmless (audit_zones c zones).
Proof. induction zones as [|z zones IH]; cbn [audit_zones]; emits_auto; harmless_event. Qed.
#[local] Hint Resolve harmless_zone_statuses harmless_audit_zones : emits.

#[local] Instance eq_refl_state : Reflexive (@eq State.t) := eq_Reflexive.
Lemma same_zone_statuses st zones : keeps eq (zone_statuses c st zones).
Proof. induction zones as [|z zones IH]; cbn [zone_statuses]; keeps_auto. Qed.
Lemma same_audit_zones zones : keeps eq (audit_zones c zones).
Proof. induction zones as [|z zones IH]; cbn [audit_zones]; keeps_auto. Qed.
#[local] Hint Resolve same_zone_statuses same_audit_zones : keeps.

(** Operator requests change nothing but the state file: they create, change or delete no
    key, never write to the registrar and send no notification. *)
Lemma requests_write_state_only kind zones phase zone idem :
  emits state_only (Trigger c kind zones idem) /\
  emits state_only (Resume c kind zones phase idem) /\
  emits state_only (ReconcileSplitSignerTransition c zone idem) /\
  emits state_only (ArmEnrollment c idem).
Proof. split_and!; emits_auto; harmless_event. Qed.

(** The reports Zones, Status and Audit change neither the state nor anything outside. *)
Lemma reports_read_only :
  (emits harmless (Zones c) /\ keeps eq (Zones c)) /\
  (emits harmless (Status_ c) /\ keeps eq (Status_ c)) /\
  (emits harmless (Audit c) /\ keeps eq (Audit c)).
Proof.
  split_and!; first [solve [emits_auto; harmless_event] | solve [keeps_auto]].
Qed.
End Effects.
