(* ===== verification/ControlFacts.v ===== *)
(** * The control API: what a request has to contain before anything changes, and what an
    accepted request guarantees. *)
From S2P Require Import Prelude GoStrings GoTime Model Config Dns Keys Effects Wp Core.
From S2P Require Import Rollover Reconcile Operator Report Safety OperatorFacts.
From S2P Require Import Json JsonCodec Http Control.

(** ** Decoding *)
(** The document has a member [confirm], in any case, that is literally [true]. *)
Definition says_confirm (ms : list (string * json)) : Prop :=
  exists name, (name, JBool true) ∈ ms /\ EqualFold "confirm" name = true.

(** [proj] is the field [confirm] of the struct the fields build. *)
Definition is_confirm {T} (proj : T -> bool) (fields : list (field T)) : Prop :=
  forall f v t t', f ∈ fields -> field_set f v t = Some t' ->
    proj t' = proj t \/ (field_name f = "confirm" /\ v = JBool (proj t')).

Lemma find_field_Some {T} (fields : list (field T)) name f :
  find_field fields name = Some f -> f ∈ fields /\ EqualFold (field_name f) name = true.
Proof.
  unfold find_field. case_match eqn:E; intros H; simplify_eq.
  - apply List.find_some in E as [Hin E]. split; [by apply list_elem_of_In|].
    bool_prop. subst. unfold EqualFold. apply String.eqb_refl.
  - apply List.find_some in H as [Hin H]. split; [by apply list_elem_of_In|done].
Qed.

Lemma into_members_confirm {T} strict (fields : list (field T)) (proj : T -> bool) ms t t' :
  is_confirm proj fields -> into_members strict fields ms t = Some t' -> proj t' = true ->
  proj t = true \/ says_confirm ms.
Proof.
  intros Hc. revert t. induction ms as [|[name v] ms IH]; intros t; cbn; [intros [= ->]; by left|].
  destruct (find_field fields name) as [f|] eqn:Hf.
  - destruct (field_set f v t) as [t1|] eqn:Hs; [|done]. intros H Hp.
    apply find_field_Some in Hf as [Hin Hname].
    destruct (IH t1 H Hp) as [H1|(n & Hn & Hfold)]; [|right; exists n; set_solver].
    destruct (Hc _ _ _ _ Hin Hs) as [<-|[E ->]]; [by left|right].
    exists name. rewrite H1, <- E. split; [by left|done].
  - destruct strict; [done|]. intros H Hp.
    destruct (IH t H Hp) as [|(n & Hn & Hfold)]; [by left|right; exists n; set_solver].
Qed.

Ltac confirm_fields :=
  intros f v t t' Hin; unfold rotation_fields, resume_fields, signer_fields, arm_fields in Hin;
  repeat (apply elem_of_cons in Hin as [->|Hin]); try (by apply elem_of_nil in Hin);
  cbn [field_set field_name]; intros (x & Hx & ->)%fmap_Some; record_simpl; auto;
  destruct v; cbn in Hx; simplify_eq; auto.

Lemma rotation_confirm : is_confirm RotationRequest.Confirm rotation_fields.
Proof. confirm_fields. Qed.
Lemma resume_confirm : is_confirm ResumeRequest.Confirm resume_fields.
Proof. confirm_fields. Qed.
Lemma signer_confirm : is_confirm SplitSignerTransitionRequest.Confirm signer_fields.
Proof. confirm_fields. Qed.
Lemma arm_confirm : is_confirm ArmEnrollmentRequest.Confirm arm_fields.
Proof. confirm_fields. Qed.

(** ** What changes *)
Section Changes.
Context {SV : Services} {DL : DnsLib} {JE : JsonErrors} (c : Config.t).

Definition mutation_paths : list string :=
  ["/v1/rotations/trigger"; "/v1/rotations/resume"; "/v1/rotations/reconcile-split-signer";
   "/v1/enrollment/arm"].

(** A request that may change something. *)
Record authorised (r : Request.t) : Prop := {
  auth_method : Request.Method r = "POST";
  auth_path : Request.URL r ∈ mutation_paths;
  auth_mode : c.(Config.Mode) = "enforce";
  auth_key : valid_idempotency_key (idempotency_key r) = true;
  auth_confirm : exists limit ms, limit <= 64 * 1024 /\
    decode_first (limited limit (default "" (Request.Body r))) = Some (JObj ms) /\ says_confirm ms;
}.

#[local] Instance eq_refl_state : Reflexive (@eq State.t) := eq_Reflexive.

(** A computation that changes nothing, in the process or outside. *)
Definition inert {A} (m : M A) : Prop := emits harmless m /\ keeps eq m.

Lemma inert_ret {A} (a : A) : inert (ret a).
Proof. split; [apply emits_ret|apply keeps_ret; apply _]. Qed.
Lemma inert_fail {A} e : inert (fail (A := A) e).
Proof. split; [apply emits_fail|apply keeps_fail; apply _]. Qed.
Lemma inert_respond {A} (m : M A) bad good : inert m -> inert (respond m bad good).
Proof.
  intros [He Hk]. unfold respond. split.
  - apply emits_bind; [by apply emits_try|intros; apply emits_ret].
  - apply keeps_bind; [apply _|by apply keeps_try|intros; apply keeps_ret; apply _].
Qed.
Lemma inert_serve r : inert (mux c r) -> inert (serve c r).
Proof.
  intros [He Hk]. unfold serve. split.
  - apply emits_bind; [done|intros; apply emits_ret].
  - apply keeps_bind; [apply _|done|intros; apply keeps_ret; apply _].
Qed.

(** An operation is inert, or the mode and the idempotency key permit it. *)
Definition guarded (idem : string) (m : M unit) : Prop :=
  inert m \/ (c.(Config.Mode) = "enforce" /\ valid_idempotency_key idem = true).

Lemma guarded_requests kind zones phase zone idem :
  guarded idem (Trigger c kind zones idem) /\ guarded idem (Resume c kind zones phase idem) /\
  guarded idem (ReconcileSplitSignerTransition c zone idem) /\ guarded idem (ArmEnrollment c idem).
Proof.
  unfold guarded, Trigger, Resume, ReconcileSplitSignerTransition, ArmEnrollment. cbv zeta.
  destruct (Config.Mode c != "enforce") eqn:Hm; [split_and!; left; apply inert_fail|].
  assert (Hmode : Config.Mode c = "enforce") by (by bool_prop).
  destruct (valid_idempotency_key idem) eqn:Hi; cbn [negb]; [split_and!; by right|].
  split_and!; left; repeat case_match; apply inert_fail.
Qed.

(** What a strict decode of a body found. *)
Lemma decode_body_confirm {T} (fields : list (field T)) (proj : T -> bool) zero limit r req :
  is_confirm proj fields -> decode_body fields zero limit r = Ok req -> proj req = true ->
  proj zero = false ->
  exists ms, decode_first (limited limit (default "" (Request.Body r))) = Some (JObj ms) /\
    says_confirm ms.
Proof.
  intros Hc. unfold decode_body, json_Decode_into. destruct (decode_first _) as [v|]; [|done].
  destruct (into_struct true fields v zero) as [t|] eqn:E; [|done]. intros [= ->] Hp Hz.
  destruct v as [| | | | |ms]; cbn in E; simplify_eq; [congruence|].
  exists ms. split; [done|]. destruct (into_members_confirm _ _ _ _ _ _ Hc E Hp); [congruence|done].
Qed.

Lemma guarded_handler r path m bad good :
  path ∈ mutation_paths -> Request.URL r = path -> Request.Method r = "POST" ->
  guarded (idempotency_key r) m ->
  (exists limit ms, limit <= 64 * 1024 /\
     decode_first (limited limit (default "" (Request.Body r))) = Some (JObj ms) /\ says_confirm ms) ->
  inert (respond m bad good) \/ authorised r.
Proof.
  intros Hp <- Hm [Hi|[Hmode Hkey]] Hc; [left; by apply inert_respond|right]. by split.
Qed.

(** ** The handlers *)
Lemma trigger_authorised r :
  Request.URL r = "/v1/rotations/trigger" -> Request.Method r = "POST" ->
  inert (trigger c r) \/ authorised r.
Proof.
  intros Hu Hm. unfold trigger. destruct (decode r) as [req|e] eqn:Hd; [|left; apply inert_ret].
  destruct (RotationRequest.Confirm req) eqn:Hc; [cbn [negb]|left; apply inert_ret].
  apply (guarded_handler _ "/v1/rotations/trigger"); [in_trace|done|done| |].
  - apply (guarded_requests _ _ PhaseIdle ""%string).
  - unfold decode in Hd. ok_inv Hd. simplify_eq. exists (64 * 1024).
    destruct (decode_body_confirm _ _ _ _ _ _ rotation_confirm Hok Hc eq_refl) as (ms & ? & ?). by exists ms.
Qed.

Lemma resume_authorised r :
  Request.URL r = "/v1/rotations/resume" -> Request.Method r = "POST" ->
  inert (resume c r) \/ authorised r.
Proof.
  intros Hu Hm. unfold resume. destruct (decode_body _ _ _ _) as [req|e] eqn:Hd; [|left; apply inert_ret].
  cbv zeta. destruct (_ || _); [left; apply inert_ret|]. destruct (_ || _); [left; apply inert_ret|].
  destruct (ResumeRequest.Confirm req) eqn:Hc; [cbn [negb]|left; apply inert_ret].
  apply (guarded_handler _ "/v1/rotations/resume"); [in_trace|done|done| |].
  - apply (guarded_requests _ _ _ ""%string).
  - exists (64 * 1024).
    destruct (decode_body_confirm _ _ _ _ _ _ resume_confirm Hd Hc eq_refl) as (ms & ? & ?). by exists ms.
Qed.

Lemma reconcileSplitSigner_authorised r :
  Request.URL r = "/v1/rotations/reconcile-split-signer" -> Request.Method r = "POST" ->
  inert (reconcileSplitSigner c r) \/ authorised r.
Proof.
  intros Hu Hm. unfold reconcileSplitSigner.
  destruct (decode_body _ _ _ _) as [req|e] eqn:Hd; [|left; apply inert_ret].
  destruct (TrimSpace _ == _); [left; apply inert_ret|].
  destruct (SplitSignerTransitionRequest.Confirm req) eqn:Hc; [cbn [negb]|left; apply inert_ret].
  apply (guarded_handler _ "/v1/rotations/reconcile-split-signer"); [in_trace|done|done| |].
  - exact (proj1 (proj2 (proj2 (guarded_requests KindZSK [] PhaseIdle _ _)))).
  - exists (16 * 1024).
    destruct (decode_body_confirm _ _ _ _ _ _ signer_confirm Hd Hc eq_refl) as (ms & ? & ?). by exists ms.
Qed.

Lemma armEnrollment_authorised r :
  Request.URL r = "/v1/enrollment/arm" -> Request.Method r = "POST" ->
  inert (armEnrollment c r) \/ authorised r.
Proof.
  intros Hu Hm. unfold armEnrollment.
  destruct (decode_body _ _ _ _) as [req|e] eqn:Hd; [|left; apply inert_ret].
  destruct (ArmEnrollmentRequest.Confirm req) eqn:Hc; [cbn [negb]|left; apply inert_ret].
  apply (guarded_handler _ "/v1/enrollment/arm"); [in_trace|done|done| |].
  - exact (proj2 (proj2 (proj2 (guarded_requests KindZSK [] PhaseIdle ""%string _)))).
  - exists (16 * 1024).
    destruct (decode_body_confirm _ _ _ _ _ _ arm_confirm Hd Hc eq_refl) as (ms & ? & ?). by exists ms.
Qed.

Lemma plan_inert r : inert (plan r).
Proof. unfold plan. case_match; apply inert_ret. Qed.

Lemma reports_inert : inert (Zones c) /\ inert (Status_ c) /\ inert (Audit c).
Proof. apply reports_read_only. Qed.

Lemma mux_authorised r : inert (mux c r) \/ authorised r.
Proof.
  unfold mux. destruct (List.find _ _) as [[[m p] h]|] eqn:Hf; [|left; apply inert_ret].
  apply List.find_some in Hf as [Hin Hp]. cbn [fst snd] in Hp. bool_prop.
  destruct (method_matches m (Request.Method r)) eqn:Hm; [|left; apply inert_ret].
  destruct reports_inert as (Hz & Hs & Ha).
  cbn in Hin. repeat (destruct Hin as [Hin|Hin]; [simplify_eq|]); try done.
  all: try (left; unfold healthz, ready, status, zones, audit;
            first [apply inert_ret | by apply inert_respond | apply plan_inert]).
  all: assert (Hpost : Request.Method r = "POST")
    by (unfold method_matches in Hm; bool_prop; destruct Hm as [?|[E _]]; [done|discriminate E]).
  all: first [ by apply trigger_authorised | by apply resume_authorised
             | by apply reconcileSplitSigner_authorised | by apply armEnrollment_authorised ].
Qed.

Lemma mux_state_only r : emits state_only (mux c r).
Proof.
  assert (Hret : forall x, emits state_only (ret (A := Response.t) x)) by (intros; apply emits_ret).
  assert (Hres : forall A (m : M A) bad good, emits state_only m -> emits state_only (respond m bad good)).
  { intros A m bad good H. unfold respond. apply emits_bind; [by apply emits_try|done]. }
  assert (Hrep : forall A (m : M A), inert m -> emits state_only m).
  { intros A m [H _]. eapply emits_weaken; [|exact H]. by left. }
  destruct reports_inert as (Hz & Hs & Ha).
  unfold mux. destruct (List.find _ _) as [[[m p] h]|] eqn:Hf; [|done].
  apply List.find_some in Hf as [Hin _]. destruct (method_matches _ _); [|done].
  cbn in Hin. repeat (destruct Hin as [Hin|Hin]; [simplify_eq|]); try done.
  all: unfold healthz, ready, status, zones, audit, plan, trigger, resume, reconcileSplitSigner,
         armEnrollment; repeat case_match; try done; apply Hres; try by apply Hrep.
  - exact (proj1 (requests_write_state_only c _ _ PhaseIdle ""%string _)).
  - exact (proj1 (proj2 (requests_write_state_only c _ _ _ ""%string _))).
  - exact (proj1 (proj2 (proj2 (requests_write_state_only c KindZSK [] PhaseIdle _ _)))).
  - exact (proj2 (proj2 (proj2 (requests_write_state_only c KindZSK [] PhaseIdle ""%string _)))).
Qed.

(** C30: whatever request arrives, in whatever form, serving it creates, changes or deletes
    no key, never writes to the registrar and sends no notification; and it writes the state
    file or changes the state only for a POST to one of the four mutating paths in enforce
    mode, with an idempotency key of 16 to 128 bytes and a JSON body whose member [confirm] is
    literally [true]. *)
Theorem changes_are_confirmed r wd :
  exists new, (serve c r wd).2.(trace) = new ++ wd.(trace) /\ Forall state_only new /\
    ((Forall harmless new /\ (serve c r wd).2.(data) = wd.(data)) \/ authorised r).
Proof.
  assert (Hs : emits state_only (serve c r)).
  { unfold serve. apply emits_bind; [apply mux_state_only|intros; apply emits_ret]. }
  destruct (Hs wd) as (new & E & F). exists new. split; [done|]. split; [done|].
  destruct (mux_authorised r) as [Hi|]; [left|by right].
  destruct (inert_serve r Hi) as [He Hk]. destruct (He wd) as (new' & E' & F').
  rewrite E in E'. apply app_inv_tail in E' as ->. split; [done|]. symmetry. apply Hk.
Qed.

(** ** Accepted requests *)
Lemma respond_accepted {A} (m : M A) bad good wd resp wd' :
  respond m bad good wd = (Val resp, wd') -> Response.StatusCode resp = StatusAccepted ->
  bad <> StatusAccepted -> exists a, m wd = (Val a, wd') /\ resp = good a.
Proof.
  unfold respond, bind, try. destruct (m wd) as [[a|e|] w1]; cbn; intros [= <- <-] Hs Hb; [|done].
  by exists a.
Qed.

Lemma respond_again {A} (m : M A) bad good wd a :
  m wd = (Val a, wd) -> respond m bad good wd = (Val (good a), wd).
Proof. unfold respond, bind, try. by intros ->. Qed.

Lemma mux_again r wd resp wd' wd2 :
  mux c r wd = (Val resp, wd') -> Response.StatusCode resp = StatusAccepted ->
  wd2.(data).(State.Idempotency) = wd'.(data).(State.Idempotency) -> mux c r wd2 = (Val resp, wd2).
Proof.
  unfold mux. destruct (List.find _ _) as [[[m p] h]|] eqn:Hf; [|by intros [= <- <-]].
  apply List.find_some in Hf as [Hin _]. destruct (method_matches _ _); [|by intros [= <- <-]].
  cbn in Hin. repeat (destruct Hin as [Hin|Hin]; [simplify_eq|]); try done.
  all: unfold healthz, ready, status, zones, audit, plan, trigger, resume, reconcileSplitSigner,
         armEnrollment; repeat case_match; try by intros [= <- <-].
  all: intros Hrun0 Hc Hi; apply respond_accepted in Hrun0 as (v & Hrun & ->); [|done..].
  all: try discriminate Hc; destruct v; apply (respond_again _ _ (fun _ => _) _ tt).
  - exact (proj1 (requests_idempotent c _ _ PhaseIdle ""%string _ wd' wd2 Hi) _ Hrun).
  - exact (proj1 (proj2 (requests_idempotent c _ _ _ ""%string _ wd' wd2 Hi)) _ Hrun).
  - exact (proj1 (proj2 (proj2 (requests_idempotent c KindZSK [] PhaseIdle _ _ wd' wd2 Hi))) _ Hrun).
  - exact (proj2 (proj2 (proj2 (requests_idempotent c KindZSK [] PhaseIdle ""%string _ wd' wd2 Hi))) _ Hrun).
Qed.

(** C31: a request answered 202 can be sent again: as long as the state still holds the
    recorded idempotency keys, the same request gets the same answer, byte for byte, without a
    call to any service and without a change of the state, however far the rollovers have
    advanced since. *)
Theorem accepted_request_repeats r wd resp wd1 wd2 :
  serve c r wd = (Val resp, wd1) -> Response.StatusCode resp = StatusAccepted ->
  wd2.(data).(State.Idempotency) = wd1.(data).(State.Idempotency) ->
  serve c r wd2 = (Val resp, wd2).
Proof.
  unfold serve, bind. destruct (mux c r wd) as [[resp0|e|] w1] eqn:E; [|done..].
  intros [= <- <-] Hc Hi. by rewrite (mux_again r wd resp0 w1 wd2 E Hc Hi).
Qed.
End Changes.

(** ** The socket *)
Section Socket.
Context (umask_mode : Z) (in_use not_directory : error).

(** A system call either has its effect, or fails and changes no name. *)
Lemma socket_call_cases {A} (f : gmap string Node -> result (A * gmap string Node)) w :
  (exists e w', socket_call f w = (Fail_ e, w') /\ w'.(nodes) = w.(nodes)) \/
  (exists a ns w', f w.(nodes) = Ok (a, ns) /\ socket_call f w = (Val a, w') /\ w'.(nodes) = ns).
Proof.
  unfold socket_call. destruct (faults w) as [|[e|] fs].
  2: { left. by eexists _, _. }
  all: destruct (f (nodes w)) as [[a ns]|e]; [right; by eexists _, _, _|left; by eexists _, _].
Qed.

(** What [Prepare] may leave behind. *)
Definition prepared (path : string) (ns : gmap string Node) (o : Outcome unit) (ns' : gmap string Node) : Prop :=
  (forall name, name <> path -> name <> socket_dir path -> ns' !! name = ns !! name) /\
  (forall n, ns !! path = Some n -> (forall mode, n <> Socket mode) ->
     ns' !! path = Some n /\ exists e, o = Fail_ e) /\
  (o = Val tt -> ns' !! path = Some (Socket 384) /\
     exists mode, ns' !! socket_dir path = Some (Directory mode) /\
       (ns !! socket_dir path = None -> mode = 448)).

Ltac socket_step :=
  lazymatch goal with
  | |- context [socket_call ?f ?w] =>
      destruct (socket_call_cases f w) as [(? & ? & -> & ?Hn)|(? & ? & ? & ?Hf & -> & ?Hn)]
  end.

Lemma prepared_failed path ns ns' e :
  (forall name, name <> path -> name <> socket_dir path -> ns' !! name = ns !! name) ->
  (forall n, ns !! path = Some n -> (forall mode, n <> Socket mode) -> ns' !! path = Some n) ->
  prepared path ns (Fail_ e) ns'.
Proof. intros Ho Hp. split; [done|]. split; [|done]. intros n Hn Hs. split; [by apply Hp|by exists e]. Qed.

(** From a directory that is there and a path without a name: listen and restrict. *)
Lemma prepared_listen path ns w :
  socket_dir path <> path ->
  (forall name, name <> path -> name <> socket_dir path -> w.(nodes) !! name = ns !! name) ->
  (forall n, ns !! path = Some n -> exists mode, n = Socket mode) ->
  (exists mode, w.(nodes) !! socket_dir path = Some (Directory mode) /\
     (ns !! socket_dir path = None -> mode = 448)) ->
  let r := (socket_Listen umask_mode in_use path ;;
            let* r := try (socket_Chmod path 384) in
            match r with
            | Err e => let* _ := try (socket_Remove path) in fail e
            | Ok _ => ret tt
            end) w in
  prepared path ns r.1 r.2.(nodes).
Proof.
  intros Hd Hother Hsock (mode & Hdir & Hmode). cbv zeta.
  assert (Hfail : forall e ns', (forall name, name <> path -> ns' !! name = w.(nodes) !! name) ->
    prepared path ns (Fail_ e) ns').
  { intros e ns' H. apply prepared_failed.
    - intros name Hp Hn. rewrite H by done. by apply Hother.
    - intros n Hn Hs. destruct (Hsock n Hn) as [m ->]. by destruct (Hs m). }
  unfold bind, try. unfold socket_Listen. socket_step; [cbn; apply Hfail; intros; by rewrite Hn|].
  destruct (nodes w !! path) as [n|] eqn:Hw; [done|]. injection Hf as <- <-.
  unfold socket_Chmod. socket_step.
  - unfold socket_Remove. socket_step; cbn; apply Hfail; intros name Hname.
    + rewrite Hn1, Hn0, Hn. by rewrite lookup_insert_ne.
    + injection Hf as <- <-. rewrite Hn1, Hn0, Hn. by rewrite lookup_delete_ne, lookup_insert_ne.
  - injection Hf as <- <-. cbn. rewrite Hn0, Hn. split; [|split].
    + intros name Hp Hdn. rewrite lookup_alter_ne, lookup_insert_ne by done. by apply Hother.
    + intros n Hnn Hs. destruct (Hsock n Hnn) as [m ->]. by destruct (Hs m).
    + intros _. rewrite lookup_alter_eq, lookup_insert_eq. split; [done|]. exists mode.
      by rewrite lookup_alter_ne, lookup_insert_ne by done.
Qed.

Lemma prepared_Prepare path w r :
  socket_dir path <> path -> Prepare umask_mode in_use not_directory path w = r ->
  prepared path w.(nodes) r.1 r.2.(nodes).
Proof.
  intros Hd. unfold Prepare, socket_MkdirAll. unfold bind at 1.
  match goal with |- context [socket_call ?f w] =>
    destruct (socket_call_cases f w) as [(e & w1 & -> & Hn1)|([] & ns1 & w1 & Hf & -> & Hn1)] end.
  { intros <-. cbn [fst snd]. rewrite Hn1. by apply prepared_failed. }
  assert ((forall name, name <> socket_dir path -> w1.(nodes) !! name = w.(nodes) !! name) /\
    exists mode, w1.(nodes) !! socket_dir path = Some (Directory mode) /\
      (w.(nodes) !! socket_dir path = None -> mode = 448)) as [Hsame Hdir].
  { rewrite Hn1. destruct (nodes w !! socket_dir path) as [[m|m|]|] eqn:E; try done; injection Hf as <-.
    - split; [done|]. by exists m.
    - split; [intros; by rewrite lookup_insert_ne|]. exists 448. by rewrite lookup_insert_eq. }
  clear Hf Hn1. unfold bind at 1, socket_Lstat.
  match goal with |- context [socket_call ?f w1] =>
    destruct (socket_call_cases f w1) as [(e & w2 & -> & Hn2)|(st & ns2 & w2 & Hf & -> & Hn2)] end.
  { intros <-. cbn [fst snd]. rewrite Hn2. apply prepared_failed; intros; rewrite Hsame by auto; done. }
  injection Hf as <- <-. rewrite (Hsame path) by auto.
  assert (Hkeep : forall e, prepared path (nodes w) (Fail_ e) (nodes w2)).
  { intros e. rewrite Hn2. apply prepared_failed; intros; rewrite Hsame by auto; done. }
  assert (Hlisten : forall w3, (forall name, name <> path -> nodes w3 !! name = nodes w2 !! name) ->
    (forall n, nodes w !! path = Some n -> exists mode, n = Socket mode) ->
    forall r, (socket_Listen umask_mode in_use path ;;
            let* r := try (socket_Chmod path 384) in
            match r with
            | Err e => let* _ := try (socket_Remove path) in fail e
            | Ok _ => ret tt
            end) w3 = r -> prepared path (nodes w) r.1 (nodes r.2)).
  { intros w3 H3 Hs r' <-. apply prepared_listen; [done| |done|].
    - intros name Hp Hnd. by rewrite H3, Hn2, Hsame.
    - rewrite H3, Hn2 by done. done. }
  unfold bind at 1. destruct (nodes w !! path) as [[m|m|]|] eqn:Ep.
  - intros <-. cbn. apply Hkeep.
  - unfold socket_Remove.
    match goal with |- context [socket_call ?f w2] =>
      destruct (socket_call_cases f w2) as [(e & w3 & -> & Hn3)|([] & ns3 & w3 & Hf & -> & Hn3)] end.
    + intros <-. cbn [fst snd]. rewrite Hn3. apply Hkeep.
    + injection Hf as <-. apply Hlisten; [intros; by rewrite Hn3, lookup_delete_ne|].
      intros n [= <-]. by exists m.
  - intros <-. cbn. apply Hkeep.
  - apply Hlisten; [done|]. intros n [=].
Qed.

(** Preparing the control socket is safe whatever system call fails.  It touches no name
    but the socket path and its directory; a path that holds anything other than a socket is
    refused and kept as it is; and on success the path is a socket only its owner may use (mode
    0600) in a directory that is owner-only (mode 0700) if it had to be created. *)
Lemma socket_protected path w :
  socket_dir path <> path ->
  prepared path w.(nodes) (Prepare umask_mode in_use not_directory path w).1
    (Prepare umask_mode in_use not_directory path w).2.(nodes).
Proof.
  intros Hd. by eapply prepared_Prepare.
Qed.
End Socket.
