(* ===== verification/Terminates.v ===== *)
(** * Termination: the definitions that recurse on fuel, the JSON scanner and the three encoders,
    get enough of it; more changes nothing. *)
From S2P Require Import Prelude GoStrings Json JsonFacts Http Lmtp.

(** ** What the scanners consume *)
Lemma skip_space_length l : (length (skip_space l) <= length l)%nat.
Proof. unfold skip_space. induction l as [|a l IH]; cbn; [lia|]. destruct (json_space a); cbn; lia. Qed.

Lemma rune_size_range l n : rune_size l = Some n -> (1 <= n <= 4)%nat.
Proof. unfold rune_size. cbv zeta. repeat case_match; intros ?; simplify_eq; lia. Qed.

Lemma unit4_length l u rest : unit4 l = Some (u, rest) -> length l = (4 + length rest)%nat.
Proof. unfold unit4. repeat case_match; intros ?; simplify_eq/=; lia. Qed.

Lemma unicode_rune_length l chunk rest : unicode_rune l = Some (chunk, rest) -> (length rest < length l)%nat.
Proof.
  unfold unicode_rune. destruct (unit4 l) as [[u r]|] eqn:E; [|done]. apply unit4_length in E.
  destruct (_ || _); [|intros [= <- <-]; lia].
  destruct r as [|a [|b l']]; try (intros [= <- <-]; cbn in *; lia).
  destruct (_ && _); [|intros [= <- <-]; cbn in *; lia].
  destruct (unit4 l') as [[u' r']|] eqn:E'; [|intros [= <- <-]; cbn in *; lia].
  apply unit4_length in E'. destruct (_ && _); intros [= <- <-]; cbn in *; lia.
Qed.

(** One step of the string scanner: the literal ends, is refused, or goes on behind at least
    one byte. *)
Inductive string_step (l : list ascii) : option (list ascii * list ascii) + list ascii * list ascii -> Prop :=
| string_ends rest : (length rest < length l)%nat -> string_step l (inl (Some ([], rest)))
| string_refused : string_step l (inl None)
| string_goes_on chunk rest : (length rest < length l)%nat -> string_step l (inr (chunk, rest)).

Lemma scan_string_step l :
  exists x, string_step l x /\ forall fuel, scan_string (S fuel) l =
    match x with
    | inl r => r
    | inr (chunk, rest) => match scan_string fuel rest with
                           | Some (s, rest') => Some (chunk ++ s, rest')
                           | None => None
                           end
    end.
Proof.
  destruct l as [|a l]; [exists (inl None); split; [constructor|done]|]. cbn [scan_string]. cbv zeta.
  destruct (_ =? 34); [eexists; split; [apply (string_ends _ l); cbn; lia|done]|].
  destruct (_ <? 32); [eexists; split; [constructor 2|done]|].
  destruct (_ =? 92).
  - destruct l as [|e l]; [eexists; split; [constructor 2|done]|].
    destruct (_ =? 117).
    + destruct (unicode_rune l) as [[chunk rest]|] eqn:E; [|eexists; split; [constructor 2|done]].
      apply unicode_rune_length in E. eexists; split; [apply (string_goes_on _ chunk rest); cbn; lia|done].
    + destruct (simple_escape e) as [b|]; [|eexists; split; [constructor 2|done]].
      eexists; split; [apply (string_goes_on _ [b] l); cbn; lia|done].
  - destruct (rune_size (a :: l)) as [n|] eqn:E.
    + apply rune_size_range in E. exists (inr (take n (a :: l), drop n (a :: l))). split; [|done].
      apply string_goes_on. rewrite length_drop. cbn. lia.
    + eexists; split; [apply (string_goes_on _ rune_error l); cbn; lia|done].
Qed.

Lemma scan_string_shrinks fuel l s rest :
  scan_string fuel l = Some (s, rest) -> (length rest < length l)%nat.
Proof.
  revert l s rest. induction fuel as [|fuel IH]; intros l s rest; [by destruct l|].
  destruct (scan_string_step l) as (x & Hx & ->). destruct Hx as [r Hr| |chunk r Hr]; [by intros [= <- <-]|done|].
  destruct (scan_string fuel r) as [[s' r']|] eqn:E; [|done]. intros [= <- <-]. apply IH in E. lia.
Qed.

Lemma scan_string_enough fuel l :
  (length l <= fuel)%nat -> scan_string fuel l = scan_string (length l) l.
Proof.
  assert (H : forall f f' l, (length l <= f)%nat -> (f <= f')%nat -> scan_string f' l = scan_string f l);
    [|intros; by apply H].
  clear. induction f as [|f IH]; intros f' l Hl Hf.
  - destruct l; [|cbn in Hl; lia]. by destruct f'.
  - destruct f' as [|f']; [lia|]. destruct (scan_string_step l) as (x & Hx & E). rewrite !E.
    destruct Hx as [| |chunk r Hr]; [done..|]. by rewrite (IH f' r) by lia.
Qed.

Lemma span_length f l : length l = (length (span f l).1 + length (span f l).2)%nat.
Proof. induction l as [|a l IH]; cbn; [done|]. destruct (f a); [|done]. destruct (span f l). cbn in *. lia. Qed.

Lemma scan_digits_length mark l x rest : scan_digits mark l = Some (x, rest) -> (length rest <= length l)%nat.
Proof.
  unfold scan_digits. pose proof (span_length is_digit l) as H. destruct (span is_digit l) as [[|d ds] r]; [done|].
  intros [= <- <-]. cbn in H. lia.
Qed.

Lemma scan_number_shrinks l v rest : scan_number l = Some (v, rest) -> (length rest < length l)%nat.
Proof.
  unfold scan_number. destruct (match l with [] => _ | _ => _ end) as [sign l0] eqn:E0.
  assert (H0 : (length l0 <= length l)%nat).
  { destruct l as [|a l]; [by simplify_eq|]. destruct (_ =? 45); simplify_eq/=; lia. }
  destruct (scan_integer l0) as [[i l1]|] eqn:E1; [|done].
  assert (H1 : (length l1 < length l0)%nat).
  { destruct l0 as [|a l0]; [done|]. cbn [scan_integer] in E1. destruct (_ =? 48); [simplify_eq; cbn; lia|].
    destruct (in_range 49 57 a) eqn:Ha; [|done].
    assert (is_digit a = true) as Hd by (by destruct a as [[] [] [] [] [] [] [] []]).
    cbn [span] in E1. rewrite Hd in E1. pose proof (span_length is_digit l0) as H.
    destruct (span is_digit l0) as [p r]. simplify_eq. cbn in *. lia. }
  destruct (scan_fraction l1) as [[f l2]|] eqn:E2; [|done].
  assert (H2 : (length l2 <= length l1)%nat).
  { destruct l1 as [|a l1]; cbn in E2; [by simplify_eq|]. destruct (_ =? 46); [|by simplify_eq].
    apply scan_digits_length in E2. cbn. lia. }
  destruct (scan_exponent l2) as [[e l3]|] eqn:E3; [|done]. intros [= <- <-].
  assert (H3 : (length l3 <= length l2)%nat); [|lia].
  destruct l2 as [|a l2]; cbn in E3; [by simplify_eq|]. destruct (_ || _); [|by simplify_eq].
  destruct l2 as [|b l2]; [done|]. destruct (_ || _); apply scan_digits_length in E3; cbn in *; lia.
Qed.

Lemma has_prefix_length p l rest : has_prefix p l = Some rest -> length l = (length p + length rest)%nat.
Proof.
  revert l. induction p as [|a p IH]; intros l; [by intros [= ->]|]. destruct l as [|b l]; [done|]. cbn.
  destruct (Ascii.eqb a b); [|done]. intros H. apply IH in H. lia.
Qed.

Lemma scan_literal_shrinks l v rest : scan_literal l = Some (v, rest) -> (length rest < length l)%nat.
Proof.
  unfold scan_literal. destruct (has_prefix (bytes "null") l) eqn:E1;
    [intros [= <- <-]; apply has_prefix_length in E1; cbn in E1; lia|].
  destruct (has_prefix (bytes "true") l) eqn:E2; [intros [= <- <-]; apply has_prefix_length in E2; cbn in E2; lia|].
  destruct (has_prefix (bytes "false") l) eqn:E3; [intros [= <- <-]; apply has_prefix_length in E3; cbn in E3; lia|].
  apply scan_number_shrinks.
Qed.

(** ** Documents *)
(** What the two loops do at an element or a member. *)
Definition element_at (fuel depth : nat) (l : list ascii) : option (list json * list ascii) :=
  match scan_value fuel depth l with
  | None => None
  | Some (v, rest) =>
      match scan_elements fuel depth false rest with
      | Some (vs, rest') => Some (v :: vs, rest')
      | None => None
      end
  end.
Definition value_at (fuel depth : nat) (k : list ascii) (l : list ascii)
  : option (list (string * json) * list ascii) :=
  match scan_value fuel depth l with
  | None => None
  | Some (v, rest) =>
      match scan_members fuel depth false rest with
      | Some (ms, rest') => Some ((of_bytes k, v) :: ms, rest')
      | None => None
      end
  end.
(** A member's name and colon: the name and the text behind them. *)
Definition member_name (l : list ascii) : option (list ascii * list ascii) :=
  match skip_space l with
  | q :: l1 =>
      if negb (byte_code q =? 34) then None else
      match scan_string (length l1) l1 with
      | None => None
      | Some (k, l2) =>
          match skip_space l2 with
          | colon :: l3 => if negb (byte_code colon =? 58) then None else Some (k, l3)
          | [] => None
          end
      end
  | [] => None
  end.
Definition member_at (fuel depth : nat) (l : list ascii) : option (list (string * json) * list ascii) :=
  match member_name l with
  | Some (k, l') => value_at fuel depth k l'
  | None => None
  end.
(** Both loops up to there. *)
Definition loop {A} (close : Z) (at_ : list ascii -> option (list A * list ascii)) (first : bool) (l : list ascii)
  : option (list A * list ascii) :=
  match skip_space l with
  | [] => None
  | a :: l' =>
      if byte_code a =? close then Some ([], l')
      else if first then at_ l
      else if byte_code a =? 44 then at_ l'
      else None
  end.

Lemma scan_elements_S fuel depth first l :
  scan_elements (S fuel) depth first l = loop 93 (element_at fuel depth) first l.
Proof. reflexivity. Qed.
Lemma scan_members_S fuel depth first l :
  scan_members (S fuel) depth first l = loop 125 (member_at fuel depth) first l.
Proof.
  assert (H : forall l0, match skip_space l0 with
    | q :: l1 => if negb (byte_code q =? 34) then None else
        match scan_string (length l1) l1 with
        | None => None
        | Some (k, l2) => match skip_space l2 with
            | colon :: l3 => if negb (byte_code colon =? 58) then None else value_at fuel depth k l3
            | [] => None
            end
        end
    | [] => None
    end = member_at fuel depth l0).
  { intros l0. unfold member_at, member_name. repeat case_match; simplify_eq; done. }
  unfold value_at in H. cbn [scan_members]. unfold loop. cbv zeta. generalize (H l).
  destruct (skip_space l) as [|a l']; [done|]. intros Hl. by rewrite Hl, (H l').
Qed.

Definition shrinks {A} (scanner : list ascii -> option (A * list ascii)) : Prop :=
  forall l a rest, scanner l = Some (a, rest) -> (length rest < length l)%nat.

Lemma shrinks_loop {A} close (at_ : list ascii -> option (list A * list ascii)) first :
  shrinks at_ -> shrinks (loop close at_ first).
Proof.
  intros H l x rest. unfold loop. pose proof (skip_space_length l) as Hs.
  destruct (skip_space l) as [|a l']; [done|]. cbn [length] in Hs.
  destruct (_ =? close); [intros [= <- <-]; lia|]. destruct first; [apply H|].
  destruct (_ =? 44); [|done]. intros E. apply H in E. lia.
Qed.

Lemma shrinks_member_name : shrinks member_name.
Proof.
  intros l k rest. unfold member_name. pose proof (skip_space_length l) as Hs.
  destruct (skip_space l) as [|q l1]; [done|]. cbn [length] in Hs. destruct (negb _); [done|].
  destruct (scan_string _ _) as [[k' l2]|] eqn:E; [|done]. apply scan_string_shrinks in E.
  pose proof (skip_space_length l2) as H2. destruct (skip_space l2) as [|colon l3]; [done|]. cbn [length] in H2.
  destruct (negb _); [done|]. intros [= <- <-]. lia.
Qed.

Lemma scan_shrinks fuel :
  (forall depth, shrinks (scan_value fuel depth)) /\
  (forall depth first, shrinks (scan_elements fuel depth first)) /\
  (forall depth first, shrinks (scan_members fuel depth first)).
Proof.
  induction fuel as [|fuel (HV & HE & HM)]; [done|]. split_and!.
  - intros depth l v rest. cbn [scan_value]. pose proof (skip_space_length l) as Hs.
    destruct (skip_space l) as [|a l']; [done|]. cbn [length] in Hs. cbv zeta.
    destruct (_ =? 34); [|destruct (_ =? 91); [|destruct (_ =? 123)]].
    + destruct (scan_string _ _) as [[s r]|] eqn:E; [|done]. apply scan_string_shrinks in E.
      intros [= <- <-]. lia.
    + destruct depth as [|depth]; [done|]. destruct (scan_elements _ _ _ _) as [[vs r]|] eqn:E; [|done].
      apply HE in E. intros [= <- <-]. lia.
    + destruct depth as [|depth]; [done|]. destruct (scan_members _ _ _ _) as [[ms r]|] eqn:E; [|done].
      apply HM in E. intros [= <- <-]. lia.
    + intros E. apply scan_literal_shrinks in E. cbn in E. lia.
  - intros depth first l. rewrite scan_elements_S. revert l. apply shrinks_loop.
    intros l vs rest. unfold element_at. destruct (scan_value _ _ _) as [[v r]|] eqn:E; [|done].
    apply HV in E. destruct (scan_elements _ _ _ _) as [[vs' r']|] eqn:E'; [|done].
    apply HE in E'. intros [= <- <-]. lia.
  - intros depth first l. rewrite scan_members_S. revert l. apply shrinks_loop.
    intros l ms rest. unfold member_at. destruct (member_name l) as [[k l']|] eqn:Ek; [|done].
    apply shrinks_member_name in Ek. unfold value_at. destruct (scan_value _ _ _) as [[v r]|] eqn:E; [|done].
    apply HV in E. destruct (scan_members _ _ _ _) as [[ms' r']|] eqn:E'; [|done].
    apply HM in E'. intros [= <- <-]. lia.
Qed.
Lemma scan_value_shrinks fuel depth : shrinks (scan_value fuel depth).
Proof. apply scan_shrinks. Qed.

(** More fuel than the text needs changes nothing. *)
Lemma loop_enough {A} close (f g : list ascii -> option (list A * list ascii)) first l :
  (forall l0, (length l0 <= length l)%nat -> f l0 = g l0) ->
  loop close f first l = loop close g first l.
Proof.
  intros H. unfold loop. pose proof (skip_space_length l) as Hs.
  destruct (skip_space l) as [|a l']; [done|]. cbn [length] in Hs. rewrite !H by lia. done.
Qed.

Lemma scan_enough fuel more :
  (fuel <= more)%nat ->
  (forall depth l, (2 * length l + 1 <= fuel)%nat -> scan_value fuel depth l = scan_value more depth l) /\
  (forall depth first l, (2 * length l + 2 <= fuel)%nat ->
     scan_elements fuel depth first l = scan_elements more depth first l) /\
  (forall depth first l, (2 * length l + 2 <= fuel)%nat ->
     scan_members fuel depth first l = scan_members more depth first l).
Proof.
  revert more. induction fuel as [|fuel IH]; intros [|more] Hm; try (split_and!; intros; lia).
  destruct (IH more ltac:(lia)) as (HV & HE & HM). split_and!.
  - intros depth l Hl. cbn [scan_value]. pose proof (skip_space_length l) as Hs.
    destruct (skip_space l) as [|a l']; [done|]. cbn [length] in Hs.
    destruct depth as [|depth]; [done|]. by rewrite HE, HM by lia.
  - intros depth first l Hl. rewrite !scan_elements_S. apply loop_enough.
    intros l0 H0. unfold element_at. rewrite HV by lia.
    destruct (scan_value more depth l0) as [[v r]|] eqn:E; [|done]. apply scan_value_shrinks in E.
    by rewrite HE by lia.
  - intros depth first l Hl. rewrite !scan_members_S. apply loop_enough.
    intros l0 H0. unfold member_at. destruct (member_name l0) as [[k l1]|] eqn:Ek; [|done].
    apply shrinks_member_name in Ek. unfold value_at. rewrite HV by lia.
    destruct (scan_value more depth l1) as [[v r]|] eqn:E; [|done]. apply scan_value_shrinks in E.
    by rewrite HM by lia.
Qed.

(** ** The encoders *)
Lemma escape_bytes_enough fuel more l :
  (length l <= fuel)%nat -> (fuel <= more)%nat -> escape_bytes more l = escape_bytes fuel l.
Proof.
  revert more l. induction fuel as [|fuel IH]; intros [|more] [|a l] Hl Hm; cbn [length] in Hl; try lia; try done.
  cbn [escape_bytes]. destruct (byte_code a <? 128); [by rewrite (IH more) by lia|].
  destruct (rune_size (a :: l)) as [n|] eqn:E; [|by rewrite (IH more) by lia].
  apply rune_size_range in E. rewrite (IH more); [done| |lia]. rewrite length_drop. cbn. lia.
Qed.

Lemma base64_bytes_enough fuel more l :
  (length l <= fuel)%nat -> (fuel <= more)%nat -> base64_bytes more l = base64_bytes fuel l.
Proof.
  revert more l. induction fuel as [|fuel IH]; intros more l Hl Hm.
  - destruct l; [|cbn in Hl; lia]. by destruct more.
  - destruct more as [|more]; [lia|]. destruct l as [|a [|b [|d l]]]; try done. cbn [base64_bytes].
    cbn [length] in Hl. by rewrite (IH more) by lia.
Qed.

Lemma q_encode_enough fuel more n l :
  (length l <= fuel)%nat -> (fuel <= more)%nat -> q_encode more n l = q_encode fuel n l.
Proof.
  revert more n l. induction fuel as [|fuel IH]; intros [|more] n [|a l] Hl Hm; cbn [length] in Hl; try lia; try done.
  cbn [q_encode]. cbv zeta. rewrite (IH more); [done| |lia]. rewrite length_drop. cbn [length].
  destruct (_ || _); [lia|]. destruct (rune_size (a :: l)) as [k|] eqn:E; cbn; [apply rune_size_range in E|]; lia.
Qed.

(** ** All of it *)
(** Everything that recurses on fuel terminates before its fuel does.  Parsing a
    text of [n] bytes takes at most [2 n + 2] calls of the scanner, and leaves a rest that is
    shorter than the text if it succeeds; a string literal, its escaping, base64 and the Q
    encoding take at most one call per byte: with any greater number the result is the same,
    so no document is rejected and no output cut for want of fuel. *)
Lemma fuel_suffices fuel l s :
  (2 * length l + 2 <= fuel)%nat -> (String.length s <= fuel)%nat ->
  scan_value fuel max_depth l = scan l /\
  (forall v rest, scan l = Some (v, rest) -> (length rest < length l)%nat) /\
  scan_string fuel l = scan_string (length l) l /\
  dquote :: escape_bytes fuel (bytes s) ++ [dquote] = json_string s /\
  of_bytes (base64_bytes fuel (map byte_code (bytes s))) = base64 s /\
  (needs_encoding s = true ->
   of_bytes (bytes "=?utf-8?q?" ++ q_encode fuel 0 (bytes s) ++ bytes "?=") = QEncode s).
Proof.
  intros Hl Hs. assert (Hb : length (bytes s) = String.length s) by apply length_bytes.
  split_and!.
  - unfold scan. symmetry. apply (scan_enough _ fuel Hl). lia.
  - apply scan_value_shrinks.
  - apply scan_string_enough. lia.
  - unfold json_string. by rewrite (escape_bytes_enough (String.length s) fuel) by lia.
  - unfold base64. rewrite (base64_bytes_enough (String.length s) fuel); [done| |lia]. rewrite length_map. lia.
  - intros Hn. unfold QEncode. rewrite Hn. by rewrite (q_encode_enough (String.length s) fuel) by lia.
Qed.
