(* ===== verification/JsonIndent.v ===== *)
(** * Round trip of indented JSON texts. *)
From S2P Require Import Prelude GoStrings Json JsonFacts Http Lmtp Terminates.

Definition blanks (l : list ascii) : Prop := Forall (fun a => json_space a = true) l.

Lemma skip_blanks ws l : blanks ws -> skip_space (ws ++ l) = skip_space l.
Proof. intros H. unfold skip_space. induction H as [|a ws Ha H IH]; [done|]. cbn. by rewrite Ha. Qed.

Lemma skip_comma l : skip_space (","%char :: l) = ","%char :: l.
Proof. reflexivity. Qed.

Lemma blanks_indentation n : blanks (indentation n).
Proof. constructor; [done|]. by apply Forall_replicate. Qed.

(** A text that reads as a value, wherever the scanner has the fuel and the depth. *)
Definition text_reads (depth : nat) (tv : list ascii * json) : Prop :=
  forall fuel rest, (steps tv.2 <= fuel)%nat -> boundary rest ->
  scan_value fuel depth (tv.1 ++ rest) = Some (tv.2, rest).

Lemma text_reads_blanks depth ws tx v : blanks ws -> text_reads depth (tx, v) -> text_reads depth (ws ++ tx, v).
Proof.
  intros Hw H fuel rest Hf Hb. specialize (H fuel rest Hf Hb). cbn [fst snd] in *. rewrite <- H.
  by rewrite <- scan_value_space, <- app_assoc, skip_blanks, scan_value_space by done.
Qed.

(** What follows the last value: the closing bracket on a line of its own. *)
Lemma boundary_close n a rest : boundary (indentation n ++ a :: rest).
Proof. cbn. auto. Qed.
Lemma boundary_more (ps : list (list ascii)) n a rest :
  boundary (List.concat (map (fun q => ","%char :: q) ps) ++ indentation n ++ a :: rest).
Proof. destruct ps; cbn; auto. Qed.

Section Loops.
Variable depth : nat.

Lemma elements_close fuel n first rest :
  scan_elements (S fuel) depth first (indentation n ++ "]"%char :: rest) = Some ([], rest).
Proof. rewrite scan_elements_S. unfold loop. by rewrite skip_blanks by apply blanks_indentation. Qed.

Lemma elements_laid_out tvs n fuel rest :
  Forall (text_reads depth) tvs -> (element_steps (map snd tvs) <= fuel)%nat ->
  scan_elements fuel depth false
    (List.concat (map (fun q => ","%char :: q) (map fst tvs)) ++ indentation n ++ "]"%char :: rest)
  = Some (map snd tvs, rest).
Proof.
  intros Hl. revert fuel. induction Hl as [|[tx v] tvs Hv Hl IH]; intros fuel Hf.
  - destruct fuel; [cbn in Hf; lia|apply elements_close].
  - cbn [map] in Hf. rewrite element_steps_cons in Hf. destruct fuel as [|fuel]; [lia|].
    cbn [map List.concat fst snd]. rewrite <- !app_comm_cons, <- app_assoc, scan_elements_next.
    rewrite (Hv fuel); [|cbn [snd] in *; lia|apply boundary_more]. by rewrite IH by lia.
Qed.

(** A member's name in front of its text. *)
Definition member_text (ws : list ascii) (k : string) (tx : list ascii) : list ascii :=
  ws ++ json_string k ++ bytes ": " ++ tx.

Lemma member_name_text ws k tx :
  blanks ws -> ascii_string k -> member_name (member_text ws k tx) = Some (bytes k, " "%char :: tx).
Proof.
  intros Hw Hk. unfold member_name, member_text. rewrite skip_blanks by done.
  change (bytes ": " ++ tx) with (":"%char :: " "%char :: tx).
  destruct (scan_json_string k (":"%char :: " "%char :: tx) Hk) as (l & -> & E). cbn [skip_space].
  change (skip_space (dquote :: l)) with (dquote :: l). change (negb (byte_code dquote =? 34)) with false.
  cbn iota. by rewrite E.
Qed.

Lemma member_reads fuel ws k tx v rest :
  blanks ws -> ascii_string k -> text_reads depth (tx, v) -> (steps v <= fuel)%nat -> boundary rest ->
  member_at fuel depth (member_text ws k tx ++ rest) =
  match scan_members fuel depth false rest with
  | Some (ms, rest') => Some ((k, v) :: ms, rest')
  | None => None
  end.
Proof.
  intros Hw Hk Hv Hf Hb. unfold member_at. replace (member_text ws k tx ++ rest) with (member_text ws k (tx ++ rest))
    by (unfold member_text; by rewrite <- !app_assoc).
  rewrite member_name_text by done. unfold value_at.
  pose proof (text_reads_blanks depth [" "%char] tx v ltac:(by repeat constructor) Hv fuel rest Hf Hb) as E.
  cbn [fst snd app] in E. by rewrite E, of_bytes_bytes.
Qed.

(** Members: the white space in front, the name, the text and the value of each. *)
Definition member := (list ascii * string * list ascii * json)%type.
Definition member_ok (x : member) : Prop :=
  let '(ws, k, tx, v) := x in blanks ws /\ ascii_string k /\ text_reads depth (tx, v).
Definition text_of (x : member) : list ascii := let '(ws, k, tx, v) := x in member_text ws k tx.
Definition pair_of (x : member) : string * json := let '(ws, k, tx, v) := x in (k, v).

Lemma members_close fuel n first rest :
  scan_members (S fuel) depth first (indentation n ++ "}"%char :: rest) = Some ([], rest).
Proof. rewrite scan_members_S. unfold loop. by rewrite skip_blanks by apply blanks_indentation. Qed.

Lemma members_laid_out ms n fuel rest :
  Forall member_ok ms -> (member_steps (map pair_of ms) <= fuel)%nat ->
  scan_members fuel depth false
    (List.concat (map (fun q => ","%char :: q) (map text_of ms)) ++ indentation n ++ "}"%char :: rest)
  = Some (map pair_of ms, rest).
Proof.
  intros Hl. revert fuel. induction Hl as [|[[[ws k] tx] v] ms (Hw & Hk & Hv) Hl IH]; intros fuel Hf.
  - destruct fuel; [cbn in Hf; lia|apply members_close].
  - cbn [map pair_of] in Hf. rewrite member_steps_cons in Hf. cbn [snd] in Hf. destruct fuel as [|fuel]; [lia|].
    cbn [map List.concat text_of pair_of]. rewrite <- !app_comm_cons, <- app_assoc, scan_members_S. unfold loop.
    rewrite skip_comma.
    change (byte_code ","%char =? 125) with false. change (byte_code ","%char =? 44) with true. cbn iota.
    rewrite (member_reads _ ws k tx v); [|done|done|done|lia|apply boundary_more]. by rewrite IH by lia.
Qed.

(** Both loops from the opening bracket on, when there is something between the brackets. *)
Definition opens (tx : list ascii) : Prop :=
  exists a l, skip_space tx = a :: l /\ byte_code a <> 93 /\ byte_code a <> 125 /\ forall rest, skip_space (tx ++ rest) = a :: l ++ rest.

Lemma elements_from_start tv tvs n fuel rest :
  opens tv.1 -> Forall (text_reads depth) (tv :: tvs) -> (element_steps (map snd (tv :: tvs)) <= fuel)%nat ->
  scan_elements fuel depth true
    (comma_separated (map fst (tv :: tvs)) ++ indentation n ++ "]"%char :: rest)
  = Some (map snd (tv :: tvs), rest).
Proof.
  destruct tv as [tx v]. intros (a & l & _ & Ha & _ & E) Hl Hf. apply Forall_cons in Hl as [Hv Hl].
  cbn [map] in Hf. rewrite element_steps_cons in Hf. destruct fuel as [|fuel]; [lia|].
  cbn [map comma_separated fst snd] in *. rewrite <- app_assoc, scan_elements_S. unfold loop. rewrite E.
  rewrite (proj2 (Z.eqb_neq _ _) Ha). unfold element_at. rewrite (Hv fuel); [|cbn [snd]; lia|apply boundary_more].
  by rewrite elements_laid_out by (done || lia).
Qed.

Lemma members_from_start x ms n fuel rest :
  opens (text_of x) -> Forall member_ok (x :: ms) -> (member_steps (map pair_of (x :: ms)) <= fuel)%nat ->
  scan_members fuel depth true
    (comma_separated (map text_of (x :: ms)) ++ indentation n ++ "}"%char :: rest)
  = Some (map pair_of (x :: ms), rest).
Proof.
  destruct x as [[[ws k] tx] v]. intros (a & l & _ & _ & Ha & E) Hl Hf. apply Forall_cons in Hl as [(Hw & Hk & Hv) Hl].
  cbn [map pair_of] in Hf. rewrite member_steps_cons in Hf. cbn [snd] in Hf. destruct fuel as [|fuel]; [lia|].
  cbn [map comma_separated text_of pair_of] in *. rewrite <- app_assoc, scan_members_S. unfold loop. rewrite E.
  rewrite (proj2 (Z.eqb_neq _ _) Ha). rewrite (member_reads _ ws k tx v); [|done|done|done|lia|apply boundary_more].
  by rewrite members_laid_out by (done || lia).
Qed.
End Loops.

(** ** Indented documents *)
Lemma opens_starts ws tx : blanks ws -> (forall rest, starts (tx ++ rest)) -> opens (ws ++ tx).
Proof.
  intros Hw H. destruct (H []) as (a & l & E & Ha & H1 & H2 & _). rewrite app_nil_r in E. subst tx.
  exists a, l. assert (Es : forall rest, skip_space ((ws ++ a :: l) ++ rest) = a :: l ++ rest).
  { intros rest. rewrite <- app_assoc, skip_blanks by done. exact (skip_starts _ (H rest)). }
  split_and!; [|done..]. specialize (Es []). by rewrite !app_nil_r in Es.
Qed.

Lemma indented_starts n v rest : plain v -> starts (indent_bytes n v ++ rest).
Proof.
  intros H. destruct v as [| | | |[|u l]|[|kv m]]; try exact (json_starts _ rest H);
    (eexists _, _; split; [reflexivity|]; by split_and!).
Qed.

Lemma indented_array n depth l :
  Forall plain l -> Forall (fun v => forall n, text_reads depth (indent_bytes n v, v)) l ->
  (forall u l', l = u :: l' -> text_reads (S depth) (indent_bytes n (JArr l), JArr l)).
Proof.
  intros Hp Hr u l' ->. intros fuel rest Hf Hb. cbn [fst snd] in *.
  destruct fuel as [|fuel]; [cbn in Hf; lia|].
  set (f := fun v => (indentation (S n) ++ indent_bytes (S n) v, v)).
  assert (Hsnd : map snd (map f (u :: l')) = u :: l') by (rewrite map_map; apply map_id).
  cbn [steps] in Hf. fold (element_steps (u :: l')) in Hf. cbn [indent_bytes].
  rewrite <- app_comm_cons, scan_value_array, <- !app_assoc. cbn [app].
  replace (map (fun v => indentation (S n) ++ indent_bytes (S n) v) (u :: l')) with (map fst (map f (u :: l')))
    by (by rewrite map_map).
  change (map f (u :: l')) with (f u :: map f l') in Hsnd |- *. rewrite elements_from_start; [by rewrite Hsnd| | |rewrite Hsnd; lia].
  - apply opens_starts; [apply blanks_indentation|]. intros. apply indented_starts. by apply Forall_cons in Hp as [? _].
  - change (f u :: map f l') with (map f (u :: l')). apply Forall_map. eapply Forall_impl; [exact Hr|].
    intros v Hv. apply text_reads_blanks; [apply blanks_indentation|apply Hv].
Qed.

Lemma indented_object n depth m :
  Forall (fun kv => ascii_string kv.1) m -> Forall (fun kv => forall n, text_reads depth (indent_bytes n kv.2, kv.2)) m ->
  (forall u m', m = u :: m' -> text_reads (S depth) (indent_bytes n (JObj m), JObj m)).
Proof.
  intros Hk Hr u m' ->. intros fuel rest Hf Hb. cbn [fst snd] in *.
  destruct fuel as [|fuel]; [cbn in Hf; lia|].
  set (f := fun kv : string * json => (indentation (S n), kv.1, indent_bytes (S n) kv.2, kv.2) : member).
  assert (Hsnd : map pair_of (map f (u :: m')) = u :: m') by (rewrite map_map; erewrite map_ext; [apply map_id|by intros []]).
  cbn [steps] in Hf. fold (member_steps (u :: m')) in Hf. cbn [indent_bytes].
  rewrite <- app_comm_cons, scan_value_object, <- !app_assoc. cbn [app].
  replace (map _ (u :: m')) with (map text_of (map f (u :: m'))) by (by rewrite map_map).
  change (map f (u :: m')) with (f u :: map f m') in Hsnd |- *. rewrite members_from_start; [by rewrite Hsnd| | |rewrite Hsnd; lia].
  - apply opens_starts; [apply blanks_indentation|]. intros. unfold json_string.
    eexists _, _. split; [reflexivity|by split_and!].
  - change (f u :: map f m') with (map f (u :: m')). apply Forall_map. rewrite Forall_forall in Hk, Hr |- *.
    intros kv Hin. split_and!; [apply blanks_indentation|by apply Hk|by apply Hr].
Qed.

Lemma scan_indented v depth : plain v -> (height v <= depth)%nat -> forall n, text_reads depth (indent_bytes n v, v).
Proof.
  revert depth. induction v as [|b|s|s|l IH|m IH] using json_ind'; intros depth Hp Hd n;
    try (exact (scan_plain _ depth Hp Hd)).
  - destruct l as [|u l]; [exact (scan_plain _ depth Hp Hd)|]. destruct depth as [|depth]; [cbn in Hd; lia|].
    apply plain_elements in Hp. eapply indented_array; [done| |done]. cbn [height] in Hd. revert Hd Hp.
    induction IH as [|v l' Hv IH IHl]; intros Hd Hp; [constructor|]. apply Forall_cons in Hp as [Hpv Hp]. cbn in Hd.
    constructor; [apply Hv; [done|lia]|apply IHl; [cbn; lia|done]].
  - destruct m as [|u m]; [exact (scan_plain _ depth Hp Hd)|]. destruct depth as [|depth]; [cbn in Hd; lia|].
    apply plain_members in Hp as [Hk Hp]. eapply indented_object; [done| |done]. cbn [height] in Hd. revert Hd Hp.
    clear Hk. induction IH as [|v m' Hv IH IHm]; intros Hd Hp; [constructor|]. apply Forall_cons in Hp as [Hpv Hp].
    cbn in Hd. constructor; [apply Hv; [done|lia]|apply IHm; [cbn; lia|done]].
Qed.

(** [json.Unmarshal] reads back what [json.MarshalIndent] wrote. *)
Lemma decode_all_indented v :
  plain v -> (height v <= max_depth)%nat -> decode_all (of_bytes (indent_bytes 0 v)) = Some v.
Proof.
  intros Hp Hh. unfold decode_all. rewrite bytes_of_bytes. set (l := indent_bytes 0 v).
  assert (E : scan l = Some (v, [])); [|by rewrite E].
  unfold scan. rewrite (proj1 (scan_enough (2 * length l + 2) _ (Nat.le_max_l _ (steps v)))) by lia.
  pose proof (scan_indented v max_depth Hp Hh 0 (Nat.max (2 * length l + 2) (steps v)) []) as H. cbn [fst snd] in H.
  rewrite app_nil_r in H. apply H; [lia|done].
Qed.
