(* ===== verification/StateJsonFacts.v ===== *)
(** * Round trip of the persisted state: encoding/json decodes what it wrote for a state whose
    texts are ASCII and whose numbers fit their Go types. *)
From S2P Require Import Prelude GoStrings GoTime GoNetFacts Model Effects Report Json JsonCodec JsonFacts StateFile StateFileFacts TimeText JsonIndent StateJson.

(** ** ASCII texts *)
Ltac ascii_text := refine (bool_decide_eq_true_1 _ _); vm_compute; reflexivity.

Lemma ascii_app s1 s2 : ascii_string s1 -> ascii_string s2 -> ascii_string (s1 +:+ s2).
Proof. unfold ascii_string, ascii_bytes. rewrite bytes_app. apply Forall_app_2. Qed.

Lemma ascii_digits l : all_digits l -> ascii_bytes l.
Proof.
  intros H. refine (Forall_impl _ _ _ H _). intros a Ha. unfold is_digit, in_range in Ha.
  unfold byte_code in *. bool_prop. lia.
Qed.

Lemma ascii_pretty (z : Z) : ascii_string (pretty z).
Proof.
  unfold ascii_string. destruct (pretty_Z_bytes z) as [[_ ->]|[(ds & _ & [Hd _ _] & ->)|(ds & _ & [Hd _ _] & ->)]].
  - by repeat constructor.
  - by apply ascii_digits.
  - constructor; [done|]. by apply ascii_digits.
Qed.

Lemma ascii_padded w (z : Z) : ascii_string (padded w z).
Proof.
  apply ascii_app; [|apply ascii_pretty]. induction (w - String.length (pretty z))%nat as [|[|k] IH]; [ascii_text..|].
  apply (ascii_app "0"); [ascii_text|exact IH].
Qed.

Lemma ascii_stripped s : ascii_string s -> ascii_string (strip_trailing_zeros s).
Proof.
  unfold ascii_string, ascii_bytes, strip_trailing_zeros. rewrite bytes_of_bytes. intros H%Forall_rev.
  apply Forall_rev. induction H as [|a l Ha Hl IH]; [done|]. cbn [drop_while].
  destruct (Ascii.eqb _ _); [exact IH|by constructor].
Qed.

Create HintDb ascii.
#[export] Hint Resolve ascii_app ascii_pretty ascii_padded ascii_stripped : ascii.
#[export] Hint Extern 2 (ascii_string (String _ _)) => ascii_text : ascii.

Lemma ascii_time t : ascii_string (FormatRFC3339Nano t).
Proof.
  unfold FormatRFC3339Nano, FormatRFC3339, format_seconds.
  case_match; auto 20 with ascii.
Qed.

(** ** Members *)
Section Members.
Context {T : Type} (fields : list (field T)).
Variables (name : string) (f : field T) (ms : list (string * json)) (t t' : T).
Hypothesis Hname : find_field fields name = Some f.

Lemma put_member v :
  field_set f v t = Some t' -> into_members false fields ((name, v) :: ms) t = into_members false fields ms t'.
Proof. intros H. cbn [into_members]. by rewrite Hname, H. Qed.

(** An omitted member leaves the zero value of its field. *)
Lemma put_string s :
  field_set f (JStr s) t = Some t' -> (s = "" -> t' = t) ->
  into_members false fields (omit_string name s ++ ms) t = into_members false fields ms t'.
Proof.
  intros H Hz. unfold omit_string. destruct (s == "") eqn:E; bool_prop; [by rewrite Hz|by apply put_member].
Qed.
Lemma put_int z :
  field_set f (jint z) t = Some t' -> (z = 0 -> t' = t) ->
  into_members false fields (omit_int name z ++ ms) t = into_members false fields ms t'.
Proof.
  intros H Hz. unfold omit_int. destruct (Z.eqb_spec z 0); [by rewrite Hz|by apply put_member].
Qed.
Lemma put_bool b :
  field_set f (JBool b) t = Some t' -> (b = false -> t' = t) ->
  into_members false fields (omit_bool name b ++ ms) t = into_members false fields ms t'.
Proof. intros H Hz. destruct b; [by apply put_member|by rewrite Hz]. Qed.
End Members.

Lemma into_int_jint z old : in_int64 z -> into_int (jint z) old = Some z.
Proof.
  intros H. unfold into_int, into_integer, jint. rewrite literal_value_pretty.
  assert (Hr : min_int64 <= z /\ z <= max_int64) by (unfold in_int64, min_int64, max_int64 in *; lia).
  by rewrite (proj2 (Z.leb_le _ _) (proj1 Hr)), (proj2 (Z.leb_le _ _) (proj2 Hr)).
Qed.
Lemma into_time_jtime t old : year_ok t -> into_time (jtime t) old = Some t.
Proof. apply parse_format. Qed.
Lemma into_kind_string k old :
  Kind_of_string (Kind_string k) = k -> into_kind (JStr (Kind_string k)) old = Some k.
Proof. intros H. unfold into_kind. cbn [into_string option_map]. by rewrite H. Qed.
Lemma into_phase_string p old :
  Phase_of_string (Phase_string p) = p -> into_phase (JStr (Phase_string p)) old = Some p.
Proof. intros H. unfold into_phase. cbn [into_string option_map]. by rewrite H. Qed.

(** Read the first member: [tac] decodes its value. *)
Ltac set_member tac := erewrite put_member; [|reflexivity|cbn [field_set Decoded.Version Decoded.EnrollmentArmedAt Decoded.Workflows Decoded.Idempotency Decoded.Notifications]; tac].

(** The next member of a struct in order: find its field, decode the value, set the field. *)
Ltac set_field :=
  cbn [field_set];
  first [rewrite into_int_jint by done | rewrite into_time_jtime by done
        |rewrite into_kind_string by done | rewrite into_phase_string by done | cbn [into_string into_bool]];
  lazy; reflexivity.
Ltac next_member :=
  match goal with
  | |- into_members _ _ (omit_string _ _ ++ _) _ = _ => erewrite put_string; [|reflexivity|set_field|by intros ->]
  | |- into_members _ _ (omit_int _ _ ++ _) _ = _ => erewrite put_int; [|reflexivity|set_field|by intros ->]
  | |- into_members _ _ (omit_bool _ _ ++ _) _ = _ => erewrite put_bool; [|reflexivity|set_field|by intros ->]
  | |- into_members _ _ (_ :: _) _ = _ => erewrite put_member; [|reflexivity|set_field]
  end.

Lemma into_workflow w :
  storable_workflow w -> Forall year_ok (workflow_times w) ->
  into_struct false workflow_fields (workflow_json w) zero_Workflow = Some w.
Proof.
  destruct w. unfold storable_workflow, workflow_times, zero_Workflow, workflow_json, into_struct.
  cbn -[into_members omit_string omit_int omit_bool jtime jint Kind_string Phase_string workflow_fields in_int64 year_ok].
  rewrite !Forall_cons. intros (_ & Hi & Hk & Hp) Ht. decompose [and] Hi. decompose [and] Ht. clear Hi Ht.
  rewrite <- (app_nil_r (omit_string "enrollmentDisposition" _)). by repeat next_member.
Qed.

Lemma into_notification n :
  storable_notification n -> Forall year_ok (notification_times n) ->
  into_struct false notification_fields (notification_json n) zero_Notification = Some n.
Proof.
  destruct n. unfold storable_notification, notification_times, zero_Notification, notification_json, into_struct.
  cbn -[into_members omit_string omit_int jtime jint Kind_string notification_fields in_int64 year_ok].
  rewrite !Forall_cons. intros (_ & Hi & Hk) Ht. decompose [and] Hi. decompose [and] Ht. clear Hi Ht.
  by repeat next_member.
Qed.

(** ** Maps *)
Lemma SortBy_Permutation {A} (key : A -> string) l : SortBy key l ≡ₚ l.
Proof. apply merge_sort_Permutation. Qed.

Lemma into_map_members_fold {T} zero (d : Decoder T) (f : T -> json) l m :
  Forall (fun kv => d (f kv.2) zero = Some kv.2) l ->
  into_map_members zero d (map (fun kv => (kv.1, f kv.2)) l) m
  = Some (fold_left (fun m kv => <[kv.1 := kv.2]> m) l m).
Proof. intros H. revert m. induction H as [|[k x] l Hx Hl IH]; intros m; [done|]. cbn. cbn in Hx. by rewrite Hx. Qed.

Lemma fold_left_insert {T} (l : list (string * T)) :
  fold_left (fun m kv => <[kv.1 := kv.2]> m) l ∅ = (list_to_map (rev l) : gmap string T).
Proof. symmetry. apply (fold_left_rev_right (fun kv (m : gmap string T) => <[kv.1 := kv.2]> m)). Qed.

(** A map reads back from its sorted members. *)
Lemma into_jmap {T} zero (d : Decoder T) (f : T -> json) (m : gmap string T) :
  map_Forall (fun _ x => d (f x) zero = Some x) m -> into_map zero d (jmap f m) (Some ∅) = Some (Some m).
Proof.
  intros H. unfold into_map, jmap. cbn [default]. rewrite into_map_members_fold.
  - cbn. do 2 f_equal. rewrite fold_left_insert.
    transitivity (list_to_map (map_to_list m) : gmap string T); [|apply list_to_map_to_list].
    apply list_to_map_proper.
    + rewrite <- Permutation_rev, SortBy_Permutation. apply NoDup_fst_map_to_list.
    + by rewrite <- Permutation_rev, SortBy_Permutation.
  - rewrite SortBy_Permutation. apply map_Forall_to_list in H.
    refine (Forall_impl _ _ _ H _). by intros [].
Qed.

(** ** The document is plain and shallow *)
(** A member the scanner reads back, of some height. *)
Definition fine (n : nat) (kv : string * json) : Prop :=
  ascii_string kv.1 /\ plain kv.2 /\ (height kv.2 <= n)%nat.
Lemma fine_object n ms : Forall (fine n) ms -> plain (JObj ms) /\ (height (JObj ms) <= S n)%nat.
Proof.
  intros H. rewrite plain_members. split; [split; refine (Forall_impl _ _ _ H _); by intros ? (? & ? & ?)|].
  cbn. induction H as [|kv ms (_ & _ & Hv) _ IH]; cbn; lia.
Qed.

Lemma fine_string n k s : ascii_string k -> ascii_string s -> fine n (k, JStr s).
Proof. intros. split_and!; [done..|cbn; lia]. Qed.
Lemma fine_time n k t : ascii_string k -> fine n (k, jtime t).
Proof. intros. apply fine_string; [done|apply ascii_time]. Qed.
Lemma fine_omit_string n k s : ascii_string k -> ascii_string s -> Forall (fine n) (omit_string k s).
Proof. intros. unfold omit_string. case_match; repeat constructor; by cbn; try lia. Qed.
Lemma fine_omit_int n k z : ascii_string k -> Forall (fine n) (omit_int k z).
Proof. intros. unfold omit_int. case_match; repeat constructor; cbn; [done|by eexists|lia]. Qed.
Lemma fine_omit_bool n k b : ascii_string k -> Forall (fine n) (omit_bool k b).
Proof. intros. unfold omit_bool. case_match; repeat constructor; cbn; [done|lia]. Qed.
#[export] Hint Resolve fine_string fine_time fine_omit_string fine_omit_int fine_omit_bool : ascii.
#[export] Hint Resolve Forall_app_2 Forall_cons_2 Forall_nil_2 : ascii.

Lemma fine_workflow n k w : ascii_string k -> storable_workflow w -> fine (S n) (k, workflow_json w).
Proof.
  intros Hk (Hs & _). rewrite !Forall_cons in Hs. decompose [and] Hs. split; [done|].
  apply fine_object. unfold workflow_json. auto 80 with ascii.
Qed.
Lemma fine_notification n k x : ascii_string k -> storable_notification x -> fine (S n) (k, notification_json x).
Proof.
  intros Hk (Hs & _). rewrite !Forall_cons in Hs. decompose [and] Hs. split; [done|].
  apply fine_object. unfold notification_json. auto 80 with ascii.
Qed.
Lemma fine_map {T} (f : T -> json) n k (m : gmap string T) :
  ascii_string k -> map_Forall (fun k x => fine n (k, f x)) m -> fine (S n) (k, jmap f m).
Proof.
  intros Hk Hm. split; [done|]. apply fine_object, Forall_map. rewrite SortBy_Permutation.
  apply map_Forall_to_list in Hm. refine (Forall_impl _ _ _ Hm _). by intros [].
Qed.

Lemma fine_state s : storable s -> plain (state_json s) /\ (height (state_json s) <= 3)%nat.
Proof.
  intros (_ & Hw & Hi & Hn). apply fine_object. unfold state_json. repeat apply Forall_cons_2; try done.
  - split_and!; [ascii_text|by eexists|cbn; lia].
  - apply fine_time. ascii_text.
  - apply fine_map; [ascii_text|]. refine (map_Forall_impl _ _ _ Hw _). intros k w [Hk Hs]. by apply fine_workflow.
  - apply fine_map; [ascii_text|]. refine (map_Forall_impl _ _ _ Hi _). intros k v [Hk Hs]. by apply fine_string.
  - apply fine_map; [ascii_text|]. refine (map_Forall_impl _ _ _ Hn _). intros k n [Hk Hs]. by apply fine_notification.
Qed.

(** ** Slices *)
Lemma into_elements_map {T} zero (d : Decoder T) (f : T -> json) l :
  Forall (fun x => d (f x) zero = Some x) l -> into_elements zero d (map f l) [] = Some l.
Proof. intros H. induction H as [|x l Hx Hl IH]; [done|]. cbn. by rewrite Hx, IH. Qed.
Lemma into_jslice {T} zero (d : Decoder T) (f : T -> json) l :
  Forall (fun x => d (f x) zero = Some x) l -> into_slice zero d (jslice f l) [] = Some l.
Proof. intros H. destruct l as [|x l]; [done|]. by apply (into_elements_map zero d f). Qed.

Lemma fine_slice {T} (f : T -> json) n k l :
  ascii_string k -> Forall (fun x => fine n (k, f x)) l -> fine (S n) (k, jslice f l).
Proof.
  intros Hk H. destruct l as [|x l]; [split_and!; [done..|cbn; lia]|].
  assert (Hv : Forall (fun v => plain v /\ (height v <= n)%nat) (map f (x :: l)))
    by (apply Forall_map; refine (Forall_impl _ _ _ H _); by intros y (_ & ? & ?)).
  split; [done|]. unfold jslice. cbn [snd]. generalize dependent (map f (x :: l)). intros vs Hv. rewrite plain_elements.
  split; [refine (Forall_impl _ _ _ Hv _); by intros ? [? ?]|].
  cbn. induction Hv as [|v vs [_ Hn] _ IH]; cbn; lia.
Qed.

(** ** The round trip *)
Lemma Forall_concat_elements {A B} (P : B -> Prop) (f : A -> list B) l x :
  Forall P (List.concat (map f l)) -> x ∈ l -> Forall P (f x).
Proof.
  intros H Hx. induction Hx as [x l|x y l Hx IH]; cbn in H; apply Forall_app in H as [H1 H2]; [done|by apply IH].
Qed.

Lemma into_state s :
  storable s -> Forall year_ok (state_times s) ->
  into_struct false state_fields (state_json s) initial_data = Some (decoded s).
Proof.
  intros (Hv & Hw & Hi & Hn) Ht. unfold state_times in Ht. rewrite Forall_cons, Forall_app in Ht.
  destruct Ht as (Ht & Htw & Htn). unfold state_json, initial_data. unfold into_struct at 1.
  set_member ltac:(by rewrite into_int_jint). set_member ltac:(by rewrite into_time_jtime).
  assert (Htw' : forall k w, s.(State.Workflows) !! k = Some w -> Forall year_ok (workflow_times w)).
  { intros k w Hk%elem_of_map_to_list. apply (Forall_concat_elements _ (fun kv => workflow_times kv.2) _ (k, w) Htw Hk). }
  assert (Htn' : forall k n, s.(State.Notifications) !! k = Some n -> Forall year_ok (notification_times n)).
  { intros k n Hk%elem_of_map_to_list. apply (Forall_concat_elements _ (fun kv => notification_times kv.2) _ (k, n) Htn Hk). }
  set_member ltac:(by rewrite into_jmap by (intros k w Hk; apply into_workflow; [by apply (Hw k w)|by eapply Htw'])).
  set_member ltac:(by rewrite into_jmap).
  set_member ltac:(by rewrite into_jmap by (intros k n Hk; apply into_notification; [by apply (Hn k n)|by eapply Htn'])).
  reflexivity.
Qed.

Section RoundTrip.
Context {JE : JsonErrors}.

(** What [json.MarshalIndent] wrote is not empty and decodes, into the data of a new store, to
    the state it was given. *)
Lemma state_round_trip s b :
  storable s -> marshal_state s = Ok b -> b <> "" /\ unmarshal_state b initial_data = Ok (decoded s).
Proof.
  intros Hs. unfold marshal_state. case_decide as Ht; [|done]. intros E.
  assert (b = of_bytes (indent_bytes 0 (state_json s))) as -> by congruence. clear E. destruct (fine_state s Hs) as [Hp Hh].
  split.
  - discriminate.
  - unfold unmarshal_state, json_Unmarshal_into. rewrite decode_all_indented; [|done|].
    + by rewrite into_state.
    + etransitivity; [exact Hh|by apply shallow].
Qed.

(** The state a successful [Update] wrote as JSON is the state the next
    controller starts with.  After the update and a crash at any later moment, an [Open] that
    succeeds has decoded from the file exactly the data the update published (every member of
    every workflow, notification and idempotency entry, with the texts in ASCII and the numbers
    in the range of their Go type) and holds the lock; it succeeds only if nobody else holds the
    lock, and a failed one leaves the locks as they were. *)
Theorem state_survives_restart `{!Kernel} (path : string) `{!KernelOk path} (C : option string -> Prop) s fn w s' f' w2 :
  let _ := state_codec in
  s.(Store.path) = path -> holds path C w.(fs) ->
  (Update_ s fn w).1 = Val s' ->
  s'.(Store.data).(State.Version) = currentVersion -> storable s'.(Store.data) ->
  crash (Update_ s fn w).2.(fs) f' -> w2.(fs) = f' ->
  match (Open path w2).1 with
  | Val s2 => s2 = Store.mk path s'.(Store.data) true /\ path ∉ w2.(locked) /\
              (Open path w2).2.(locked) = {[path]} ∪ w2.(locked)
  | Fail_ _ => (Open path w2).2.(locked) = w2.(locked)
  | Panic => False
  end.
Proof.
  intros JS Hp Hh Hu Hv Hs. apply (update_then_open path C s fn w s' f' w2 Hp Hh Hu Hv).
  intros b. by apply state_round_trip.
Qed.
End RoundTrip.
