(* ===== verification/CliFacts.v ===== *)
(** * The command line against the control API: a command reaches the controller as the operation
    it names, and its outcome, a report included, reaches the operator. *)
From S2P Require Import Prelude GoStrings GoTime Model Config Dns Keys Effects Wp Core.
From S2P Require Import Rollover Reconcile Operator Report Safety OperatorFacts.
From S2P Require Import GoNetFacts Json JsonCodec JsonFacts TimeText StateJson StateJsonFacts Http Control Cli.

(** ** The socket *)
(** What net/http puts into a header: no control byte but the tab. *)
Definition valid_header_value (s : string) : bool :=
  forallb (fun a => in_range 32 126 a || (128 <=? byte_code a) || (byte_code a =? 9)) (bytes s).

(** The server's side of a request: the path of a URL of the host [unix]. *)
Definition on_server (r : Request.t) : Request.t :=
  Request.mk (Request.Method r)
    (match has_prefix (bytes "http://unix") (bytes (Request.URL r)) with
     | Some path => of_bytes path
     | None => Request.URL r
     end) (Request.Header r) (Request.Body r).

(** The connection to a running controller: a request with an invalid header is not sent, and
    a handler that panics ends the connection. *)
Section Socket.
Context {SV : Services} {DL : DnsLib} {JE : JsonErrors} (c : Config.t).
Context (bad_header broken : error).

Definition to_controller (r : Request.t) (w : World) : result Response.t * World :=
  if forallb (fun kv => valid_header_value kv.2) (Request.Header r) then
    match serve c (on_server r) w with
    | (Val resp, w') => (Ok resp, w')
    | (Fail_ e, w') => (Err e, w')
    | (Panic, w') => (Err broken, w')
    end
  else (Err bad_header, w).
Definition socket_transport : Transport := {| http_Do := to_controller |}.
End Socket.

(** ** The commands *)
Inductive command :=
| TriggerCommand (kind : string) (zones : list string)
| ResumeCommand (zones : list string)
| AttestCommand (zone : string)
| ArmCommand
| PlanCommand (kind : string) (zones : list string)
| StatusCommand
| ZonesCommand
| AuditCommand.

(** The command, with [--confirm] and an idempotency key where it asks for a change. *)
Definition run_command `{!Transport, !JsonErrors} (cmd : command) (idem : string) : P_ unit :=
  match cmd with
  | TriggerCommand kind zones => triggerCmd kind zones true idem
  | ResumeCommand zones => resumeCmd zones true idem
  | AttestCommand zone => reconcileSplitSignerCmd zone true idem
  | ArmCommand => armEnrollmentCmd true idem
  | PlanCommand kind zones => planCmd kind zones
  | StatusCommand => statusCmd
  | ZonesCommand => zonesCmd
  | AuditCommand => auditCmd
  end.

(** What a command prints, and the document of it. *)
Inductive report :=
| Done (good : string)
| PlanOf (p : Plan.t)
| StatusOf (s : Status.t)
| ZonesOf (zs : list ZoneStatus.t)
| AuditOf (l : list AuditResult.t).
Definition report_json (r : report) : json :=
  match r with
  | Done good => status_message good
  | PlanOf p => plan_json p
  | StatusOf s => status_json s
  | ZonesOf zs => jslice zone_status_json zs
  | AuditOf l => jslice audit_json l
  end.

Definition reporting `{!Services} {A} (m : M A) (f : A -> report) : M report :=
  let* a := m in ret (f a).
(** What the operator asks of the controller with a command, and the status of a refusal. *)
Definition asked `{!Services, !DnsLib} (c : Config.t) (cmd : command) (idem : string) : M report :=
  match cmd with
  | TriggerCommand kind zones =>
      reporting (Trigger c (Kind_of_string (ToLower kind)) (normalizeZones zones) idem) (fun _ => Done "accepted")
  | ResumeCommand zones =>
      reporting (Resume c KindSplit (normalizeZones zones) PhaseWaitPublish idem) (fun _ => Done "accepted")
  | AttestCommand zone =>
      reporting (ReconcileSplitSignerTransition c (TrimSpace zone) idem) (fun _ => Done "attested")
  | ArmCommand => reporting (ArmEnrollment c idem) (fun _ => Done "armed")
  | PlanCommand kind zones =>
      ret (PlanOf (Plan_ (Kind_of_string (ToLower kind)) (normalizeZones zones)))
  | StatusCommand => reporting (Status_ c) StatusOf
  | ZonesCommand => reporting (Zones c) ZonesOf
  | AuditCommand => reporting (Audit c) AuditOf
  end.
Definition refusal (cmd : command) : Z :=
  match cmd with
  | StatusCommand | ZonesCommand | AuditCommand => StatusBadGateway
  | _ => StatusConflict
  end.

(** Between one and 100 names of ASCII letters, all together at most [n] bytes of JSON. *)
Definition zones_fit (zones : list string) : Prop :=
  (1 <= length (normalizeZones zones) <= 100)%nat /\ Forall ascii_string (normalizeZones zones).
Definition well_formed (cmd : command) : Prop :=
  match cmd with
  | TriggerCommand kind zones =>
      rotation_kind (Kind_of_string (ToLower kind)) = true /\ zones_fit zones /\
      len (json_Marshal (rotation_json
             (RotationRequest.mk (Kind_of_string (ToLower kind)) (normalizeZones zones) true))) <= 64 * 1024
  | ResumeCommand zones =>
      zones_fit zones /\
      len (json_Marshal (resume_json
             (ResumeRequest.mk KindSplit (normalizeZones zones) PhaseWaitPublish true))) <= 64 * 1024
  | AttestCommand zone =>
      TrimSpace zone <> "" /\ ascii_string (TrimSpace zone) /\
      len (json_Marshal (signer_json (SplitSignerTransitionRequest.mk (TrimSpace zone) true))) <= 16 * 1024
  | PlanCommand kind zones =>
      rotation_kind (Kind_of_string (ToLower kind)) = true /\ zones_fit zones /\
      len (json_Marshal (rotation_json
             (RotationRequest.mk (Kind_of_string (ToLower kind)) (normalizeZones zones) false))) <= 64 * 1024
  | _ => True
  end.

(** A report the client reads back: ASCII, numbers in range, within the limit of 2 MiB. *)
Definition readable_zone (z : ZoneStatus.t) : Prop :=
  Forall ascii_string [z.(ZoneStatus.Zone); z.(ZoneStatus.Scheme); z.(ZoneStatus.EnrollmentStatus);
                       z.(ZoneStatus.BlockedReason)] /\
  Forall (fun w => storable_workflow w /\ Forall year_ok (workflow_times w)) z.(ZoneStatus.Workflows).
Definition readable_audit (a : AuditResult.t) : Prop :=
  Forall ascii_string [a.(AuditResult.Zone); a.(AuditResult.Scheme); a.(AuditResult.Error_)].
Definition readable (r : report) : Prop :=
  len (json_Encode (report_json r)) <= 2 * 1024 * 1024 /\
  match r with
  | Done good => ascii_string good
  | PlanOf p =>
      Kind_of_string (Kind_string p.(Plan.Kind_)) = p.(Plan.Kind_) /\ ascii_string (Kind_string p.(Plan.Kind_)) /\
      Forall ascii_string p.(Plan.Zones) /\ Forall ascii_string p.(Plan.Mutations)
  | StatusOf s =>
      ascii_string s.(Status.Mode) /\
      Forall in_int64 [s.(Status.Zones); s.(Status.Blocked); s.(Status.Enrolling); s.(Status.Managed);
                       s.(Status.PendingNotifications)]
  | ZonesOf zs => Forall readable_zone zs
  | AuditOf l => Forall readable_audit l
  end.

(** The text of an error survives the way through JSON. *)
Definition reportable (e : error) : Prop :=
  ascii_string (Error e) /\ len (json_Encode (JObj [("error", JStr (Error e))])) <= 2 * 1024 * 1024.

(** ** Trimming *)
Lemma drop_while_head f l : match drop_while f l with a :: _ => f a = false | [] => True end.
Proof. induction l as [|a l IH]; cbn; [done|]. by destruct (f a) eqn:E. Qed.
Lemma drop_while_same f l : match l with a :: _ => f a = false | [] => True end -> drop_while f l = l.
Proof. destruct l as [|a l]; cbn; [done|]. by intros ->. Qed.
Lemma drop_while_suffix f l : exists p, l = p ++ drop_while f l.
Proof.
  induction l as [|a l [p IH]]; cbn; [by exists []|]. destruct (f a); [|by exists []].
  exists (a :: p). cbn. by f_equal.
Qed.

Lemma TrimSpace_idemp s : TrimSpace (TrimSpace s) = TrimSpace s.
Proof.
  unfold TrimSpace. rewrite bytes_of_bytes. set (l := drop_while is_space (bytes s)).
  set (m := drop_while is_space (rev l)).
  assert (drop_while is_space (rev m) = rev m) as ->.
  { apply drop_while_same. destruct (drop_while_suffix is_space (rev l)) as [p Hp].
    fold m in Hp. apply (f_equal (@rev _)) in Hp. rewrite rev_involutive, rev_app_distr in Hp.
    pose proof (drop_while_head is_space (bytes s)) as H. fold l in H. rewrite Hp in H.
    by destruct (rev m). }
  rewrite rev_involutive. do 2 f_equal. apply drop_while_same, drop_while_head.
Qed.

Section Commands.
Context {SV : Services} {DL : DnsLib} {JE : JsonErrors} (c : Config.t).
Context (bad_header broken : error).
#[local] Instance socket_ : Transport := socket_transport c bad_header broken.

(** ** One request *)
Definition api_request (method path : string) (body : option json) (idem : string) : Request.t :=
  Request.mk method path
    ([("Accept", "application/json")]
     ++ (match body with Some _ => [("Content-Type", "application/json")] | None => [] end)
     ++ (if idem != "" then [("Idempotency-Key", idem)] else [])) (option_map json_Marshal body).
Definition change_request (path : string) (body : json) (idem : string) : Request.t :=
  api_request "POST" path (Some body) idem.

(** The handler of the path runs [op] and answers with its outcome. *)
Definition answers (r : Request.t) (op : M report) (good bad : Z) : Prop :=
  forall wd, mux c r wd = respond op bad (fun rep => writeJSON good (report_json rep)) wd.

Lemma answers_reporting {A} r (m : M A) (f : A -> report) good bad :
  mux c r = respond m bad (fun a => writeJSON good (report_json (f a))) ->
  answers r (reporting m f) good bad.
Proof.
  intros E wd. rewrite E. unfold respond, reporting, bind, try. by destruct (m wd) as [[a|e|] wd'].
Qed.

Lemma reporting_answer {A} (m : M A) (f : A -> report) wd r wd' :
  reporting m f wd = (Val r, wd') -> exists a, r = f a.
Proof. unfold reporting, bind. destruct (m wd) as [[a|e|] w]; [|done..]. intros [= <- _]. by exists a. Qed.

(** What the operator sees of an operation. *)
Definition reported (op : M report) (bad : Z) (wd : World) (out : string)
  (o : Outcome unit) (p : Process) : Prop :=
  match op wd with
  | (Val r, wd') =>
      p.(wire) = wd' /\
      (readable r ->
       o = Val tt /\
       p = mkProcess (wd' : Wire) (out +:+ of_bytes (indent_bytes 0 (report_json r) ++ [line_feed])))
  | (Fail_ e, wd') =>
      (reportable e ->
       o = Fail_ (Errorf "control API status %d: %s" [AInt bad; AStr (Error e)])) /\
      (exists e', o = Fail_ e') /\ p = mkProcess (wd' : Wire) out
  | (Panic, wd') => o = Fail_ broken /\ p = mkProcess (wd' : Wire) out
  end.

Lemma has_prefix_same p l : has_prefix p (p ++ l) = Some l.
Proof. induction p as [|a p IH]; cbn; [done|]. by rewrite Ascii.eqb_refl. Qed.

Lemma on_server_url m path h b :
  on_server (Request.mk m ("http://unix" +:+ path) h b) = Request.mk m path h b.
Proof.
  unfold on_server. cbn [Request.URL Request.Method Request.Header Request.Body].
  by rewrite bytes_app, has_prefix_same, of_bytes_bytes.
Qed.

Lemma request_headers method path body idem :
  valid_header_value idem = true ->
  forallb (fun kv => valid_header_value kv.2) (Request.Header (api_request method path body idem)) = true.
Proof.
  intros H. cbn [api_request Request.Header]. rewrite !forallb_app.
  destruct (idem != ""); [cbn [forallb snd]; rewrite H|]; by destruct body; vm_compute.
Qed.

Ltac ascii_literal := refine (bool_decide_eq_true_1 _ _); vm_compute; reflexivity.

(** The client reads the answer of the server. *)
Lemma plain_member name s : ascii_string name -> ascii_string s -> plain (JObj [(name, JStr s)]).
Proof. by intros; cbn. Qed.

Lemma read_error e :
  reportable e ->
  default "" (error_members (limited (2 * 1024 * 1024) (json_Encode (JObj [("error", JStr (Error e))]))) !! "error")
  = Error e.
Proof.
  intros [Ha Hl]. rewrite limited_id by done. unfold error_members.
  rewrite decode_first_encode; [done|by apply plain_member; [by ascii_literal|]|by apply shallow].
Qed.

(** One exchange with the server. *)
Lemma Do_answers method path body idem op good bad wd out :
  valid_header_value idem = true -> answers (api_request method path body idem) op good bad ->
  let r := api_request method path body idem in
  let secured resp := Response.mk (Response.StatusCode resp)
    ([("Cache-Control", "no-store"); ("X-Content-Type-Options", "nosniff")] ++ Response.Header resp)
    (Response.Body resp) in
  Do (Request.mk (Request.Method r) ("http://unix" +:+ path) (Request.Header r) (Request.Body r))
    (mkProcess (wd : Wire) out) =
  match op wd with
  | (Val rep, wd') => (Val (secured (writeJSON good (report_json rep))), mkProcess (wd' : Wire) out)
  | (Fail_ e, wd') => (Val (secured (writeError bad e)), mkProcess (wd' : Wire) out)
  | (Panic, wd') => (Fail_ broken, mkProcess (wd' : Wire) out)
  end.
Proof.
  intros Hh Ha. cbv zeta. unfold Do, http_Do, socket_, socket_transport, to_controller.
  rewrite on_server_url. cbn [Request.Header wire]. rewrite (request_headers _ _ _ _ Hh).
  unfold serve, bind. change (Request.mk _ _ _ _) with (api_request method path body idem).
  rewrite Ha. unfold respond, bind, try. destruct (op wd) as [[rep|e|] wd']; reflexivity.
Qed.

(** ** Lists of names *)
Lemma read_strings zs : into_slice "" into_string (jstrings zs) [] = Some zs.
Proof.
  unfold into_slice, jstrings. induction zs as [|z zs IH]; [done|].
  cbn [map into_elements]. cbn. by rewrite IH.
Qed.
Lemma plain_strings zs : Forall ascii_string zs -> plain (jstrings zs).
Proof. intros H. apply plain_elements, Forall_map. by eapply Forall_impl. Qed.
Lemma height_strings zs : height (jstrings zs) = 1%nat.
Proof. cbn. f_equal. induction zs; [done|by cbn]. Qed.

(** ** Reports *)
(** A command prints what it decoded: [print] of what [dec] reads from a report. *)
Definition reads_report {T} (dec : Decoder T) (zero : T) (print : T -> json) (r : report) : Prop :=
  exists t, dec (report_json r) zero = Some t /\ print t = report_json r.

Lemma fine_zone_status k z : ascii_string k -> readable_zone z -> fine 3 (k, zone_status_json z).
Proof.
  intros Hk [Hs Hw]. rewrite !Forall_cons in Hs. decompose [and] Hs. split; [done|]. apply fine_object.
  unfold zone_status_json. repeat (apply Forall_app_2 || apply Forall_cons_2 || apply Forall_nil_2);
    try (apply fine_string || apply fine_omit_string); try done; try ascii_literal; try (split_and!; [ascii_literal|done|cbn; lia]).
  apply fine_slice; [ascii_literal|]. refine (Forall_impl _ _ _ Hw _). intros w [Hw' _]. by apply fine_workflow; [ascii_literal|].
Qed.
Lemma fine_audit k a : ascii_string k -> readable_audit a -> fine 1 (k, audit_json a).
Proof.
  intros Hk Hs. unfold readable_audit in Hs. rewrite !Forall_cons in Hs. decompose [and] Hs. split; [done|].
  apply fine_object. unfold audit_json. repeat (apply Forall_app_2 || apply Forall_cons_2 || apply Forall_nil_2);
    try (apply fine_string || apply fine_omit_string); try done; try ascii_literal; split_and!; done || ascii_literal || (cbn; lia).
Qed.
Lemma fine_report r : readable r -> plain (report_json r) /\ (height (report_json r) <= 8)%nat.
Proof.
  intros [_ H]. assert (F : exists n, (n <= 8)%nat /\ fine n ("", report_json r)).
  { destruct r as [good|p|st|zs|l]; cbn [report_json].
    - exists 1%nat. split; [lia|]. split_and!; [ascii_literal| |cbn; lia]. by apply plain_member; [ascii_literal|].
    - exists 2%nat. split; [lia|]. destruct H as (_ & Hk & Hz & Hm). split; [ascii_literal|]. apply fine_object.
      repeat apply Forall_cons_2; try done; [by apply fine_string; [ascii_literal|]| |].
      + split_and!; [ascii_literal|by apply plain_strings|]. cbn [snd]. by rewrite height_strings.
      + apply fine_slice; [ascii_literal|]. refine (Forall_impl _ _ _ Hm _). intros m Hm'. by apply fine_string; [ascii_literal|].
    - exists 1%nat. split; [lia|]. split; [ascii_literal|]. apply fine_object. destruct H as [Hs _].
      repeat apply Forall_cons_2; try done; try (apply fine_string; [ascii_literal|done]);
        split_and!; try ascii_literal; try done; try (by eexists); cbn; lia.
    - exists 4%nat. split; [lia|]. apply fine_slice; [ascii_literal|]. refine (Forall_impl _ _ _ H _).
      intros z Hz. by apply fine_zone_status; [ascii_literal|].
    - exists 2%nat. split; [lia|]. apply fine_slice; [ascii_literal|]. refine (Forall_impl _ _ _ H _).
      intros a Ha. by apply fine_audit; [ascii_literal|]. }
  destruct F as (n & Hn & _ & Hp & Hh). split; [done|]. cbn [snd] in Hh. lia.
Qed.

Lemma client_do_answers {T} method path body idem op good bad (dec : Decoder T) zero wd out :
  valid_header_value idem = true -> answers (api_request method path body idem) op good bad ->
  successful good = true -> successful bad = false ->
  client_do method path body idem dec zero (mkProcess (wd : Wire) out) =
  match op wd with
  | (Val rep, wd') =>
      (outcome (json_Decode_into dec (limited (2 * 1024 * 1024) (json_Encode (report_json rep))) zero),
       mkProcess (wd' : Wire) out)
  | (Fail_ e, wd') =>
      (Fail_ (Errorf "control API status %d: %s" [AInt bad; AStr (default ""
         (error_members (limited (2 * 1024 * 1024) (json_Encode (JObj [("error", JStr (Error e))]))) !! "error"))]),
       mkProcess (wd' : Wire) out)
  | (Panic, wd') => (Fail_ broken, mkProcess (wd' : Wire) out)
  end.
Proof.
  intros Hh Ha Hg Hb. unfold client_do. cbv zeta. unfold bind.
  pose proof (Do_answers method path body idem op good bad wd out Hh Ha) as E. cbv zeta in E.
  cbn [api_request Request.Method Request.Header Request.Body] in E. rewrite E.
  destruct (op wd) as [[rep|e|] wd']; cbn [Response.StatusCode Response.Body writeJSON writeError].
  - by rewrite Hg.
  - by rewrite Hb.
  - done.
Qed.

Lemma exchange_reported {T} method path body idem op good bad (dec : Decoder T) zero print wd out :
  valid_header_value idem = true -> answers (api_request method path body idem) op good bad ->
  successful good = true -> successful bad = false ->
  (forall r wd', op wd = (Val r, wd') -> readable r -> reads_report dec zero print r) ->
  forall res, (let* v := client_do method path body idem dec zero in printJSON (print v)) (mkProcess (wd : Wire) out) = res ->
  reported op bad wd out res.1 res.2.
Proof.
  intros Hh Ha Hg Hb Hr res. unfold bind, reported. rewrite (client_do_answers _ _ _ _ _ _ _ _ _ _ _ Hh Ha Hg Hb).
  destruct (op wd) as [[r|e|] wd'] eqn:E; [|intros <-; split_and!; [|by eexists|done]; intros He; by rewrite (read_error e He)|by intros <-].
  intros <-. split; [by destruct (json_Decode_into _ _ _)|]. intros Hd. destruct (Hr r wd' eq_refl Hd) as (t & Ht & Hp).
  destruct (fine_report r Hd) as [Hpl Hhe]. destruct Hd as [Hl _].
  rewrite limited_id by done. unfold json_Decode_into. rewrite decode_first_encode, Ht by (done || by apply shallow, Nat.leb_le).
  cbn [outcome]. unfold printJSON. by rewrite Hp.
Qed.

(** ** What the handlers decode *)
Lemma decode_marshalled {T} (fields : list (field T)) zero limit path body idem t :
  plain body -> (height body <= 8)%nat -> len (json_Marshal body) <= limit ->
  into_struct true fields body zero = Some t ->
  decode_body fields zero limit (change_request path body idem) = Ok t.
Proof.
  intros Hp Hh Hl Ht. unfold decode_body. cbn [change_request api_request Request.Body].
  change (default "" (option_map json_Marshal (Some body))) with (json_Marshal body).
  rewrite limited_id by done. unfold json_Decode_into.
  rewrite decode_first_marshal; [by rewrite Ht|done|by apply shallow, Nat.leb_le].
Qed.

Lemma request_key path body idem :
  TrimSpace idem = idem -> idempotency_key (change_request path body idem) = idem.
Proof.
  intros H. unfold idempotency_key, change_request, api_request. cbn [Request.Header].
  destruct (idem != "") eqn:E; [exact H|]. bool_prop. by subst.
Qed.

(** Evaluate a decode around a list of zones. *)
Ltac read_payload zs :=
  generalize (read_strings zs); generalize (jstrings zs); intros j E;
  lazy -[into_slice] in E |- *; rewrite E.

Lemma rotation_payload k zs confirm :
  rotation_kind k = true -> Forall ascii_string zs ->
  let body := rotation_json (RotationRequest.mk k zs confirm) in
  plain body /\ (height body <= 8)%nat /\
  into_struct true rotation_fields body (RotationRequest.mk (KindOther "") [] false)
    = Some (RotationRequest.mk k zs confirm).
Proof.
  intros Hk Hz. cbv zeta. unfold rotation_json.
  cbn [RotationRequest.Kind RotationRequest.Zones RotationRequest.Confirm]. assert (Hz' := plain_strings zs Hz). split_and!.
  - apply plain_members. destruct confirm; cbn [app omit_bool]; rewrite !Forall_cons; cbn [fst snd];
      split_and!; try apply Forall_nil_2; try done; try ascii_literal;
      by destruct k; try discriminate Hk; ascii_literal.
  - destruct confirm; cbn [height fold_right snd app omit_bool]; rewrite height_strings; cbn; lia.
  - destruct confirm, k; try discriminate Hk; by read_payload zs.
Qed.

Lemma resume_payload zs :
  Forall ascii_string zs ->
  let body := resume_json (ResumeRequest.mk KindSplit zs PhaseWaitPublish true) in
  plain body /\ (height body <= 8)%nat /\
  into_struct true resume_fields body (ResumeRequest.mk (KindOther "") [] (PhaseOther "") false)
    = Some (ResumeRequest.mk KindSplit zs PhaseWaitPublish true).
Proof.
  intros Hz. cbv zeta. unfold resume_json.
  cbn [ResumeRequest.Kind ResumeRequest.Zones ResumeRequest.Phase ResumeRequest.Confirm]. split_and!.
  - apply plain_members. rewrite !Forall_cons. cbn [fst snd]. pose proof (plain_strings zs Hz).
    split_and!; try apply Forall_nil_2; try done; try ascii_literal.
  - cbn [height fold_right snd]. rewrite height_strings. cbn. lia.
  - by read_payload zs.
Qed.

(** ** The handlers *)
Lemma decode_rotation k zs confirm path idem :
  rotation_kind k = true -> (1 <= length zs <= 100)%nat -> Forall ascii_string zs ->
  len (json_Marshal (rotation_json (RotationRequest.mk k zs confirm))) <= 64 * 1024 ->
  decode (change_request path (rotation_json (RotationRequest.mk k zs confirm)) idem)
  = Ok (RotationRequest.mk k zs confirm).
Proof.
  intros Hk Hz Ha Hl. destruct (rotation_payload _ _ confirm Hk Ha) as (Hp & Hh & Hs).
  unfold decode. rewrite (decode_marshalled _ _ _ _ _ _ _ Hp Hh Hl Hs). cbn [result_bind].
  cbn [RotationRequest.Kind RotationRequest.Zones]. rewrite Hk. cbn [negb].
  destruct (Nat.eqb_spec (length zs) 0); [lia|]. by destruct (Nat.ltb_spec 100 (length zs)); [lia|].
Qed.

Lemma trigger_answers k zs idem :
  rotation_kind k = true -> (1 <= length zs <= 100)%nat -> Forall ascii_string zs ->
  len (json_Marshal (rotation_json (RotationRequest.mk k zs true))) <= 64 * 1024 ->
  TrimSpace idem = idem ->
  answers (change_request "/v1/rotations/trigger" (rotation_json (RotationRequest.mk k zs true)) idem)
    (reporting (Trigger c k zs idem) (fun _ => Done "accepted")) StatusAccepted StatusConflict.
Proof.
  intros Hk Hz Ha Hl Hi. apply answers_reporting. set (r := change_request _ _ _).
  transitivity (trigger c r); [reflexivity|].
  unfold trigger, r at 1. rewrite (decode_rotation k zs true _ idem Hk Hz Ha Hl). cbn [RotationRequest.Kind RotationRequest.Zones RotationRequest.Confirm negb].
  unfold r. by rewrite (request_key _ _ _ Hi).
Qed.

Lemma resume_answers zs idem :
  (1 <= length zs <= 100)%nat -> Forall ascii_string zs ->
  len (json_Marshal (resume_json (ResumeRequest.mk KindSplit zs PhaseWaitPublish true))) <= 64 * 1024 ->
  TrimSpace idem = idem ->
  answers (change_request "/v1/rotations/resume" (resume_json (ResumeRequest.mk KindSplit zs PhaseWaitPublish true)) idem)
    (reporting (Resume c KindSplit zs PhaseWaitPublish idem) (fun _ => Done "accepted")) StatusAccepted StatusConflict.
Proof.
  intros Hz Ha Hl Hi. destruct (resume_payload _ Ha) as (Hp & Hh & Hs).
  apply answers_reporting. set (r := change_request _ _ _). transitivity (resume c r); [reflexivity|].
  unfold resume, r at 1. rewrite (decode_marshalled _ _ _ _ _ _ _ Hp Hh Hl Hs). cbv zeta.
  cbn [ResumeRequest.Kind ResumeRequest.Zones ResumeRequest.Phase ResumeRequest.Confirm].
  destruct (Nat.eqb_spec (length zs) 0); [lia|]. destruct (Nat.ltb_spec 100 (length zs)); [lia|].
  unfold r. by rewrite (request_key _ _ _ Hi).
Qed.

Lemma signer_payload zone :
  ascii_string zone ->
  let body := signer_json (SplitSignerTransitionRequest.mk zone true) in
  plain body /\ (height body <= 8)%nat /\
  into_struct true signer_fields body (SplitSignerTransitionRequest.mk "" false)
    = Some (SplitSignerTransitionRequest.mk zone true).
Proof.
  intros Hz. cbv zeta. split_and!; [|cbn; lia|reflexivity]. apply plain_members.
  rewrite !Forall_cons. split_and!; try apply Forall_nil_2; try done; ascii_literal.
Qed.

Lemma attest_answers zone idem :
  TrimSpace zone = zone -> zone <> "" -> ascii_string zone ->
  len (json_Marshal (signer_json (SplitSignerTransitionRequest.mk zone true))) <= 16 * 1024 ->
  TrimSpace idem = idem ->
  answers (change_request "/v1/rotations/reconcile-split-signer" (signer_json (SplitSignerTransitionRequest.mk zone true)) idem)
    (reporting (ReconcileSplitSignerTransition c zone idem) (fun _ => Done "attested")) StatusAccepted StatusConflict.
Proof.
  intros Ht Hz Ha Hl Hi. destruct (signer_payload _ Ha) as (Hp & Hh & Hs).
  apply answers_reporting. set (r := change_request _ _ _). transitivity (reconcileSplitSigner c r); [reflexivity|].
  unfold reconcileSplitSigner, r at 1. rewrite (decode_marshalled _ _ _ _ _ _ _ Hp Hh Hl Hs).
  cbn [SplitSignerTransitionRequest.Zone SplitSignerTransitionRequest.Confirm]. rewrite Ht.
  rewrite (proj2 (Prelude.eqb_false _ _) Hz). unfold r. by rewrite (request_key _ _ _ Hi).
Qed.

Lemma arm_answers idem :
  TrimSpace idem = idem ->
  answers (change_request "/v1/enrollment/arm" (arm_json (ArmEnrollmentRequest.mk true)) idem)
    (reporting (ArmEnrollment c idem) (fun _ => Done "armed")) StatusAccepted StatusConflict.
Proof.
  intros Hi. apply answers_reporting. set (r := change_request _ _ _).
  transitivity (armEnrollment c r); [reflexivity|].
  assert (decode_body arm_fields (ArmEnrollmentRequest.mk false) (16 * 1024) r = Ok (ArmEnrollmentRequest.mk true)) as Hd.
  { apply decode_marshalled; [|cbn; lia|by vm_compute|reflexivity].
    apply plain_members. rewrite !Forall_cons. split_and!; try apply Forall_nil_2; try done; ascii_literal. }
  unfold armEnrollment. rewrite Hd. unfold r. by rewrite (request_key _ _ _ Hi).
Qed.

Lemma plan_answers k zs :
  rotation_kind k = true -> (1 <= length zs <= 100)%nat -> Forall ascii_string zs ->
  len (json_Marshal (rotation_json (RotationRequest.mk k zs false))) <= 64 * 1024 ->
  answers (change_request "/v1/rotations/plan" (rotation_json (RotationRequest.mk k zs false)) "")
    (ret (PlanOf (Plan_ k zs))) StatusOK StatusConflict.
Proof.
  intros Hk Hz Ha Hl wd. set (r := change_request _ _ _). transitivity (plan r wd); [reflexivity|].
  unfold plan, r. by rewrite (decode_rotation k zs false _ "" Hk Hz Ha Hl).
Qed.

(** ** The commands *)
Lemma reads_done good :
  reads_report into_string_map None
    (fun m => match m with Some m => jstring_map (map_to_list m) | None => JNull end) (Done good).
Proof. exists (Some {["status" := good]}). split; [cbn; by rewrite insert_empty|]. by rewrite map_to_list_singleton. Qed.

Lemma reads_plan p :
  Kind_of_string (Kind_string p.(Plan.Kind_)) = p.(Plan.Kind_) ->
  reads_report (into_struct false plan_fields) (Plan.mk (KindOther "") [] []) plan_json (PlanOf p).
Proof.
  intros Hk. exists p. split; [|done]. destruct p as [k zs ms]. cbn [report_json]. unfold plan_json, into_struct.
  cbn [Plan.Kind_ Plan.Zones Plan.Mutations] in *.
  erewrite put_member; [|reflexivity|set_field]. erewrite put_member; [|reflexivity|].
  2:{ cbn [field_set]. rewrite read_strings. lazy. reflexivity. }
  erewrite put_member; [|reflexivity|]. 2:{ cbn [field_set Plan.Mutations]. rewrite into_jslice; [lazy; reflexivity|]. by induction ms; constructor. }
  reflexivity.
Qed.

Lemma reads_status st :
  readable (StatusOf st) ->
  reads_report (into_struct false status_fields) (Status.mk "" false 0 0 false 0 0 0) status_json (StatusOf st).
Proof.
  intros (_ & _ & Hi). exists st. split; [|done]. destruct st. cbn [report_json]. unfold status_json, into_struct.
  cbn -[into_members jint status_fields in_int64] in *. rewrite !Forall_cons in Hi. decompose [and] Hi. clear Hi.
  by repeat next_member.
Qed.

Lemma reads_zone z :
  readable_zone z -> into_struct false zone_status_fields (zone_status_json z) zero_ZoneStatus = Some z.
Proof.
  intros [_ Hw]. destruct z as [zone dnssec scheme managed es br ws]. unfold zone_status_json, into_struct at 1, zero_ZoneStatus.
  cbn -[into_members omit_string jslice zone_status_fields] in *. do 6 next_member.
  erewrite put_member; [|reflexivity|cbn [field_set ZoneStatus.Workflows]; rewrite into_jslice; [lazy; reflexivity|]].
  - reflexivity.
  - refine (Forall_impl _ _ _ Hw _). intros w [Hs Ht]. by apply into_workflow.
Qed.

Lemma reads_audit a :
  into_struct false audit_fields (audit_json a) (AuditResult.mk "" "" false "") = Some a.
Proof.
  destruct a as [zone scheme m e]. unfold audit_json, into_struct. cbn -[into_members omit_string audit_fields].
  rewrite <- (app_nil_r (omit_string "error" _)). by repeat next_member.
Qed.
(** C32: a command against a running controller (with at most 100 zones in at
    most 64 KiB of ASCII, a trimmed key, and [--confirm] where it asks for a change) carries out exactly
    the controller operation it names, with the normalised kind and zones and the operator's idempotency
    key, leaves the world as that operation leaves it, and tells the operator its outcome: on standard
    output the document of what the operation answered, status, zones and audit reports included, decoded
    and printed again without a change; or the operation's own error text under the status 409 or 502,
    never a success for a failure. *)
Theorem commands_reach_controller cmd idem wd out r :
  well_formed cmd -> valid_header_value idem = true -> TrimSpace idem = idem ->
  run_command cmd idem (mkProcess (wd : Wire) out) = r ->
  reported (asked c cmd idem) (refusal cmd) wd out r.1 r.2.
Proof.
  intros Hw Hh Hi Hr.
  destruct cmd as [kind zones|zones|zone| |kind zones| | |]; cbn [run_command asked refusal well_formed] in *.
  - destruct Hw as (Hk & [Hz Ha] & Hl). eapply (exchange_reported "POST" _ (Some _)); [done|by apply trigger_answers|done..| |].
    + intros rep wd' [v ->]%reporting_answer _. apply reads_done.
    + rewrite <- Hr. unfold triggerCmd, parseKind. cbv zeta. rewrite Hk. reflexivity.
  - destruct Hw as ([Hz Ha] & Hl).
    eapply (exchange_reported "POST" _ (Some _)); [done|by apply resume_answers|done..| |exact Hr].
    intros rep wd' [v ->]%reporting_answer _. apply reads_done.
  - destruct Hw as (Hz & Ha & Hl).
    eapply (exchange_reported "POST" _ (Some _)); [done|apply attest_answers; try done; apply TrimSpace_idemp|done..| |exact Hr].
    intros rep wd' [v ->]%reporting_answer _. apply reads_done.
  - eapply (exchange_reported "POST" _ (Some _)); [done|by apply arm_answers|done..| |exact Hr].
    intros rep wd' [v ->]%reporting_answer _. apply reads_done.
  - destruct Hw as (Hk & [Hz Ha] & Hl). eapply (exchange_reported "POST" _ (Some _) ""); [done|by apply plan_answers|done..| |].
    + intros rep wd' [= <- _] (_ & Hk' & _). by apply reads_plan.
    + rewrite <- Hr. unfold planCmd, parseKind. cbv zeta. rewrite Hk. reflexivity.
  - eapply (exchange_reported "GET" "/v1/status" None "" _ StatusOK); [done|apply answers_reporting; reflexivity|done..| |exact Hr].
    intros rep wd' [v ->]%reporting_answer Hd. by apply reads_status.
  - eapply (exchange_reported "GET" "/v1/zones" None "" _ StatusOK); [done|apply answers_reporting; reflexivity|done..| |exact Hr].
    intros rep wd' [v ->]%reporting_answer [_ Hd]. exists v. split; [|done]. apply into_jslice.
    refine (Forall_impl _ _ _ Hd _). apply reads_zone.
  - eapply (exchange_reported "GET" "/v1/audit" None "" _ StatusOK); [done|apply answers_reporting; reflexivity|done..| |exact Hr].
    intros rep wd' [v ->]%reporting_answer [_ Hd]. exists v. split; [|done]. apply into_jslice.
    refine (Forall_impl _ _ _ Hd _). intros a _. apply reads_audit.
Qed.
End Commands.
