(* ===== verification/AutoDnsFacts.v ===== *)
(** * The registrar client: pacing, what a registrar state is read from, round trip of the key
    material, and when a job counts as unavailable. *)
From S2P Require Import Prelude GoStrings GoTime Model Effects Wp Json JsonCodec JsonFacts.
From S2P Require Import Http AutoDns.

(** ** Pacing *)
(** Neighbouring times of a list, newest first, are at least [d] apart. *)
Fixpoint spaced (d : duration) (ts : list time) : Prop :=
  match ts with
  | t :: ((t' :: _) as ts') => t' + d <= t /\ spaced d ts'
  | _ => True
  end.

(** Any call of the API. *)
Inductive api_call :=
| CallDomainDNSSEC (zone : string)
| CallUpdateDNSSEC (zone : string) (keys : list DNSSECData.t) (ctid : string)
| CallJobStatus (id : Z).

Section Pacing.
Context {HS : HttpStack} {JE : JsonErrors} {CO : ClockOk} (c : Client).

(** The world after a call, whatever its result. *)
Definition after (call : api_call) (w : AutoWorld) : AutoWorld :=
  match call with
  | CallDomainDNSSEC zone => (DomainDNSSEC c zone w).2
  | CallUpdateDNSSEC zone keys ctid => (UpdateDNSSEC c zone keys ctid w).2
  | CallJobStatus id => (JobStatus c id w).2
  end.

Definition times (w : AutoWorld) : list time := map (fun x => x.1.1) w.(exchanges).

Record paced (w : AutoWorld) : Prop := {
  paced_spaced : spaced c.(minimumInterval) (times w);
  paced_last : match times w with t :: _ => t <= w.(last) | [] => True end;
  paced_clock : w.(last) <= web_clock w.(web);
}.

Definition keeps_pace {A} (m : A_ A) : Prop := forall w, paced w -> paced (m w).2.

Lemma keeps_pace_ret {A} (a : A) : keeps_pace (ret a).
Proof. by intros w. Qed.
Lemma keeps_pace_fail {A} e : keeps_pace (fail (A := A) e).
Proof. by intros w. Qed.
Lemma keeps_pace_lift {A} (r : result A) : keeps_pace (lift r).
Proof. by intros w. Qed.
Lemma keeps_pace_bind {A B} (m : A_ A) (k : A -> A_ B) :
  keeps_pace m -> (forall a, keeps_pace (k a)) -> keeps_pace (bind m k).
Proof.
  intros Hm Hk w Hw. specialize (Hm w Hw). unfold bind.
  destruct (m w) as [[a|e|] w1]; cbn in *; [by apply Hk|done..].
Qed.

Context (Hmin : 0 <= c.(minimumInterval) <= max_int64).

(** The pause: it fails and changes nothing but the time, or a full interval has passed. *)
Lemma pace_waits w :
  w.(last) <= web_clock w.(web) ->
  let '(o, w') := pace c w in
  w'.(exchanges) = w.(exchanges) /\ w'.(last) <= web_clock w'.(web) /\
  match o with
  | Val _ => w.(last) + c.(minimumInterval) <= w'.(last)
  | _ => w'.(last) = w.(last)
  end.
Proof.
  intros Hl. unfold pace, bind, get_last, AutoNow.
  pose proof (clock_now (web w)) as H1. destruct (web_Now (web w)) as [t1 n1]. cbn [fst snd] in *.
  set (wait := int64 _).
  assert (Hwait : c.(minimumInterval) - (t1 - last w) <= Z.max 0 wait).
  { unfold wait, Sub. unfold max_int64, min_int64 in *.
    rewrite (Z.max_r (-2 ^ 63)) by lia. destruct (Z.min_spec (2 ^ 63 - 1) (t1 - last w)) as [[? ->]|[? ->]]; [lia|].
    rewrite int64_id; unfold in_int64; lia. }
  destruct (Z.ltb_spec 0 wait) as [Hw|Hw].
  - unfold AutoTimer. cbn [web last exchanges].
    pose proof (clock_timer wait n1) as H2. pose proof (clock_waits wait n1) as H3.
    destruct (web_Timer wait n1) as [[[]|e] n2]; cbn [outcome fst snd web last exchanges] in *; [|by split_and!; try lia].
    specialize (H3 eq_refl). pose proof (clock_now n2) as H4.
    destruct (web_Now n2) as [t2 n3]. cbn in *. split_and!; (done || lia).
  - cbn [ret web last exchanges]. pose proof (clock_now n1) as H4.
    destruct (web_Now n1) as [t2 n3]. cbn in *. split_and!; (done || lia).
Qed.

Lemma keeps_pace_do method path body ctid : keeps_pace (do c method path body ctid).
Proof.
  intros w [Hs Hh Hl]. pose proof (pace_waits w Hl) as Hp. unfold do, bind, try.
  destruct (pace c w) as [[[]|e|] w1]; cbn in Hp |- *; destruct Hp as (He & Hc & Hlast).
  - assert (Hs1 : paced w1).
    { split; [by unfold times; rewrite He| |done]. unfold times in *. rewrite He.
      destruct (exchanges w); cbn in *; lia. }
    destruct (web_url_error _); [done|]. unfold AutoDo. pose proof (clock_do (request c method path body ctid) (web w1)) as Hd.
    destruct (web_Do _ _) as [r n]. cbn in Hd |- *.
    assert (paced (mkAuto n (last w1) ((last w1, request c method path body ctid, r) :: exchanges w1))) as H.
    { destruct Hs1 as [Hs1 _ Hc1]. split; cbn; [|lia|lia]. unfold times in *. cbn. rewrite He in *.
      destruct (exchanges w) as [|x l]; [done|]. cbn in *. split; [lia|done]. }
    by destruct r.
  - split; [by unfold times; rewrite He| |done]. unfold times in *. rewrite He, Hlast. done.
  - split; [by unfold times; rewrite He| |done]. unfold times in *. rewrite He, Hlast. done.
Qed.

Ltac pace_auto :=
  repeat first [ apply keeps_pace_do | apply keeps_pace_ret | apply keeps_pace_fail
               | apply keeps_pace_lift | apply keeps_pace_bind; [|intros ?] | case_match ].

Lemma keeps_pace_call call w : paced w -> paced (after call w).
Proof.
  destruct call; cbn [after]; revert w.
  - change (keeps_pace (DomainDNSSEC c zone)). unfold DomainDNSSEC, do_. pace_auto.
  - change (keeps_pace (UpdateDNSSEC c zone keys ctid)). unfold UpdateDNSSEC, do_. pace_auto.
  - change (keeps_pace (JobStatus c id)). unfold JobStatus. cbv zeta. pace_auto.
Qed.

(** C35: a client starting from a state without exchanges sends no two requests closer
    together than the configured minimum interval, whatever calls are made one after the
    other, whatever the registrar answers, and also when calls are cancelled in the middle of
    their pause; the subtraction from the zero time of a new client does not overflow. *)
Theorem requests_are_paced calls w :
  w.(exchanges) = [] -> w.(last) <= web_clock w.(web) ->
  spaced c.(minimumInterval) (times (fold_left (fun w call => after call w) calls w)).
Proof.
  intros He Hl. assert (Hw : paced w) by (by split; unfold times; rewrite ?He).
  clear He Hl. revert w Hw. induction calls as [|call calls IH]; intros w Hw; cbn; [by destruct Hw|].
  by apply IH, keeps_pace_call.
Qed.
End Pacing.

(** ** Reading the registrar's state *)
(** A document's member under a name, whose case does not matter; the last one counts. *)
Fixpoint member (name : string) (ms : list (string * json)) : option json :=
  match ms with
  | [] => None
  | (n, v) :: ms' =>
      match member name ms' with
      | Some v' => Some v'
      | None => if EqualFold name n then Some v else None
      end
  end.

Lemma find_field_fold {T} (fields : list (field T)) name :
  NoDup (map (fun f => ToLower (field_name f)) fields) ->
  find_field fields name = List.find (fun f => EqualFold (field_name f) name) fields.
Proof.
  unfold find_field. induction fields as [|f fields IH]; [done|]. cbn [map List.find].
  intros [Hf Hn]%NoDup_cons. specialize (IH Hn).
  destruct (field_name f == name) eqn:E; [bool_prop; subst; unfold EqualFold; by rewrite String.eqb_refl|].
  destruct (EqualFold (field_name f) name) eqn:Ef; [|done].
  destruct (List.find (fun g => field_name g == name) fields) as [g|] eqn:Hg; [|done].
  apply List.find_some in Hg as [Hin Hg]. bool_prop. subst. exfalso. apply Hf.
  unfold EqualFold in Ef. apply String.eqb_eq in Ef. rewrite Ef. apply list_elem_of_In, in_map_iff.
  by exists g.
Qed.

Lemma domain_fields_distinct : NoDup (map (fun f => ToLower (field_name f)) domain_fields).
Proof. refine (bool_decide_eq_true_1 _ _). vm_compute. reflexivity. Qed.

(** Two names that differ even in lower case do not match the same member. *)
Lemma EqualFold_one a b n : EqualFold a n = true -> EqualFold a b = false -> EqualFold b n = false.
Proof.
  unfold EqualFold. intros ->%String.eqb_eq H. rewrite <- H. apply String.eqb_sym.
Qed.

Lemma domain_members ms t d :
  into_members false domain_fields ms t = Some d ->
  DomainInfo.DNSSEC d = match member "dnssec" ms with Some v => Some v | None => DomainInfo.DNSSEC t end /\
  DomainInfo.DNSSECData d =
    match member "dnssecData" ms with Some v => Some v | None => DomainInfo.DNSSECData t end /\
  (member "name" ms = None -> DomainInfo.Name d = DomainInfo.Name t).
Proof.
  revert t. induction ms as [|[n v] ms IH]; intros t; cbn [into_members member]; [by intros [= ->]|].
  rewrite (find_field_fold _ _ domain_fields_distinct). unfold domain_fields at 1. cbn [List.find field_name].
  destruct (EqualFold "name" n) eqn:E1.
  - rewrite (EqualFold_one "name" "dnssec" n E1), (EqualFold_one "name" "dnssecData" n E1) by reflexivity.
    cbn [field_set]. destruct (into_string v _) as [s|]; [|done]. cbn [option_map].
    intros H. destruct (IH _ H) as (-> & -> & Hn). record_simpl.
    split_and!; [by destruct (member "dnssec" ms)|by destruct (member "dnssecData" ms)|by destruct (member "name" ms)].
  - destruct (EqualFold "dnssecData" n) eqn:E2.
    + rewrite (EqualFold_one "dnssecData" "dnssec" n E2) by reflexivity.
      cbn [field_set into_raw_field option_map]. intros H. destruct (IH _ H) as (-> & -> & Hn).
      record_simpl. split_and!; [by destruct (member "dnssec" ms)|by destruct (member "dnssecData" ms)|].
      intros Hm. rewrite Hn; [done|by destruct (member "name" ms)].
    + destruct (EqualFold "dnssec" n) eqn:E3.
      * cbn [field_set into_raw_field option_map]. intros H. destruct (IH _ H) as (-> & -> & Hn).
        record_simpl. split_and!; [by destruct (member "dnssec" ms)|by destruct (member "dnssecData" ms)|].
        intros Hm. rewrite Hn; [done|by destruct (member "name" ms)].
      * intros H. destruct (IH _ H) as (-> & -> & Hn). split_and!; [by destruct (member "dnssec" ms)|by destruct (member "dnssecData" ms)|].
        intros Hm. apply Hn. by destruct (member "name" ms).
Qed.

(** Decoding into a nil slice starts every element from its zero value. *)
Lemma into_fresh_elements {T} (zero : T) d vs l :
  into_slice zero d (JArr vs) [] = Some l -> Forall2 (fun v x => d v zero = Some x) vs l.
Proof.
  cbn. revert l. induction vs as [|v vs IH]; intros l; cbn; [intros [= <-]; constructor|].
  destruct (d v zero) as [x|] eqn:Hx; [|done].
  destruct (into_elements zero d vs []) as [xs|] eqn:Hxs; [|done]. intros [= <-].
  constructor; [done|by apply IH].
Qed.

Lemma ToLower_empty s : ToLower s = "" -> s = "".
Proof. unfold ToLower, bytes. by destruct s. Qed.

Section State.
Context {HS : HttpStack} {JE : JsonErrors} (c : Client).

(** The registrar answered the request with [r] and no error. *)
Record answered (method path : string) (body : option json) (ctid : string) (r : ApiResponse.t)
    (w w' : AutoWorld) : Prop := {
  answered_exchange : exists t resp, w'.(exchanges) = (t, request c method path body ctid, Ok resp) :: w.(exchanges) /\
    successful (Response.StatusCode resp) = true /\
    json_Decode_into into_response (limited (1024 * 1024) (Response.Body resp)) zero_response = Ok r;
  answered_no_error : EqualFold (ResponseStatus.Type_ (ApiResponse.Status r)) "ERROR" = false;
}.

Lemma pace_exchanges w : (pace c w).2.(exchanges) = w.(exchanges).
Proof.
  unfold pace, bind, get_last, AutoNow, AutoTimer, set_last. destruct (web_Now (web w)) as [t1 n1].
  cbv zeta. destruct (0 <? _); cbn [ret web exchanges].
  - destruct (web_Timer _ n1) as [[[]|e] n2]; cbn; [|done]. by destruct (web_Now n2).
  - by destruct (web_Now n1).
Qed.

Lemma pace_no_panic w w' : pace c w <> (Panic, w').
Proof.
  unfold pace, bind, get_last, AutoNow, AutoTimer, set_last. destruct (web_Now (web w)) as [t1 n1].
  cbv zeta. destruct (0 <? _); cbn [ret web exchanges].
  - destruct (web_Timer _ n1) as [[[]|e] n2]; cbn; [|done]. by destruct (web_Now n2).
  - by destruct (web_Now n1).
Qed.

(** What [do] went through. *)
Lemma do_inv method path body ctid w o w' :
  do c method path body ctid w = (Val o, w') ->
  (exists e, o = inl (OtherError e)) \/
  exists t resp, w'.(exchanges) = (t, request c method path body ctid, Ok resp) :: w.(exchanges) /\
    o = interpret method path resp.
Proof.
  unfold do, bind, try. pose proof (pace_exchanges w) as Hx.
  destruct (pace c w) as [[[]|e|] w1]; cbn in Hx |- *; [|intros [= <- <-]; left; by eexists|done].
  destruct (web_url_error _) as [e|]; [intros [= <- <-]; left; by eexists|].
  unfold AutoDo. destruct (web_Do _ _) as [[resp|e] n]; cbn; intros [= <- <-]; [right|left; by eexists].
  eexists _, _. by rewrite Hx.
Qed.

Lemma interpret_Ok method path resp r :
  interpret method path resp = inr r ->
  successful (Response.StatusCode resp) = true /\
  json_Decode_into into_response (limited (1024 * 1024) (Response.Body resp)) zero_response = Ok r /\
  EqualFold (ResponseStatus.Type_ (ApiResponse.Status r)) "ERROR" = false.
Proof.
  unfold interpret. cbv zeta. destruct (successful _); [cbn [negb]|done].
  destruct (json_Decode_into _ _ _) as [r'|e]; [|done]. destruct (EqualFold _ _) eqn:E; [done|].
  by intros [= ->].
Qed.

Lemma do__inv method path body ctid w r w' :
  do_ c method path body ctid w = (Val r, w') -> answered method path body ctid r w w'.
Proof.
  unfold do_, bind. destruct (do c method path body ctid w) as [[[e|r']|e|] w1] eqn:E; try done.
  intros [= -> ->]. apply do_inv in E as [(e & [=])|(t & resp & Hx & Hi)].
  symmetry in Hi. apply interpret_Ok in Hi as (Hs & Hd & He). split; [|done]. by exists t, resp.
Qed.

(** C33: a registrar state is believed only if it is explicit.  When DomainDNSSEC returns a
    state, the registrar answered the request for this zone with a success holding exactly one
    record, under the requested name, and that record either has neither of the two DNSSEC members, which is reported as
    an omitted, disabled and empty state, or has both: a literal [true] or [false], and an
    array whose every element decodes to the material returned, in order.  A missing, [null]
    or otherwise typed member is never taken for a disabled zone. *)
Theorem domain_state_explicit zone w st w' :
  TrimSuffix zone "." <> "" -> DomainDNSSEC c zone w = (Val st, w') ->
  exists r ms d, answered "GET" (domain_path zone) None "" r w w' /\ ApiResponse.Data r = [JObj ms] /\
    into_struct false domain_fields (JObj ms) (DomainInfo.mk "" None None) = Some d /\
    ToLower (TrimSuffix (TrimSpace (DomainInfo.Name d)) ".") = ToLower (TrimSuffix zone ".") /\
    ((member "dnssec" ms = None /\ member "dnssecData" ms = None /\
      st = DomainDNSSECState.mk false [] true) \/
     exists enabled vs, member "dnssec" ms = Some (JBool enabled) /\
       member "dnssecData" ms = Some (JArr vs) /\
       Forall2 (fun v k => into_struct false dnssec_fields v zero_DNSSECData = Some k)
         vs st.(DomainDNSSECState.Data) /\
       st.(DomainDNSSECState.Enabled) = enabled /\ st.(DomainDNSSECState.Omitted) = false).
Proof.
  intros Hz. unfold DomainDNSSEC, bind at 1.
  destruct (do_ c _ _ _ _ w) as [[r|e|] w1] eqn:E; [|done..]. apply do__inv in E.
  destruct (ApiResponse.Data r) as [|v [|? ?]] eqn:Hd; [done| |done].
  destruct (into_struct false domain_fields v _) as [d|] eqn:Hv; [|done].
  destruct (_ != _) eqn:Hn; [done|]. intros H.
  destruct v as [| | | | |ms]; cbn in Hv; simplify_eq.
  { exfalso. bool_prop. cbn in Hn. symmetry in Hn. by apply ToLower_empty in Hn. }
  pose proof Hv as (Hdnssec & Hdata & _)%domain_members. cbn [DomainInfo.DNSSEC DomainInfo.DNSSECData] in *.
  unfold lift in H. destruct (classify d) as [st'|] eqn:Hc; [|done]. injection H as -> <-.
  exists r, ms, d. do 3 (split; [done|]). split; [by bool_prop|]. unfold classify in Hc. rewrite Hdnssec, Hdata in Hc.
  destruct (member "dnssec" ms) as [[|b| | | |]|], (member "dnssecData" ms) as [[| | | |vs|]|];
    simplify_eq; [|by left].
  right. exists b, vs. destruct (into_slice _ _ _ _) as [keys|] eqn:Hk; [|done]. simplify_eq. cbn.
  split_and!; try done. by apply into_fresh_elements.
Qed.

(** ** Unavailable jobs *)
(** Nothing but the client itself says that a job is unavailable. *)
Record plain_errors : Prop := {
  plain_Do : forall r n e, (web_Do r n).1 = Err e -> is_job_unavailable e = false;
  plain_Timer : forall d n e, (web_Timer d n).1 = Err e -> is_job_unavailable e = false;
  plain_url : forall url e, web_url_error url = Some e -> is_job_unavailable e = false;
  plain_json : forall text, is_job_unavailable (json_error text) = false;
}.

(** An answer was received last. *)
Definition received (r : Request.t) (resp : Response.t) (w w' : AutoWorld) : Prop :=
  exists t, w'.(exchanges) = (t, r, Ok resp) :: w.(exchanges).

Lemma received_same r resp resp' w w' : received r resp w w' -> received r resp' w w' -> resp' = resp.
Proof. intros [t E] [t' E']. rewrite E in E'. by simplify_eq. Qed.

Lemma pace_error w e w' : plain_errors -> pace c w = (Fail_ e, w') -> is_job_unavailable e = false.
Proof.
  intros H. unfold pace, bind, get_last, AutoNow, AutoTimer, set_last.
  destruct (web_Now (web w)) as [t1 n1]. cbv zeta. destruct (0 <? _); cbn [ret web exchanges last].
  - pose proof (plain_Timer H) as Ht. destruct (web_Timer _ n1) as [[[]|e1] n2] eqn:E; cbn [outcome web].
    + by destruct (web_Now n2).
    + intros [= <- _]. eapply (Ht _ n1). by rewrite E.
  - by destruct (web_Now n1).
Qed.

(** How [do] ends: an error of its own and no answer, or the interpretation of an answer. *)
Lemma do_cases method path body ctid w o w' :
  plain_errors -> do c method path body ctid w = (o, w') ->
  (exists e, o = Val (inl (OtherError e)) /\ is_job_unavailable e = false /\
     forall r resp, ~ received r resp w w') \/
  (exists resp, o = Val (interpret method path resp) /\
     received (request c method path body ctid) resp w w').
Proof.
  intros Hp. unfold do, bind, try. pose proof (pace_exchanges w) as Hx.
  destruct (pace c w) as [[[]|e|] w1] eqn:Ep; cbn in Hx |- *.
  - destruct (web_url_error _) as [e|] eqn:Hu.
    + intros [= <- <-]. left. exists e. split_and!; [done|by eapply plain_url|].
      intros r resp [t E]. rewrite Hx in E. apply (f_equal length) in E. cbn in E. lia.
    + unfold AutoDo. destruct (web_Do _ _) as [[resp|e] n] eqn:Hd; cbn; intros [= <- <-].
      * right. exists resp. split; [done|]. eexists. cbn. by rewrite Hx.
      * left. eexists. split_and!; [done| |].
        -- cbn. rewrite (plain_Do Hp _ _ _ (f_equal fst Hd)). done.
        -- intros r resp [t E]. cbn in E. by simplify_eq.
  - intros [= <- <-]. left. exists e. split_and!; [done|by eapply pace_error|].
    intros r resp [t E]. rewrite Hx in E. apply (f_equal length) in E. cbn in E. lia.
  - exfalso. by eapply pace_no_panic.
Qed.

Lemma interpret_error method path resp e :
  plain_errors -> interpret method path resp = inl e ->
  match e with
  | RequestError m p s _ _ => m = method /\ p = path /\ s = Response.StatusCode resp
  | OtherError e => is_job_unavailable e = false
  end.
Proof.
  intros Hp. unfold interpret. cbv zeta. destruct (negb _); [by intros [= <-]|].
  destruct (json_Decode_into _ _ _) as [r|e'] eqn:E.
  - destruct (EqualFold _ _); [by intros [= <-]|done].
  - intros [= <-]. cbn. unfold json_Decode_into in E. by repeat case_match; simplify_eq; rewrite (plain_json Hp).
Qed.

(** C36: a job counts as no longer available exactly when the registrar answered the query of
    this very job with the HTTP status 404 and the code E300114; no other failure, of the
    network, of the document or of the registrar, is taken for it. *)
Theorem job_unavailable_exact id w e w' :
  plain_errors -> JobStatus c id w = (Fail_ e, w') ->
  is_job_unavailable e = true <->
  0 < id /\ exists resp msg, received (request c "GET" ("/job/" +:+ pretty id) None "") resp w w' /\
    interpret "GET" ("/job/" +:+ pretty id) resp =
      inl (RequestError "GET" ("/job/" +:+ pretty id) StatusNotFound "E300114" msg).
Proof.
  intros Hp. unfold JobStatus. destruct (Z.leb_spec id 0) as [Hid|Hid].
  { intros [= <- <-]. split; [done|]. intros [? _]. lia. }
  unfold bind. destruct (do c _ _ _ _ w) as [o w1] eqn:E.
  apply do_cases in E as [(e1 & -> & He & Hno)|(resp & -> & Hr)]; [| |done].
  { intros [= <- <-]. cbn. rewrite He. split; [done|]. by intros (_ & resp & msg & Hr & _); apply Hno in Hr. }
  destruct (interpret _ _ resp) as [e1|r] eqn:Hi.
  - pose proof (interpret_error _ _ _ _ Hp Hi) as He.
    destruct e1 as [m p s code msg|e1]; cbn [do_error_error].
    + destruct He as (-> & -> & ->). destruct (_ && _) eqn:Hb; intros [= <- <-]; cbn.
      * split; [intros _|done]. split; [done|]. exists resp, msg. apply andb_prop in Hb as [Hs Hcode].
        split; [done|]. apply Z.eqb_eq in Hs. bool_prop. by rewrite Hi, Hs, Hcode.
      * split; [done|]. intros (_ & resp' & msg' & Hr' & Hi'). exfalso.
        rewrite (received_same _ _ _ _ _ Hr Hr'), Hi in Hi'.
        injection Hi' as Hs Hcode _. by rewrite Hs, Hcode in Hb.
    + intros [= <- <-]. rewrite He. split; [done|]. intros (_ & resp' & msg' & Hr' & Hi'). exfalso.
      by rewrite (received_same _ _ _ _ _ Hr Hr'), Hi in Hi'.
  - intros H. assert (is_job_unavailable e = false /\ w1 = w') as [-> ->].
    { cbv zeta in H. repeat case_match; try discriminate H; injection H as <- <-; cbn; by rewrite ?(plain_json Hp). }
    split; [done|]. intros (_ & resp' & msg' & Hr' & Hi'). exfalso.
    by rewrite (received_same _ _ _ _ _ Hr Hr'), Hi in Hi'.
Qed.
(** ** Round trip of the key material *)
(** A registrar's answer about one domain: the record embedded as it was received. *)
Definition domain_answer (record : string) : string :=
  of_bytes ("{"%char :: json_string "data" ++ bytes ":[" ++ bytes record ++ bytes "]}").

(** The values of Go's [uint16] and [uint8] fields, and base64 text. *)
Definition material_ok (k : DNSSECData.t) : Prop :=
  0 <= k.(DNSSECData.Flags) < 2 ^ 16 /\ 0 <= k.(DNSSECData.Protocol) < 2 ^ 8 /\
  0 <= k.(DNSSECData.Algorithm) < 2 ^ 8 /\ ascii_string k.(DNSSECData.PublicKey).

(** A name without surrounding white space and with at most one dot at its end. *)
Definition trimmed_name (zone : string) : Prop :=
  let z := TrimSuffix zone "." in ascii_string z /\ TrimSpace z = z /\ TrimSuffix z "." = z.

Lemma into_integer_pretty lo hi z old :
  lo <= z <= hi -> into_integer lo hi (jint z) old = Some z.
Proof.
  intros H. unfold into_integer, jint. rewrite literal_value_pretty.
  by rewrite (proj2 (Z.leb_le lo z)), (proj2 (Z.leb_le z hi)) by lia.
Qed.

Lemma read_material k : material_ok k -> into_struct false dnssec_fields (dnssec_json k) zero_DNSSECData = Some k.
Proof.
  intros (Hf & Hp & Ha & _). destruct k as [f p a pk]. cbn [DNSSECData.Flags DNSSECData.Protocol
    DNSSECData.Algorithm DNSSECData.PublicKey] in *.
  pose proof (into_integer_pretty 0 (2 ^ 16 - 1) f 0 ltac:(lia)) as Ef.
  pose proof (into_integer_pretty 0 (2 ^ 8 - 1) p 0 ltac:(lia)) as Ep.
  pose proof (into_integer_pretty 0 (2 ^ 8 - 1) a 0 ltac:(lia)) as Ea.
  unfold dnssec_json. cbn [DNSSECData.Flags DNSSECData.Protocol DNSSECData.Algorithm DNSSECData.PublicKey].
  revert Ef Ep Ea. generalize (jint f), (jint p), (jint a). intros jf jp ja Ef Ep Ea.
  lazy -[into_integer] in Ef, Ep, Ea |- *. by rewrite Ef, Ep, Ea.
Qed.

Lemma plain_material k : material_ok k -> plain (dnssec_json k).
Proof.
  intros (_ & _ & _ & Hpk). apply plain_members. rewrite !Forall_cons. cbn [fst snd].
  split_and!; try apply Forall_nil_2; try (refine (bool_decide_eq_true_1 _ _); vm_compute; reflexivity);
    try (by eexists); done.
Qed.

Lemma read_materials keys :
  Forall material_ok keys -> keys <> [] ->
  into_slice zero_DNSSECData (into_struct false dnssec_fields) (jslice dnssec_json keys) [] = Some keys.
Proof.
  intros H Hn. replace (jslice dnssec_json keys) with (JArr (map dnssec_json keys)) by (by destruct keys).
  cbn [into_slice]. clear Hn. induction H as [|k keys Hk H IH]; [done|]. cbn [map into_elements head default].
  cbn [List.tl]. change (default zero_DNSSECData (head [])) with zero_DNSSECData.
  by rewrite (read_material k Hk), IH.
Qed.

Lemma plain_update zone keys :
  trimmed_name zone -> Forall material_ok keys -> plain (update_json zone keys).
Proof.
  intros (Hz & _ & _) Hk. apply plain_members. rewrite !Forall_cons. cbn [fst snd].
  split_and!; try apply Forall_nil_2; try (refine (bool_decide_eq_true_1 _ _); vm_compute; reflexivity);
    try done.
  destruct keys as [|k keys]; [done|]. apply plain_elements. apply Forall_map.
  eapply Forall_impl; [exact Hk|]. apply plain_material.
Qed.

Lemma height_update zone keys : (height (update_json zone keys) <= 3)%nat.
Proof.
  unfold update_json. cbn [height fold_right snd].
  assert (height (jslice dnssec_json keys) <= 2)%nat; [|lia].
  destruct keys as [|k keys]; [cbn; lia|]. cbn [jslice height].
  assert (fold_right (fun v n => Nat.max (height v) n) O (map dnssec_json (k :: keys)) <= 1)%nat; [|lia].
  induction (k :: keys) as [|k' l IH]; cbn [map fold_right]; [lia|].
  assert (height (dnssec_json k') = 1%nat) as -> by done. lia.
Qed.

(** The registrar's answer embeds the document it received. *)
Lemma domain_answer_json v : domain_answer (json_Marshal v) = json_Marshal (JObj [("data", JArr [v])]).
Proof.
  unfold domain_answer, json_Marshal. rewrite bytes_of_bytes. f_equal. cbn [json_bytes map comma_separated fst snd].
  f_equal. rewrite <- !app_assoc. f_equal. change (bytes ":[") with [":"%char; "["%char].
  change (bytes "]}") with (["]"%char] ++ ["}"%char]). cbn [List.concat map app]. by rewrite <- app_assoc.
Qed.

Lemma read_update zone keys :
  into_struct false domain_fields (update_json zone keys) (DomainInfo.mk "" None None) =
  Some (DomainInfo.mk (TrimSuffix zone ".") (Some (jslice dnssec_json keys)) (Some (JBool true))).
Proof. unfold update_json. generalize (TrimSuffix zone "."), (jslice dnssec_json keys). by intros z j. Qed.

Lemma read_answer v :
  into_response (JObj [("data", JArr [v])]) zero_response = Some (ApiResponse.mk "" zero_status [v]).
Proof. reflexivity. Qed.

Lemma interpret_success method path header text v r :
  len text <= 1024 * 1024 -> decode_first text = Some v -> into_response v zero_response = Some r ->
  EqualFold (ResponseStatus.Type_ (ApiResponse.Status r)) "ERROR" = false ->
  interpret method path (Response.mk StatusOK header text) = inr r.
Proof.
  intros Hl Hd Hr He. unfold interpret. cbn [Response.StatusCode Response.Body].
  rewrite limited_id by exact Hl. unfold json_Decode_into. by rewrite Hd, Hr, He.
Qed.

(** C34: what UpdateDNSSEC writes, DomainDNSSEC reads back.  After a successful update of a zone
    with a non-empty list of material (flags, protocol and algorithm in the range of their Go
    types, ASCII texts), the last exchange is one PUT of a body [record] to the zone's path under
    the given transaction id; and whenever the registrar later answers with exactly this
    record, DomainDNSSEC returns the same list, in order, enabled and not omitted. *)
Theorem registrar_round_trip zone keys ctid w job w1 :
  trimmed_name zone -> Forall material_ok keys -> keys <> [] ->
  UpdateDNSSEC c zone keys ctid w = (Val job, w1) ->
  exists t record resp, w1.(exchanges) =
      (t, request c "PUT" (domain_path zone) (Some (update_json zone keys)) ctid, Ok resp) :: w.(exchanges) /\
    Request.Body (request c "PUT" (domain_path zone) (Some (update_json zone keys)) ctid) = Some record /\
    forall w2 header,
      let answer := domain_answer record in
      len answer <= 1024 * 1024 -> (pace c w2).1 = Val tt ->
      web_url_error (c.(base) +:+ domain_path zone) = None ->
      (forall n, (web_Do (request c "GET" (domain_path zone) None "") n).1 = Ok (Response.mk StatusOK header answer)) ->
      (DomainDNSSEC c zone w2).1 = Val (DomainDNSSECState.mk true keys false).
Proof.
  intros Hz Hk Hn Hu. unfold UpdateDNSSEC, bind at 1 in Hu.
  destruct (do_ c _ _ _ _ w) as [[r|e|] w0] eqn:E; [|done..].
  apply do__inv in E as [(t & resp & Hx & _) _].
  assert (w0 = w1) as ->.
  { clear -Hu. cbv zeta in Hu. unfold bind, ret, fail in Hu. repeat case_match; by simplify_eq. }
  clear Hu. exists t, (json_Marshal (update_json zone keys)), resp. split; [done|]. split; [done|].
  intros w2 header answer Hl Hpace Hurl Hget. unfold answer in *. rewrite domain_answer_json in *.
  remember (json_Marshal (JObj [("data", JArr [update_json zone keys])])) as text eqn:Et.
  unfold DomainDNSSEC, do_, do, bind, try. destruct (pace c w2) as [o w3]. cbn in Hpace. subst o.
  rewrite Hurl. unfold AutoDo. specialize (Hget (web w3)).
  destruct (web_Do _ (web w3)) as [a n]. cbn in Hget. subst a. cbn [outcome ret].
  rewrite (interpret_success _ _ _ _ (JObj [("data", JArr [update_json zone keys])])
    (ApiResponse.mk "" zero_status [update_json zone keys]) Hl); [| |apply read_answer|reflexivity].
  - unfold ret. cbn [ApiResponse.Data]. rewrite read_update. destruct Hz as (_ & Hz1 & Hz2). cbn [DomainInfo.Name].
    rewrite Hz1, Hz2, Prelude.eqb_refl. cbn [negb]. unfold classify. cbn [DomainInfo.DNSSEC DomainInfo.DNSSECData].
    rewrite (read_materials _ Hk Hn). by destruct keys.
  - subst text. apply decode_first_marshal.
    + apply plain_members. rewrite !Forall_cons. cbn [fst snd].
      split_and!; try apply Forall_nil_2; [refine (bool_decide_eq_true_1 _ _); vm_compute; reflexivity|].
      apply plain_elements. rewrite Forall_cons. split; [by apply plain_update|apply Forall_nil_2].
    + pose proof (height_update zone keys). transitivity 8%nat; [cbn [height fold_right snd]; lia|by apply shallow].
Qed.
End State.
