(* ===== verification/PdnsFacts.v ===== *)
(** * The PowerDNS client: which request a call sends and when it succeeds, and that a key's URL
    names that key only. *)
From S2P Require Import Prelude GoStrings GoTime Model Effects Json JsonCodec JsonFacts.
From S2P Require Import GoNetFacts Http Pdns.

(** ** Path segments *)
(** [url.PathUnescape], on the bytes of a segment. *)
Fixpoint path_unescape (l : list ascii) : option (list ascii) :=
  match l with
  | [] => Some []
  | a :: l' =>
      if Ascii.eqb a "%"%char then
        match l' with
        | h :: lo :: l'' =>
            match hex_value h, hex_value lo with
            | Some h, Some lo => option_map (cons (byte_of_code (16 * h + lo))) (path_unescape l'')
            | _, _ => None
            end
        | _ => None
        end
      else option_map (cons a) (path_unescape l')
  end.
Definition PathUnescape (s : string) : option string := option_map of_bytes (path_unescape (bytes s)).

Lemma unescape_byte a l :
  path_unescape (path_escape_byte a ++ l) = option_map (cons a) (path_unescape l).
Proof. by destruct a as [[] [] [] [] [] [] [] []]. Qed.

Lemma PathEscape_round_trip s : PathUnescape (PathEscape s) = Some s.
Proof.
  unfold PathUnescape, PathEscape. rewrite bytes_of_bytes. rewrite <- (of_bytes_bytes s) at 2.
  assert (path_unescape (List.concat (map path_escape_byte (bytes s))) = Some (bytes s)) as ->; [|done].
  induction (bytes s) as [|a l IH]; cbn [map List.concat]; [done|]. by rewrite unescape_byte, IH.
Qed.

Definition no_slash (l : list ascii) : Prop := Forall (fun a => Ascii.eqb a "/"%char = false) l.

Lemma PathEscape_no_slash s : no_slash (bytes (PathEscape s)).
Proof.
  unfold no_slash, PathEscape. rewrite bytes_of_bytes.
  induction (bytes s) as [|a l IH]; cbn [map List.concat]; [constructor|]. apply Forall_app. split; [|done].
  by destruct a as [[] [] [] [] [] [] [] []]; repeat constructor.
Qed.

Lemma pretty_no_slash (z : Z) : no_slash (bytes (pretty z)).
Proof.
  assert (Hd : forall ds, Forall (fun a => is_digit a = true) ds -> no_slash ds).
  { intros ds H. eapply Forall_impl; [exact H|]. intros a Ha.
    by destruct a as [[] [] [] [] [] [] [] []]; try discriminate Ha. }
  destruct (pretty_Z_bytes z) as [[-> E]|[(ds & _ & [H _ _] & E)|(ds & _ & [H _ _] & E)]]; rewrite E.
  - by repeat constructor.
  - by apply Hd.
  - constructor; [done|by apply Hd].
Qed.

(** Splitting at slashes takes a path apart. *)
Lemma split_segment cur l rest :
  no_slash l -> split_aux "/"%char cur (l ++ "/"%char :: rest) =
  of_bytes (rev cur ++ l) :: split_aux "/"%char [] rest.
Proof.
  intros H. revert cur. induction H as [|a l Ha H IH]; intros cur; cbn; [by rewrite app_nil_r|].
  rewrite Ha, IH. cbn. by rewrite <- app_assoc.
Qed.
Lemma split_last cur l : no_slash l -> split_aux "/"%char cur l = [of_bytes (rev cur ++ l)].
Proof.
  intros H. revert cur. induction H as [|a l Ha H IH]; intros cur; cbn; [by rewrite app_nil_r|].
  rewrite Ha, IH. cbn. by rewrite <- app_assoc.
Qed.

Section Calls.
Context {HS : HttpStack} {JE : JsonErrors} (c : Client).

(** C37: the URL of a key names that key and no other.  Below the base URL, the path that
    SetKey and DeleteKey use splits into the fixed segments and three variable ones, and a
    server that unescapes them reads back the server id, the zone id, whatever bytes it has, a
    slash or a percent sign included, and the decimal number of the key. *)
Theorem key_url_round_trip zoneID (id : Z) :
  exists server zone number,
    Split (keysPath c zoneID +:+ "/" +:+ pretty id) "/"%char
      = [""; "servers"; server; "zones"; zone; "cryptokeys"; number] /\
    PathUnescape server = Some c.(serverID) /\ PathUnescape zone = Some zoneID /\
    literal_value number = Some id.
Proof.
  exists (PathEscape c.(serverID)), (PathEscape zoneID), (pretty id).
  split; [|split_and!; [apply PathEscape_round_trip..|apply literal_value_pretty]].
  unfold keysPath, Split. rewrite !bytes_app.
  change (bytes "/servers/") with ("/"%char :: bytes "servers" ++ ["/"%char]).
  change (bytes "/zones/") with ("/"%char :: bytes "zones" ++ ["/"%char]).
  change (bytes "/cryptokeys") with ("/"%char :: bytes "cryptokeys"). change (bytes "/") with ["/"%char].
  rewrite <- !app_assoc, <- !app_comm_cons, <- !app_assoc. cbn [app].
  cbn [split_aux]. change (Ascii.eqb "/" "/") with true. cbn iota. f_equal.
  rewrite split_segment by (by repeat constructor). cbn [rev app]. f_equal.
  rewrite split_segment by apply PathEscape_no_slash. cbn [rev app]. rewrite of_bytes_bytes. f_equal.
  rewrite split_segment by (by repeat constructor). cbn [rev app]. f_equal.
  rewrite split_segment by apply PathEscape_no_slash. cbn [rev app]. rewrite of_bytes_bytes. f_equal.
  rewrite split_segment by (by repeat constructor). cbn [rev app]. f_equal.
  rewrite split_last by apply pretty_no_slash. cbn [rev app]. by rewrite of_bytes_bytes.
Qed.

(** ** Calls *)
Inductive api_call : Type -> Type :=
| CallListZones : api_call (list Zone.t)
| CallGetZone (zoneID : string) : api_call Zone.t
| CallListKeys (zoneID : string) : api_call (list Key.t)
| CallCreateKey (zoneID keyType algorithm : string) (active : bool) : api_call Key.t
| CallSetKey (zoneID : string) (key : Key.t) (active published : bool) : api_call unit
| CallDeleteKey (zoneID : string) (id : Z) : api_call unit.

Definition run_call {T} (call : api_call T) : D_ T :=
  match call with
  | CallListZones => ListZones c
  | CallGetZone zoneID => GetZone c zoneID
  | CallListKeys zoneID => ListKeys c zoneID
  | CallCreateKey zoneID keyType algorithm active => CreateKey c zoneID keyType algorithm active
  | CallSetKey zoneID key active published => SetKey c zoneID key active published
  | CallDeleteKey zoneID id => DeleteKey c zoneID id
  end.

(** The request of a call. *)
Definition call_request {T} (call : api_call T) : Request.t :=
  match call with
  | CallListZones => request c "GET" ("/servers/" +:+ PathEscape c.(serverID) +:+ "/zones") None
  | CallGetZone zoneID => request c "GET" ("/servers/" +:+ PathEscape c.(serverID) +:+ "/zones/" +:+ PathEscape zoneID) None
  | CallListKeys zoneID => request c "GET" (keysPath c zoneID) None
  | CallCreateKey zoneID keyType algorithm active =>
      request c "POST" (keysPath c zoneID) (Some (create_json keyType algorithm active))
  | CallSetKey zoneID key active published =>
      request c "PUT" (keysPath c zoneID +:+ "/" +:+ pretty key.(Key.ID))
        (Some (set_json key.(Key.KeyType) active published))
  | CallDeleteKey zoneID id => request c "DELETE" (keysPath c zoneID +:+ "/" +:+ pretty id) None
  end.

(** What a successful response means to a call. *)
Definition reads_as {T} (d : Decoder T) (zero : T) (resp : Response.t) (x : T) : Prop :=
  let text := limited (1024 * 1024) (Response.Body resp) in
  if (Response.StatusCode resp =? StatusNoContent) || blank text then x = zero
  else exists v, decode_first text = Some v /\ d v zero = Some x.
Definition means {T} (call : api_call T) : Response.t -> T -> Prop :=
  match call with
  | CallListZones => reads_as (into_slice zero_Zone into_zone) []
  | CallGetZone _ => reads_as into_zone zero_Zone
  | CallListKeys _ => reads_as (into_slice zero_Key into_key) []
  | CallCreateKey _ _ _ _ => reads_as into_key zero_Key
  | CallSetKey _ _ _ _ | CallDeleteKey _ _ => fun _ x => x = tt
  end.

(** What happened in a call of [do]. *)
Definition done_by {T} (r : Request.t) (means : Response.t -> T -> Prop) (w : PdnsWorld)
    (o : Outcome T) (w' : PdnsWorld) : Prop :=
  match o with
  | Val x => exists resp, w'.(exchanges) = (r, Ok resp) :: w.(exchanges) /\
      successful (Response.StatusCode resp) = true /\ means resp x
  | Fail_ _ =>
      (w'.(exchanges) = w.(exchanges) /\ web_url_error (Request.URL r) <> None) \/
      (exists e, w'.(exchanges) = (r, Err e) :: w.(exchanges)) \/
      (exists resp, w'.(exchanges) = (r, Ok resp) :: w.(exchanges) /\
        (successful (Response.StatusCode resp) = true -> forall x, ~ means resp x))
  | Panic => False
  end.

Lemma do_done {T} method path body (out : option (Decoder T)) zero w o w' :
  do c method path body out zero w = (o, w') ->
  done_by (request c method path body)
    (match out with Some d => reads_as d zero | None => fun _ x => x = zero end) w o w'.
Proof.
  unfold do. destruct (web_url_error _) as [e|] eqn:Hu.
  { intros [= <- <-]. left. split; [done|]. cbn [request Request.URL]. by rewrite Hu. }
  unfold wrap, bind, PdnsDo. destruct (web_Do _ _) as [[resp|e] n]; cbn [outcome].
  2: { intros [= <- <-]. right. left. by exists e. }
  cbv zeta. destruct (successful (Response.StatusCode resp)) eqn:Hs; cbn [negb].
  2: { intros [= <- <-]. right. right. exists resp. split; [done|]. by rewrite Hs. }
  destruct out as [d|]; [|intros [= <- <-]; by exists resp].
  unfold reads_as.
  destruct (Response.StatusCode resp =? StatusNoContent) eqn:Hn; [intros [= <- <-]; exists resp; by rewrite Hn|].
  destruct (blank _) eqn:Hb; [intros [= <- <-]; exists resp; by rewrite Hn, Hb|].
  unfold lift, json_Decode_into. destruct (decode_first _) as [v|] eqn:Hd; [destruct (d v zero) as [x|] eqn:Hx|].
  - intros [= <- <-]. exists resp. rewrite Hn, Hb. split_and!; [done..|]. by exists v.
  - intros [= <- <-]. right. right. exists resp. rewrite Hn, Hb. split; [done|].
    intros _ x (v' & Hv' & Hx'). congruence.
  - intros [= <- <-]. right. right. exists resp. rewrite Hn, Hb. split; [done|].
    intros _ x (v' & Hv' & Hx'). congruence.
Qed.

(** Every call of the PowerDNS API sends at most one request, the one that names its
    zone, key and payload, and never panics.  It succeeds exactly if that request was answered
    with a 2xx status and a body that decodes to the result, where an empty body and the status
    204 stand for the zero value; an unparsable URL, a failed exchange, any other status and any
    other body are errors, so a key is never believed changed without the server's word. *)
Lemma pdns_calls_exact {T} (call : api_call T) w :
  done_by (call_request call) (means call) w (run_call call w).1 (run_call call w).2.
Proof.
  destruct call; cbn [run_call call_request means].
  1-4: eapply (do_done _ _ _ (Some _)), surjective_pairing.
  all: eapply (do_done _ _ _ None), surjective_pairing.
Qed.
End Calls.
