(* ===== verification/LmtpFacts.v ===== *)
(** * LMTP delivery: the end of the data, what counts as delivered, and that no field of an
    event or of the configuration can add a command or a header. *)
From S2P Require Import Prelude GoStrings GoTime GoNetFacts Model Config Dns Validate Effects.
From S2P Require Import JsonFacts Http Lmtp.

(** ** The receiver of a message *)
(** RFC 5321, 4.5.2: a line ends with CR LF; a line that is a single dot ends the data; the first
    dot of any other line that starts with one is removed. *)
Inductive receiver := AtLine | InLine | AfterCR | AfterDot | AfterDotCR.
Fixpoint receive (st : receiver) (l : list ascii) : option (list ascii * list ascii) :=
  let out a st' l' := option_map (fun r => (a :: r.1, r.2)) (receive st' l') in
  match l with
  | [] => None
  | a :: l' =>
      let next := if Ascii.eqb a cr then AfterCR else InLine in
      match st with
      | AtLine => if Ascii.eqb a "."%char then receive AfterDot l' else out a next l'
      | InLine => out a next l'
      | AfterCR => if Ascii.eqb a lf then out a AtLine l' else out a next l'
      | AfterDot => if Ascii.eqb a cr then receive AfterDotCR l' else out a InLine l'
      | AfterDotCR =>
          if Ascii.eqb a lf then Some ([], l')
          else option_map (fun r => (cr :: a :: r.1, r.2)) (receive next l')
      end
  end.

(** The text with its line ends completed: what the dot writer sends but for the dots. *)
Definition line_byte (st : dot_state) (a : ascii) : list ascii :=
  match st with
  | DotCR => [a]
  | _ => if Ascii.eqb a lf then [cr; a] else [a]
  end.
Fixpoint completed (st : dot_state) (l : list ascii) : list ascii :=
  match l with
  | [] => match st with DotBegin | DotData => [cr; lf] | DotCR => [lf] | DotBeginLine => [] end
  | a :: l' => line_byte st a ++ completed (dot_byte st a).2 l'
  end.

(** The receiver follows the writer. *)
Definition follows (st : dot_state) (r : receiver) : Prop :=
  match st with
  | DotBegin | DotBeginLine => r = AtLine
  | DotCR => r = AfterCR
  | DotData => r = InLine \/ r = AfterCR
  end.

Definition continued_with (a : list ascii) (x : option (list ascii * list ascii)) :=
  option_map (fun r : list ascii * list ascii => (a ++ r.1, r.2)) x.

Lemma receive_byte st r a tail :
  follows st r -> exists r', follows (dot_byte st a).2 r' /\
    receive r ((dot_byte st a).1 ++ tail) = continued_with (line_byte st a) (receive r' tail).
Proof.
  intros H. unfold dot_byte.
  destruct (Ascii.eqb_spec a cr) as [->|Hcr]; [|destruct (Ascii.eqb_spec a lf) as [->|Hlf];
    [|destruct (Ascii.eqb_spec a "."%char) as [->|Hdot]]].
  - exists AfterCR. destruct st; cbn in H; [subst r..|destruct H as [-> | ->]];
      (split; [by cbn; auto|]; cbn; by destruct (receive AfterCR tail)).
  - exists AtLine. destruct st; cbn in H; [subst r..|destruct H as [-> | ->]];
      (split; [by cbn; auto|]; cbn; by destruct (receive AtLine tail)).
  - exists InLine. destruct st; cbn in H; [subst r..|destruct H as [-> | ->]];
      (split; [by cbn; auto|]; cbn; by destruct (receive InLine tail)).
  - exists InLine. apply Ascii.eqb_neq in Hcr, Hlf, Hdot.
    destruct st; cbn in H; [subst r..|destruct H as [-> | ->]]; unfold line_byte;
      rewrite ?Hdot; cbn [fst snd app receive]; rewrite ?Hcr, ?Hlf, ?Hdot;
      (split; [by cbn; auto|]; cbn; by destruct (receive InLine tail)).
Qed.

Lemma receive_write l st r rest :
  follows st r ->
  let '(out, st') := dot_write st l in
  receive r (out ++ dot_close st' ++ rest) = Some (completed st l, rest).
Proof.
  revert st r. induction l as [|a l IH]; intros st r H; cbn [dot_write completed].
  - destruct st; cbn in H; [subst r..|destruct H as [-> | ->]]; reflexivity.
  - destruct (dot_byte st a) as [out st1] eqn:E. destruct (dot_write st1 l) as [outs st2] eqn:E2.
    pose proof (receive_byte st r a (outs ++ dot_close st2 ++ rest) H) as (r' & Hr' & Heq).
    rewrite E in Hr', Heq. cbn [fst snd] in Hr', Heq. rewrite <- app_assoc, Heq.
    specialize (IH st1 r' Hr'). rewrite E2 in IH. by rewrite IH.
Qed.

(** A line break in a text. *)
Definition no_breaks (s : string) : Prop := ContainsAny s line_breaks = false.

Lemma completed_line l st tail :
  (st = DotBeginLine \/ st = DotData) -> existsb (fun a => Ascii.eqb a cr || Ascii.eqb a lf) l = false ->
  completed st (l ++ cr :: lf :: tail) = l ++ cr :: lf :: completed DotBeginLine tail.
Proof.
  revert st. induction l as [|a l IH]; intros st Hst Hl; cbn [app completed].
  - by destruct Hst as [-> | ->].
  - cbn [existsb] in Hl. apply orb_false_elim in Hl as [Ha Hl]. apply orb_false_elim in Ha as [Ha1 Ha2].
    assert (line_byte st a = [a] /\ (dot_byte st a).2 = DotData) as [-> ->].
    { unfold line_byte, dot_byte. rewrite Ha1, Ha2.
      destruct Hst as [-> | ->]; [|done]. by destruct (Ascii.eqb a "."). }
    cbn [app]. f_equal. apply IH; auto.
Qed.

Lemma no_breaks_bytes s :
  no_breaks s -> existsb (fun a => Ascii.eqb a cr || Ascii.eqb a lf) (bytes s) = false.
Proof.
  unfold no_breaks, ContainsAny. induction (bytes s) as [|a l IH]; [done|]. cbn [existsb].
  intros [Ha Hl]%orb_false_elim. rewrite (IH Hl). rewrite orb_false_r in *.
  change (bytes line_breaks) with [cr; lf] in Ha. cbn [existsb] in Ha. by rewrite orb_false_r in Ha.
Qed.

Lemma as_lines_cons l ls : bytes (as_lines (l :: ls)) = bytes l ++ cr :: lf :: bytes (as_lines ls).
Proof.
  unfold as_lines. cbn [map]. destruct ls as [|l' ls]; [cbn [map String.concat]; by rewrite bytes_app|].
  cbn [map String.concat]. rewrite !bytes_app, <- app_assoc. reflexivity.
Qed.

Lemma completed_lines ls st :
  st = DotBeginLine \/ (st = DotBegin /\ ls <> []) -> Forall no_breaks ls ->
  completed st (bytes (as_lines ls)) = bytes (as_lines ls).
Proof.
  revert st. induction ls as [|l ls IH]; intros st Hst Hl; [by destruct Hst as [-> |[-> H]]|].
  apply Forall_cons in Hl as [Hl Hls]. rewrite !as_lines_cons.
  assert (completed st (bytes l ++ cr :: lf :: bytes (as_lines ls)) =
    completed DotBeginLine (bytes l ++ cr :: lf :: bytes (as_lines ls))) as ->.
  { destruct Hst as [-> |[-> _]]; [done|]. by destruct (bytes l). }
  rewrite completed_line by (auto; by apply no_breaks_bytes). by rewrite IH by auto.
Qed.


(** ** Replies *)
(** The lines of one reply with a code: the last line has a space behind the code, the first of
    several a hyphen. *)
Inductive reply (code : string) : list string -> list string -> Prop :=
| reply_line text rest : reply code ((code +:+ " " +:+ text) :: rest) rest
| reply_lines text more last rest :
    reply code ((code +:+ "-" +:+ text) :: more ++ (code +:+ " " +:+ last) :: rest) rest.
Inductive replies : list string -> list string -> list string -> Prop :=
| replies_nil rest : replies [] rest rest
| replies_cons code codes lines1 lines2 rest :
    reply code lines1 lines2 -> replies codes lines2 rest -> replies (code :: codes) lines1 rest.

Lemma replies_app codes1 codes2 l1 l2 l3 :
  replies codes1 l1 l2 -> replies codes2 l2 l3 -> replies (codes1 ++ codes2) l1 l3.
Proof. induction 1; cbn; [done|]. intros. econstructor; eauto. Qed.

(** A code of the dialogue. *)
Definition dialogue_code (z : Z) : Prop := z = 220 \/ z = 250 \/ z = 354.

Lemma is_digit_code a : is_digit a = true -> 0 <= byte_code a - 48 <= 9.
Proof. unfold is_digit, in_range. intros [? ?]%andb_prop. lia. Qed.
Lemma byte_is a z : byte_code a = z -> a = byte_of_code z.
Proof. intros <-. by rewrite byte_of_code_code. Qed.

Lemma of_bytes_app k l : of_bytes (k ++ l) = of_bytes k +:+ of_bytes l.
Proof. unfold of_bytes. induction k as [|a k IH]; cbn; [done|]. by rewrite IH. Qed.

Lemma atoi3_code a b d z : dialogue_code z -> atoi3 a b d = Some z -> [a; b; d] = bytes (pretty z).
Proof.
  unfold atoi3. destruct (is_digit b) eqn:Hb, (is_digit d) eqn:Hd; cbn [andb]; try done.
  apply is_digit_code in Hb, Hd. intros Hz. destruct (is_digit a) eqn:Ha.
  - apply is_digit_code in Ha. intros [= H].
    assert (byte_code a = 48 + z / 100 /\ byte_code b = 48 + z / 10 mod 10 /\ byte_code d = 48 + z mod 10)
      as (->%byte_is & ->%byte_is & ->%byte_is).
    { destruct Hz as [-> |[-> | ->]]; split_and!;
        lazymatch goal with |- _ = ?r => let v := eval vm_compute in r in change r with v end; lia. }
    by destruct Hz as [-> |[-> | ->]].
  - destruct (Ascii.eqb a "+"); [intros [= <-]; destruct Hz as [|[|]]; lia|].
    destruct (Ascii.eqb a "-"); [intros [= <-]; destruct Hz as [|[|]]; lia|done].
Qed.

(** A line that shows the expected code. *)
Lemma parseCodeLine_ok line z :
  dialogue_code z -> error_ (parseCodeLine line z) = None ->
  code (parseCodeLine line z) = z /\
  line = pretty z +:+ (if continued (parseCodeLine line z) then "-" else " ") +:+ message_ (parseCodeLine line z).
Proof.
  intros Hz. rewrite <- (of_bytes_bytes line) at 3. unfold parseCodeLine.
  destruct (bytes line) as [|a [|b [|d [|sep text]]]]; try done.
  destruct (Ascii.eqb_spec sep " ") as [-> |Hsp]; [|destruct (Ascii.eqb_spec sep "-") as [-> |Hhy]; [|done]].
  all: destruct (atoi3 a b d) as [n|] eqn:E; [|done]; destruct (n <? 100); [done|];
    destruct (negb (n =? z)) eqn:Hn;
    [destruct Hz as [-> |[-> | ->]]; done|apply negb_false_iff, Z.eqb_eq in Hn as ->].
  all: intros _; split; [done|]; cbn [continued message_ negb orb]; apply (atoi3_code _ _ _ _ Hz) in E.
  all: change (?x :: ?y :: ?w :: ?l) with ([x; y; w] ++ l).
  all: by rewrite E, of_bytes_app, of_bytes_bytes.
Qed.

(** A continuation line that ends the reply. *)
Lemma parseCodeLine_last line z :
  dialogue_code z -> error_ (parseCodeLine line 0) = None -> code (parseCodeLine line 0) = z ->
  continued (parseCodeLine line 0) = false -> exists text, line = pretty z +:+ " " +:+ text.
Proof.
  intros Hz He Hc Hl. destruct (parseCodeLine_ok line z Hz) as [_ E].
  - revert He Hc. unfold parseCodeLine. destruct (bytes line) as [|a [|b [|d [|sep text]]]]; try done.
    destruct (negb _); [done|]. destruct (atoi3 a b d) as [n|]; [|done]. destruct (n <? 100); [done|].
    cbn [code error_]. intros _ ->. by rewrite Z.eqb_refl, andb_false_r.
  - assert (continued (parseCodeLine line z) = continued (parseCodeLine line 0)) as Hcont.
    { unfold parseCodeLine. destruct (bytes line) as [|a [|b [|d [|sep text]]]]; try done.
      destruct (negb _); [done|]. destruct (atoi3 a b d) as [n|]; [|done]. by destruct (n <? 100). }
    rewrite Hcont, Hl in E. by eexists.
Qed.

Lemma read_more_ok z message lines m rest :
  dialogue_code z -> read_more z message lines = Some (m, rest) ->
  exists more text, lines = more ++ (pretty z +:+ " " +:+ text) :: rest.
Proof.
  intros Hz. revert message. induction lines as [|line lines IH]; intros message; cbn [read_more]; [done|].
  cbv zeta. set (same := match error_ _ with None => _ | Some _ => false end).
  destruct (same && negb (continued (parseCodeLine line 0))) eqn:E.
  - intros [= _ <-]. apply andb_prop in E as [Hs Hc]. unfold same in Hs.
    destruct (error_ _) eqn:He; [done|]. apply Z.eqb_eq in Hs. apply negb_true_iff in Hc.
    destruct (parseCodeLine_last line z Hz He Hs Hc) as [text ->]. by exists [], text.
  - intros (more & text & ->)%IH. by exists (line :: more), text.
Qed.

Lemma ReadResponse_reply z w w' :
  dialogue_code z -> ReadResponse z w = (Val tt, w') ->
  reply (pretty z) w.(inbound) w'.(inbound) /\ w'.(outbound) = w.(outbound).
Proof.
  intros Hz. unfold ReadResponse. destruct (inbound w) as [|line lines]; [done|].
  pose proof (parseCodeLine_ok line z Hz) as Hok.
  destruct (continued (parseCodeLine line z)) eqn:Hc.
  - destruct (read_more _ _ lines) as [[m rest]|] eqn:Hm; [|done].
    destruct (error_ _); [done|]. intros [= <-]. destruct (Hok eq_refl) as [Hcode ->]. rewrite Hcode in Hm.
    apply read_more_ok in Hm as (more & text & ->); [|done]. split; [|done]. apply reply_lines.
  - destruct (error_ _); [done|]. intros [= <-]. destruct (Hok eq_refl) as [_ ->]. split; [|done].
    apply reply_line.
Qed.

(** ** Delivery *)
(** When [m] succeeds, it has read replies with these codes and written these texts. *)
Definition talks {A} (m : T_ A) (codes texts : list string) : Prop :=
  forall w a w', m w = (Val a, w') ->
    replies codes w.(inbound) w'.(inbound) /\ w'.(outbound) = rev texts ++ w.(outbound).

Lemma talks_bind {A B} (m : T_ A) (k : A -> T_ B) c1 c2 t1 t2 :
  talks m c1 t1 -> (forall a, talks (k a) c2 t2) -> talks (bind m k) (c1 ++ c2) (t1 ++ t2).
Proof.
  intros Hm Hk w b w'. unfold bind. destruct (m w) as [[a|e|] w1] eqn:E; [|done..].
  intros H. apply Hm in E as [E1 E2]. apply Hk in H as [H1 H2]. split; [by eapply replies_app|].
  by rewrite H2, E2, rev_app_distr, app_assoc.
Qed.
Lemma talks_quiet {A} (m : T_ A) :
  (forall w a w', m w = (Val a, w') -> w'.(inbound) = w.(inbound) /\ w'.(outbound) = w.(outbound)) ->
  talks m [] [].
Proof. intros H w a w' E. apply H in E as [-> ->]. split; [constructor|done]. Qed.
Lemma talks_lift {A} (r : result A) : talks (lift r) [] [].
Proof. apply talks_quiet. by intros w a w' [= _ <-]. Qed.
Lemma talks_wrap {A} f (m : T_ A) cs ts : talks m cs ts -> talks (wrap f m) cs ts.
Proof.
  intros H w a w'. unfold wrap. specialize (H w). destruct (m w) as [[x|e|] w1]; [|done..].
  by intros [= <- <-]; eapply H.
Qed.
Lemma talks_Attempt : talks Attempt [] [].
Proof.
  apply talks_quiet. intros w a w'. unfold Attempt. by destruct (faults w) as [|[e|] fs]; intros [= <- <-].
Qed.
Lemma talks_Write text : talks (Write text) [] [text].
Proof.
  intros w a w'. unfold Write. destruct (faults w) as [|[e|] fs]; intros [= <- <-]; (split; [constructor|done]).
Qed.
Lemma talks_ReadResponse z : dialogue_code z -> talks (ReadResponse z) [pretty z] [].
Proof.
  intros Hz w [] w' H. apply (ReadResponse_reply _ _ _ Hz) in H as [H ->]. split; [|done].
  econstructor; [exact H|constructor].
Qed.
Lemma talks_command z word line :
  dialogue_code z -> talks (command z word line) [pretty z] [line +:+ crlf].
Proof.
  intros Hz. apply (talks_bind _ _ [] [pretty z] [_] []); [apply talks_Write|].
  intros _. by apply talks_wrap, talks_ReadResponse.
Qed.
Lemma talks_for_each {A} (l : list A) f codes text :
  (forall x, talks (f x) codes (text x)) ->
  talks (for_each l f) (List.concat (map (fun _ => codes) l)) (List.concat (map text l)).
Proof.
  intros H. induction l as [|x l IH]; cbn [for_each map List.concat].
  - apply talks_quiet. by intros w a w' [= _ <-].
  - by apply talks_bind.
Qed.

Section Delivery.
Context {DL : DnsLib} {PA : Parsers}.

(** The dialogue that delivers a message to some recipients. *)
Definition dialogue_codes (recipients : list string) : list string :=
  ["220"; "250"; "250"] ++ map (fun _ => "250") recipients ++ ["354"] ++ map (fun _ => "250") recipients.
Definition dialogue_texts (cfg : LMTP.t) (event : Notification.t) (from : string) (recipients : list string)
  : list string :=
  [("LHLO " +:+ cfg.(LMTP.Hostname)) +:+ crlf; ("MAIL FROM:<" +:+ from +:+ ">") +:+ crlf]
  ++ map (fun to => ("RCPT TO:<" +:+ to +:+ ">") +:+ crlf) recipients
  ++ ["DATA" +:+ crlf; dot_encode (message cfg event from recipients)].

Lemma concat_singletons {A B} (f : A -> B) l : List.concat (map (fun x => [f x]) l) = map f l.
Proof. induction l as [|x l IH]; cbn; [done|]. by f_equal. Qed.
Lemma concat_nils {A B} (l : list A) : List.concat (map (fun _ => []) l) = ([] : list B).
Proof. by induction l. Qed.

Lemma talks_deliver cfg event from recipients :
  talks (deliver cfg event from recipients) (dialogue_codes recipients)
    (dialogue_texts cfg event from recipients).
Proof.
  assert (H220 : dialogue_code 220) by (by left). assert (H250 : dialogue_code 250) by (by right; left).
  assert (H354 : dialogue_code 354) by (by right; right).
  unfold deliver, dialogue_codes, dialogue_texts.
  pose proof (talks_for_each recipients (fun to => command 250 "RCPT" ("RCPT TO:<" +:+ to +:+ ">"))
    ["250"] (fun to => [("RCPT TO:<" +:+ to +:+ ">") +:+ crlf]) (fun to => talks_command 250 _ _ H250)) as Hrcpt.
  rewrite !concat_singletons in Hrcpt.
  pose proof (talks_for_each recipients (fun _ => wrap (fun e => Errorf "LMTP delivery response: %w" [AWrap e])
    (ReadResponse 250)) ["250"] (fun _ => []) (fun _ => talks_wrap _ _ _ _ (talks_ReadResponse 250 H250))) as Hend.
  rewrite concat_singletons, concat_nils in Hend.
  apply (talks_bind _ _ [] _ [] _); [apply talks_wrap, talks_Attempt|intros _].
  apply (talks_bind _ _ [] _ [] _); [apply talks_Attempt|intros _].
  apply (talks_bind _ _ ["220"] _ [] _); [by apply talks_wrap, (talks_ReadResponse 220)|intros _].
  apply (talks_bind _ _ ["250"] _ [_] _); [by apply (talks_command 250)|intros _].
  apply (talks_bind _ _ ["250"] _ [_] _); [by apply (talks_command 250)|intros _].
  apply talks_bind; [exact Hrcpt|intros _].
  apply (talks_bind _ _ ["354"] _ [_] _); [by apply (talks_command 354)|intros _].
  apply (talks_bind _ _ [] _ [] _); [apply talks_Attempt|intros _].
  rewrite <- (app_nil_r [dot_encode _]).
  apply (talks_bind _ _ [] _ [_] []); [apply talks_Write|intros _]. exact Hend.
Qed.

Lemma ReadResponse_outbound z w : (ReadResponse z w).2.(outbound) = w.(outbound).
Proof.
  unfold ReadResponse. destruct (inbound w) as [|line lines]; [done|]. cbv zeta.
  destruct (continued _); [|done]. by destruct (read_more _ _ _) as [[m rest]|].
Qed.
Lemma quit_outbound w :
  exists quit,
    ((let* _ := try (PrintfLine "QUIT") in let* _ := try (ReadResponse 221) in ret tt) w).2.(outbound)
      = quit ++ w.(outbound) /\ (quit = [] \/ quit = ["QUIT" +:+ crlf]).
Proof.
  unfold bind, try. pose proof (talks_Write ("QUIT" +:+ crlf) w) as Hw.
  assert (Hr : forall w1 : Conn, (match (match ReadResponse 221 w1 with
      | (Val a, w') => (Val (Ok a), w') | (Fail_ e, w') => (Val (Err e), w') | (Panic, w') => (Panic, w') end) with
      | (Val _, w') => ret tt w' | (Fail_ e, w') => (Fail_ e, w') | (Panic, w') => (Panic, w') end).2.(outbound)
      = w1.(outbound)).
  { intros w1. pose proof (ReadResponse_outbound 221 w1) as H. by destruct (ReadResponse 221 w1) as [[[]|e|] w2]. }
  unfold PrintfLine, Write in *. destruct (faults w) as [|[e|] fs]; cbn [fst snd]; rewrite Hr;
    [exists ["QUIT" +:+ crlf]|exists []|exists ["QUIT" +:+ crlf]]; auto.
Qed.

(** C38: Send reports success only for a message every recipient's server took.  Then the event
    and all addresses were valid, the server's lines are, one after the other, a greeting 220,
    250 for LHLO, for MAIL and for each RCPT, 354 for DATA and, behind the data, one 250 per
    recipient; the client wrote exactly the matching commands, in order, and the whole message;
    and only then a QUIT, whose answer does not matter.  Any other reply, a connection that
    ends, or a failed write is an error, and the event is delivered again. *)
Theorem delivery_confirmed cfg event w w' :
  Send cfg event w = (Val tt, w') ->
  cfg.(LMTP.Enabled) = true /\ validateEvent cfg event = Ok tt /\
  exists from recipients after quit,
    mailbox cfg.(LMTP.From_) = Ok from /\ mailboxes cfg.(LMTP.To_) = Ok recipients /\
    replies (dialogue_codes recipients) w.(inbound) after /\
    w'.(outbound) = quit ++ rev (dialogue_texts cfg event from recipients) ++ w.(outbound) /\
    (quit = [] \/ quit = ["QUIT" +:+ crlf]).
Proof.
  unfold Send. destruct (LMTP.Enabled cfg); [cbn [negb]|done]. unfold bind, lift.
  destruct (validateEvent cfg event) as [[]|e]; [|done]. cbn [outcome].
  destruct (mailbox _) as [from|e]; [|done]. cbn [outcome].
  destruct (mailboxes _) as [recipients|e]; [|done]. cbn [outcome].
  destruct (deliver cfg event from recipients w) as [[[]|e|] w1] eqn:E; [|done..].
  apply talks_deliver in E as [Hr Ho]. intros H. do 2 (split; [done|]).
  exists from, recipients, w1.(inbound).
  destruct (quit_outbound w1) as (quit & Hq & Hquit). unfold bind in Hq. rewrite H in Hq. cbn [snd] in Hq.
  exists quit. by rewrite Hq, Ho.
Qed.
End Delivery.

(** ** Nothing can be injected *)
Lemma no_breaks_app s t : no_breaks (s +:+ t) <-> no_breaks s /\ no_breaks t.
Proof. unfold no_breaks, ContainsAny. rewrite bytes_app, existsb_app. apply orb_false_iff. Qed.
Lemma no_breaks_safe s :
  Forall (fun a => in_range 32 126 a || (byte_code a =? 9) = true) (bytes s) -> no_breaks s.
Proof.
  unfold no_breaks, ContainsAny. induction 1 as [|a l Ha Hl IH]; [done|]. cbn [existsb]. rewrite IH, orb_false_r.
  by destruct a as [[] [] [] [] [] [] [] []].
Qed.
Ltac no_breaks_literal := vm_compute; reflexivity.

Lemma no_breaks_pretty (z : Z) : no_breaks (pretty z).
Proof.
  assert (Hd : forall ds, Forall (fun a => is_digit a = true) ds ->
    Forall (fun a => in_range 32 126 a || (byte_code a =? 9) = true) ds).
  { intros ds H. eapply Forall_impl; [exact H|]. intros a Ha. unfold in_range.
    apply is_digit_code in Ha. rewrite (proj2 (Z.leb_le 32 _)), (proj2 (Z.leb_le _ 126)) by lia. done. }
  apply no_breaks_safe.
  destruct (pretty_Z_bytes z) as [[-> E]|[(ds & _ & [H _ _] & E)|(ds & _ & [H _ _] & E)]]; rewrite E.
  - by repeat constructor.
  - by apply Hd.
  - constructor; [done|by apply Hd].
Qed.
Lemma no_breaks_concat ls : Forall no_breaks ls -> no_breaks (String.concat "" ls).
Proof.
  induction 1 as [|s ls Hs Hls IH]; [done|]. destruct ls as [|s' ls]; [done|].
  cbn [String.concat] in *. by rewrite !no_breaks_app.
Qed.
Lemma no_breaks_padded width (z : Z) : no_breaks (padded width z).
Proof.
  unfold padded. apply no_breaks_app. split; [|apply no_breaks_pretty].
  apply no_breaks_concat, Forall_replicate. done.
Qed.
Lemma no_breaks_name names n : Forall no_breaks names -> no_breaks (default "" (names !! n)).
Proof.
  intros H. destruct (names !! n) as [s|] eqn:E; [|done]. cbn. by eapply Forall_lookup_1 in E.
Qed.
Lemma no_breaks_date t : no_breaks (FormatRFC1123Z t).
Proof.
  unfold FormatRFC1123Z. rewrite !no_breaks_app.
  split_and!; lazymatch goal with
    | |- no_breaks (padded _ _) => apply no_breaks_padded
    | |- no_breaks (default _ _) => apply no_breaks_name; by repeat constructor
    | |- _ => no_breaks_literal
    end.
Qed.

Lemma q_byte_safe a : Forall (fun a => in_range 32 126 a || (byte_code a =? 9) = true) (q_byte a).
Proof. by destruct a as [[] [] [] [] [] [] [] []]; repeat constructor. Qed.
Lemma q_encode_safe fuel n l :
  Forall (fun a => in_range 32 126 a || (byte_code a =? 9) = true) (q_encode fuel n l).
Proof.
  revert n l. induction fuel as [|fuel IH]; intros n [|a l]; cbn [q_encode]; try constructor.
  cbv zeta. rewrite !Forall_app. split_and!; [destruct (Nat.ltb _ _); by repeat constructor| |apply IH].
  induction (take _ (a :: l)) as [|b k IHk]; cbn [map List.concat]; [constructor|].
  apply Forall_app. split; [apply q_byte_safe|exact IHk].
Qed.
Lemma no_breaks_QEncode s : no_breaks (QEncode s).
Proof.
  apply no_breaks_safe. unfold QEncode. destruct (needs_encoding s) eqn:E.
  - rewrite bytes_of_bytes, !Forall_app. split_and!; [by repeat constructor|apply q_encode_safe|by repeat constructor].
  - unfold needs_encoding in E. induction (bytes s) as [|a l IH]; constructor; cbn [existsb] in E;
      apply orb_false_elim in E as [Ha Hl]; [|by apply IH].
    destruct (in_range 32 126 a); [done|]. by destruct (byte_code a =? 9).
Qed.
Lemma no_breaks_id s : forallb id_byte (bytes s) = true -> no_breaks s.
Proof.
  intros H. apply no_breaks_safe. induction (bytes s) as [|a l IH]; constructor; cbn [forallb] in H;
    apply andb_prop in H as [Ha Hl]; [|by apply IH].
  by destruct a as [[] [] [] [] [] [] [] []].
Qed.
Lemma no_breaks_Join l sep : no_breaks sep -> Forall no_breaks l -> no_breaks (Join l sep).
Proof.
  intros Hs. induction 1 as [|s l Hx Hl IH]; [done|]. destruct l as [|s' l]; [done|].
  change (Join (s :: s' :: l) sep) with (s +:+ sep +:+ Join (s' :: l) sep). by rewrite !no_breaks_app.
Qed.

(** Whatever happens, [m] appends texts with [P] to what was written. *)
Definition sends (P : string -> Prop) {A} (m : T_ A) : Prop :=
  forall w, exists new, (m w).2.(outbound) = new ++ w.(outbound) /\ Forall P new.

Section Sends.
Context (P : string -> Prop).
Lemma sends_bind {A B} (m : T_ A) (k : A -> T_ B) : sends P m -> (forall a, sends P (k a)) -> sends P (bind m k).
Proof.
  intros Hm Hk w. destruct (Hm w) as (n1 & E1 & F1). unfold bind. destruct (m w) as [[a|e|] w1]; cbn in *;
    [|by exists n1..]. destruct (Hk a w1) as (n2 & E2 & F2). exists (n2 ++ n1).
  rewrite E2, E1, app_assoc. split; [done|]. by apply Forall_app.
Qed.
Lemma sends_quiet {A} (m : T_ A) : (forall w, (m w).2.(outbound) = w.(outbound)) -> sends P m.
Proof. intros H w. exists []. by rewrite H. Qed.
Lemma sends_wrap {A} f (m : T_ A) : sends P m -> sends P (wrap f m).
Proof. intros H w. destruct (H w) as (n & E & F). exists n. unfold wrap. by destruct (m w) as [[a|e|] w1]. Qed.
Lemma sends_try {A} (m : T_ A) : sends P m -> sends P (try m).
Proof. intros H w. destruct (H w) as (n & E & F). exists n. unfold try. by destruct (m w) as [[a|e|] w1]. Qed.
Lemma sends_Write text : P text -> sends P (Write text).
Proof.
  intros H w. unfold Write. destruct (faults w) as [|[e|] fs]; [exists [text]|exists []|exists [text]]; cbn; auto.
Qed.
Lemma sends_Attempt : sends P Attempt.
Proof. apply sends_quiet. intros w. unfold Attempt. by destruct (faults w) as [|[e|] fs]. Qed.
Lemma sends_ReadResponse z : sends P (ReadResponse z).
Proof. apply sends_quiet, ReadResponse_outbound. Qed.
Lemma sends_for_each {A} (l : list A) f : (forall x, x ∈ l -> sends P (f x)) -> sends P (for_each l f).
Proof.
  induction l as [|x l IH]; intros H; cbn [for_each]; [by apply sends_quiet|].
  apply sends_bind; [apply H; by left|]. intros _. apply IH. intros y Hy. apply H. by right.
Qed.
Lemma sends_command z word line : P (line +:+ crlf) -> sends P (command z word line).
Proof.
  intros H. apply sends_bind; [by apply sends_Write|intros _]. apply sends_wrap, sends_ReadResponse.
Qed.
End Sends.

Section Injection.
Context {DL : DnsLib} {PA : Parsers}.

(** One line without a line break in it, or the encoded data of a message whose header consists
    of exactly the lines the client means to write. *)
Definition intended (cfg : LMTP.t) (event : Notification.t) (text : string) : Prop :=
  (exists line, text = line +:+ crlf /\ no_breaks line) \/
  (exists from recipients, text = dot_encode (message cfg event from recipients) /\
     Forall no_breaks (header_lines cfg event from recipients)).

Lemma hostname_safe cfg event : validateEvent cfg event = Ok tt -> no_breaks cfg.(LMTP.Hostname).
Proof.
  unfold validateEvent. repeat case_match; try done. intros _.
  by match goal with H : (_ || _) = false |- _ => apply orb_false_elim in H as [_ H] end.
Qed.

Lemma header_lines_safe cfg event from recipients :
  validateEvent cfg event = Ok tt -> no_breaks from -> Forall no_breaks recipients ->
  Forall no_breaks (header_lines cfg event from recipients).
Proof.
  unfold validateEvent. intros H Hf Hr.
  destruct (ContainsAny (Notification.Zone event) _); [done|]. destruct (negb _); [done|].
  destruct (_ || _); [done|]. destruct (forallb id_byte _) eqn:Hid; [|done]. cbn [negb] in H.
  destruct (_ || ContainsAny (LMTP.Hostname cfg) _) eqn:Hh; [done|]. apply orb_false_elim in Hh as [_ Hh].
  unfold header_lines. rewrite !Forall_cons. split_and!; [| | | | |no_breaks_literal..|constructor].
  - change (no_breaks ("From: " +:+ from +:+ "")). by rewrite !no_breaks_app.
  - change (no_breaks ("To: " +:+ Join recipients ", " +:+ "")). rewrite !no_breaks_app.
    split_and!; [done|by apply no_breaks_Join|done].
  - change (no_breaks ("Date: " +:+ FormatRFC1123Z (Notification.CompletedAt event) +:+ "")).
    rewrite !no_breaks_app. split_and!; [done|apply no_breaks_date|done].
  - change (no_breaks ("Message-ID: <" +:+ Notification.ID event +:+ "@" +:+ LMTP.Hostname cfg +:+ ">")).
    rewrite !no_breaks_app. split_and!; [done|by apply no_breaks_id|done..].
  - change (no_breaks ("Subject: " +:+ subject event +:+ "")). rewrite !no_breaks_app.
    split_and!; [done|apply no_breaks_QEncode|done].
Qed.

Lemma mailbox_safe value a :
  (forall v b, no_breaks v -> mail_ParseAddress v = Ok b -> no_breaks b) ->
  mailbox value = Ok a -> no_breaks a.
Proof. intros H. unfold mailbox. destruct (ContainsAny _ _) eqn:E; [done|]. by apply H. Qed.
Lemma mailboxes_safe values l :
  (forall v b, no_breaks v -> mail_ParseAddress v = Ok b -> no_breaks b) ->
  mailboxes values = Ok l -> Forall no_breaks l.
Proof.
  intros H. revert l. induction values as [|v vs IH]; intros l; cbn [mailboxes]; [intros [= <-]; constructor|].
  destruct (mailbox v) as [a|e] eqn:Ha; [|done]. cbn [result_bind].
  destruct (mailboxes vs) as [l'|e]; [|done]. intros [= <-]. constructor; [by eapply mailbox_safe|by apply IH].
Qed.

(** C39: no field of a notification or of the configuration can smuggle in a command or a
    header.  Whatever the zone, the registrar's transaction id, the stored kind and the event id
    contain, and however the delivery ends, every text the client writes is a single command
    line without a line break of its own, or the dot-encoded message, whose nine header lines
    contain no line break; assuming only that mail.ParseAddress invents none. *)
Theorem no_injection cfg event w :
  (forall v a, no_breaks v -> mail_ParseAddress v = Ok a -> no_breaks a) ->
  exists new, (Send cfg event w).2.(outbound) = new ++ w.(outbound) /\ Forall (intended cfg event) new.
Proof.
  intros HP. revert w. change (sends (intended cfg event) (Send cfg event)). unfold Send.
  assert (Hl : forall A (r : result A), sends (intended cfg event) (lift r)) by (intros; by apply sends_quiet).
  destruct (negb _); [by apply sends_quiet|].
  intros w. unfold bind at 1, lift at 1. destruct (validateEvent cfg event) as [[]|e] eqn:Hv; [|by exists []].
  cbn [outcome]. unfold bind at 1, lift at 1. destruct (mailbox _) as [from|e] eqn:Hf; [|by exists []].
  cbn [outcome]. unfold bind at 1, lift at 1. destruct (mailboxes _) as [tos|e] eqn:Ht; [|by exists []].
  cbn [outcome]. apply (mailbox_safe _ _ HP) in Hf. apply (mailboxes_safe _ _ HP) in Ht. revert w.
  match goal with |- forall w, exists new, (?m w).2.(outbound) = _ /\ _ => change (sends (intended cfg event) m) end.
  assert (Hline : forall line, no_breaks line -> intended cfg event (line +:+ crlf)) by (intros line H; left; by exists line).
  assert (Hhost : no_breaks (LMTP.Hostname cfg)) by (by eapply hostname_safe).
  apply sends_bind; [|intros _; apply sends_bind; [apply sends_try, sends_Write; by apply Hline|intros _;
    apply sends_bind; [apply sends_try, sends_ReadResponse|intros _; by apply sends_quiet]]].
  unfold deliver.
  apply sends_bind; [apply sends_wrap, sends_Attempt|intros _].
  apply sends_bind; [apply sends_Attempt|intros _].
  apply sends_bind; [apply sends_wrap, sends_ReadResponse|intros _].
  apply sends_bind; [apply sends_command, Hline; by apply no_breaks_app|intros _].
  apply sends_bind; [apply sends_command, Hline; by rewrite !no_breaks_app|intros _].
  apply sends_bind; [|intros _; apply sends_bind; [by apply sends_command, Hline|intros _]].
  - apply sends_for_each. intros to Hto. apply sends_command, Hline. rewrite !no_breaks_app.
    split_and!; [done| |done]. by eapply Forall_forall in Hto; [|exact Ht].
  - apply sends_bind; [apply sends_Attempt|intros _]. apply sends_bind; [apply sends_Write|intros _].
    + right. exists from, tos. split; [done|by apply header_lines_safe].
    + apply sends_for_each. intros to _. apply sends_wrap, sends_ReadResponse.
Qed.
End Injection.
