(* ===== verification/RequestEffects.v ===== *)
(** * What a successful Trigger and a successful Resume did. *)
From S2P Require Import Prelude GoStrings GoTime Model Config Dns Keys KeysFacts Effects.
From S2P Require Import Wp Core Rollover Reconcile Operator Single.

Section RequestEffects.
Context {SV : Services} {RO : RangeOk} {DL : DnsLib} (c : Config.t).

(** ** Zone lookup *)
Lemma zones_by_name_fold spell available (m : gmap string Zone.t) name z :
  fold_left (fun m z => <[TrimSuffix (spell z.(Zone.Name)) "." := z]>
                          (<[spell z.(Zone.Name) := z]> m)) available m !! name = Some z ->
  m !! name = Some z \/
  (z ∈ available /\ (name = spell z.(Zone.Name) \/ name = TrimSuffix (spell z.(Zone.Name)) ".")).
Proof.
  revert m. induction available as [|a l IH]; intros m; cbn; [by left|].
  intros [H|[Hin Hn]]%IH; [|right; split; [by right|done]].
  rewrite !lookup_insert_Some in H.
  destruct H as [[<- <-]|[_ [[<- <-]|[_ H]]]]; [right|right|by left].
  - split; [by left|by right].
  - split; [by left|by left].
Qed.

Lemma zones_by_name_Some spell available name z :
  zones_by_name spell available !! name = Some z ->
  z ∈ available /\ (name = spell z.(Zone.Name) \/ name = TrimSuffix (spell z.(Zone.Name)) ".").
Proof. intros [H|H]%zones_by_name_fold; [by rewrite lookup_empty in H|done]. Qed.

Lemma eligible_zone_Ok byName name z :
  eligible_zone c byName name = Ok z <->
  byName !! name = Some z /\ z.(Zone.DNSSEC) = true /\ selected c z.(Zone.Name) = true.
Proof.
  unfold eligible_zone. destruct (byName !! name) as [z'|]; [|naive_solver].
  rewrite !guard_Ok, !negb_false_iff. naive_solver.
Qed.

(** The trace of a run extends the one it started from. *)
Definition later (w w' : World) : Prop :=
  w'.(data) = w.(data) /\ exists new, w'.(trace) = new ++ w.(trace).
Lemma later_refl w : later w w.
Proof. split; [done|]. by exists []. Qed.
Lemma later_trans w1 w2 w3 : later w1 w2 -> later w2 w3 -> later w1 w3.
Proof.
  intros [Hd1 [n1 H1]] [Hd [n2 H2]]. split; [congruence|]. exists (n2 ++ n1). by rewrite H2, H1, app_assoc.
Qed.
Lemma later_call e w ev : later w (mkWorld e w.(data) (ev :: w.(trace))).
Proof. split; [done|]. by exists [ev]. Qed.
Lemma later_elem w w' ev : later w w' -> ev ∈ w.(trace) -> ev ∈ w'.(trace).
Proof. intros [_ [new ->]]. set_solver. Qed.

Ltac solve_later :=
  split; [done|];
  first [by exists [] | by eexists [_] | by eexists [_; _] | by eexists [_; _; _]
        | by eexists [_; _; _; _]].
Ltac in_past := repeat first [apply list_elem_of_here | apply list_elem_of_further].

(** ** Trigger *)
(** [z] is the zone a trigger request for [name] starts. *)
Definition triggers (kind : Kind) (byName : gmap string Zone.t) (past : list Event)
    (name : string) (z : Zone.t) : Prop :=
  byName !! name = Some z /\ z.(Zone.DNSSEC) = true /\ selected c z.(Zone.Name) = true /\
  exists keys, EvListKeys z.(Zone.ID) (Ok keys) ∈ past /\
    keyScheme keys = if kind == KindSplit then "csk" else "split".

Lemma triggers_later kind byName w w' name z :
  later w w' -> triggers kind byName w.(trace) name z -> triggers kind byName w'.(trace) name z.
Proof.
  intros Hl (H1 & H2 & H3 & keys & H4 & H5). repeat split; try done.
  exists keys. split; [by eapply later_elem|done].
Qed.

Lemma trigger_canonical_wp kind byName names wd :
  wp (trigger_canonical c kind byName names) (fun o w' => later wd w' /\
    forall l, o = Val l -> exists zs, l = map Zone.Name zs /\
      Forall2 (triggers kind byName w'.(trace)) names zs) wd.
Proof.
  revert wd. induction names as [|name names IH]; intros wd; cbn [trigger_canonical].
  { wp_step. split; [apply later_refl|]. intros l [= <-]. exists []. split; [done|constructor]. }
  unfold ListKeys. wp_step.
  wp_step; [|split; [apply later_refl|done]].
  apply eligible_zone_Ok in H as (Hname & Hd & Hs).
  wp_step. wp_step; [|split; [apply later_call|done]].
  set (w1 := mkWorld _ _ _). assert (Hl : later wd w1) by apply later_call.
  assert (Hkeys : EvListKeys (Zone.ID a) (Ok a0) ∈ w1.(trace)) by (cbn; left).
  destruct ((kind == KindSplit) && (keyScheme a0 != "csk")) eqn:E1; [wp_step; by split|].
  destruct ((kind != KindSplit) && (keyScheme a0 != "split")) eqn:E2; [wp_step; by split|].
  wp_step. eapply wp_mono; [apply IH|]. cbn beta. intros o w2 [Hl2 Hv].
  assert (Hl3 : later wd w2) by (by eapply later_trans).
  destruct o as [l|e|]; [|by split..]. wp_step. split; [done|]. intros ? [= <-].
  destruct (Hv l eq_refl) as (zs & -> & Hzs). exists (a :: zs). split; [done|].
  constructor; [|done]. repeat split; try done. exists a0.
  split; [eapply later_elem; [exact Hl2|exact Hkeys]|].
  revert E1 E2. destruct (kind == KindSplit); cbn; intros E1 E2; by bool_prop.
Qed.

Lemma first_busy_later ws zones wd :
  wp (first_busy ws zones) (fun o w' => later wd w' /\
    (o = Val tt -> forall zone, zone ∈ zones -> quiet zone (State.mk 0 0 ws ∅ ∅))) wd.
Proof.
  revert wd. induction zones as [|zone zones IH]; intros wd; cbn [first_busy].
  { wp_step. split; [apply later_refl|set_solver]. }
  wp_step. wp_step. assert (Hl : later wd (mkWorld e' wd.(data) wd.(trace)))
    by (split; [done|by exists []]).
  destruct (first_active zone l) eqn:Hf; [wp_step; by split|].
  eapply wp_mono; [apply IH|]. cbn beta. intros o w' [Hl' Hq]. split; [eapply later_trans; [exact Hl|exact Hl']|].
  intros -> z Hz. apply elem_of_cons in Hz as [->|Hz]; [|by apply Hq].
  apply (first_active_None zone _ l); [|done]. rewrite <- H. apply range_workflows_perm.
Qed.

(** C27: a successful new Trigger started, for every requested name, the listed, signed and
    selected zone of that name whose fresh key inventory has the scheme the kind requires,
    each zone having no active workflow; the state changes by exactly these new prepublish
    entries and the idempotency record. *)
Theorem trigger_effect kind zones idem wd wd' :
  Trigger c kind zones idem wd = (Val tt, wd') ->
  wd.(data).(State.Idempotency) !! idem = None ->
  let fp := trigger_fingerprint kind (normalize_zones zones) in
  c.(Config.Mode) = "enforce" /\ valid_idempotency_key idem = true /\
  exists available zs now,
    EvListZones (Ok available) ∈ wd'.(trace) /\ EvNow now ∈ wd'.(trace) /\
    Forall2 (triggers kind (zones_by_name identity_spelling available) wd'.(trace))
      (normalize_zones zones) zs /\
    Forall (fun z => z ∈ available /\ quiet z.(Zone.Name) wd.(data)) zs /\
    wd'.(data) = put_idempotency idem fp
      (fold_left (trigger_zone kind now idem) (map Zone.Name zs) wd.(data)).
Proof.
  cbv zeta. intros Hrun Hfresh. set (Q := fun (o : Outcome unit) w' => o = Val tt -> 
    c.(Config.Mode) = "enforce" /\ valid_idempotency_key idem = true /\
    exists available zs now,
    EvListZones (Ok available) ∈ w'.(trace) /\ EvNow now ∈ w'.(trace) /\
    Forall2 (triggers kind (zones_by_name identity_spelling available) w'.(trace))
      (normalize_zones zones) zs /\
    Forall (fun z => z ∈ available /\ quiet z.(Zone.Name) wd.(data)) zs /\
    w'.(data) = put_idempotency idem (trigger_fingerprint kind (normalize_zones zones))
      (fold_left (trigger_zone kind now idem) (map Zone.Name zs) wd.(data))).
  assert (Hwp : wp (Trigger c kind zones idem) Q wd);
    [|unfold wp in Hwp; rewrite Hrun in Hwp; by apply Hwp].
  unfold Trigger, trigger_commit, ListZones. destruct (Config.Mode c != "enforce") eqn:Hm; [by wp_step|].
  destruct (valid_idempotency_key idem) eqn:Hi; cbn [negb]; [|by wp_step]. bool_prop.
  wp_simpl. wp_step. wp_step. rewrite Hfresh. wp_step. wp_step; [|done].
  set (w1 := mkWorld _ _ _). wp_step. eapply wp_mono; [apply trigger_canonical_wp|]. cbn beta.
  intros o w2 [Hl Hv]. destruct o as [l|e|]; [|done..].
  destruct (Hv l eq_refl) as (zs & -> & Hzs). wp_step. wp_step. wp_step.
  destruct Hl as [Hd Ht]. unfold w1 in Hd, Ht. cbn [data trace] in Hd, Ht. rewrite Hd.
  unfold unless_replayed. rewrite Hfresh.
  wp_step. set (w3 := mkWorld _ _ (_ :: _)).
  eapply wp_mono; [apply first_busy_later|]. cbn beta. intros o w4 [Hl4 Hq].
  destruct o as [[]|e|]; [|done..]. wp_step. split; [|done]. intros e'1 _.
  split; [done|]. split; [done|]. exists a, zs, t. cbn [trace data].
  assert (Hl34 : forall ev, ev ∈ w2.(trace) -> ev ∈ w4.(trace)).
  { intros ev Hev. eapply later_elem; [exact Hl4|]. unfold w3. cbn. by right. }
  assert (Hlist : EvListZones (Ok a) ∈ w2.(trace)).
  { destruct Ht as [new ->]. cbn. set_solver. }
  split_and!.
  - right. by apply Hl34.
  - right. eapply later_elem; [exact Hl4|]. unfold w3. cbn. left.
  - eapply Forall2_impl; [exact Hzs|]. intros name z (H1 & H2 & H3 & keys & H4 & H5).
    repeat split; try done. exists keys. split; [|done]. right. by apply Hl34.
  - apply Forall_forall. intros z Hz.
    pose proof Hz as [i Hat]%list_elem_of_lookup_1.
    destruct (Forall2_lookup_r _ _ _ i z Hzs Hat) as (name & _ & Hname & _).
    split; [by apply zones_by_name_Some in Hname as []|].
    intros k x Hx Hxz. eapply (Hq eq_refl z.(Zone.Name)); [|exact Hx|done].
    apply list_elem_of_In, in_map, list_elem_of_In, Hz.
  - done.
Qed.

(** ** Resume *)
(** What Resume proved of a zone and its workflow before recovering it. *)
Definition resumable (st : State.t) (kind : Kind) (past : list Event) (item : string * Workflow.t)
  : Prop :=
  exists zone keys remote,
    item.1 = zone.(Zone.Name) /\ zone.(Zone.DNSSEC) = true /\
    selected c zone.(Zone.Name) = true /\
    st.(State.Workflows) !! WorkflowKey item.1 kind = Some item.2 /\
    item.2.(Workflow.Phase) = PhaseBlocked /\ initial_and_recorded item.2 = true /\
    three_distinct item.2 = true /\ no_registrar_attempt item.2 = true /\
    EvListKeys zone.(Zone.ID) (Ok keys) ∈ past /\
    validatePrepublishInventory zone.(Zone.Name) keys item.2 = Ok tt /\
    EvDomainDNSSEC zone.(Zone.Name) (Ok remote) ∈ past /\
    remote.(DomainDNSSECState.Enabled) = false /\ remote.(DomainDNSSECState.Data) = [] /\
    EvNoDSEvidence zone.(Zone.Name) (Ok tt) ∈ past.

Lemma resumable_later st kind w w' item :
  later w w' -> resumable st kind w.(trace) item -> resumable st kind w'.(trace) item.
Proof.
  intros Hl (zone & keys & remote & H). exists zone, keys, remote.
  destruct_and! H. split_and!; try done; by eapply later_elem.
Qed.

Lemma resume_zone_wp st kind byName name wd :
  wp (resume_zone c st kind byName name) (fun o w' => later wd w' /\
    forall item, o = Val item -> resumable st kind w'.(trace) item) wd.
Proof.
  unfold resume_zone, ListKeys, DomainDNSSEC, NoDSEvidence. wp_step.
  wp_step; [|split; [apply later_refl|done]].
  apply eligible_zone_Ok in H as (Hname & Hd & Hs).
  destruct (State.Workflows st !! _) as [x|] eqn:Hx; [|wp_step; split; [apply later_refl|done]].
  repeat (wp_step; try solve [split; [solve_later|done]]).
  split; [solve_later|]. intros item [= <-]. bool_prop.
  repeat match goal with u : unit |- _ => destruct u end.
  exists a, a0, a2. cbn [fst snd]. split_and!; try done; try solve [in_past].
  by apply nil_length_inv.
Qed.

Lemma resume_all_wp st kind byName names wd :
  wp (resume_all c st kind byName names) (fun o w' => later wd w' /\
    forall items, o = Val items -> length items = length names /\
      Forall (resumable st kind w'.(trace)) items) wd.
Proof.
  revert wd. induction names as [|name names IH]; intros wd; cbn [resume_all].
  { wp_step. split; [solve_later|]. intros l [= <-]. split; [done|constructor]. }
  wp_step. eapply wp_mono; [apply resume_zone_wp|]. cbn beta. intros o w1 [Hl Hv].
  destruct o as [item|e|]; [|by split..]. wp_step.
  eapply wp_mono; [apply IH|]. cbn beta. intros o w2 [Hl2 Hv2].
  assert (Hl3 : later wd w2) by (eapply later_trans; [exact Hl|exact Hl2]).
  destruct o as [items|e|]; [|by split..]. wp_step. split; [done|]. intros ? [= <-].
  destruct (Hv2 items eq_refl) as [Hn Hall]. split; [cbn; by rewrite Hn|].
  constructor; [|done]. eapply resumable_later; [exact Hl2|]. by apply Hv.
Qed.

End RequestEffects.
