(* ===== verification/Boundaries.v ===== *)
(** * What the controller never does: act before the time is due, act in observe mode,
    touch a key during an enrollment, lose a notification. *)
From S2P Require Import Prelude GoStrings GoTime Model Config Dns Keys Effects Wp Core.
From S2P Require Import Rollover Parent Enroll Reconcile Safety Phases.

Section Boundaries.
Context {SV : Services} {DL : DnsLib} (c : Config.t).

(** Neither the state nor anything outside is changed. *)
Definition silent (ev : Event) : Prop := is_write ev = false.
(** Keys are not created, changed or deleted. *)
Definition no_key_write (ev : Event) : Prop :=
  match ev with
  | EvCreateKey _ _ _ _ _ | EvSetKey _ _ _ _ _ | EvDeleteKey _ _ _ => False
  | _ => True
  end.

(** ** Observe mode *)
Hypothesis observe : c.(Config.Mode) = "observe".

Lemma observe_reconcileZone zone :
  emits silent (reconcileZone c zone) /\ keeps eq (reconcileZone c zone).
Proof.
  unfold reconcileZone. rewrite observe. change ("observe" == "observe") with true.
  split; [emits_auto|keeps_auto].
Qed.

Lemma observe_tick_zone st z seen :
  emits silent (tick_zone c st z seen) /\ keeps eq (tick_zone c st z seen).
Proof.
  destruct (observe_reconcileZone z). unfold tick_zone. split; [emits_auto|keeps_auto].
Qed.

Lemma observe_tick_zones st zones seen errs :
  emits silent (tick_zones c st zones seen errs) /\ keeps eq (tick_zones c st zones seen errs).
Proof.
  revert seen errs. induction zones as [|z zones IH]; intros seen errs; cbn [tick_zones];
    [split; [emits_auto|keeps_auto]|].
  split.
  - apply emits_bind; [apply observe_tick_zone|]. intros [s es]. apply IH.
  - apply keeps_bind; [apply _|apply observe_tick_zone|]. intros [s es]. apply IH.
Qed.

Lemma observe_Tick : emits silent (Tick c) /\ keeps eq (Tick c).
Proof.
  unfold Tick. rewrite observe. change ("observe" == "enforce") with false. cbv zeta iota.
  split.
  - repeat emits_step; try done. apply observe_tick_zones.
  - repeat keeps_step. apply observe_tick_zones.
Qed.
End Boundaries.

(** ** Outbox *)
Section Outbox.
Context {SV : Services} {RO : RangeOk} {DL : DnsLib} (c : Config.t).

(** [n'] is the event [n], possibly with delivery bookkeeping changed. *)
Definition same_event (n n' : Notification.t) : Prop :=
  n'.(Notification.ID) = n.(Notification.ID) /\ n'.(Notification.Event) = n.(Notification.Event) /\
  n'.(Notification.Zone) = n.(Notification.Zone) /\ n'.(Notification.Kind) = n.(Notification.Kind) /\
  n'.(Notification.CompletedAt) = n.(Notification.CompletedAt) /\
  n'.(Notification.OldKeyID) = n.(Notification.OldKeyID) /\
  n'.(Notification.NewKeyID) = n.(Notification.NewKeyID) /\
  n'.(Notification.NewZSKID) = n.(Notification.NewZSKID) /\
  n'.(Notification.RegistrarSTID) = n.(Notification.RegistrarSTID).

(** Every pending event of [s] is still there in [s'], pending or delivered by a
    successful Send of that same event. *)
Definition accounted (s : State.t) (past : list Event) (s' : State.t) : Prop :=
  forall id n, s.(State.Notifications) !! id = Some n -> IsZero n.(Notification.DeliveredAt) = true ->
  exists n', s'.(State.Notifications) !! id = Some n' /\ same_event n n' /\
    (IsZero n'.(Notification.DeliveredAt) = true \/
     exists m, same_event n m /\ EvSend m (Ok tt) ∈ past).

Lemma same_event_refl n : same_event n n.
Proof. done. Qed.

Lemma accounted_refl s past : accounted s past s.
Proof. intros id n Hn Hz. exists n. split_and!; auto using same_event_refl. Qed.

Lemma accounted_later s past new s' : accounted s past s' -> accounted s (new ++ past) s'.
Proof.
  intros H id n Hn Hz. destruct (H id n Hn Hz) as (n' & ? & ? & [?|(m & ? & ?)]).
  - exists n'. auto.
  - exists n'. split_and!; try done. right. exists m. split; [done|]. set_solver.
Qed.

(** Dropping events that were delivered. *)
Lemma lookup_delete_notifications ids s id :
  id ∉ ids ->
  (delete_notifications ids s).(State.Notifications) !! id = s.(State.Notifications) !! id.
Proof.
  intros Hid. unfold delete_notifications. record_simpl. revert Hid.
  generalize (State.Notifications s). induction ids as [|i ids IH]; intros m Hid; cbn; [done|].
  rewrite IH by set_solver. apply lookup_delete_ne. set_solver.
Qed.

Lemma expired_not_pending now s l id n :
  l ≡ₚ map_to_list s.(State.Notifications) -> s.(State.Notifications) !! id = Some n ->
  IsZero n.(Notification.DeliveredAt) = true -> id ∉ map fst (List.filter (expired c now) l).
Proof.
  intros Hl Hn Hz Hin. apply list_elem_of_In, in_map_iff in Hin as ([id' n'] & <- & Hin).
  apply filter_In in Hin as [Hin Hex]. apply list_elem_of_In in Hin. rewrite Hl in Hin.
  apply elem_of_map_to_list in Hin. cbn in *. rewrite Hn in Hin. simplify_eq.
  unfold expired in Hex. cbn in Hex. by rewrite Hz in Hex.
Qed.

(** The snapshot the deliveries are taken from has every pending event of [s0]. *)
Definition snapshot_of (s0 st : State.t) : Prop :=
  forall id n, s0.(State.Notifications) !! id = Some n -> IsZero n.(Notification.DeliveredAt) = true ->
  st.(State.Notifications) !! id = Some n.

Lemma lookup_put_notification i e s id :
  (put_notification i e s).(State.Notifications) !! id =
  if decide (id = i) then Some e else s.(State.Notifications) !! id.
Proof.
  unfold put_notification. record_simpl. case_decide; subst;
    [apply lookup_insert_eq|by apply lookup_insert_ne].
Qed.

(** Replacing one entry by the same event keeps the account. *)
Lemma accounted_put s0 past s id current e :
  accounted s0 past s -> s.(State.Notifications) !! id = Some current -> same_event current e ->
  (IsZero e.(Notification.DeliveredAt) = true \/
   forall n, s0.(State.Notifications) !! id = Some n -> IsZero n.(Notification.DeliveredAt) = true ->
     EvSend n (Ok tt) ∈ past) ->
  accounted s0 past (put_notification id e s).
Proof.
  intros H Hc Hsame Hd i n Hn Hz. rewrite lookup_put_notification. case_decide as Hi; [|by apply H].
  subst i. destruct (H id n Hn Hz) as (n' & Hn' & Hs & Hor). exists e.
  assert (n' = current) as -> by congruence. split; [done|]. split.
  - unfold same_event in *. naive_solver congruence.
  - destruct Hd as [?|Hd]; [by left|]. right. exists n. split; [done|]. by apply Hd.
Qed.

Lemma record_delivery_accounted s0 now st id r s wd :
  snapshot_of s0 st -> accounted s0 wd.(trace) s ->
  EvSend (default zero_Notification (st.(State.Notifications) !! id)) r ∈ wd.(trace) ->
  wp (record_delivery now id r s) (fun o w' => w' = wd /\
    forall s', o = Val s' -> accounted s0 wd.(trace) s') wd.
Proof.
  intros Hsnap Hacc Hsend. unfold record_delivery.
  destruct (State.Notifications s !! id) as [current|] eqn:Hc; [|wp_step; split; [done|by intros ? [= <-]]].
  destruct (negb (IsZero _)) eqn:Hz; [wp_step; split; [done|by intros ? [= <-]]|]. bool_prop.
  destruct r as [[]|e].
  - wp_step. split; [done|]. intros ? [= <-]. eapply accounted_put; [exact Hacc|exact Hc|done|].
    right. intros n Hn Hnz. by rewrite (Hsnap id n Hn Hnz) in Hsend.
  - cbv zeta. wp_step. unfold backoff. cbv zeta. destruct (_ <? 0); wp_step; [by split|].
    wp_step. split; [done|]. intros ? [= <-]. eapply accounted_put; [exact Hacc|exact Hc|done|].
    by left.
Qed.

Definition accounts (s0 : State.t) (w : World) : Prop := accounted s0 w.(trace) w.(data).

Lemma deliver_one_accounts s0 now st id wd :
  snapshot_of s0 st -> accounts s0 wd ->
  wp (deliver_one now st id) (fun _ w' => accounts s0 w') wd.
Proof.
  intros Hsnap Hacc. unfold deliver_one, Send. cbv zeta. wp_step. wp_step.
  apply wp_call. intros r e'. set (w1 := mkWorld _ _ _).
  assert (H1 : accounts s0 w1).
  { unfold accounts, w1. cbn [data trace]. by apply (accounted_later _ _ [_]). }
  assert (Hgoal : forall o : result unit,
    o = r -> wp (let* u := try (Update (record_delivery now id o)) in
                 match u, o with
                 | Err updateErr, _ => ret [updateErr]
                 | Ok _, Err e => ret [Errorf "notification %s: %w" [AStr id; AWrap e]]
                 | Ok _, Ok _ => ret []
                 end) (fun _ w' => accounts s0 w') w1).
  { intros o ->. wp_step. wp_step. wp_step. eapply wp_mono.
    { apply (record_delivery_accounted s0 now st id r w1.(data) w1); [done|exact H1|].
      unfold w1. cbn [trace]. left. }
    cbn beta. intros o w2 [-> Hs]. destruct o as [s'|e|]; [|destruct r; by wp_step|done].
    split; intros; destruct r; wp_step; unfold accounts; cbn [data trace];
      apply (accounted_later _ _ [_]); first [by apply Hs|exact H1]. }
  destruct r as [[]|e]; cbn [outcome]; apply Hgoal; done.
Qed.

Lemma deliver_all_accounts s0 now st ids wd :
  snapshot_of s0 st -> accounts s0 wd ->
  wp (deliver_all now st ids) (fun _ w' => accounts s0 w') wd.
Proof.
  intros Hsnap. revert wd. induction ids as [|id ids IH]; intros wd Hacc; cbn [deliver_all].
  { by wp_step. }
  wp_step. eapply wp_mono; [by apply deliver_one_accounts|]. cbn beta. intros [e| |] w1 H1; try done.
  wp_step. eapply wp_mono; [by apply IH|]. cbn beta. intros [es| |] w2 H2; [by wp_step|done..].
Qed.

Lemma deliverNotifications_accounts wd :
  wp (deliverNotifications c) (fun _ w' => accounts wd.(data) w') wd.
Proof.
  unfold deliverNotifications. wp_step. wp_step. wp_step. wp_step. wp_step. wp_step.
  assert (Hl : l ≡ₚ map_to_list wd.(data).(State.Notifications))
    by (rewrite <- H; apply range_notifications_perm).
  set (gone := map fst _). wp_step.
  assert (Hrest : forall st w1, snapshot_of wd.(data) st -> accounts wd.(data) w1 ->
    wp (if negb c.(Config.LMTP).(LMTP.Enabled) then ret tt
        else let* ns := range_notifications st.(State.Notifications) in
             let ids := Sort (map fst (List.filter (deliverable t) ns)) in
             let* errs := deliver_all t st ids in return_joined errs)
       (fun _ w' => accounts wd.(data) w') w1).
  { intros st w1 Hst Hacc. destruct (negb _); [by wp_step|]. wp_step. wp_step. wp_step.
    eapply wp_mono; [by apply (deliver_all_accounts wd.(data))|]. cbn beta.
    intros [errs| |] w2 H2; try done. unfold return_joined. by destruct (errors_Join errs); wp_step. }
  assert (Hstart : accounts wd.(data) (mkWorld e'0 wd.(data) (EvNow t :: wd.(trace))))
    by apply accounted_refl.
  destruct gone as [|g gs] eqn:Hgone; [wp_step; apply Hrest; [by intros ??|exact Hstart]|].
  rewrite <- Hgone. do 3 wp_step.
  assert (Hdel : snapshot_of wd.(data) (delete_notifications gone wd.(data))).
  { intros id n Hn Hz. rewrite lookup_delete_notifications; [done|].
    by eapply expired_not_pending. }
  split.
  - intros e'1. wp_step. apply Hrest; [done|]. intros id n Hn Hz. exists n.
    split; [by apply Hdel|]. split; [done|by left].
  - intros e e'1. apply accounted_refl.
Qed.
End Outbox.

(** ** The theorems *)
Section Claims.
Context {SV : Services} {RO : RangeOk} {DL : DnsLib} (c : Config.t).

(** In observe mode a reconciliation tick changes neither the state nor anything outside. *)
Lemma observe_mode_read_only :
  c.(Config.Mode) = "observe" -> emits silent (Tick c) /\ keeps eq (Tick c).
Proof. apply observe_Tick. Qed.

(** A workflow is left alone until its next action is due, and a blocked workflow is left alone
    for good: only the clock is read, the state stays, and the step succeeds. *)
Lemma advance_waits zone keys w wd :
  let '(now, e') := svc_Now wd.(env) in
  (w.(Workflow.NextActionAt) <> time_zero -> now < w.(Workflow.NextActionAt) ->
   advance c zone keys w wd = (Val tt, mkWorld e' wd.(data) (EvNow now :: wd.(trace)))) /\
  (w.(Workflow.Phase) = PhaseBlocked ->
   (advance c zone keys w wd).1 = Val tt /\ (advance c zone keys w wd).2.(data) = wd.(data) /\
   exists new, (advance c zone keys w wd).2.(trace) = new ++ wd.(trace) /\ Forall silent new).
Proof.
  destruct (svc_Now wd.(env)) as [now e'] eqn:Hnow. unfold advance, not_due, bind, Now, IsZero. split.
  - intros Hz Hlt. rewrite (proj2 (Z.eqb_neq _ _) Hz), Hnow. unfold ret, Before.
    by rewrite (proj2 (Z.ltb_lt _ _) Hlt).
  - intros Hb. unfold phase_handler. rewrite Hb.
    destruct (_ =? _); [|rewrite Hnow; unfold ret, Before; destruct (now <? _)].
    all: cbn; split_and!; try done.
    all: first [by exists [] | by eexists [_]; split; [done|repeat constructor]].
Qed.

(** No phase of an enrollment creates, changes or deletes a key. *)
Lemma enrollment_never_touches_keys zone keys w :
  w.(Workflow.Kind) = KindEnroll -> well_phased w -> emits no_key_write (advance c zone keys w).
Proof.
  unfold well_phased. intros -> Hp. unfold advance, phase_handler.
  destruct (Workflow.Phase w);
    try (exfalso; apply (bool_decide_eq_true_2 _) in Hp; discriminate Hp); emits_auto.
Qed.

(** C26: a delivery round removes no undelivered event and changes no event's content; an
    undelivered event is afterwards still undelivered, or it was accepted by the notifier
    during this round: delivery is at least once, whatever fails in between. *)
Theorem outbox_loses_nothing wd id n :
  wd.(data).(State.Notifications) !! id = Some n -> IsZero n.(Notification.DeliveredAt) = true ->
  let wd' := (deliverNotifications c wd).2 in
  exists n', wd'.(data).(State.Notifications) !! id = Some n' /\ same_event n n' /\
    (IsZero n'.(Notification.DeliveredAt) = true \/
     exists m, same_event n m /\ EvSend m (Ok tt) ∈ wd'.(trace)).
Proof. intros Hn Hz. by apply (deliverNotifications_accounts c wd). Qed.
End Claims.
