(* ===== verification/Once.v ===== *)
(** * The registrar's material is written at most once per workflow, however often the
    workflow is advanced and whatever happens in between. *)
From S2P Require Import Prelude GoStrings GoTime Model Config Dns Keys Effects Wp Core.
From S2P Require Import Rollover Parent Enroll Reconcile Safety Phases.

(** How many registrar writes a trace holds. *)
Definition is_update (ev : Event) : bool :=
  match ev with EvUpdateDNSSEC _ _ _ _ => true | _ => false end.
Definition updates (tr : list Event) : nat := length (List.filter is_update tr).
Definition no_update (ev : Event) : Prop := is_update ev = false.

Lemma updates_app t1 t2 : updates (t1 ++ t2) = (updates t1 + updates t2)%nat.
Proof. unfold updates. by rewrite List.filter_app, length_app. Qed.
Lemma updates_none t : Forall no_update t -> updates t = 0%nat.
Proof.
  unfold updates. induction 1 as [|ev t H _ IH]; [done|]. cbn. unfold no_update in H. by rewrite H.
Qed.

Section Once.
Context {SV : Services} {DL : DnsLib} (c : Config.t) (w : Workflow.t).

Definition attempted (s : State.t) : Prop :=
  IsZero (workflow_at s (own_key w)).(Workflow.RegistrarAttemptedAt) = false.
(** Either the attempt is on record or the workflow is over. *)
Definition settled (s : State.t) : Prop := attempted s \/ stored_phase w s = PhaseIdle.

Definition still (s s' : State.t) : Prop := attempted s -> attempted s'.
#[export] Instance still_refl : Reflexive still.
Proof. by intros s H. Qed.
#[export] Instance still_trans : Transitive still.
Proof. intros s1 s2 s3 H1 H2 H. auto. Qed.

Lemma workflow_at_put_same k x s : workflow_at (put_workflow k x s) k = x.
Proof. unfold workflow_at, put_workflow. record_simpl. by rewrite lookup_insert_eq. Qed.

Lemma still_put x s :
  (IsZero (workflow_at s (own_key w)).(Workflow.RegistrarAttemptedAt) = false ->
   IsZero x.(Workflow.RegistrarAttemptedAt) = false) ->
  still s (put_workflow (own_key w) x s).
Proof. unfold still, attempted. intros H. rewrite workflow_at_put_same. exact H. Qed.

(** A mutation that keeps the attempt time. *)
Definition attempt_kept (mutate : Workflow.t -> M Workflow.t) : Prop :=
  forall x, yields (fun y => y.(Workflow.RegistrarAttemptedAt) = x.(Workflow.RegistrarAttemptedAt))
              (mutate x).
Lemma attempt_kept_ret f :
  (forall x, (f x).(Workflow.RegistrarAttemptedAt) = x.(Workflow.RegistrarAttemptedAt)) ->
  attempt_kept (fun x => ret (f x)).
Proof. intros H x. by apply yields_ret. Qed.
Lemma attempt_kept_now f :
  (forall now x, (f now x).(Workflow.RegistrarAttemptedAt) = x.(Workflow.RegistrarAttemptedAt)) ->
  attempt_kept (fun x => let* now := Now in ret (f now x)).
Proof.
  intros H x. eapply (yields_bind (fun _ => True)); [by apply yields_Now|].
  intros now _. by apply yields_ret.
Qed.

Lemma still_transition phase next mutate :
  attempt_kept mutate -> keeps still (transition w phase next mutate).
Proof.
  intros Hm. unfold transition. apply keeps_Update; [apply _|]. intros s.
  eapply (yields_bind (fun _ => True)); [by apply yields_Now|]. intros now _. cbv zeta.
  eapply yields_bind; [apply Hm|]. cbn beta. intros y Hy.
  apply yields_ret, still_put. by rewrite Hy.
Qed.

Lemma still_block {A} name kind reason :
  name = w.(Workflow.Zone) -> kind = w.(Workflow.Kind) ->
  keeps still (block (A := A) c name kind reason).
Proof.
  intros -> ->. unfold block. apply keeps_bind; [apply _| |intros; apply keeps_fail; apply _].
  apply keeps_try, keeps_Update; [apply _|]. intros s. cbv zeta. apply yields_wp. intros wd.
  fold (own_key w). repeat wp_step; split; try done; intros ? [= <-].
  all: intros H; unfold attempted, workflow_at, put_notification, put_workflow in *; record_simpl.
  all: rewrite lookup_insert_eq; exact H.
Qed.

Lemma still_recordRetry e : keeps still (recordRetry w e).
Proof.
  unfold recordRetry. apply keeps_Update; [apply _|]. intros s. cbv zeta.
  eapply (yields_bind (fun _ => True)); [intros wd; unfold backoff; by case_match|].
  intros b _. eapply (yields_bind (fun _ => True)); [by apply yields_Now|]. intros now _.
  apply yields_ret. by apply still_put.
Qed.

Lemma still_recordCreateAttempt slot : keeps still (recordCreateAttempt w slot).
Proof.
  unfold recordCreateAttempt. apply keeps_bind; [apply _|apply keeps_Now; apply _|]. intros now.
  apply keeps_Update; [apply _|]. intros s. cbv zeta. apply yields_wp. intros wd.
  repeat wp_step; split; try done; intros ? [= <-]; apply still_put.
  all: unfold own_key, workflow_at.
  all: match goal with H : _ !! _ = Some _ |- _ => rewrite H end; by destruct slot.
Qed.
End Once.

Ltac once_step :=
  lazymatch goal with
  | |- keeps (still ?w) ?m =>
      lazymatch m with
      | transition _ _ _ _ => apply still_transition
      | block _ _ _ _ => apply still_block; [solve [auto]|reflexivity]
      | recordRetry _ _ => apply still_recordRetry
      | recordCreateAttempt _ _ => apply still_recordCreateAttempt
      | _ => keeps_step
      end
  | |- attempt_kept (fun x => let* now := Now in _) => apply attempt_kept_now; done
  | |- attempt_kept (fun x => ret _) => apply attempt_kept_ret; done
  | |- attempt_kept ?m => let h := head_of m in unfold h
  | |- _ => keeps_step
  end; cbv beta zeta.

(** ** Outcome-sensitive preservation: a run that succeeds ends in [S], one that fails
    keeps [R]. *)
Section Outcomes.
Context {SV : Services} (R S : State.t -> State.t -> Prop).
Context (RS : forall s1 s2 s3, R s1 s2 -> S s2 s3 -> S s1 s3).

Definition ending {A} (o : Outcome A) : State.t -> State.t -> Prop :=
  match o with Val _ => S | _ => R end.
Definition ends {A} (m : M A) : Prop := forall wd,
  ending (m wd).1 wd.(data) (m wd).2.(data).

Lemma ends_keeps {A} (m : M A) : (forall s s', R s s' -> S s s') -> keeps R m -> ends m.
Proof. intros H Hm wd. specialize (Hm wd). unfold ending. destruct (m wd) as [[] w']; cbn in *; auto. Qed.

Lemma ends_bind {A B} `{!Transitive R} (m : M A) (k : A -> M B) :
  keeps R m -> (forall a, ends (k a)) -> ends (bind m k).
Proof.
  intros Hm Hk wd. specialize (Hm wd). unfold bind. destruct (m wd) as [[a| |] w1]; cbn in *; try done.
  specialize (Hk a w1). destruct (k a w1) as [[] w2]; cbn in *;
    [by eapply RS|by etransitivity..].
Qed.
End Outcomes.

Section OnceHandlers.
Context {SV : Services} {DL : DnsLib} (c : Config.t) (w : Workflow.t).

Definition closes (s s' : State.t) : Prop := attempted w s -> settled w s'.
Lemma still_closes s s' : still w s s' -> closes s s'.
Proof. intros H Ha. left. auto. Qed.
Lemma still_then_closes s1 s2 s3 : still w s1 s2 -> closes s2 s3 -> closes s1 s3.
Proof. intros H1 H2 Ha. auto. Qed.

Lemma ends_complete : ends (still w) closes (complete c w).
Proof.
  intros wd. change (wp (complete c w) (fun o w' =>
    ending (still w) closes o wd.(data) w'.(data)) wd).
  unfold complete. wp_step. wp_step. wp_step. fold (own_key w).
  destruct (Workflow.Kind w == KindEnroll); wp_step; (split; [|done]); intros e'1 _; right; cbn [ending].
  all: unfold stored_phase, workflow_at.
  all: destruct (LMTP.Enabled (Config.LMTP c)); unfold put_notification, put_workflow; record_simpl.
  all: rewrite lookup_insert_eq; cbn [default]; by case_match.
Qed.

Lemma ends_mark_ineligible : ends (still w) closes (mark_ineligible w).
Proof.
  apply ends_keeps; [apply still_closes|]. unfold mark_ineligible.
  apply keeps_Update; [apply _|]. intros s. cbv zeta. apply yields_wp. intros wd.
  repeat wp_step; split; try done; intros ? [= <-]. by apply still_put.
Qed.

Ltac ends_step :=
  lazymatch goal with
  | |- ends _ _ (complete _ _) => apply ends_complete
  | |- ends _ _ (mark_ineligible _) => apply ends_mark_ineligible
  | |- ends _ _ (bind _ _) => apply (ends_bind _ _ still_then_closes); [solve [repeat once_step]|intros]
  | |- ends _ _ (match ?x with _ => _ end) => destruct x eqn:?
  | |- ends _ _ _ => apply ends_keeps; [apply still_closes|solve [repeat once_step]]
  end; cbv beta zeta.

Context (zone : Zone.t) (keys : list Key.t) (Hzone : zone.(Zone.Name) = w.(Workflow.Zone)).

(** Handlers other than the two that write to the registrar. *)
Lemma handler_closes h :
  phase_handler c zone keys w = Some h ->
  w.(Workflow.Phase) <> PhaseParentRemove -> w.(Workflow.Phase) <> PhaseEnrollParentAdd ->
  ends (still w) closes h.
Proof.
  unfold phase_handler. intros Hh H1 H2.
  destruct (Workflow.Phase w); simplify_eq; try done.
  all: lazymatch goal with |- ends _ _ ?m => let h := head_of m in unfold h end; cbv zeta.
  all: repeat ends_step.
Qed.

Lemma handler_no_update h :
  phase_handler c zone keys w = Some h ->
  w.(Workflow.Phase) <> PhaseParentRemove -> w.(Workflow.Phase) <> PhaseEnrollParentAdd ->
  emits no_update h.
Proof.
  unfold phase_handler. intros Hh H1 H2.
  destruct (Workflow.Phase w); simplify_eq; try done.
  all: emits_auto.
Qed.

(** ** A computation that writes at most once, and leaves the marker when it does. *)
Definition clock_set (ev : Event) : Prop :=
  match ev with EvNow t => IsZero t = false | _ => True end.

Definition single {A} (m : M A) : Prop := forall wd, exists new,
  (m wd).2.(trace) = new ++ wd.(trace) /\
  (Forall clock_set new ->
   ending (still w) closes (m wd).1 wd.(data) (m wd).2.(data) /\
   (updates new = 0%nat \/
    updates new = 1%nat /\ IsZero w.(Workflow.RegistrarAttemptedAt) = true /\
      attempted w (m wd).2.(data))).

Lemma single_silent {A} (m : M A) : ends (still w) closes m -> emits no_update m -> single m.
Proof.
  intros He Hm wd. specialize (He wd). destruct (Hm wd) as (new & E & F).
  exists new. split; [done|]. intros _. split; [done|]. left. by apply updates_none.
Qed.

Lemma single_quiet {A} (m : M A) : keeps (still w) m -> emits no_update m -> single m.
Proof. intros Hk. apply single_silent. apply ends_keeps; [apply still_closes|done]. Qed.

Lemma single_bind {A B} (m : M A) (k : A -> M B) :
  keeps (still w) m -> emits no_update m -> (forall a, single (k a)) -> single (bind m k).
Proof.
  intros Hk Hm Hs wd. specialize (Hk wd). destruct (Hm wd) as (n1 & E1 & F1).
  apply updates_none in F1. unfold bind. destruct (m wd) as [[a| |] w1]; cbn in *.
  2,3: exists n1; split; [done|]; intros _; split; [done|by left].
  destruct (Hs a w1) as (n2 & E2 & H2).
  exists (n2 ++ n1). rewrite E2, E1, app_assoc. split; [done|].
  intros [C2 _]%Forall_app. destruct (H2 C2) as [Hc H3].
  split; [destruct (k a w1) as [[] w2]; cbn in *; [by eapply still_then_closes|by etransitivity..]|].
  by rewrite updates_app, F1, Nat.add_0_r.
Qed.

(** The write itself: read the clock, persist the marker, submit, follow up. *)
Lemma single_write (record : time -> M unit) name d i (k : Job.t -> M unit) :
  IsZero w.(Workflow.RegistrarAttemptedAt) = true ->
  (forall t, IsZero t = false -> keeps (still w) (record t)) ->
  (forall t, emits no_update (record t)) ->
  (forall t wd u, IsZero t = false -> (record t wd).1 = Val u -> attempted w (record t wd).2.(data)) ->
  (forall j, keeps (still w) (k j)) -> (forall j, emits no_update (k j)) ->
  single (let* t := Now in let* _ := record t in let* j := UpdateDNSSEC name d i in k j).
Proof.
  intros H0 Hk Hm Hr Kk Km wd.
  match goal with |- context [(?m wd).2] =>
    change (wp m (fun o w' => exists new, w'.(trace) = new ++ wd.(trace) /\
      (Forall clock_set new -> ending (still w) closes o wd.(data) w'.(data) /\
       (updates new = 0%nat \/ updates new = 1%nat /\
          IsZero w.(Workflow.RegistrarAttemptedAt) = true /\ attempted w w'.(data)))) wd)
  end.
  do 2 wp_step. set (wd1 := mkWorld _ _ _). wp_step.
  destruct (Hm t wd1) as (n1 & E1 & F1). apply updates_none in F1.
  pose proof (Hk t) as Hkt. pose proof (Hr t wd1) as Hrt.
  assert (forall n, Forall clock_set (n ++ n1 ++ [EvNow t]) -> IsZero t = false) as Ht.
  { intros n. rewrite !Forall_app, Forall_singleton. by intros (_ & _ & ?). }
  assert (updates (n1 ++ [EvNow t]) = 0%nat) as U1 by (by rewrite updates_app, F1).
  unfold wp at 1. destruct (record t wd1) as [[u| |] wd2] eqn:Er; cbn [fst snd] in *.
  2,3: exists (n1 ++ [EvNow t]); rewrite E1, <- app_assoc; split; [done|];
       intros C; specialize (Hkt (Ht [] C) wd1); rewrite Er in Hkt;
       split; [exact Hkt|by left].
  wp_step. unfold UpdateDNSSEC. wp_step.
  - set (wd3 := mkWorld _ _ _). specialize (Kk a wd3). destruct (Km a wd3) as (n2 & E2 & F2).
    apply updates_none in F2. unfold wp.
    exists ((n2 ++ [EvUpdateDNSSEC name d i (Ok a)]) ++ n1 ++ [EvNow t]).
    rewrite E2. cbn [trace wd3]. rewrite E1. cbn [trace wd1].
    split; [by rewrite <- !app_assoc|]. intros C.
    assert (attempted w (data (k a wd3).2)) as Ha by eauto.
    split; [destruct (k a wd3).1; cbn; [by left|by intros _..]|].
    right. by rewrite updates_app, U1, updates_app, F2.
  - exists ([EvUpdateDNSSEC name d i (Err e)] ++ n1 ++ [EvNow t]). rewrite E1. cbn [trace wd1].
    split; [by rewrite <- !app_assoc|]. intros C.
    assert (attempted w (data wd2)) as Ha by (eapply Hrt; [by eapply (Ht [_])|done]).
    split; [by intros _|]. right. by rewrite updates_app, U1.
Qed.

Lemma record_marks (m : State.t -> M State.t) : forall wd u,
  (forall s, yields (attempted w) (m s)) -> (Update m wd).1 = Val u ->
  attempted w (Update m wd).2.(data).
Proof.
  intros wd u Hm. unfold Update. destruct (Hm wd.(data) wd) as [_ H].
  destruct (m (data wd) wd) as [[s| |] w1]; cbn in *; try done.
  destruct (svc_writeAtomic s (env w1)) as [[[]|e] e']; cbn; [|done]. intros _. by apply H.
Qed.

Lemma marked_attempted k x s t :
  k = own_key w -> IsZero t = false ->
  attempted w (put_workflow k (x <| Workflow.RegistrarAttemptedAt := t |>) s).
Proof. intros -> H. unfold attempted. by rewrite workflow_at_put_same. Qed.

Lemma marked_still k x s t :
  k = own_key w -> IsZero t = false ->
  still w s (put_workflow k (x <| Workflow.RegistrarAttemptedAt := t |>) s).
Proof. intros Hk Ht _. by apply marked_attempted. Qed.

Ltac single_step :=
  lazymatch goal with
  | |- single (let* _ := Now in let* _ := _ in let* _ := UpdateDNSSEC _ _ _ in _) => fail
  | |- single (bind _ _) =>
      apply single_bind; [solve [repeat once_step]|solve [emits_auto]|intros]
  | |- single (match ?x with _ => _ end) => destruct x eqn:?
  | |- single _ => apply single_quiet; [solve [repeat once_step]|solve [emits_auto]]
  end; cbv beta zeta.

Ltac single_write :=
  apply single_write;
  [ match goal with H : negb _ = false |- _ => by apply negb_false_iff in H end
  | intros ? ?; apply keeps_Update; [apply _|]; intros ?; cbv zeta
  | emits_auto
  | intros ? ? ? ?; apply record_marks; intros ?; cbv zeta
  | solve [repeat once_step]
  | solve [emits_auto] ].

Lemma single_parentReplace : single (parentReplace c zone keys w).
Proof.
  unfold parentReplace. cbv zeta. repeat single_step.
  all: single_write; apply yields_ret; [by apply marked_still|by apply marked_attempted].
Qed.

Lemma single_enrollParentAdd : single (enrollParentAdd c zone keys w).
Proof.
  unfold enrollParentAdd. cbv zeta. repeat single_step.
  all: single_write; apply yields_wp; intros wd0; repeat wp_step; split; try done; intros ? [= <-].
  all: cbn; first [apply marked_still; by auto|apply marked_attempted; by auto].
Qed.

Lemma single_handler h : phase_handler c zone keys w = Some h -> single h.
Proof.
  intros Hh. destruct (decide (w.(Workflow.Phase) = PhaseParentRemove)) as [E|H1].
  { unfold phase_handler in Hh. rewrite E in Hh. simplify_eq. apply single_parentReplace. }
  destruct (decide (w.(Workflow.Phase) = PhaseEnrollParentAdd)) as [E|H2].
  { unfold phase_handler in Hh. rewrite E in Hh. simplify_eq. apply single_enrollParentAdd. }
  apply single_silent; [by eapply handler_closes|by eapply handler_no_update].
Qed.

(** Reporting a handler's outcome keeps what the handler established. *)
Lemma single_report (h : M unit) :
  single h ->
  single (let* r := try h in
          match r with
          | Ok _ => ret tt
          | Err e => let* _ := try (recordRetry w e) in fail e
          end).
Proof.
  intros Hs wd. destruct (Hs wd) as (n1 & E1 & H1). unfold bind, try.
  destruct (h wd) as [[a|e|] w1]; cbn in *; [by exists n1| |by exists n1].
  pose proof (still_recordRetry w e w1) as Hk.
  assert (emits no_update (recordRetry w e)) as Hm by emits_auto.
  destruct (Hm w1) as (n2 & E2 & F2). apply updates_none in F2.
  destruct (recordRetry w e w1) as [o w2] eqn:Er. cbn in *.
  exists (n2 ++ n1). split; [by destruct o; cbn; rewrite E2, E1, app_assoc|].
  intros [_ C1]%Forall_app. destruct (H1 C1) as [Hst H2]. rewrite updates_app, F2, Nat.add_0_l.
  split; [destruct o; cbn; by etransitivity|].
  destruct H2 as [?|(? & ? & Ha)]; [by left|]. right. repeat split; [done..|].
  destruct o; cbn; by apply Hk.
Qed.

Lemma single_advance : single (advance c zone keys w).
Proof.
  unfold advance. apply single_bind; [repeat once_step|emits_auto|]. intros [].
  { apply single_quiet; [repeat once_step|emits_auto]. }
  destruct (phase_handler c zone keys w) as [h|] eqn:Hh.
  - by apply single_report, single_handler.
  - repeat single_step.
Qed.
End OnceHandlers.

(** ** Any number of reconciliations of one workflow *)
Section Rounds.
Context {SV : Services} {DL : DnsLib} (k : string).

(** [rounds s n s']: from store [s] to store [s'], a sequence of advances of the entry
    [k], each with its own configuration, inventory and service answers, between which
    anything may happen to the rest of the store; [n] registrar writes were submitted. *)
Inductive rounds : State.t -> nat -> State.t -> Prop :=
| rounds_done s : rounds s 0 s
| rounds_elsewhere s s1 n s' :
    workflow_at s1 k = workflow_at s k -> rounds s1 n s' -> rounds s n s'
| rounds_advance s c zone keys e n s' :
    let w := workflow_at s k in
    let wd' := (advance c zone keys w (mkWorld e s [])).2 in
    Active w = true -> WorkflowKey w.(Workflow.Zone) w.(Workflow.Kind) = k ->
    zone.(Zone.Name) = w.(Workflow.Zone) ->
    Forall clock_set wd'.(trace) ->
    rounds wd'.(data) n s' -> rounds s (updates wd'.(trace) + n) s'.

(** No write is left to be submitted: it was attempted, or the workflow is over. *)
Definition spent (s : State.t) : Prop :=
  IsZero (workflow_at s k).(Workflow.RegistrarAttemptedAt) = false
  \/ (workflow_at s k).(Workflow.Phase) = PhaseIdle.

Lemma rounds_advance_cases s c zone keys e :
  let w := workflow_at s k in
  let wd' := (advance c zone keys w (mkWorld e s [])).2 in
  WorkflowKey w.(Workflow.Zone) w.(Workflow.Kind) = k ->
  zone.(Zone.Name) = w.(Workflow.Zone) -> Forall clock_set wd'.(trace) ->
  (spent s -> w.(Workflow.Phase) <> PhaseIdle -> updates wd'.(trace) = 0%nat /\ spent wd'.(data)) /\
  (updates wd'.(trace) = 0%nat \/ updates wd'.(trace) = 1%nat /\ spent wd'.(data)).
Proof.
  intros w wd' Hk Hz Hc. destruct (single_advance c w zone keys Hz (mkWorld e s [])) as (new & E & H).
  cbn in E. rewrite app_nil_r in E. fold wd' in E. rewrite E in *. destruct (H Hc) as [He Hu].
  unfold ending, still, closes, settled, attempted, stored_phase, own_key in *. rewrite Hk in *.
  fold wd' in He, Hu. split.
  - intros [Hs|Hs] Hp; [|done].
    assert (updates new = 0%nat) as -> by (destruct Hu as [?|(_ & Hn & _)]; [done|]; fold w in Hs; congruence).
    split; [done|].
    destruct (advance c zone keys w (mkWorld e s [])).1; [by apply He|left; by apply He..].
  - destruct Hu as [?|(? & _ & ?)]; [by left|]. right. split; [done|]. by left.
Qed.

Lemma spent_elsewhere s s1 : workflow_at s1 k = workflow_at s k -> spent s -> spent s1.
Proof. unfold spent. by intros ->. Qed.

Lemma rounds_spent s n s' : rounds s n s' -> spent s -> n = 0%nat.
Proof.
  induction 1 as [|s s1 n s' He Hr IH|s c zone keys e n s' w wd' Ha Hk Hz Hc Hr IH]; [done| |].
  - intros Hs. by apply IH, (spent_elsewhere s).
  - intros Hs. destruct (rounds_advance_cases s c zone keys e Hk Hz Hc) as [H _].
    destruct (H Hs) as [E Hs']; [intros Hp; fold w in Hp; unfold Active in Ha; by rewrite Hp in Ha|].
    fold w wd' in E, Hs'. rewrite E. by apply IH.
Qed.

(** C1: however often one workflow is advanced (with any
    configuration, key inventory and service answers, failed and lost registrar calls and
    failed store writes included) and whatever happens to the rest of the store in
    between, the registrar's DNSSEC material is submitted at most once, provided no clock
    reading is the zero time. *)
Theorem registrar_written_at_most_once s n s' : rounds s n s' -> (n <= 1)%nat.
Proof.
  induction 1 as [|s s1 n s' He Hr IH|s c zone keys e n s' w wd' Ha Hk Hz Hc Hr IH]; [lia|done|].
  destruct (rounds_advance_cases s c zone keys e Hk Hz Hc) as [_ [E|[E Hs]]].
  - fold w wd' in E. lia.
  - fold w wd' in E, Hs. pose proof (rounds_spent _ _ _ Hr Hs). lia.
Qed.
End Rounds.
