(* ===== verification/Completion.v ===== *)
(** * Completing a workflow: one write that ends it, resets its record and files its event. *)
From S2P Require Import Prelude GoStrings GoTime Model Config Dns Keys Effects Wp Core.
From S2P Require Import Rollover Parent Enroll Reconcile Safety Phases Single.

(** Nothing of the finished workflow is left that a later one could take for its own. *)
Record spotless (x : Workflow.t) : Prop := {
  spotless_old : x.(Workflow.OldKeyID) = 0;
  spotless_creates : x.(Workflow.NewKeyCreateAttemptedAt) = time_zero /\
                     x.(Workflow.NewZSKCreateAttemptedAt) = time_zero;
  spotless_evidence : x.(Workflow.EvidenceAt) = time_zero /\ x.(Workflow.DNSKEYTTL) = 0 /\
                      x.(Workflow.ZoneTTL) = 0 /\ x.(Workflow.ParentDSTTL) = 0 /\
                      x.(Workflow.SplitSignerTransitionAt) = time_zero;
  spotless_registrar : x.(Workflow.RegistrarAttemptedAt) = time_zero /\
                       x.(Workflow.RegistrarCTID) = "" /\ x.(Workflow.RegistrarPayloadHash) = "" /\
                       x.(Workflow.RegistrarJobID) = 0 /\ x.(Workflow.ParentMode) = "";
  spotless_retries : x.(Workflow.Attempts) = 0 /\ x.(Workflow.LastError) = "";
}.

(** The event that reports the completion of [w] at [now], not yet delivered. *)
Definition reports_completion (w : Workflow.t) (now : time) (n : Notification.t) : Prop :=
  n.(Notification.Event) = "completed" /\ n.(Notification.Zone) = w.(Workflow.Zone) /\
  n.(Notification.Kind) = w.(Workflow.Kind) /\ n.(Notification.CompletedAt) = now /\
  n.(Notification.OldKeyID) = w.(Workflow.OldKeyID) /\
  n.(Notification.NewKeyID) = w.(Workflow.NewKeyID) /\
  n.(Notification.NewZSKID) = w.(Workflow.NewZSKID) /\
  n.(Notification.RegistrarSTID) = w.(Workflow.RegistrarSTID) /\
  n.(Notification.DeliveredAt) = time_zero /\ n.(Notification.Attempts) = 0.

Section Completion.
Context {SV : Services} {DL : DnsLib} (c : Config.t) (w : Workflow.t).

(** What a completion at [now] leaves in the state [s'] reached from [s]. *)
Record completed_at (now : time) (s s' : State.t) : Prop := {
  completed_entry : exists x, s'.(State.Workflows) !! own_key w = Some x /\ spotless x /\
    x.(Workflow.Phase) = PhaseIdle /\ x.(Workflow.Zone) = w.(Workflow.Zone) /\
    x.(Workflow.Kind) = w.(Workflow.Kind) /\
    x.(Workflow.LastCompletedAt) = Z.max now (workflow_at s (own_key w)).(Workflow.LastCompletedAt);
  completed_event : c.(Config.LMTP).(LMTP.Enabled) = true ->
    exists n, s'.(State.Notifications) !! completed_event_id w now = Some n /\
      reports_completion w now n;
  completed_roles role : w.(Workflow.Kind) = KindEnroll -> role ∈ [KindKSK; KindZSK] ->
    exists x, s'.(State.Workflows) !! WorkflowKey w.(Workflow.Zone) role = Some x /\
      x.(Workflow.Phase) = PhaseIdle /\ x.(Workflow.LastCompletedAt) = now;
  completed_others id : id <> completed_event_id w now ->
    s'.(State.Notifications) !! id = s.(State.Notifications) !! id;
}.

Lemma max_last now last x :
  x.(Workflow.LastCompletedAt) = now ->
  (if Before now last then x <| Workflow.LastCompletedAt := last |> else x).(Workflow.LastCompletedAt)
  = Z.max now last.
Proof. unfold Before. intros <-. destruct (_ <? last) eqn:H; bool_prop; cbn; lia. Qed.

Lemma completed_put now s s1 x :
  spotless x -> x.(Workflow.Phase) = PhaseIdle -> x.(Workflow.Zone) = w.(Workflow.Zone) ->
  x.(Workflow.Kind) = w.(Workflow.Kind) -> x.(Workflow.LastCompletedAt) = now ->
  s1.(State.Notifications) = s.(State.Notifications) ->
  (forall role, w.(Workflow.Kind) = KindEnroll -> role ∈ [KindKSK; KindZSK] ->
     exists y, s1.(State.Workflows) !! WorkflowKey w.(Workflow.Zone) role = Some y /\
       y.(Workflow.Phase) = PhaseIdle /\ y.(Workflow.LastCompletedAt) = now) ->
  let last := (workflow_at s (own_key w)).(Workflow.LastCompletedAt) in
  let x' := if Before now last then x <| Workflow.LastCompletedAt := last |> else x in
  let s2 := put_workflow (own_key w) x' s1 in
  completed_at now s
    (if c.(Config.LMTP).(LMTP.Enabled) then
       put_notification (completed_event_id w now)
         (Notification.mk (completed_event_id w now) "completed" w.(Workflow.Zone) w.(Workflow.Kind) now
            w.(Workflow.OldKeyID) w.(Workflow.NewKeyID) w.(Workflow.NewZSKID)
            w.(Workflow.RegistrarSTID) 0 now "" time_zero) s2
     else s2).
Proof.
  intros Hx Hp Hz Hk Hl Hn Hr last x' s2.
  assert (Hw2 : (if c.(Config.LMTP).(LMTP.Enabled) then
       put_notification (completed_event_id w now)
         (Notification.mk (completed_event_id w now) "completed" w.(Workflow.Zone) w.(Workflow.Kind) now
            w.(Workflow.OldKeyID) w.(Workflow.NewKeyID) w.(Workflow.NewZSKID)
            w.(Workflow.RegistrarSTID) 0 now "" time_zero) s2
     else s2).(State.Workflows) = s2.(State.Workflows)) by (by destruct (LMTP.Enabled _)).
  split.
  - rewrite Hw2. unfold s2. rewrite lookup_put_workflow. case_decide; [|done].
    exists x'. split; [done|]. unfold x'. rewrite max_last by done.
    split_and!; [|destruct (Before now last); done..|done].
    destruct (Before now last); [|done]. by destruct Hx.
  - intros ->. unfold put_notification. record_simpl. rewrite lookup_insert_eq. eexists. done.
  - intros role Hke Hin. rewrite Hw2. unfold s2. rewrite lookup_put_workflow.
    case_decide as Hkey; [|by apply Hr].
    exfalso. unfold own_key in Hkey. rewrite Hke in Hkey. unfold named_kinds in *.
    apply WorkflowKey_inj in Hkey as [_ Heq]; [|unfold named_kinds; set_solver..].
    subst role. set_solver.
  - intros id Hid. destruct (LMTP.Enabled _); [|by rewrite <- Hn].
    unfold put_notification. record_simpl. rewrite lookup_insert_ne by done. by rewrite <- Hn.
Qed.

Lemma idle_roles_done now s role :
  role ∈ [KindKSK; KindZSK] ->
  exists y, (fold_left (idle_role w now) [KindKSK; KindZSK] s).(State.Workflows)
              !! WorkflowKey w.(Workflow.Zone) role = Some y /\
    y.(Workflow.Phase) = PhaseIdle /\ y.(Workflow.LastCompletedAt) = now.
Proof.
  intros Hr. cbn [fold_left]. unfold idle_role. rewrite !lookup_put_workflow.
  rewrite !elem_of_cons, elem_of_nil in Hr. destruct Hr as [->|[->|[]]];
    repeat case_decide; try done; by eexists.
Qed.

(** C22: completing a workflow is all or nothing.  If the one state write
    succeeds the entry is idle with every transient field reset, its completion time is the
    clock's or the earlier recorded one if that is later, a completed enrollment has also
    set the zone's KSK and ZSK entries idle, and with notifications enabled exactly the
    completion event was filed; if anything fails the state is as before. *)
Theorem completion_atomic wd :
  match (complete c w wd).1 with
  | Val _ => exists now, EvNow now ∈ (complete c w wd).2.(trace) /\
               completed_at now wd.(data) (complete c w wd).2.(data)
  | _ => (complete c w wd).2.(data) = wd.(data)
  end.
Proof.
  change (wp (complete c w) (fun o w' => match o with
    | Val _ => exists now, EvNow now ∈ w'.(trace) /\ completed_at now wd.(data) w'.(data)
    | _ => w'.(data) = wd.(data) end) wd).
  unfold complete. do 3 wp_step. fold (own_key w).
  destruct (Workflow.Kind w == KindEnroll) eqn:HE; bool_prop; wp_step; (split; [|done]); intros e'1.
  all: exists t; (split; [cbn [trace]; set_solver|]); apply completed_put; try done.
  intros role _ Hrole. by apply idle_roles_done.
Qed.
End Completion.
