(* ===== verification/Reach.v ===== *)
(** * Invariants of every reachable state: a generic induction over a whole [Tick], and
    the two invariants that hold whatever sequence of ticks and operator requests ran. *)
From S2P Require Import Prelude GoStrings GoTime Model Config Dns Keys Effects Wp Core.
From S2P Require Import Rollover Parent Enroll Reconcile Operator Safety TickSafety Phases Single.

(** ** Invariants of the workflow table that a tick preserves *)
Section TickInvariant.
Context {SV : Services} {RO : RangeOk} {DL : DnsLib} (c : Config.t).

(** The entry [x] of zone and kind is active, so that blocking it wakes nothing up. *)
Definition awake (zone : string) (kind : Kind) (s : State.t) : Prop :=
  exists x, s.(State.Workflows) !! WorkflowKey zone kind = Some x /\
    x.(Workflow.Zone) = zone /\ x.(Workflow.Kind) = kind /\ Active x = true.

(** What an invariant must satisfy to survive every step a tick is made of. *)
Class TickInv (I : State.t -> Prop) : Prop := {
  tick_inv_same s s' : s'.(State.Workflows) = s.(State.Workflows) -> I s -> I s';
  tick_inv_stored s k x : I s -> s.(State.Workflows) !! k = Some x ->
    k = WorkflowKey x.(Workflow.Zone) x.(Workflow.Kind) /\ x.(Workflow.Kind) ∈ named_kinds;
  tick_inv_bootstrap zone scheme keys wd :
    I wd.(data) -> I (bootstrap c zone scheme keys wd).2.(data);
  tick_inv_start zone kind wd :
    kind ∈ named_kinds -> kind <> KindEnroll -> I wd.(data) ->
    I (start zone kind false "" wd).2.(data);
  tick_inv_advance zone keys w wd :
    I wd.(data) -> wd.(data).(State.Workflows) !! own_key w = Some w -> Active w = true ->
    zone.(Zone.Name) = w.(Workflow.Zone) -> I (advance c zone keys w wd).2.(data);
  tick_inv_block zone kind x s : I s -> kind ∈ named_kinds ->
    awake zone kind s \/ quiet zone s ->
    x.(Workflow.Zone) = zone -> x.(Workflow.Kind) = kind -> x.(Workflow.Phase) = PhaseBlocked ->
    I (put_workflow (WorkflowKey zone kind) x s);
}.

Context (I : State.t -> Prop) `{!TickInv I}.

Lemma inv_notification n e s : I s -> I (put_notification n e s).
Proof. by apply tick_inv_same. Qed.

Lemma inv_block {A} zone kind reason wd :
  I wd.(data) -> kind ∈ named_kinds -> awake zone kind wd.(data) \/ quiet zone wd.(data) ->
  I (block (A := A) c zone kind reason wd).2.(data).
Proof.
  intros HI Hk Ha.
  change (wp (block (A := A) c zone kind reason) (fun _ w' => I w'.(data)) wd). unfold block.
  set (x := fun s => (workflow_at s (WorkflowKey zone kind))
    <| Workflow.Zone := zone |> <| Workflow.Kind := kind |> <| Workflow.Phase := PhaseBlocked |>
    <| Workflow.LastError := reason |> <| Workflow.NextActionAt := time_zero |>).
  assert (Hput : I (put_workflow (WorkflowKey zone kind) (x wd.(data)) wd.(data)))
    by (apply (tick_inv_block zone kind); done).
  repeat wp_step; try (split; intros; wp_step); try done; try exact Hput.
  all: by apply inv_notification.
Qed.

(** ** The outbox touches no workflow. *)
Definition same_workflows (s s' : State.t) : Prop := s'.(State.Workflows) = s.(State.Workflows).
#[local] Instance same_workflows_refl : Reflexive same_workflows.
Proof. by intros s. Qed.
#[local] Instance same_workflows_trans : Transitive same_workflows.
Proof. intros s1 s2 s3. unfold same_workflows. congruence. Qed.

Lemma same_deliver_one now st id : keeps same_workflows (deliver_one now st id).
Proof.
  unfold deliver_one. repeat keeps_step. apply keeps_Update; [apply _|]. intros s.
  apply yields_wp. intros wd. unfold record_delivery, backoff. cbv zeta.
  repeat wp_step; (split; [done|]); by intros ? [= <-].
Qed.

Lemma same_deliver_all now st ids : keeps same_workflows (deliver_all now st ids).
Proof.
  induction ids as [|id ids IH]; cbn [deliver_all];
    repeat first [apply same_deliver_one|exact IH|keeps_step].
Qed.

Lemma same_deliverNotifications : keeps same_workflows (deliverNotifications c).
Proof.
  unfold deliverNotifications, return_joined. repeat first [apply same_deliver_all|keeps_step].
  apply keeps_Update; [apply _|]. intros ?. by apply yields_ret.
Qed.

(** ** One zone *)
Lemma active_stored name st l w :
  I st -> l ≡ₚ map_to_list st.(State.Workflows) -> w ∈ active_workflows name l ->
  st.(State.Workflows) !! own_key w = Some w /\ w.(Workflow.Zone) = name /\
  w.(Workflow.Kind) ∈ named_kinds /\ Active w = true.
Proof.
  intros HI Hl Hw. destruct (active_workflows_elem name l w Hw) as [Hz Ha].
  unfold active_workflows in Hw. rewrite list_elem_of_In, filter_In in Hw.
  destruct Hw as [Hin _]. apply in_map_iff in Hin as ([k x] & Hx & Hin). cbn in Hx. subst x.
  apply list_elem_of_In in Hin. rewrite Hl in Hin. apply elem_of_map_to_list in Hin.
  destruct (tick_inv_stored _ _ _ HI Hin) as [-> Hn]. done.
Qed.

Lemma active_awake name st l w :
  I st -> l ≡ₚ map_to_list st.(State.Workflows) -> w ∈ active_workflows name l ->
  awake name w.(Workflow.Kind) st /\ w.(Workflow.Kind) ∈ named_kinds.
Proof.
  intros HI Hl Hw. destruct (active_stored name st l w HI Hl Hw) as (Hs & <- & Hn & Ha).
  split; [|done]. by exists w.
Qed.

Lemma no_active_quiet name st l :
  l ≡ₚ map_to_list st.(State.Workflows) -> active_workflows name l = [] -> quiet name st.
Proof.
  intros Hl Hnil k x Hx Hz. destruct (Active x) eqn:Ha; [|done].
  assert (x ∈ active_workflows name l) as Hin; [|by rewrite Hnil in Hin; set_solver].
  unfold active_workflows. rewrite list_elem_of_In, filter_In. split.
  - apply in_map_iff. exists (k, x). split; [done|]. apply list_elem_of_In. rewrite Hl.
    by apply elem_of_map_to_list.
  - by rewrite Hz, eqb_refl, Ha.
Qed.
Lemma inv_reconcileZone zone wd : I wd.(data) -> I (reconcileZone c zone wd).2.(data).
Proof.
  intros HI. change (wp (reconcileZone c zone) (fun _ w' => I w'.(data)) wd).
  unfold reconcileZone, ListKeys. do 2 wp_step; [|done]. wp_step; [by wp_step|]. wp_step.
  set (w1 := mkWorld _ _ _).
  assert (Hb : I (bootstrap c zone (keyScheme a) a w1).2.(data)) by (by apply tick_inv_bootstrap).
  unfold wp at 1. destruct (bootstrap c zone (keyScheme a) a w1) as [[u| |] w2]; cbn in Hb |- *; try done.
  do 4 wp_step.
  assert (Hl : l ≡ₚ map_to_list w2.(data).(State.Workflows)) by (rewrite <- H; apply range_workflows_perm).
  destruct (active_workflows (Zone.Name zone) l) as [|w [|w' ws]] eqn:Hact.
  - destruct (keyScheme a == "csk"); [by wp_step|]. destruct (keyScheme a != "split").
    + apply inv_block; [done|unfold named_kinds; set_solver|right]. by eapply no_active_quiet.
    + do 2 wp_step. destruct (_ <=? _); [by apply tick_inv_start; [unfold named_kinds; set_solver|..]|].
      destruct (_ <=? _); [by apply tick_inv_start; [unfold named_kinds; set_solver|..]|by wp_step].
  - assert (Hw : w ∈ active_workflows (Zone.Name zone) l) by (rewrite Hact; by left).
    destruct (active_stored _ _ _ _ Hb Hl Hw) as (Hs & Hz & Hn & Ha).
    destruct (enrollment_out_of_scope c (Zone.Name zone) w) eqn:Ho.
    + unfold enrollment_out_of_scope in Ho. bool_prop.
      destruct (active_awake _ _ _ _ Hb Hl Hw) as [Haw _].
      replace KindEnroll with w.(Workflow.Kind) by done. apply inv_block; [done..|by left].
    + by apply tick_inv_advance.
  - assert (Hw : w ∈ active_workflows (Zone.Name zone) l) by (rewrite Hact; by left).
    destruct (active_awake _ _ _ _ Hb Hl Hw) as [Haw Hn]. apply inv_block; [done..|by left].
Qed.

(** ** The loops of a tick *)
Lemma inv_tick_zones st zones seen errs wd :
  I wd.(data) -> I (tick_zones c st zones seen errs wd).2.(data).
Proof.
  intros HI. change (wp (tick_zones c st zones seen errs) (fun _ w' => I w'.(data)) wd).
  revert seen errs wd HI. induction zones as [|z zones IH]; intros seen errs wd HI; cbn [tick_zones].
  { by wp_step. }
  wp_step.
  assert (Hz : wp (tick_zone c st z seen) (fun _ w' => I w'.(data)) wd).
  { unfold tick_zone. wp_step; [by wp_step|]. wp_step; [by wp_step|]. wp_step. wp_step.
    apply (wp_mono _ (fun _ w' => I w'.(data))); [by apply inv_reconcileZone|]. cbn beta. intros [] w1 H1; by repeat wp_step. }
  eapply wp_mono; [exact Hz|]. cbn beta. intros [[seen' es]| |] w1 H1; try done. by apply IH.
Qed.

Lemma awake_after_block {A} zone kind z k reason wd :
  kind ∈ named_kinds -> k ∈ named_kinds -> awake zone kind wd.(data) ->
  awake zone kind (block (A := A) c z k reason wd).2.(data).
Proof.
  intros Hn1 Hn2 Ha.
  change (wp (block (A := A) c z k reason) (fun _ w' => awake zone kind w'.(data)) wd). unfold block.
  assert (Hput : forall y, y.(Workflow.Zone) = z -> y.(Workflow.Kind) = k ->
    y.(Workflow.Phase) = PhaseBlocked ->
    awake zone kind (put_workflow (WorkflowKey z k) y wd.(data))).
  { intros y Hyz Hyk Hyp. unfold awake. setoid_rewrite lookup_put_workflow. case_decide as Hk; [|done].
    apply WorkflowKey_inj in Hk as [-> ->]; [|done..]. exists y. by rewrite blocked_active. }
  repeat wp_step; try (split; intros; wp_step); try done; by apply Hput.
Qed.

(** The workflows still to be visited are stored and active. *)
Lemma inv_block_vanished seen ws errs wd :
  I wd.(data) ->
  Forall (fun kw => kw.2.(Workflow.Kind) ∈ named_kinds /\ (Active kw.2 = true ->
            awake kw.2.(Workflow.Zone) kw.2.(Workflow.Kind) wd.(data))) ws ->
  I (block_vanished c seen ws errs wd).2.(data).
Proof.
  intros HI Hws. change (wp (block_vanished c seen ws errs) (fun _ w' => I w'.(data)) wd).
  revert errs wd HI Hws. induction ws as [|[k w] ws IH]; intros errs wd HI Hws; cbn [block_vanished].
  { by wp_step. }
  apply Forall_cons in Hws as [[Hn Ha] Hws]. cbn [snd] in *.
  wp_step; [|by apply IH]. bool_prop. wp_step. wp_step.
  pose proof (inv_block (A := unit) w.(Workflow.Zone) w.(Workflow.Kind)
    "enrollment zone disappeared or DNSSEC was disabled" wd HI Hn) as Hb.
  assert (Hstay : forall zone kind, kind ∈ named_kinds -> awake zone kind wd.(data) ->
    awake zone kind (block (A := unit) c w.(Workflow.Zone) w.(Workflow.Kind)
      "enrollment zone disappeared or DNSSEC was disabled" wd).2.(data))
    by (intros; by apply awake_after_block).
  unfold wp at 1. destruct (block c _ _ _ wd) as [o w1]. cbn [fst snd] in *.
  assert (Hws1 : Forall (fun kw => kw.2.(Workflow.Kind) ∈ named_kinds /\ (Active kw.2 = true ->
            awake kw.2.(Workflow.Zone) kw.2.(Workflow.Kind) w1.(data))) ws).
  { eapply Forall_impl; [exact Hws|]. intros [k' w'] [? ?]. cbn in *. auto. }
  destruct o; [apply IH; auto..|auto].
Qed.

Lemma inv_return_joined errs wd :
  I wd.(data) -> wp (return_joined errs) (fun _ w' => I w'.(data)) wd.
Proof. intros HI. unfold return_joined. destruct (errors_Join errs); by wp_step. Qed.

Theorem inv_Tick wd : I wd.(data) -> I (Tick c wd).2.(data).
Proof.
  intros HI. change (wp (Tick c) (fun _ w' => I w'.(data)) wd). unfold Tick. wp_step.
  set (Qe := fun (o : Outcome (list error)) (w' : World) => I w'.(data)).
  assert (Hd : wp (if Config.Mode c == "enforce" then
      let* r := try (deliverNotifications c) in ret (match r with Ok _ => [] | Err e => [e] end)
    else ret []) Qe wd).
  { destruct (_ == _); [|done]. do 2 wp_step. unfold wp.
    pose proof (tick_inv_same _ _ (same_deliverNotifications wd) HI) as H.
    destruct (deliverNotifications c wd) as [[] w1]; exact H. }
  eapply wp_mono; [exact Hd|]. unfold Qe. cbn beta. intros [errs| |] w1 H1; try done.
  unfold ListZones. do 3 wp_step; [|by apply inv_return_joined].
  do 3 wp_step.
  pose proof (inv_tick_zones w1.(data) a [] errs (mkWorld e' w1.(data)
    (EvListZones (Ok a) :: w1.(trace))) H1) as Hz.
  unfold wp at 1. destruct (tick_zones c _ _ _ _ _) as [[[seen es]| |] w2]; cbn [fst snd] in *; try done.
  wp_step. wp_step; [|wp_step; by apply inv_return_joined].
  do 4 wp_step.
  assert (Hl : l ≡ₚ map_to_list w2.(data).(State.Workflows)) by (rewrite <- H; apply range_workflows_perm).
  apply (wp_mono _ (fun _ w' => I w'.(data))).
  - apply inv_block_vanished; [done|]. apply Forall_forall. intros [k x] Hin. cbn.
    rewrite Hl in Hin. apply elem_of_map_to_list in Hin.
    destruct (tick_inv_stored _ _ _ Hz Hin) as [-> Hn]. split; [done|]. intros Ha. by exists x.
  - cbn beta. intros [] w3 H3; try done. by apply inv_return_joined.
Qed.
End TickInvariant.

(** ** First invariant: every entry is stored under its own key, in a phase of its kind *)
Definition legal (x : Workflow.t) : Prop := x.(Workflow.Phase) = PhaseBlocked \/ well_phased x.
Definition well_formed_entry (k : string) (x : Workflow.t) : Prop :=
  k = WorkflowKey x.(Workflow.Zone) x.(Workflow.Kind) /\ x.(Workflow.Kind) ∈ named_kinds /\ legal x.
Definition well_formed (s : State.t) : Prop :=
  forall k x, s.(State.Workflows) !! k = Some x -> well_formed_entry k x.

Lemma well_formed_put k x s :
  well_formed s -> well_formed_entry k x -> well_formed (put_workflow k x s).
Proof.
  intros Hs Hx k' y. rewrite lookup_put_workflow. case_decide; [|apply Hs]. intros [= <-]. by subst.
Qed.

Lemma idle_legal x : x.(Workflow.Phase) = PhaseIdle -> x.(Workflow.Kind) ∈ named_kinds -> legal x.
Proof.
  intros Hp Hk. right. unfold well_phased. rewrite Hp.
  unfold named_kinds in Hk. rewrite !elem_of_cons, elem_of_nil in Hk.
  destruct Hk as [->|[->|[->|[->|[]]]]]; apply (bool_decide_unpack _); vm_compute; exact I.
Qed.
Lemma blocked_legal x : x.(Workflow.Phase) = PhaseBlocked -> legal x.
Proof. by left. Qed.

(** The kinds a rotation can have. *)
Definition rotation_kinds : list Kind := [KindZSK; KindKSK; KindSplit].
Lemma rotation_named kind : kind ∈ rotation_kinds -> kind ∈ named_kinds.
Proof. unfold rotation_kinds, named_kinds. set_solver. Qed.
Lemma begun_legal x :
  x.(Workflow.Phase) = PhasePrepublish -> x.(Workflow.Kind) ∈ rotation_kinds -> legal x.
Proof.
  intros Hp Hk. right. unfold well_phased. rewrite Hp.
  unfold rotation_kinds in Hk. rewrite !elem_of_cons, elem_of_nil in Hk.
  destruct Hk as [->|[->|[->|[]]]]; apply (bool_decide_unpack _); vm_compute; exact I.
Qed.

Definition wf_kept (s s' : State.t) : Prop := well_formed s -> well_formed s'.
#[export] Instance wf_kept_refl : Reflexive wf_kept.
Proof. by intros s H. Qed.
#[export] Instance wf_kept_trans : Transitive wf_kept.
Proof. intros s1 s2 s3 H1 H2 H. auto. Qed.

Section WellFormed.
Context {SV : Services} {RO : RangeOk} {DL : DnsLib} (c : Config.t).

Lemma Update_wf fn :
  (forall s wd, wp (fn s) (fun o w' => w'.(data) = wd.(data) /\
     forall s', o = Val s' -> wf_kept s s') wd) ->
  keeps wf_kept (Update fn).
Proof. intros H. apply keeps_Update; [apply _|]. intros s. apply yields_wp. apply H. Qed.

Lemma keeps_unchanged {A} (m : M A) :
  (forall w, (m w).2.(data) = w.(data)) -> keeps wf_kept m.
Proof. intros H w. rewrite H. by intros ?. Qed.

Lemma wf_idempotency k v s : well_formed s -> well_formed (put_idempotency k v s).
Proof. done. Qed.

Lemma wf_start zone kind manual idem :
  kind ∈ rotation_kinds -> keeps wf_kept (start zone kind manual idem).
Proof.
  intros Hk. unfold start. apply keeps_bind; [apply _|apply keeps_Now; apply _|]. intros now.
  apply Update_wf. intros s wd. repeat wp_step; try done; (split; [done|]); intros ? [= <-] Hs.
  set (x := begin_rotation _ _ _ _).
  assert (Hx : x.(Workflow.Zone) = zone /\ x.(Workflow.Kind) = kind).
  { unfold x. destruct (State.Workflows s !! WorkflowKey zone kind) as [y|] eqn:Hy; [|done].
    destruct (Hs _ _ Hy) as (Hkey & Hn & _).
    apply WorkflowKey_inj in Hkey as [-> ->]; [done|by apply rotation_named|done]. }
  destruct Hx as [Hz Hxk].
  assert (Hput : well_formed (put_workflow (WorkflowKey zone kind) x s)).
  { apply well_formed_put; [done|]. split_and!; [congruence|rewrite Hxk; by apply rotation_named|].
    apply begun_legal; [done|congruence]. }
  destruct (idem != ""); [by apply wf_idempotency|done].
Qed.

Lemma wf_trigger_zones kind now idem zones s :
  kind ∈ rotation_kinds -> well_formed s ->
  well_formed (fold_left (trigger_zone kind now idem) zones s).
Proof.
  intros Hk. revert s. induction zones as [|z zones IH]; intros s Hs; cbn; [done|].
  apply IH. unfold trigger_zone. apply well_formed_put; [done|].
  split_and!; [done|by apply rotation_named|by apply begun_legal].
Qed.

Lemma keeps_wf_canonical kind byName names :
  keeps wf_kept (trigger_canonical c kind byName names).
Proof. apply keeps_unchanged. intros w. apply trigger_canonical_data. Qed.
#[local] Hint Resolve keeps_wf_canonical : keeps.

Lemma wf_Trigger kind zones idem :
  kind ∈ rotation_kinds -> keeps wf_kept (Trigger c kind zones idem).
Proof.
  intros Hk. unfold Trigger, trigger_commit. repeat keeps_step.
  apply Update_wf. intros s wd. unfold unless_replayed. repeat wp_step; try done.
  - split; [done|]. by intros ? [= <-].
  - apply first_busy_wp. intros o w' Hd _. destruct o as [[]| |]; [|done..]. wp_step.
    split; [done|]. intros ? [= <-] Hs. by apply wf_idempotency, wf_trigger_zones.
Qed.

Lemma keeps_wf_resume_all st kind byName names :
  keeps wf_kept (resume_all c st kind byName names).
Proof. apply keeps_unchanged. intros w. apply resume_all_data. Qed.
#[local] Hint Resolve keeps_wf_resume_all : keeps.

(** A stored entry whose phase is set to one of its kind's chain. *)
Lemma wf_rephase k x y s :
  well_formed s -> s.(State.Workflows) !! k = Some x ->
  y.(Workflow.Zone) = x.(Workflow.Zone) -> y.(Workflow.Kind) = x.(Workflow.Kind) ->
  well_phased y -> well_formed (put_workflow k y s).
Proof.
  intros Hs Hx Hz Hk Hp. apply well_formed_put; [done|]. destruct (Hs k x Hx) as (-> & Hn & _).
  split_and!; [congruence..|by right].
Qed.

Lemma waiting_phased y :
  y.(Workflow.Phase) = PhaseWaitPublish -> y.(Workflow.Kind) = KindSplit -> well_phased y.
Proof.
  unfold well_phased. intros -> ->. apply (bool_decide_unpack _). vm_compute. exact I.
Qed.

Lemma wf_recover now items s :
  well_formed s ->
  Forall (fun item => is_Some (s.(State.Workflows) !! WorkflowKey item.1 KindSplit)) items ->
  well_formed (fold_left (recover_workflow KindSplit now) items s).
Proof.
  revert s. induction items as [|[z w] items IH]; intros s Hs Hall; cbn; [done|].
  apply Forall_cons in Hall as [[x Hx] Hall]. cbn in Hx. apply IH.
  - unfold recover_workflow. cbn [fst].
    assert (workflow_at s (WorkflowKey z KindSplit) = x) as -> by (unfold workflow_at; by rewrite Hx).
    eapply wf_rephase; [done|exact Hx|done..|]. apply waiting_phased; [done|].
    destruct (Hs _ _ Hx) as (Hkey & Hn & _).
    apply WorkflowKey_inj in Hkey as [_ Hxk]; [|unfold named_kinds; set_solver|done].
    by symmetry.
  - eapply Forall_impl; [exact Hall|]. intros item [x' Hx']. unfold recover_workflow.
    rewrite lookup_put_workflow. case_decide; by eexists.
Qed.

Lemma wf_Resume kind zones phase idem : keeps wf_kept (Resume c kind zones phase idem).
Proof.
  unfold Resume. repeat keeps_step. bool_prop. subst kind.
  apply Update_wf. intros s wd. unfold unless_replayed. repeat wp_step; try done.
  - split; [done|]. by intros ? [= <-].
  - split; [done|]. intros ? [= <-] Hs. apply wf_idempotency, wf_recover; [done|].
    apply Forall_forall. intros item Hitem%list_elem_of_In.
    match goal with H : List.find _ _ = None |- _ =>
      pose proof (List.find_none _ _ H _ Hitem) as Hsame end.
    cbn in Hsame. unfold same_recovery in Hsame. by destruct (State.Workflows s !! _).
Qed.

Lemma wf_Reconcile zone idem : keeps wf_kept (ReconcileSplitSignerTransition c zone idem).
Proof.
  unfold ReconcileSplitSignerTransition. repeat keeps_step.
  apply Update_wf. intros s wd. unfold unless_replayed. repeat wp_step; try done.
  - split; [done|]. by intros ? [= <-].
  - split; [done|]. intros ? [= <-] Hs. apply wf_idempotency. bool_prop.
    match goal with Hx : State.Workflows s !! _ = Some ?x |- _ => eapply (wf_rephase _ x);
      [done|exact Hx|done..|]; destruct (Hs _ _ Hx) as (_ & _ & [Hb|Hp]) end; [congruence|exact Hp].
Qed.

Lemma wf_baseline now zones s : well_formed s -> well_formed (fold_left (baseline_zone now) zones s).
Proof.
  revert s. induction zones as [|z zones IH]; intros s Hs; cbn; [done|]. apply IH.
  unfold baseline_zone. destruct (negb _); [done|]. destruct (State.Workflows s !! _); [done|].
  apply well_formed_put; [done|].
  split_and!; [done|unfold named_kinds; cbn; set_solver|apply idle_legal; unfold named_kinds; cbn; set_solver].
Qed.

Lemma wf_ArmEnrollment idem : keeps wf_kept (ArmEnrollment c idem).
Proof.
  unfold ArmEnrollment. repeat keeps_step.
  apply Update_wf. intros s wd. repeat wp_step; try done.
  split; [done|]. intros ? [= <-] Hs. by apply wf_idempotency, (wf_baseline a1 a0 s Hs).
Qed.
End WellFormed.
