(* ===== verification/Reachable.v ===== *)
(** * The reachable states: from the empty state, any sequence of ticks and operator
    requests, each with its own configuration, service answers and failures. *)
From S2P Require Import Prelude GoStrings GoTime Model Config Dns Keys Effects Wp Core.
From S2P Require Import Rollover Parent Enroll Reconcile Operator Safety TickSafety Phases Single.
From S2P Require Import Reach.

(** The state of a store that was opened on no file. *)
Definition initial_state : State.t := State.mk 1 time_zero ∅ ∅ ∅.

Lemma initial_lookup k : initial_state.(State.Workflows) !! k = None.
Proof. apply lookup_empty. Qed.

Section Instances.
Context {SV : Services} {RO : RangeOk} {DL : DnsLib} (c : Config.t).

(** A blocked workflow is not advanced. *)
Lemma advance_blocked zone keys w wd :
  w.(Workflow.Phase) = PhaseBlocked -> (advance c zone keys w wd).2.(data) = wd.(data).
Proof.
  intros Hp. change (wp (advance c zone keys w) (fun _ w' => w'.(data) = wd.(data)) wd).
  assert (phase_handler c zone keys w = None) as Hh by (unfold phase_handler; by rewrite Hp).
  unfold advance, not_due. rewrite Hh. by repeat wp_step.
Qed.

Lemma wf_advance zone keys w wd :
  well_formed wd.(data) -> wd.(data).(State.Workflows) !! own_key w = Some w ->
  zone.(Zone.Name) = w.(Workflow.Zone) -> well_formed (advance c zone keys w wd).2.(data).
Proof.
  intros Hs Hw Hz. destruct (Hs _ _ Hw) as (_ & Hn & [Hb|Hp]); [by rewrite advance_blocked|].
  destruct (follows_advance c zone keys w Hz Hp wd) as [F R _ _ _ [P O]].
  set (s := wd.(data)) in *. set (s' := (advance c zone keys w wd).2.(data)) in *.
  assert (Hat : workflow_at s (own_key w) = w) by (unfold workflow_at; by rewrite Hw).
  intros k x Hx. destruct (decide (k = own_key w)) as [->|Hk].
  - assert (Hx' : workflow_at s' (own_key w) = x) by (unfold workflow_at; by rewrite Hx).
    rewrite Hat, Hx' in *. assert (x.(Workflow.Zone) = w.(Workflow.Zone) /\
      x.(Workflow.Kind) = w.(Workflow.Kind)) as [Hxz Hxk] by tauto.
    split_and!; [unfold own_key; congruence|congruence|].
    unfold legal, well_phased in *. rewrite Hxk.
    destruct P as [->|[->|Hstep]]; [by right|by right|]. by apply (well_phased_step _ _ _ Hstep).
  - destruct (decide (k ∈ role_keys w)) as [Hr|Hr]; [|apply Hs; by rewrite <- F].
    destruct (R k Hk Hr) as [E|(y & Hy & Hyk & _ & Hidle & Hyn)]; [apply Hs; by rewrite <- E|].
    rewrite Hx in Hy. simplify_eq. split_and!; [done..|by apply idle_legal].
Qed.

Lemma wf_ensure_idle zone now s kind :
  kind ∈ named_kinds -> well_formed s -> well_formed (ensure_idle zone now s kind).
Proof.
  intros Hk Hs. unfold ensure_idle. destruct (_ !! _); [done|].
  apply well_formed_put; [done|]. split_and!; [done..|by apply idle_legal].
Qed.
Lemma wf_bootstrap_roles zone scheme now s :
  well_formed s -> well_formed (bootstrap_roles zone scheme now s).
Proof.
  intros Hs. unfold bootstrap_roles. cbn [fold_left].
  repeat case_match; repeat apply wf_ensure_idle; try done; unfold named_kinds; set_solver.
Qed.

Lemma enroll_named : KindEnroll ∈ named_kinds.
Proof. unfold named_kinds. set_solver. Qed.
Lemma discovered_legal x :
  x.(Workflow.Phase) = PhaseEnrollDiscovered -> x.(Workflow.Kind) = KindEnroll -> legal x.
Proof.
  intros Hp Hk. right. unfold well_phased. rewrite Hp, Hk. apply (bool_decide_unpack _).
  vm_compute. exact I.
Qed.

Lemma wf_bootstrap zone scheme keys wd :
  well_formed wd.(data) -> well_formed (bootstrap c zone scheme keys wd).2.(data).
Proof.
  intros Hs.
  assert (Hput : forall now x, x.(Workflow.Zone) = zone.(Zone.Name) ->
    x.(Workflow.Kind) = KindEnroll -> legal x ->
    well_formed (put_workflow (WorkflowKey zone.(Zone.Name) KindEnroll) x
                  (bootstrap_roles zone.(Zone.Name) scheme now wd.(data)))).
  { intros now x Hz Hk Hl. apply well_formed_put; [by apply wf_bootstrap_roles|].
    split_and!; [by rewrite Hz, Hk|rewrite Hk; apply enroll_named|done]. }
  change (wp (bootstrap c zone scheme keys) (fun _ w' => well_formed w'.(data)) wd).
  unfold bootstrap. repeat wp_step.
  all: try (split; intros); wp_simpl; try done; try by apply wf_bootstrap_roles.
  all: apply Hput; try done.
  all: try by apply idle_legal; [|apply enroll_named].
  all: try by left.
  all: destruct (validateEnrollmentInventory _ _ _ _ _ _) as [[[? ?] ?]|]; by try apply discovered_legal.
Qed.

#[export] Instance wf_tick : TickInv c well_formed.
Proof.
  split.
  - intros s s' E H k x. rewrite E. apply H.
  - intros s k x Hs Hx. destruct (Hs k x Hx) as (? & ? & _). done.
  - intros. by apply wf_bootstrap.
  - intros zone kind wd Hk Hne Hs. apply wf_start; [|done].
    unfold named_kinds, rotation_kinds in *. set_solver.
  - intros. by apply wf_advance.
  - intros zone kind x s Hs Hk _ Hz Hxk Hp. apply well_formed_put; [done|].
    split_and!; [congruence..|by left].
Qed.

(** ** Second invariant: without automatic enrollment no zone has two active workflows. *)
Definition exclusive (s : State.t) : Prop := consistent s /\ well_formed s.

Lemma consistent_block zone kind x s :
  consistent s -> kind ∈ named_kinds -> awake zone kind s \/ quiet zone s ->
  x.(Workflow.Zone) = zone -> x.(Workflow.Kind) = kind ->
  consistent (put_workflow (WorkflowKey zone kind) x s).
Proof.
  intros Hs Hk Ha Hz Hxk. destruct Ha as [(y & Hy & Hyz & Hyk & Hya)|Hq].
  - eapply consistent_rewrite; [done|exact Hy|done|congruence..].
  - rewrite <- Hz, <- Hxk. apply (quiet_put zone); [done..|congruence].
Qed.

Lemma disabled_bootstrap zone scheme keys wd :
  c.(Config.Enrollment).(Enrollment.Enabled) = false -> consistent wd.(data) ->
  consistent (bootstrap c zone scheme keys wd).2.(data).
Proof.
  intros He Hs. change (wp (bootstrap c zone scheme keys) (fun _ w' => consistent w'.(data)) wd).
  unfold bootstrap. do 3 wp_step. rewrite He. cbn [negb]. rewrite orb_true_r, orb_true_l. wp_step.
  split; intros; cbn [data]; [by apply bootstrap_roles_preserves|done].
Qed.

#[export] Instance exclusive_tick :
  c.(Config.Enrollment).(Enrollment.Enabled) = false -> TickInv c exclusive.
Proof.
  intros He. split.
  - intros s s' E [[H1 H2] H3]. split; [split|]; try (rewrite E; done).
    intros k x. rewrite E. apply H3.
  - intros s k x [_ Hs] Hx. destruct (Hs k x Hx) as (? & ? & _). done.
  - intros zone scheme keys wd [H1 H2]. split; [by apply disabled_bootstrap|by apply wf_bootstrap].
  - intros zone kind wd Hk Hne [H1 H2]. split; [by apply start_preserves|].
    apply wf_start; [|done]. unfold named_kinds, rotation_kinds in *. set_solver.
  - intros zone keys w wd [H1 H2] Hw Ha Hz. split; [|by apply wf_advance].
    destruct (H2 _ _ Hw) as (_ & _ & [Hb|Hp]); [by rewrite advance_blocked|].
    by apply advance_preserves.
  - intros zone kind x s [H1 H2] Hk Ha Hz Hxk Hp. split; [by apply consistent_block|].
    apply well_formed_put; [done|]. split_and!; [congruence..|by left].
Qed.
End Instances.

(** ** Reachability *)
Section Reachability.
Context {SV : Services} {RO : RangeOk} {DL : DnsLib}.

(** The state after running [m] from state [s] in an environment [e]. *)
Definition after {A} (m : M A) (e : Env) (s : State.t) : State.t := (m (mkWorld e s [])).2.(data).

(** Every configuration the controller ran with satisfies [ok]; the control socket accepts
    only rotation kinds for Trigger (internal/control/server.go). *)
Inductive reachable (ok : Config.t -> Prop) : State.t -> Prop :=
| reachable_initial : reachable ok initial_state
| reachable_tick c e s : ok c -> reachable ok s -> reachable ok (after (Tick c) e s)
| reachable_trigger c e s kind zones idem : ok c -> kind ∈ rotation_kinds -> reachable ok s ->
    reachable ok (after (Trigger c kind zones idem) e s)
| reachable_resume c e s kind zones phase idem : ok c -> reachable ok s ->
    reachable ok (after (Resume c kind zones phase idem) e s)
| reachable_reconcile c e s zone idem : ok c -> reachable ok s ->
    reachable ok (after (ReconcileSplitSignerTransition c zone idem) e s)
| reachable_arm c e s idem : ok c -> reachable ok s ->
    reachable ok (after (ArmEnrollment c idem) e s).

Lemma reachable_wf ok s : reachable ok s -> well_formed s.
Proof.
  induction 1; unfold after.
  - intros k x Hx. by rewrite initial_lookup in Hx.
  - by apply (inv_Tick c well_formed).
  - by apply wf_Trigger.
  - by apply wf_Resume.
  - by apply wf_Reconcile.
  - by apply wf_ArmEnrollment.
Qed.

(** In every reachable state each workflow is stored under
    the key of its own zone and kind, its kind is one the program knows, and its phase is
    [blocked] or a phase of its kind's chain: no sequence of ticks and requests, with any
    configurations, service answers, lost calls and failed writes, leads to a workflow the
    controller cannot dispatch. *)
Lemma reachable_states_well_formed ok s k x :
  reachable ok s -> s.(State.Workflows) !! k = Some x ->
  k = WorkflowKey x.(Workflow.Zone) x.(Workflow.Kind) /\ x.(Workflow.Kind) ∈ named_kinds /\
  (x.(Workflow.Phase) = PhaseBlocked \/ x.(Workflow.Phase) ∈ chain x.(Workflow.Kind)).
Proof. intros Hs. exact (reachable_wf ok s Hs k x). Qed.

(** As long as automatic enrollment was never enabled, no reachable
    state has two active workflows for one zone. *)
Lemma reachable_single_active s k1 k2 x1 x2 :
  reachable (fun c => c.(Config.Enrollment).(Enrollment.Enabled) = false) s ->
  s.(State.Workflows) !! k1 = Some x1 -> s.(State.Workflows) !! k2 = Some x2 ->
  x1.(Workflow.Zone) = x2.(Workflow.Zone) -> Active x1 = true -> Active x2 = true -> k1 = k2.
Proof.
  intros Hs. assert (He : exclusive s); [|by apply consistent_single, He].
  induction Hs as [|c e s Hc Hs IH|c e s kind zones idem Hc Hk Hs IH|c e s kind zones phase idem Hc Hs IH
                  |c e s zone idem Hc Hs IH|c e s idem Hc Hs IH]; unfold after.
  - split; [split; intros *; by rewrite initial_lookup|].
    intros k x Hx. by rewrite initial_lookup in Hx.
  - pose proof (exclusive_tick c Hc). by apply (inv_Tick c exclusive).
  - destruct IH. split; [by apply Trigger_preserves; [apply rotation_named|]|by apply wf_Trigger].
  - destruct IH. split; [by apply Resume_preserves|by apply wf_Resume].
  - destruct IH. split; [by apply ReconcileSplitSignerTransition_preserves|by apply wf_Reconcile].
  - destruct IH. split; [by apply ArmEnrollment_preserves|by apply wf_ArmEnrollment].
Qed.
End Reachability.
