(* ===== verification/Lifecycle.v ===== *)
(** * The life of the process: internal/app/app.go Run with its three goroutines, controller.Run
    and the server's Serve, as one transition system.

    A step is one action of one goroutine.  A tick and the handling of a request each happen at
    once, when they end, in the order in which they take the controller's mutex. *)
From S2P Require Import Prelude GoStrings GoTime Model Config Dns Effects Core Reconcile.
From S2P Require Import Json Http Control.

(** ** fx *)
(** The two hooks in the order they are appended: newState closes the store on stop, the invoked
    function starts and stops the goroutines. *)
Inductive Hook := StateHook | RunHook.
Definition hooks : list Hook := [StateHook; RunHook].

(** The order in which fx runs the hooks of a start, and those to stop of the started ones. *)
Class Fx := {
  on_start_order : list Hook -> list Hook;
  on_stop_order : list Hook -> list Hook;
}.
Class FxOk `{!Fx} : Prop := {
  starts_in_order l : on_start_order l = l;
  stops_in_reverse l : on_stop_order l = reverse l;
}.

(** ** The goroutines *)
Inductive MainPC :=
| Starting (todo started : list Hook)                 (* app.Start *)
| Selecting                                           (* on ctx.Done() and errCh *)
| Stopping (todo : list Hook) (err : option error)    (* app.Stop, or the rollback of app.Start *)
| Returned (err : option error)
| Crashed.                                            (* a panic of the controller goroutine *)
Inductive ServerPC := ServerUnstarted | Serving | ShuttingDown | ServerEnded.
Inductive ControllerPC := ControllerUnstarted | Ticking | Waiting | ControllerEnded.

Module Process.
Section Fields.
Context {SV : Services}.
Record t := mk {
  world : World;
  nodes : gmap string Node;          (* the socket's file system *)
  main : MainPC;
  server : ServerPC;
  http : option error;               (* http.Serve has ended with this error *)
  controller : ControllerPC;
  signalled : bool;                  (* the context of Run is done *)
  cancelled : bool;                  (* cancelRun was called *)
  errCh : list error;
  in_flight : list Request.t;        (* requests whose handlers run *)
  held : bool;                       (* the lock of the state file *)
  abandoned : bool;                  (* the server has ended while handlers ran *)
}.
#[export] Instance eta_Process : Eta t := fun r => mk r.(world) r.(nodes) r.(main) r.(server) r.(http) r.(controller) r.(signalled) r.(cancelled) r.(errCh) r.(in_flight) r.(held) r.(abandoned).
#[export] Instance set_world : Field world.
Proof. derive_field eta_Process. Defined.
#[export] Instance set_nodes : Field nodes.
Proof. derive_field eta_Process. Defined.
#[export] Instance set_main : Field main.
Proof. derive_field eta_Process. Defined.
#[export] Instance set_server : Field server.
Proof. derive_field eta_Process. Defined.
#[export] Instance set_http : Field http.
Proof. derive_field eta_Process. Defined.
#[export] Instance set_controller : Field controller.
Proof. derive_field eta_Process. Defined.
#[export] Instance set_signalled : Field signalled.
Proof. derive_field eta_Process. Defined.
#[export] Instance set_cancelled : Field cancelled.
Proof. derive_field eta_Process. Defined.
#[export] Instance set_errCh : Field errCh.
Proof. derive_field eta_Process. Defined.
#[export] Instance set_in_flight : Field in_flight.
Proof. derive_field eta_Process. Defined.
#[export] Instance set_held : Field held.
Proof. derive_field eta_Process. Defined.
#[export] Instance set_abandoned : Field abandoned.
Proof. derive_field eta_Process. Defined.
End Fields.
End Process.
Export (hints) Process.

(** What a step is to an observer: an action of the process, or of its environment. *)
Inductive Action :=
| Internal                      (* a goroutine goes on *)
| RunTick
| RunRequest (r : Request.t)
| Arrive (r : Request.t)        (* a client sends a request *)
| Signal                        (* SIGINT or SIGTERM *)
| Timer                         (* the ticker of controller.Run *)
| ListenerFails
| DrainDeadline                 (* the ten seconds of Serve for Shutdown *)
| StopDeadline.                 (* the 15 seconds of Run for app.Stop *)
Definition environment (a : Action) : bool :=
  match a with
  | Internal | RunTick | RunRequest _ => false
  | _ => true
  end.

Section Life.
Context {SV : Services} {DL : DnsLib} {JE : JsonErrors} {FX : Fx} (c : Config.t).
(** The errors of the kernel and of fx, and the mode of a new socket. *)
Context (umask_mode : Z) (in_use not_directory deadline_exceeded start_cancelled : error).
Import Process.

Definition run_done (p : t) : bool := p.(signalled) || p.(cancelled).
Definition first_error (a b : option error) : option error := match a with Some _ => a | None => b end.
Definition socket_path : string := c.(Config.Controller).(ControllerCfg.Socket).

Definition ended (p : t) : bool := match p.(main) with Returned _ | Crashed => true | _ => false end.
(** A panic outside a handler ends the process, and the kernel drops its locks. *)
Definition crash_process (p : t) : t := p <| main := Crashed |> <| held := false |>.
(** The server goroutine ends, handlers or not. *)
Definition end_server (p : t) : t :=
  p <| server := ServerEnded |> <| abandoned := p.(abandoned) || negb (bool_decide (p.(in_flight) = [])) |>.

(** The hook of the invoked function, after Prepare: it starts both goroutines, or app.Start
    rolls back. *)
Definition run_hook (todo started : list Hook) (o : Outcome unit) (p : t) : t :=
  match o with
  | Val _ => p <| main := Starting todo (started ++ [RunHook]) |> <| server := Serving |> <| controller := Ticking |>
  | Fail_ e => p <| main := Stopping (on_stop_order started) (Some e) |>
  | Panic => crash_process p
  end.
(** The outcome of a tick: an error is logged. *)
Definition after_tick (o : Outcome unit) (p : t) : t :=
  match o with
  | Panic => crash_process p
  | _ => p <| controller := Waiting |>
  end.

(** One action of [Run] itself: app.Start, the select, app.Stop. *)
Inductive main_act : t -> Action -> t -> Prop :=
(** app.Start *)
| start_state p todo started :
    p.(main) = Starting (StateHook :: todo) started ->
    main_act p Internal (p <| main := Starting todo (started ++ [StateHook]) |>)
| start_run p todo started faults o w :
    p.(main) = Starting (RunHook :: todo) started ->
    Prepare umask_mode in_use not_directory socket_path (mkSocketWorld p.(nodes) faults) = (o, w) ->
    main_act p Internal (run_hook todo started o (p <| nodes := w.(Control.nodes) |>))
| start_stopped p todo started :
    p.(main) = Starting todo started -> todo <> [] -> p.(signalled) = true ->
    main_act p Signal (p <| main := Stopping (on_stop_order started) (Some start_cancelled) |>)
| start_done p started :
    p.(main) = Starting [] started ->
    main_act p Internal (p <| main := Selecting |>)
(** The select of Run *)
| select_done p :
    p.(main) = Selecting -> p.(signalled) = true ->
    main_act p Internal (p <| main := Stopping (on_stop_order hooks) None |>)
| select_error p e es :
    p.(main) = Selecting -> p.(errCh) = e :: es ->
    main_act p Internal (p <| main := Stopping (on_stop_order hooks) (Some e) |> <| cancelled := true |> <| errCh := es |>)
(** app.Stop *)
| stop_cancel p todo err :
    p.(main) = Stopping (RunHook :: todo) err -> p.(cancelled) = false ->
    main_act p Internal (p <| cancelled := true |>)
| stop_joined p todo err :
    p.(main) = Stopping (RunHook :: todo) err -> p.(cancelled) = true ->
    p.(server) = ServerEnded -> p.(controller) = ControllerEnded ->
    main_act p Internal (p <| main := Stopping todo err |>)
| stop_close p todo err closing_error :
    p.(main) = Stopping (StateHook :: todo) err ->
    main_act p Internal (p <| main := Stopping todo (first_error err closing_error) |> <| held := false |>)
| stop_done p err :
    p.(main) = Stopping [] err ->
    main_act p Internal (p <| main := Returned err |>)
| stop_deadline p todo err :
    p.(main) = Stopping todo err -> todo <> [] ->
    main_act p StopDeadline (p <| main := Returned (first_error err (Some deadline_exceeded)) |>).

(** One action of the server: a request, [http.Serve], [Serve]. *)
Inductive server_act : t -> Action -> t -> Prop :=
| request_arrives p r :
    p.(server) = Serving -> p.(http) = None ->
    server_act p (Arrive r) (p <| in_flight := r :: p.(in_flight) |>)
| request_handled p l1 r l2 :
    p.(in_flight) = l1 ++ r :: l2 ->
    server_act p (RunRequest r) (p <| in_flight := l1 ++ l2 |> <| world := (serve c r p.(world)).2 |>)
| listener_fails p e :
    p.(server) = Serving -> p.(http) = None ->
    server_act p ListenerFails (p <| http := Some e |>)
| serve_failed p e :
    p.(server) = Serving -> p.(http) = Some e ->
    server_act p Internal (end_server p <| errCh := p.(errCh) ++ [e] |>)
| serve_stopped p :
    p.(server) = Serving -> run_done p = true ->
    server_act p Internal (p <| server := ShuttingDown |>)
| shutdown_complete p :
    p.(server) = ShuttingDown -> p.(in_flight) = [] ->
    server_act p Internal (end_server p <| nodes := delete socket_path p.(nodes) |>)
| shutdown_deadline p :
    p.(server) = ShuttingDown ->
    server_act p DrainDeadline (end_server p <| nodes := delete socket_path p.(nodes) |>).

(** One action of controller.Run, which logs the errors of Tick. *)
Inductive controller_act : t -> Action -> t -> Prop :=
| tick_ends p :
    p.(controller) = Ticking ->
    controller_act p RunTick (after_tick (Tick c p.(world)).1 (p <| world := (Tick c p.(world)).2 |>))
| tick_due p :
    p.(controller) = Waiting ->
    controller_act p Timer (p <| controller := Ticking |>)
| controller_stops p :
    p.(controller) = Waiting -> run_done p = true ->
    controller_act p Internal (p <| controller := ControllerEnded |>).

Inductive act : t -> Action -> t -> Prop :=
| main_acts p a p' : main_act p a p' -> act p a p'
| server_acts p a p' : server_act p a p' -> act p a p'
| controller_acts p a p' : controller_act p a p' -> act p a p'
| signal p : act p Signal (p <| signalled := true |>).

(** Only a process that has not ended acts. *)
Definition step (p : t) (a : Action) (p' : t) : Prop := ended p = false /\ act p a p'.

(** fx has built the controller on a store opened with state [w]. *)
Definition launched (w : World) (ns : gmap string Node) : t :=
  mk w ns (Starting (on_start_order hooks) []) ServerUnstarted None ControllerUnstarted false false [] [] true false.

Inductive steps : t -> list Action -> t -> Prop :=
| steps_refl p : steps p [] p
| steps_step p a p' l p'' : step p a p' -> steps p' l p'' -> steps p (a :: l) p''.
End Life.
