(* ===== verification/LifecycleFacts.v ===== *)
(** * What holds in every state of the process: the lock of the state file covers all work, a
    stop is bounded, and whatever ticks run and requests arrive, the state stays well-formed. *)
From S2P Require Import Prelude GoStrings GoTime Model Config Dns Effects Wp Core Reconcile Operator Report Phases.
From S2P Require Import Single Reach Reachable Json Http Control ControlFacts Lifecycle.
Import Process.

(** ** The invariant of the goroutines *)
Section Facts.
Context {SV : Services} {DL : DnsLib} {JE : JsonErrors} {FX : Fx} {FO : FxOk} (c : Config.t).
Context (umask_mode : Z) (in_use not_directory deadline_exceeded start_cancelled : error).
Notation step := (step c umask_mode in_use not_directory deadline_exceeded start_cancelled).
Notation steps := (steps c umask_mode in_use not_directory deadline_exceeded start_cancelled).
Notation act := (act c umask_mode in_use not_directory deadline_exceeded start_cancelled).

(** The goroutines of the server and of the controller. *)
Definition unstarted (sv : ServerPC) (ct : ControllerPC) : Prop := sv = ServerUnstarted /\ ct = ControllerUnstarted.
Definition joined (sv : ServerPC) (ct : ControllerPC) : Prop := sv = ServerEnded /\ ct = ControllerEnded.
Definition started (sv : ServerPC) (ct : ControllerPC) : Prop := sv <> ServerUnstarted /\ ct <> ControllerUnstarted.

(** Where [Run] is, against the lock, [cancelRun] and the goroutines. *)
Definition main_ok (m : MainPC) (held cancelled : bool) (sv : ServerPC) (ct : ControllerPC) : Prop :=
  match m with
  | Starting todo done =>
      done ++ todo = hooks /\ held = true /\ cancelled = false /\
      match todo with [] => started sv ct | _ => unstarted sv ct end
  | Selecting => held = true /\ cancelled = false /\ started sv ct
  | Stopping [RunHook; StateHook] _ => held = true /\ started sv ct
  | Stopping [StateHook] None => held = true /\ joined sv ct
  | Stopping [StateHook] (Some _) => held = true /\ (joined sv ct \/ unstarted sv ct)
  | Stopping [] (Some _) => joined sv ct \/ unstarted sv ct
  | Stopping [] None | Returned None => held = false /\ joined sv ct
  | Stopping _ _ => False
  | Returned (Some _) | Crashed => True
  end.

Record sound (p : t) : Prop := {
  sound_main : main_ok p.(main) p.(held) p.(cancelled) p.(server) p.(controller);
  sound_signal : match p.(main) with Stopping _ None | Returned None => p.(signalled) = true | _ => True end;
  sound_requests : match p.(server) with
                   | ServerUnstarted => p.(in_flight) = []
                   | ServerEnded => p.(in_flight) = [] \/ p.(abandoned) = true
                   | _ => True
                   end;
  sound_channel : match p.(server) with ServerEnded => (length p.(errCh) <= 1)%nat | _ => p.(errCh) = [] end;
  sound_socket : match p.(server) with
                 | Serving | ShuttingDown => p.(nodes) !! socket_path c = Some (Socket 384)
                 | _ => True
                 end;
}.

Lemma launched_sound w ns : sound (launched w ns).
Proof. split; cbn; try done. rewrite starts_in_order. by repeat split. Qed.

Lemma hooks_split todo done :
  done ++ todo = hooks ->
  (done = [] /\ todo = [StateHook; RunHook]) \/ (done = [StateHook] /\ todo = [RunHook]) \/
  (done = [StateHook; RunHook] /\ todo = []).
Proof. unfold hooks. destruct done as [|? [|? [|]]]; naive_solver. Qed.

(** A goroutine runs only beside the other one. *)
Lemma main_ok_running m h k sv ct :
  main_ok m h k sv ct -> match m with Returned _ | Crashed => False | _ => True end ->
  ~ unstarted sv ct -> ~ joined sv ct -> started sv ct.
Proof. unfold main_ok. intros Hm He Hu Hj. repeat case_match; naive_solver. Qed.
Lemma main_ok_goroutines m h k sv ct sv' ct' :
  main_ok m h k sv ct -> ~ unstarted sv ct -> ~ joined sv ct -> started sv' ct' -> main_ok m h k sv' ct'.
Proof. unfold main_ok. intros Hm Hu Hj Hs. repeat case_match; naive_solver. Qed.

(** The cases of a step, in the order of the definition. *)
Ltac act_cases Ha :=
  destruct Ha as [p a p' Ha|p a p' Ha|p a p' Ha|p];
  [destruct Ha as [p todo dn E|p todo dn faults o w E Ho|p todo dn E Ht Hsg|p dn E|p E Hsg|p e es E Hch|p todo err E Hn
     |p todo err E Hn Hsv Hct|p todo err ce E|p err E|p todo err E Ht]
  |destruct Ha as [p r Hsv Hh|p l1 r l2 El|p e Hsv Hh|p e Hsv Hh|p Hsv Hd|p Hsv Hd|p Hsv]
  |destruct Ha as [p Hct|p Hct|p Hct Hd]
  |].

Lemma main_ok_step p a p' :
  sound p -> step p a p' -> main_ok p'.(main) p'.(held) p'.(cancelled) p'.(server) p'.(controller).
Proof.
  intros [Hm Hs Hr Hc Hk] [He Ha]. clear Hr Hc Hk. unfold ended in He.
  assert (Hgo : forall sv ct, ~ unstarted (server p) (controller p) -> ~ joined (server p) (controller p) ->
    (started (server p) (controller p) -> started sv ct) -> main_ok (main p) (held p) (cancelled p) sv ct).
  { intros sv ct Hu Hj Hst. apply (main_ok_goroutines _ _ _ _ _ _ _ Hm); [done..|]. apply Hst.
    apply (main_ok_running _ _ _ _ _ Hm); [by destruct (main p)|done..]. }
  act_cases Ha; unfold run_hook, after_tick, end_server, crash_process; record_simpl; try rewrite E in *.
  - destruct Hm as (Hd & Hh & Hn & Hg). destruct (hooks_split _ _ Hd) as [[-> E']|[[-> E']|[-> E']]]; simplify_eq.
    cbn. by split_and!.
  - destruct Hm as (Hd & Hh & Hn & Hg). destruct (hooks_split _ _ Hd) as [[-> E']|[[-> E']|[-> E']]]; simplify_eq.
    destruct o; record_simpl; rewrite ?stops_in_reverse; cbn; unfold started; auto 10.
  - destruct Hm as (Hd & Hh & Hn & Hg). rewrite stops_in_reverse.
    destruct (hooks_split _ _ Hd) as [[-> E']|[[-> E']|[-> E']]]; simplify_eq; cbn; auto.
  - destruct Hm as (Hd & Hh & Hn & Hg). cbn. auto.
  - destruct Hm as (Hh & Hn & Hg). rewrite stops_in_reverse. cbn. auto.
  - destruct Hm as (Hh & Hn & Hg). rewrite stops_in_reverse. cbn. auto.
  - by destruct todo as [|[] [|]].
  - destruct todo as [|[] [|]]; cbn in Hm; try done. destruct Hm. destruct err; cbn; unfold joined; auto.
  - destruct todo as [|[] todo]; destruct err as [e|], ce as [e'|]; cbn in *; tauto.
  - destruct err; [done|exact Hm].
  - by destruct err.
  - done.
  - done.
  - done.
  - apply Hgo; unfold unstarted, joined, started; rewrite Hsv; naive_solver.
  - apply Hgo; unfold unstarted, joined, started; rewrite Hsv; naive_solver.
  - apply Hgo; unfold unstarted, joined, started; rewrite Hsv; naive_solver.
  - apply Hgo; unfold unstarted, joined, started; rewrite Hsv; naive_solver.
  - destruct (Tick c (world p)).1; record_simpl; [| |done]; apply Hgo; unfold unstarted, joined, started; rewrite Hct; naive_solver.
  - apply Hgo; unfold unstarted, joined, started; rewrite Hct; naive_solver.
  - apply Hgo; unfold unstarted, joined, started; rewrite Hct; naive_solver.
  - done.
Qed.

Lemma main_ok_serving m h k sv ct :
  main_ok m h k sv ct -> sv = Serving \/ sv = ShuttingDown -> match m with Returned _ | Crashed => True | _ => h = true end.
Proof. unfold main_ok, joined, unstarted. intros Hm Hs. repeat case_match; naive_solver. Qed.
Lemma main_ok_working m h k sv ct :
  main_ok m h k sv ct -> ct = Ticking \/ ct = Waiting -> match m with Returned _ | Crashed => True | _ => h = true end.
Proof. unfold main_ok, joined, unstarted. intros Hm Hs. repeat case_match; naive_solver. Qed.

Context (Hpath : socket_dir (socket_path c) <> socket_path c).

Ltac step_cases Ha :=
  act_cases Ha;
  unfold run_hook, after_tick, end_server, crash_process, first_error;
  try match goal with o : Outcome unit |- _ => destruct o; record_simpl end; try match goal with |- context [(Tick c (world ?q)).1] => destruct (Tick c (world q)).1 end; record_simpl.

(** Before the second hook ran, no goroutine runs. *)
Lemma unstarted_before p todo dn :
  sound p -> p.(main) = Starting (RunHook :: todo) dn -> p.(server) = ServerUnstarted.
Proof. intros [Hm _ _ _ _] E. rewrite E in Hm. apply Hm. Qed.

Lemma signal_step p a p' :
  sound p -> step p a p' ->
  match p'.(main) with Stopping _ None | Returned None => p'.(signalled) = true | _ => True end.
Proof.
  intros [_ Hs _ _ _] [_ Ha]. step_cases Ha; try rewrite E in Hs; try done; try (by case_match);
    try (by destruct err, ce); try (by rewrite E).
  repeat case_match; done.
Qed.

Lemma requests_step p a p' :
  sound p -> step p a p' ->
  match p'.(server) with
  | ServerUnstarted => p'.(in_flight) = []
  | ServerEnded => p'.(in_flight) = [] \/ p'.(abandoned) = true
  | _ => True
  end.
Proof.
  intros [_ _ Hr _ _] [_ Ha]. step_cases Ha; try done; try (by rewrite Hsv).
  - rewrite El in Hr. destruct (server p); try done; [by destruct l1|]. right. destruct Hr; [by destruct l1|done].
  - case_bool_decide; [by left|]. right. apply orb_true_r.
  - by left.
  - case_bool_decide; [by left|]. right. apply orb_true_r.
Qed.

Lemma channel_step p a p' :
  sound p -> step p a p' ->
  match p'.(server) with ServerEnded => (length p'.(errCh) <= 1)%nat | _ => p'.(errCh) = [] end.
Proof.
  intros Hp [_ Ha]. pose proof (sound_channel _ Hp) as Hc. step_cases Ha; try done; try (by rewrite Hsv in Hc).
  - by rewrite (unstarted_before _ _ _ Hp E) in Hc.
  - rewrite Hch in Hc. destruct (server p); try done. cbn in Hc. lia.
  - rewrite Hsv in Hc. by rewrite Hc.
  - rewrite Hsv in Hc. rewrite Hc. cbn. lia.
  - rewrite Hsv in Hc. rewrite Hc. cbn. lia.
Qed.

Lemma served_socket_step p a p' :
  sound p -> step p a p' ->
  match p'.(server) with
  | Serving | ShuttingDown => p'.(nodes) !! socket_path c = Some (Socket 384)
  | _ => True
  end.
Proof.
  intros Hp [_ Ha]. pose proof (sound_socket _ Hp) as Hk. step_cases Ha; try done; try (by rewrite Hsv in Hk).
  - pose proof (socket_protected umask_mode in_use not_directory _ (mkSocketWorld p.(nodes) faults) Hpath) as (_ & _ & H).
    rewrite Ho in H. by destruct (H (f_equal Val (match a with tt => eq_refl end))).
  - by rewrite (unstarted_before _ _ _ Hp E).
  - by rewrite (unstarted_before _ _ _ Hp E).
Qed.

Lemma sound_step p a p' : sound p -> step p a p' -> sound p'.
Proof.
  intros Hp Hst. split; [by eapply main_ok_step|by eapply signal_step|by eapply requests_step|by eapply channel_step
    |by eapply served_socket_step].
Qed.

Lemma act_tick p p' : act p RunTick p' -> p.(controller) = Ticking.
Proof. intros Ha. inversion Ha as [? ? ? H|? ? ? H|? ? ? H|]; inversion H; subst; done. Qed.
Lemma act_arrive p r p' : act p (Arrive r) p' -> p.(server) = Serving.
Proof. intros Ha. inversion Ha as [? ? ? H|? ? ? H|? ? ? H|]; inversion H; subst; done. Qed.
Lemma act_request p r p' : act p (RunRequest r) p' -> exists l1 l2, p.(in_flight) = l1 ++ r :: l2.
Proof. intros Ha. inversion Ha as [? ? ? H|? ? ? H|? ? ? H|]; inversion H; subst; eauto. Qed.

Lemma sound_steps p l p' : sound p -> steps p l p' -> sound p'.
Proof. intros Hp H. induction H as [|p a p' l p'' Hst H IH]; [done|]. by eapply IH, sound_step. Qed.

(** C17: in every process [Run] may become, by any interleaving of its goroutines
    with signals, timers, requests, failures and deadlines: a tick runs only while the process holds
    the lock of the state file; a request is accepted only while it holds the lock and the control
    socket has mode 0600; a request is handled only under the lock, unless the server had ended
    around it, by a broken listener or at the deadline of its shutdown; an error of the server
    always finds room in the channel; and when [Run] returns nil it was told to stop, both
    goroutines have ended and the lock is released. *)
Theorem lock_covers_work w ns l p a p' :
  steps (launched w ns) l p -> step p a p' ->
  (a = RunTick -> p.(held) = true) /\
  (forall r, a = Arrive r -> p.(held) = true /\ p.(nodes) !! socket_path c = Some (Socket 384)) /\
  (forall r, a = RunRequest r -> p.(held) = true \/ p.(abandoned) = true) /\
  (length p.(errCh) < 2)%nat /\
  (p'.(main) = Returned None -> p'.(signalled) = true /\ joined p'.(server) p'.(controller) /\ p'.(held) = false).
Proof.
  intros Hl Hst. pose proof (sound_steps _ _ _ (launched_sound w ns) Hl) as Hp.
  pose proof (sound_step _ _ _ Hp Hst) as [Hm' Hs' _ _ _]. destruct Hp as [Hm _ Hr Hc Hk], Hst as [He Ha].
  assert (Hsv : server p = Serving \/ server p = ShuttingDown -> held p = true).
  { intros H. pose proof (main_ok_serving _ _ _ _ _ Hm H) as H'. unfold ended in He. by destruct (main p). }
  assert (Hct : controller p = Ticking \/ controller p = Waiting -> held p = true).
  { intros H. pose proof (main_ok_working _ _ _ _ _ Hm H) as H'. unfold ended in He. by destruct (main p). }
  split_and!.
  - intros ->. apply Hct. left. by eapply act_tick.
  - intros r ->. pose proof (act_arrive _ _ _ Ha) as E. rewrite E in Hk. split; [apply Hsv; by left|exact Hk].
  - intros r ->. destruct (act_request _ _ _ Ha) as (l1 & l2 & El).
    destruct (server p); [by rewrite Hr in El; destruct l1|left; auto|left; auto|].
    destruct Hr as [Hr|Hr]; [by rewrite Hr in El; destruct l1|by right].
  - destruct (server p); [rewrite Hc; cbn; lia..|lia].
  - intros E. rewrite E in Hm', Hs'. by destruct Hm'.
Qed.

(** ** Stopping *)
Definition stop_distance (cancelled : bool) (todo : list Hook) : nat :=
  S (sum_list_with (fun h => match h with RunHook => if cancelled then 1 else 2 | StateHook => 1 end)%nat todo).
Definition main_distance (cancelled : bool) (m : MainPC) : nat :=
  match m with
  | Starting todo _ => (length todo + 7)%nat
  | Selecting => 6
  | Stopping todo _ => stop_distance cancelled todo
  | Returned _ | Crashed => 0
  end.
Definition server_distance (sv : ServerPC) : nat :=
  match sv with ServerUnstarted => 3 | Serving => 2 | ShuttingDown => 1 | ServerEnded => 0 end.
Definition controller_distance (ct : ControllerPC) : nat :=
  match ct with ControllerUnstarted => 3 | Ticking => 2 | Waiting => 1 | ControllerEnded => 0 end.
(** How many actions of its own a process has before it at most. *)
Definition distance (p : t) : nat :=
  (main_distance p.(cancelled) p.(main) + server_distance p.(server) + controller_distance p.(controller)
   + length p.(in_flight))%nat.

Lemma stop_distance_le cancelled todo : (stop_distance true todo <= stop_distance cancelled todo <= S (2 * length todo))%nat.
Proof. unfold stop_distance. induction todo as [|[] todo IH]; destruct cancelled; cbn in *; lia. Qed.

Lemma own_step_distance p a p' :
  sound p -> step p a p' -> environment a = false -> (distance p' < distance p)%nat.
Proof.
  intros [Hm _ _ _ _] [He Ha] Hown. unfold distance.
  assert (Hpos : (1 <= main_distance (cancelled p) (main p))%nat).
  { unfold ended in He. destruct (main p); try done; cbn; unfold stop_distance; lia. }
  pose proof (fun todo => stop_distance_le (cancelled p) todo) as Hle.
  step_cases Ha; try done; try rewrite E in *; try rewrite Hsv; try rewrite Hct; rewrite ?stops_in_reverse;
    try (rewrite El, !length_app; cbn; lia); cbn [main_distance server_distance controller_distance length]; try lia.
  - destruct Hm as (_ & _ & _ & [-> ->]). cbn. lia.
  - destruct Hm as (Hd & _). specialize (Hle (reverse dn)). apply (f_equal length) in Hd.
    rewrite length_app in Hd. cbn in Hd. rewrite length_reverse in Hle. lia.
  - destruct (cancelled p); cbn; lia.
  - cbn. lia.
  - rewrite Hn. specialize (Hle todo). unfold stop_distance in *. cbn. rewrite Hn in Hle. lia.
  - rewrite Hn. unfold stop_distance. cbn. lia.
  - unfold stop_distance. cbn. lia.
  - unfold stop_distance. cbn. lia.
Qed.

(** A process told to stop always has an action of its own left, until it has ended. *)
Lemma own_step_exists p :
  sound p -> run_done p = true -> ended p = false -> exists a p', environment a = false /\ step p a p'.
Proof.
  intros [Hm Hs _ _ _] Hd He. unfold ended in He.
  assert (Hgo : started (server p) (controller p) -> ~ joined (server p) (controller p) ->
    exists a p', environment a = false /\ act p a p').
  { intros [Hsv Hct] Hj. destruct (server p) eqn:E; [done| | |].
    - exists Internal. eexists. split; [done|]. by apply server_acts, serve_stopped.
    - destruct (in_flight p) as [|r l] eqn:El.
      + exists Internal. eexists. split; [done|]. by apply server_acts, shutdown_complete.
      + exists (RunRequest r). eexists. split; [done|]. by apply server_acts, (request_handled _ p [] r l).
    - destruct (controller p) eqn:Ec; [done| | |by destruct Hj].
      + exists RunTick. eexists. split; [done|]. by apply controller_acts, tick_ends.
      + exists Internal. eexists. split; [done|]. by apply controller_acts, controller_stops. }
  assert (H : exists a p', environment a = false /\ act p a p');
    [|destruct H as (a & p' & Ha & H); exists a, p'; split; [done|]; split; [by unfold ended|done]].
  destruct (main p) as [todo dn| |todo err|err|] eqn:E; try done.
  - destruct todo as [|[] todo]; exists Internal; eexists; (split; [done|]).
    + by eapply main_acts, start_done.
    + by eapply main_acts, start_state.
    + eapply main_acts, (start_run _ _ _ _ _ _ p todo dn []); [done|apply surjective_pairing].
  - exists Internal. destruct Hm as (_ & Hn & _). unfold run_done in Hd. rewrite Hn, orb_false_r in Hd.
    eexists. split; [done|]. by apply main_acts, select_done.
  - destruct todo as [|[] todo].
    + exists Internal. eexists. split; [done|]. by apply main_acts, stop_done.
    + exists Internal. eexists. split; [done|]. by apply main_acts, (stop_close _ _ _ _ _ _ p todo err None).
    + destruct (cancelled p) eqn:Hn; [|exists Internal; eexists; split; [done|]; by eapply main_acts, stop_cancel].
      destruct todo as [|[] [|]]; try done. destruct Hm as [_ Hst].
      assert (joined (server p) (controller p) \/ ~ joined (server p) (controller p)) as [[]|Hj]
        by (unfold joined; destruct (server p), (controller p); naive_solver); [|by apply Hgo].
      exists Internal. eexists. split; [done|]. by eapply main_acts, stop_joined.
Qed.

Lemma run_done_step p a p' : step p a p' -> run_done p = true -> run_done p' = true.
Proof.
  unfold run_done. intros [_ Ha] H. step_cases Ha; rewrite ?orb_true_r; done.
Qed.

Lemma distance_bound p : sound p -> (distance p <= 15 + length p.(in_flight))%nat.
Proof.
  intros [Hm _ _ _ _]. unfold distance.
  assert (Hd : (main_distance (cancelled p) (main p) <= 9)%nat).
  { pose proof (fun todo => stop_distance_le (cancelled p) todo) as Hle.
    destruct (main p) as [todo dn| |todo err|err|]; cbn [main_distance]; try lia.
    - destruct Hm as [Hh _]. apply (f_equal length) in Hh. rewrite length_app in Hh. cbn in Hh. lia.
    - specialize (Hle todo). destruct todo as [|[] [|[] [|]]]; try done; cbn [length] in Hle; lia. }
  destruct (server p), (controller p); cbn; lia.
Qed.

Lemma own_steps_distance p l p' :
  sound p -> steps p l p' -> Forall (fun a => environment a = false) l ->
  (length l + distance p' <= distance p)%nat.
Proof.
  intros Hp H. induction H as [|p a p' l p'' Hst H IH]; intros Hown; [done|].
  apply Forall_cons in Hown as [Ha Hown]. specialize (IH (sound_step _ _ _ Hp Hst) Hown).
  pose proof (own_step_distance _ _ _ Hp Hst Ha). cbn. lia.
Qed.

(** C18: once told to stop (a signal, or a failure of the server), [Run] cannot hang:
    by its own actions alone, without a new request, timer or deadline, the process never gets stuck
    before it has ended, and it ends after at most 15 of them and one more for every request whose
    handler runs. *)
Theorem shutdown_bounded w ns l p l' p' :
  steps (launched w ns) l p -> run_done p = true ->
  steps p l' p' -> Forall (fun a => environment a = false) l' ->
  (length l' <= 15 + length p.(in_flight))%nat /\
  (ended p' = true \/ exists a p'', environment a = false /\ step p' a p'').
Proof.
  intros Hl Hd Hl' Hown. pose proof (sound_steps _ _ _ (launched_sound w ns) Hl) as Hp. split.
  - pose proof (own_steps_distance _ _ _ Hp Hl' Hown). pose proof (distance_bound p Hp). lia.
  - assert (Hd' : run_done p' = true).
    { clear -Hl' Hd. induction Hl' as [|p a p' l p'' Hst H IH]; [done|]. by eapply IH, run_done_step. }
    destruct (ended p') eqn:He; [by left|right]. by apply own_step_exists; [by eapply sound_steps|..].
Qed.

(** ** The state *)
Context {RO : RangeOk}.

Lemma decode_kind r req : decode r = Ok req -> RotationRequest.Kind req ∈ rotation_kinds.
Proof.
  unfold decode. intros H. ok_inv H. simplify_eq. unfold rotation_kinds, rotation_kind in *.
  apply negb_false_iff in Hguard. rewrite !orb_true_iff, !Prelude.eqb_true in Hguard. rewrite !elem_of_cons. tauto.
Qed.

(** An invariant of the state, kept by the controller's requests, is kept by every answer. *)
Section Serving.
Context (I : State.t -> Prop).
Definition kept (s s' : State.t) : Prop := I s -> I s'.
#[local] Instance kept_refl : Reflexive kept.
Proof. intros s H. exact H. Qed.
#[local] Instance kept_trans : Transitive kept.
Proof. unfold kept. intros s1 s2 s3 H1 H2 H. auto. Qed.

Lemma kept_inert {A} (m : M A) : inert m -> keeps kept m.
Proof. intros [_ H] wd. by rewrite <- (H wd). Qed.
Lemma kept_respond {A} (m : M A) bad good : keeps kept m -> keeps kept (respond m bad good).
Proof.
  intros H. unfold respond. apply keeps_bind; [apply _|by apply keeps_try|intros; apply keeps_ret; apply _].
Qed.

Hypothesis kept_Trigger : forall kind zones idem, kind ∈ rotation_kinds -> keeps kept (Trigger c kind zones idem).
Hypothesis kept_Resume : forall kind zones phase idem, keeps kept (Resume c kind zones phase idem).
Hypothesis kept_Reconcile : forall zone idem, keeps kept (ReconcileSplitSignerTransition c zone idem).
Hypothesis kept_Arm : forall idem, keeps kept (ArmEnrollment c idem).

Lemma kept_serve r : keeps kept (serve c r).
Proof.
  assert (Hret : forall x, keeps kept (ret (A := Response.t) x)) by (intros; apply keeps_ret; apply _).
  destruct (reports_inert c) as (Hz & Hst & Hau).
  unfold serve. apply keeps_bind; [apply _| |done]. unfold mux.
  destruct (List.find _ _) as [[[m p] h]|] eqn:Hf; [|done].
  apply List.find_some in Hf as [Hin _]. cbn [fst snd]. destruct (method_matches _ _); [|done].
  cbn in Hin. repeat (destruct Hin as [Hin|Hin]; [simplify_eq|]); try done.
  all: unfold healthz, ready, status, zones, audit, plan, trigger, resume, reconcileSplitSigner, armEnrollment;
    cbv zeta; repeat case_match; try done; apply kept_respond; try by apply kept_inert.
  - apply kept_Trigger. by eapply decode_kind.
  - apply kept_Resume.
  - apply kept_Reconcile.
  - apply kept_Arm.
Qed.

Hypothesis kept_Tick : forall wd, I wd.(data) -> I (Tick c wd).2.(data).

Lemma kept_steps p l p' : steps p l p' -> I p.(world).(data) -> I p'.(world).(data).
Proof.
  induction 1 as [|p a p' l p'' [_ Ha] Hl IH]; [done|]. intros H. apply IH. clear IH Hl.
  step_cases Ha; try done; [by apply kept_serve|by apply kept_Tick..].
Qed.
End Serving.

End Facts.
