(* ===== verification/Steps.v ===== *)
(** * Runs as sequences of service calls.

    [svc_step] is one call: the services move to a new state and the event, if the call
    has one, is appended to the trace; [world_step] is the same with the published state.
    [runs m] says that every run of [m] is a sequence of calls; an invariant of the services
    and the trace that every call keeps is then kept by the whole controller
    ([runs_invariant]). *)
From S2P Require Import Prelude GoStrings GoTime Model Config Dns Keys Effects Wp Core.
From S2P Require Import Rollover Parent Enroll Reconcile Operator.

Section Steps.
Context {SV : Services}.

(** A call: its state change and, given the answer, its event. *)
Inductive svc_call : forall A, (Env -> result A * Env) -> (result A -> Event) -> Prop :=
| call_ListZones : svc_call _ svc_ListZones EvListZones
| call_GetZone z : svc_call _ (svc_GetZone z) (EvGetZone z)
| call_ListKeys z : svc_call _ (svc_ListKeys z) (EvListKeys z)
| call_CreateKey z t a b : svc_call _ (svc_CreateKey z t a b) (EvCreateKey z t a b)
| call_SetKey z k a b : svc_call _ (svc_SetKey z k a b) (EvSetKey z k a b)
| call_DeleteKey z i : svc_call _ (svc_DeleteKey z i) (EvDeleteKey z i)
| call_DomainDNSSEC z : svc_call _ (svc_DomainDNSSEC z) (EvDomainDNSSEC z)
| call_UpdateDNSSEC z d i : svc_call _ (svc_UpdateDNSSEC z d i) (EvUpdateDNSSEC z d i)
| call_JobStatus i : svc_call _ (svc_JobStatus i) (EvJobStatus i)
| call_DNSKEYEvidence z ks : svc_call _ (svc_DNSKEYEvidence z ks) (EvDNSKEYEvidence z ks)
| call_AuthoritativeDNSKEYEvidence z ks :
    svc_call _ (svc_AuthoritativeDNSKEYEvidence z ks) (EvAuthoritativeDNSKEYEvidence z ks)
| call_NoDSEvidence z : svc_call _ (svc_NoDSEvidence z) (EvNoDSEvidence z)
| call_DSEvidence z ks : svc_call _ (svc_DSEvidence z ks) (EvDSEvidence z ks)
| call_AuthoritativeDSEvidence z ks :
    svc_call _ (svc_AuthoritativeDSEvidence z ks) (EvAuthoritativeDSEvidence z ks)
| call_RRSIGBy z k : svc_call _ (svc_RRSIGBy z k) (EvRRSIGBy z k)
| call_AuthoritativeRRSIGBy z k :
    svc_call _ (svc_AuthoritativeRRSIGBy z k) (EvAuthoritativeRRSIGBy z k)
| call_DNSKEYRRSIGBy z k : svc_call _ (svc_DNSKEYRRSIGBy z k) (EvDNSKEYRRSIGBy z k)
| call_AuthoritativeDNSKEYRRSIGBy z k :
    svc_call _ (svc_AuthoritativeDNSKEYRRSIGBy z k) (EvAuthoritativeDNSKEYRRSIGBy z k)
| call_DelegationEvidence z l : svc_call _ (svc_DelegationEvidence z l) (EvDelegationEvidence z l)
| call_Send n : svc_call _ (svc_Send n) (EvSend n)
| call_writeAtomic s : svc_call _ (svc_writeAtomic s) (EvPersist s).

Inductive svc_step : Env * list Event -> Env * list Event -> Prop :=
| step_call A op ev e tr : svc_call A op ev -> svc_step (e, tr) ((op e).2, ev (op e).1 :: tr)
| step_Now e tr : svc_step (e, tr) ((svc_Now e).2, EvNow (svc_Now e).1 :: tr)
| step_range_workflows m e tr : svc_step (e, tr) ((svc_range_workflows m e).2, tr)
| step_range_notifications m e tr : svc_step (e, tr) ((svc_range_notifications m e).2, tr).

Definition outside (w : World) : Env * list Event := (w.(env), w.(trace)).

(** The same, with the state the store publishes: only a successful write replaces it. *)
Definition is_persist (ev : Event) : bool := match ev with EvPersist _ _ => true | _ => false end.
Definition committed (ev : Event) (s : State.t) : State.t :=
  match ev with EvPersist clone (Ok _) => clone | _ => s end.

(** Whatever is written has the version of the state it replaces. *)
Definition same_version (s s' : State.t) : Prop := s'.(State.Version) = s.(State.Version).
Definition written_version (ev : Event) (s : State.t) : Prop :=
  match ev with EvPersist clone _ => same_version s clone | _ => True end.

Inductive world_step (w : World) : World -> Prop :=
| world_quiet e' :
    svc_step (outside w) (e', w.(trace)) -> world_step w (mkWorld e' w.(data) w.(trace))
| world_event e' ev :
    svc_step (outside w) (e', ev :: w.(trace)) -> written_version ev w.(data) ->
    world_step w (mkWorld e' (committed ev w.(data)) (ev :: w.(trace))).

Definition runs {A} (m : M A) : Prop := forall w, rtc world_step w (m w).2.

Lemma world_step_outside w w' : world_step w w' -> svc_step (outside w) (outside w').
Proof. by destruct 1. Qed.
Lemma runs_outside {A} (m : M A) w : runs m -> rtc svc_step (outside w) (outside (m w).2).
Proof. intros H. refine (rtc_congruence outside _ _ _ _ (H w)). exact world_step_outside. Qed.

Lemma world_step_version w w' : world_step w w' -> same_version w.(data) w'.(data).
Proof. destruct 1 as [|e1 ev Hs Hv]; [done|]. cbn. destruct ev; cbn; try done. by case_match. Qed.
Lemma run_version w w' : rtc world_step w w' -> same_version w.(data) w'.(data).
Proof.
  induction 1 as [|w1 w2 w3 H _ IH]; [done|]. apply world_step_version in H. unfold same_version in *. congruence.
Qed.

(** Every value [m] returns satisfies [S]. *)
Definition results {A} (S : A -> Prop) (m : M A) : Prop := forall w a, (m w).1 = Val a -> S a.
Lemma results_ret {A} (S : A -> Prop) a : S a -> results S (ret a).
Proof. intros H w b [= <-]. exact H. Qed.
Lemma results_fail {A} (S : A -> Prop) e : results S (fail e).
Proof. by intros w a. Qed.
Lemma results_panic {A} (S : A -> Prop) : results S panic.
Proof. by intros w a. Qed.
Lemma results_bind {A B} (S : B -> Prop) (m : M A) (k : A -> M B) :
  (forall a, results S (k a)) -> results S (bind m k).
Proof. intros Hk w b. unfold bind. destruct (m w) as [[a|e|] w1]; [apply Hk|done..]. Qed.

Lemma runs_ret {A} (a : A) : runs (ret a).
Proof. intros w. apply rtc_refl. Qed.
Lemma runs_fail {A} e : runs (fail (A := A) e).
Proof. intros w. apply rtc_refl. Qed.
Lemma runs_panic {A} : runs (panic (A := A)).
Proof. intros w. apply rtc_refl. Qed.
Lemma runs_lift {A} (r : result A) : runs (lift r).
Proof. intros w. apply rtc_refl. Qed.
Lemma runs_Snapshot : runs Snapshot.
Proof. intros w. apply rtc_refl. Qed.
Lemma runs_call {A} (op : Env -> result A * Env) ev :
  svc_call A op ev -> (forall r, is_persist (ev r) = false) -> runs (call op ev).
Proof.
  intros H Hc w. unfold call. pose proof (step_call A op ev (env w) (trace w) H) as Hs.
  destruct (op (env w)) as [r e']. cbn in *. apply rtc_once. specialize (Hc r).
  assert (Hw := world_event w e' (ev r) Hs). by destruct (ev r); try (by apply Hw).
Qed.
Lemma runs_Now : runs Now.
Proof.
  intros w. unfold Now. pose proof (step_Now (env w) (trace w)) as Hs.
  destruct (svc_Now (env w)) as [t e']. apply rtc_once. exact (world_event w e' (EvNow t) Hs I).
Qed.
Lemma runs_range_workflows m : runs (range_workflows m).
Proof.
  intros w. unfold range_workflows. pose proof (step_range_workflows m (env w) (trace w)) as Hs.
  destruct (svc_range_workflows m (env w)) as [l e']. apply rtc_once. exact (world_quiet w e' Hs).
Qed.
Lemma runs_range_notifications m : runs (range_notifications m).
Proof.
  intros w. unfold range_notifications.
  pose proof (step_range_notifications m (env w) (trace w)) as Hs.
  destruct (svc_range_notifications m (env w)) as [l e']. apply rtc_once. exact (world_quiet w e' Hs).
Qed.
Lemma runs_bind {A B} (m : M A) (k : A -> M B) :
  runs m -> (forall a, runs (k a)) -> runs (bind m k).
Proof.
  intros Hm Hk w. specialize (Hm w). unfold bind. destruct (m w) as [[a|e|] w1]; try done.
  etrans; [exact Hm|apply Hk].
Qed.
Lemma runs_try {A} (m : M A) : runs m -> runs (try m).
Proof. intros Hm w. specialize (Hm w). unfold try. by destruct (m w) as [[]]. Qed.
Lemma runs_wrap {A} f (m : M A) : runs m -> runs (wrap f m).
Proof. intros Hm w. specialize (Hm w). unfold wrap. by destruct (m w) as [[]]. Qed.
Lemma runs_Update fn :
  (forall s, runs (fn s)) -> (forall s, results (same_version s) (fn s)) -> runs (Update fn).
Proof.
  intros Hf Hv w. specialize (Hf w.(data) w). specialize (Hv w.(data) w). unfold Update.
  destruct (fn (data w) w) as [[s|e|] w1]; try done. etrans; [exact Hf|]. apply rtc_once.
  apply run_version in Hf. specialize (Hv s eq_refl). cbn in Hf. unfold same_version in *.
  pose proof (step_call _ _ _ (env w1) (trace w1) (call_writeAtomic s)) as Hs.
  destruct (svc_writeAtomic s (env w1)) as [[[]|e] e'];
    refine (world_event w1 _ _ Hs _); unfold written_version, same_version; congruence.
Qed.

Lemma runs_invariant (I : Env -> list Event -> Prop) {A} (m : M A) w :
  (forall e tr e' tr', svc_step (e, tr) (e', tr') -> I e tr -> I e' tr') ->
  runs m -> I w.(env) w.(trace) -> I (m w).2.(env) (m w).2.(trace).
Proof.
  intros Hstep Hm. pose proof (runs_outside m w Hm) as Hr. unfold outside in Hr.
  remember (env w, trace w) as x eqn:Ex. remember (env (m w).2, trace (m w).2) as y eqn:Ey.
  assert (H : I x.1 x.2 -> I y.1 y.2).
  { clear Ex Ey. induction Hr as [x|[e tr] [e1 tr1] y Hs _ IH]; [done|]. intros HI.
    apply IH. eapply Hstep; eauto. }
  by subst.
Qed.

Lemma svc_step_trace e tr e' tr' :
  svc_step (e, tr) (e', tr') -> tr' = tr \/ exists ev, tr' = ev :: tr.
Proof. inversion 1; subst; eauto. Qed.

(** The moment of an event: the run up to it, and the call that produced it. *)
Lemma runs_moment {A} (m : M A) w n1 ev past :
  runs m -> w.(trace) = [] -> (m w).2.(trace) = n1 ++ ev :: past ->
  exists e1 e2, rtc svc_step (w.(env), []) (e1, past) /\ svc_step (e1, past) (e2, ev :: past).
Proof.
  intros Hm Hw Ht. pose proof (runs_outside m w Hm) as Hr. unfold outside in Hr. rewrite Hw, Ht in Hr.
  assert (Hall : forall y, rtc svc_step (w.(env), []) y -> forall n1, y.2 = n1 ++ ev :: past ->
    exists e1 e2, rtc svc_step (w.(env), []) (e1, past) /\ svc_step (e1, past) (e2, ev :: past)).
  { apply (rtc_ind_r (fun y => forall n1, y.2 = n1 ++ ev :: past -> exists e1 e2,
      rtc svc_step (w.(env), []) (e1, past) /\ svc_step (e1, past) (e2, ev :: past)));
      [intros [|? ?] E; done|].
    intros [e tr] [e' tr'] H Hs IH n E. cbn in E. subst tr'.
    destruct (svc_step_trace _ _ _ _ Hs) as [E|[ev' E]]; [by apply (IH n)|].
    destruct n as [|a n]; injection E as -> E; [subst tr; by exists e, e'|by apply (IH n)]. }
  by apply (Hall _ Hr n1).
Qed.
End Steps.

(** ** Mutations keep the version *)
Lemma version_put_workflow s s' k x : same_version s s' -> same_version s (put_workflow k x s').
Proof. done. Qed.
Lemma version_put_idempotency s s' k x : same_version s s' -> same_version s (put_idempotency k x s').
Proof. done. Qed.
Lemma version_put_notification s s' k x : same_version s s' -> same_version s (put_notification k x s').
Proof. done. Qed.
Lemma version_delete_notifications s s' l : same_version s s' -> same_version s (delete_notifications l s').
Proof. done. Qed.
Lemma version_armed s s' t : same_version s s' -> same_version s (s' <| State.EnrollmentArmedAt := t |>).
Proof. done. Qed.
Lemma version_fold {A} (f : State.t -> A -> State.t) s s' l :
  (forall s1 x, same_version s s1 -> same_version s (f s1 x)) -> same_version s s' ->
  same_version s (fold_left f l s').
Proof. intros H. revert s'. induction l as [|x l IH]; intros s' Hs; [done|]. cbn. auto. Qed.
Lemma version_if (b : bool) s s1 s2 : same_version s s1 -> same_version s s2 -> same_version s (if b then s1 else s2).
Proof. by destruct b. Qed.
Lemma version_ensure_idle zone now s s' kind : same_version s s' -> same_version s (ensure_idle zone now s' kind).
Proof. intros H. unfold ensure_idle. by case_match. Qed.
Lemma version_bootstrap_roles zone scheme now s s' :
  same_version s s' -> same_version s (bootstrap_roles zone scheme now s').
Proof. intros H. unfold bootstrap_roles. cbn. repeat case_match; by repeat apply version_ensure_idle. Qed.

Create HintDb versions.
#[export] Hint Resolve version_put_workflow version_put_idempotency version_put_notification
  version_delete_notifications version_armed version_fold version_if version_ensure_idle
  version_bootstrap_roles : versions.
#[export] Hint Extern 0 (same_version ?s ?s) => reflexivity : versions.

Ltac versions_step :=
  cbv beta zeta;
  lazymatch goal with
  | |- forall _, _ => intros
  | |- results _ (bind _ _) => apply results_bind
  | |- results _ (ret _) => apply results_ret
  | |- results _ (fail _) => apply results_fail
  | |- results _ panic => apply results_panic
  | |- results _ (match (match ?x with _ => _ end) with _ => _ end) => destruct x
  | |- results _ (match ?x with _ => _ end) => destruct x
  | |- results _ ?m => let h := head_of m in progress unfold h
  | |- same_version _ _ => solve [ eauto 20 with versions ]
  end.
Ltac versions_auto := repeat versions_step.

Create HintDb runs.
#[export] Hint Constructors svc_call : runs.

Ltac runs_step :=
  lazymatch goal with
  | |- forall _, _ => intros
  | |- svc_call _ _ _ => constructor
  | |- is_persist _ = _ => reflexivity
  | |- results _ _ => solve [versions_auto]
  | |- runs ?m =>
      lazymatch m with
      | bind _ _ => apply runs_bind
      | try _ => apply runs_try
      | wrap _ _ => apply runs_wrap
      | Update _ => apply runs_Update
      | call _ _ => apply runs_call
      | Now => apply runs_Now
      | ret _ => apply runs_ret
      | fail _ => apply runs_fail
      | panic => apply runs_panic
      | lift _ => apply runs_lift
      | Snapshot => apply runs_Snapshot
      | range_workflows _ => apply runs_range_workflows
      | range_notifications _ => apply runs_range_notifications
      | match ?x with _ => _ end => destruct x
      | _ => first [ solve [eauto with runs nocore]
                   | let h := head_of m in progress unfold h; cbv beta zeta ]
      end
  end.
Ltac runs_auto := repeat (cbv beta zeta; runs_step); try done.

Section Program.
Context {SV : Services} {DL : DnsLib} (c : Config.t).

Lemma runs_transition w phase next mutate :
  (forall x, runs (mutate x)) -> runs (transition w phase next mutate).
Proof. intros H. unfold transition. runs_auto; apply H. Qed.
Lemma runs_block {A} zone kind reason : runs (block (A := A) c zone kind reason).
Proof. runs_auto. Qed.
Lemma runs_recordRetry w e : runs (recordRetry w e).
Proof. runs_auto. Qed.
Lemma runs_complete w : runs (complete c w).
Proof. unfold complete. runs_auto. Qed.
Lemma runs_start zone kind manual idem : runs (start zone kind manual idem).
Proof. runs_auto. Qed.
Lemma runs_bootstrap zone scheme keys : runs (bootstrap c zone scheme keys).
Proof. unfold bootstrap. runs_auto. Qed.
End Program.
#[export] Hint Resolve runs_block runs_recordRetry runs_complete runs_start runs_bootstrap : runs.

Section Handlers.
Context {SV : Services} {DL : DnsLib} (c : Config.t).

Lemma runs_transition_now w phase mutate :
  (forall x, runs (mutate x)) -> runs (transition_now w phase mutate).
Proof. intros H. unfold transition_now. runs_auto; apply H. Qed.
Lemma runs_transition_after w phase wait mutate :
  (forall x, runs (mutate x)) -> runs (transition_after w phase wait mutate).
Proof. intros H. unfold transition_after. runs_auto; apply H. Qed.
End Handlers.

(** The same, with the phase transitions. *)
Ltac handler_step :=
  lazymatch goal with
  | |- runs (transition_now _ _ _) => apply runs_transition_now
  | |- runs (transition_after _ _ _ _) => apply runs_transition_after
  | |- runs (transition _ _ _ _) => apply runs_transition
  | _ => runs_step
  end.
Ltac handler_auto := repeat (cbv beta zeta; handler_step); try done.

Section PhaseHandlers.
Context {SV : Services} {DL : DnsLib} (c : Config.t).

Lemma runs_adoptOrCreate zone keys w typ algorithm oldID active csk slot :
  runs (adoptOrCreate zone keys w typ algorithm oldID active csk slot).
Proof. unfold adoptOrCreate. handler_auto. Qed.
Hint Resolve runs_adoptOrCreate : runs.
Lemma runs_signer_evidence zone keys w : runs (validateSplitSignerTransitionEvidence c zone keys w).
Proof. unfold validateSplitSignerTransitionEvidence. handler_auto. Qed.
Hint Resolve runs_signer_evidence : runs.
Lemma runs_enrollment_evidence zone keys ksk zsk b : runs (validateEnrollmentEvidence c zone keys ksk zsk b).
Proof. unfold validateEnrollmentEvidence. handler_auto. Qed.
Hint Resolve runs_enrollment_evidence : runs.
Lemma runs_follow_job name key w phase what : runs (follow_job c name key w phase what).
Proof. unfold follow_job. handler_auto. Qed.
Hint Resolve runs_follow_job : runs.

(** Every phase handler. *)
Lemma runs_phase_handler zone keys w handler :
  phase_handler c zone keys w = Some handler -> runs handler.
Proof.
  unfold phase_handler. destruct (Workflow.Phase w); intros [= <-];
    [unfold prepublish|unfold waitPublish|unfold activateNew|unfold waitNewSignature
    |unfold deactivateOld|unfold parentReplace|unfold waitParentReplace|unfold waitRetire
    |unfold deleteOld|unfold enrollDiscovered|unfold enrollWaitPublish|unfold enrollParentAdd
    |unfold enrollWaitParent]; handler_auto.
Qed.

Lemma runs_advance zone keys w : runs (advance c zone keys w).
Proof.
  unfold advance. apply runs_bind; [unfold not_due; runs_auto|]. intros []; [runs_auto|].
  destruct (phase_handler c zone keys w) as [handler|] eqn:E; [|runs_auto].
  apply runs_phase_handler in E. runs_auto.
Qed.
Hint Resolve runs_advance : runs.
Lemma runs_reconcileZone zone : runs (reconcileZone c zone).
Proof. unfold reconcileZone. runs_auto. Qed.
Hint Resolve runs_reconcileZone : runs.

Lemma runs_deliver_all now st ids : runs (deliver_all now st ids).
Proof. induction ids as [|id ids IH]; cbn; unfold deliver_one; runs_auto. Qed.
Lemma runs_tick_zones st zones seen errs : runs (tick_zones c st zones seen errs).
Proof.
  revert seen errs. induction zones as [|z zones IH]; intros; cbn; unfold tick_zone; runs_auto; apply IH.
Qed.
Lemma runs_block_vanished seen ws errs : runs (block_vanished c seen ws errs).
Proof. revert errs. induction ws as [|x ws IH]; intros; cbn; runs_auto; apply IH. Qed.
Hint Resolve runs_deliver_all runs_tick_zones runs_block_vanished : runs.

Lemma runs_Tick : runs (Tick c).
Proof. unfold Tick, deliverNotifications, return_joined. runs_auto. Qed.

End PhaseHandlers.

#[export] Hint Resolve runs_Tick : runs.

(** ** Operator requests and reports *)
Section Requests.
Context {SV : Services} {DL : DnsLib} (c : Config.t).

Lemma version_baseline_zone now s s' z : same_version s s' -> same_version s (baseline_zone now s' z).
Proof. intros H. unfold baseline_zone. by repeat case_match. Qed.
Lemma version_trigger_zone kind now idem s s' z :
  same_version s s' -> same_version s (trigger_zone kind now idem s' z).
Proof. done. Qed.
Lemma version_recover_workflow kind now s s' item :
  same_version s s' -> same_version s (recover_workflow kind now s' item).
Proof. intros H. unfold recover_workflow. by repeat case_match. Qed.
Hint Resolve version_baseline_zone version_trigger_zone version_recover_workflow : versions.

Lemma runs_unless_replayed idem fp s k : runs k -> runs (unless_replayed idem fp s k).
Proof. intros H. unfold unless_replayed. runs_auto. Qed.
Hint Resolve runs_unless_replayed : runs.
Lemma runs_trigger_canonical kind byName names : runs (trigger_canonical c kind byName names).
Proof. induction names as [|n names IH]; cbn; runs_auto; apply IH. Qed.
Lemma runs_first_busy ws zones : runs (first_busy ws zones).
Proof. induction zones as [|z zones IH]; cbn; runs_auto; apply IH. Qed.
Lemma runs_resume_all st kind byName names : runs (resume_all c st kind byName names).
Proof. induction names as [|n names IH]; cbn; unfold resume_zone; runs_auto; apply IH. Qed.
Hint Resolve runs_trigger_canonical runs_first_busy runs_resume_all : runs.

Lemma runs_ArmEnrollment idem : runs (ArmEnrollment c idem).
Proof. unfold ArmEnrollment, unless_replayed. runs_auto. Qed.
Lemma runs_Trigger kind zones idem : runs (Trigger c kind zones idem).
Proof. unfold Trigger, trigger_commit, unless_replayed. runs_auto. Qed.
Lemma runs_Resume kind zones phase idem : runs (Resume c kind zones phase idem).
Proof. unfold Resume, unless_replayed. runs_auto. Qed.
Lemma runs_ReconcileSplitSignerTransition zone idem :
  runs (ReconcileSplitSignerTransition c zone idem).
Proof. unfold ReconcileSplitSignerTransition, unless_replayed. runs_auto. Qed.
End Requests.
