(* ===== verification/ProbeBounds.v ===== *)
(** * Termination of the probe: whatever the servers answer, a referral loop included, every
    operation ends after a bounded number of exchanges. *)
From S2P Require Import Prelude GoStrings GoTime Model Dns Keys Effects Probe ProbeFacts Evidence.

(** ** A logic of costs *)
Section Costs.
Context {PL : ProbeLib} {NW : Network}.

(** The exchanges among the entries of a log. *)
Definition asked (l : list NetEvent) : nat :=
  length (List.filter (fun ev => match ev with Exchanged _ _ _ => true | Clock _ => false end) l).
Lemma asked_app l l' : asked (l ++ l') = (asked l + asked l')%nat.
Proof. unfold asked. by rewrite List.filter_app, length_app. Qed.

(** [m] makes at most [n] exchanges, and its result satisfies [S]. *)
Definition costs {A} (n : nat) (m : NetM A) (S : A -> Prop) : Prop := forall w, exists new,
  (m w).2.(log) = new ++ w.(log) /\ (asked new <= n)%nat /\ forall a, (m w).1 = Val a -> S a.

Lemma costs_ret {A} (a : A) (S : A -> Prop) : S a -> costs 0 (ret a) S.
Proof. intros H w. exists []. split_and!; [done..|]. by intros ? [= <-]. Qed.
Lemma costs_fail {A} e (S : A -> Prop) : costs 0 (fail e) S.
Proof. intros w. by exists []. Qed.
Lemma costs_panic {A} (S : A -> Prop) : costs 0 panic S.
Proof. intros w. by exists []. Qed.
Lemma costs_lift {A} (r : result A) : costs 0 (lift r) (fun _ => True).
Proof. intros w. by exists []. Qed.
Lemma costs_NetNow : costs 0 NetNow (fun _ => True).
Proof. intros w. unfold NetNow. destruct (net_Now _) as [t n]. by exists [Clock t]. Qed.
Lemma costs_ctx_Err : costs 0 ctx_Err (fun _ => True).
Proof. intros w. by exists []. Qed.
Lemma costs_Exchange q server :
  costs 1 (ExchangeContext q server) (fun r => exists s n, (net_ExchangeContext q s n).1 = Ok r).
Proof.
  intros w. unfold ExchangeContext. destruct (net_ExchangeContext q server (net w)) as [r n'] eqn:E.
  exists [Exchanged q server r]. split_and!; [done|cbn; lia|]. cbn. intros a Ha. exists server, (net w).
  rewrite E. cbn. by destruct r; simplify_eq/=.
Qed.

Lemma costs_weaken {A} n n' (m : NetM A) (S S' : A -> Prop) :
  costs n m S -> (n <= n')%nat -> (forall a, S a -> S' a) -> costs n' m S'.
Proof. intros H Hn HS w. destruct (H w) as (new & E & Hl & Ha). exists new. split_and!; [done|lia|auto]. Qed.
Lemma costs_more {A} n n' (m : NetM A) S : costs n m S -> (n <= n')%nat -> costs n' m S.
Proof. intros H Hn. by eapply costs_weaken. Qed.
Lemma costs_bind {A B} n k (m : NetM A) (f : A -> NetM B) S S' :
  costs n m S -> (forall a, S a -> costs k (f a) S') -> costs (n + k) (bind m f) S'.
Proof.
  intros Hm Hf w. destruct (Hm w) as (new & E & Hl & Ha). unfold bind.
  destruct (m w) as [[a|e|] w1]; cbn in *; [|by exists new; split_and!; [|lia|]..].
  destruct (Hf a (Ha a eq_refl) w1) as (new' & E' & Hl' & Ha'). exists (new' ++ new).
  rewrite E', E, app_assoc, asked_app. split_and!; [done|lia|done].
Qed.
Lemma costs_try {A} n (m : NetM A) S :
  costs n m S -> costs n (try m) (fun r => match r with Ok a => S a | Err _ => True end).
Proof.
  intros Hm w. destruct (Hm w) as (new & E & Hl & Ha). exists new. unfold try.
  destruct (m w) as [[a|e|] w1]; cbn in *; split_and!; try done; intros ? [= <-]; [by apply Ha|done].
Qed.
Lemma costs_wrap {A} n f (m : NetM A) S : costs n m S -> costs n (wrap f m) S.
Proof.
  intros Hm w. destruct (Hm w) as (new & E & Hl & Ha). exists new. unfold wrap.
  by destruct (m w) as [[a|e|] w1].
Qed.
Lemma costs_for_each {A} n (l : list A) (f : A -> NetM unit) :
  (forall x, costs n (f x) (fun _ => True)) -> costs (length l * n) (for_each l f) (fun _ => True).
Proof.
  intros Hf. induction l as [|x l IH]; cbn [length for_each Nat.mul]; [by apply costs_ret|].
  eapply costs_bind; [apply Hf|by intros].
Qed.
Lemma costs_for_fold {A B} n (l : list A) (acc : B) (f : B -> A -> NetM B) (R : nat -> B -> Prop) i :
  (forall i b x, R i b -> costs n (f b x) (R (i + 1)%nat)) -> R i acc ->
  costs (length l * n) (for_fold l acc f) (R (i + length l)%nat).
Proof.
  intros Hf. revert i acc. induction l as [|x l IH]; intros i acc Ha; cbn [length for_fold Nat.mul].
  - rewrite Nat.add_0_r. by apply costs_ret.
  - eapply costs_bind; [by apply Hf|]. intros b Hb. rewrite <- Nat.add_1_l, Nat.add_assoc. by apply IH.
Qed.
End Costs.

(** ** The operations, on a network whose answers have at most [m] records in a section *)
Section Bounds.
Context {PL : ProbeLib} {NW : Network} {NR : NetRangeOk} (p : Probe) (m : nat).

(** A message of 65535 bytes holds at most 5957 records. *)
Definition small (r : Msg.t) : Prop :=
  (length r.(Msg.Answer) <= m)%nat /\ (length r.(Msg.Ns) <= m)%nat /\ (length r.(Msg.Extra) <= m)%nat.
Definition small_answers : Prop := forall q s n r, (net_ExchangeContext q s n).1 = Ok r -> small r.

Context (Hsmall : small_answers).

Lemma costs_ret_any {A} n (a : A) (R : A -> Prop) : R a -> costs n (ret a) R.
Proof. intros H. eapply costs_weaken; [by apply costs_ret|lia|done]. Qed.
Lemma costs_fail_any {A} n e (R : A -> Prop) : costs n (fail e) R.
Proof. eapply costs_weaken; [apply (costs_fail e R)|lia|done]. Qed.

Lemma costs_attempts n q server : costs (S n) (exchange_attempts n q server) small.
Proof.
  induction n as [|n IH]; cbn [exchange_attempts]; (eapply (costs_bind 1); [apply costs_try, costs_Exchange|]);
    (intros [r|e] Hr; [destruct Hr as (s & w & Hr); apply costs_ret_any; by eapply Hsmall|]).
  - eapply (costs_bind 0 0); [apply costs_ctx_Err|]. intros [ce|] _; apply costs_fail.
  - eapply (costs_bind 0); [apply costs_ctx_Err|]. intros [ce|] _; [apply costs_fail_any|exact IH].
Qed.

Lemma costs_query server name typ recursive : costs 3 (query server name typ recursive) small.
Proof.
  unfold query. eapply (costs_bind 3 0); [apply costs_attempts|]. intros r Hr.
  destruct (_ =? _); [by apply costs_ret|apply costs_fail].
Qed.

Lemma addresses_length keep rrs : (length (addresses keep rrs) <= length rrs)%nat.
Proof. unfold addresses. induction rrs as [|rr rrs IH]; cbn; [lia|]. case_match; cbn; lia. Qed.

Lemma unique_length l : (length (unique l) <= length l)%nat.
Proof.
  unfold unique. generalize (@nil string) as seen. induction l as [|x l IH]; intros seen; cbn; [lia|].
  case_bool_decide; cbn; [specialize (IH seen)|specialize (IH (x :: seen))]; lia.
Qed.

Lemma referral_names_size ns : (size (referral_names ns) <= length ns)%nat.
Proof.
  unfold referral_names. assert (H : forall ns names, (size (fold_left (fun names rr =>
    match rr with
    | RR_NS h target =>
        <[ToLower (Fqdn target) := IsSubDomain (ToLower (Fqdn (RR_Header.Name h))) (ToLower (Fqdn target))]> names
    | _ => names
    end) ns names) <= size (names : gmap string bool) + length ns)%nat); [|etrans; [apply (H ns ∅)|rewrite map_size_empty; lia]].
  clear ns. induction ns as [|rr ns IH]; intros names; cbn [fold_left length]; [lia|].
  etrans; [apply IH|]. case_match; try lia.
  match goal with |- context [insert ?k _ _] => destruct (names !! k) eqn:E end.
  - rewrite map_size_insert_Some by eauto. lia.
  - rewrite map_size_insert_None by done. lia.
Qed.

(** The most servers a referral adds. *)
Definition branching : nat := m + 2 * m * m.

Lemma costs_referralServers r :
  small r -> costs (6 * m) (referralServers p r) (fun l => (length l <= branching)%nat).
Proof.
  intros (_ & Hns & Hex). unfold referralServers. cbv zeta. set (names := referral_names _).
  pose proof (addresses_length (fun owner => default false (names !! ToLower owner)) r.(Msg.Extra)) as Ha.
  destruct (Nat.ltb 0 _).
  { apply costs_ret_any. etrans; [apply unique_length|]. unfold branching. lia. }
  eapply (costs_weaken (0 + (m * 6 + 0)) _ _ (fun l => (length l <= branching)%nat)); [|lia|done].
  eapply (costs_bind 0 _ _ _ (fun l => (length l <= m)%nat)).
  { intros w. exists []. unfold range_names. destruct (net_range names (net w)) as [l n'] eqn:E. cbn.
    split_and!; [done|lia|]. intros a [= <-]. pose proof (net_range_perm names (net w)) as Hp. rewrite E in Hp.
    apply Permutation_length in Hp. cbn in Hp. rewrite Hp, length_map_to_list.
    etrans; [apply referral_names_size|done]. }
  intros entries Hen. eapply (costs_bind _ 0 _ _ (fun out => (length out <= m * (2 * m))%nat)).
  2: { intros out Hout. apply costs_ret. etrans; [apply unique_length|]. unfold branching. lia. }
  eapply (costs_weaken (length entries * 6) _ _ (fun out => (length out <= (0 + length entries) * (2 * m))%nat));
    [|lia|intros out Hout; nia].
  apply (costs_for_fold 6 _ _ _ (fun i out => (length out <= i * (2 * m))%nat)); [|cbn; lia].
  intros i out [name b] Hout.
  eapply (costs_weaken (2 * 3) _ _ (fun o => (length o <= length out + (0 + 2) * m)%nat)); [|lia|intros o Ho; nia].
  apply (costs_for_fold 3 [TypeA; TypeAAAA] out _ (fun j o => (length o <= length out + j * m)%nat)); [|lia].
  intros j o typ Ho. destruct (resolvers p) as [|resolver ?]; [eapply costs_more; [apply costs_panic|lia]|].
  eapply (costs_bind 3 0); [apply costs_try, costs_query|]. intros [resp|e] Hr; apply costs_ret; [|nia].
  rewrite length_app. pose proof (addresses_length (fun _ => true) resp.(Msg.Answer)). destruct Hr as [Hr _]. nia.
Qed.

Lemma costs_verifyNoDS response name resolver requireAA :
  costs 3 (verifyNoDS response name resolver requireAA) (fun _ => True).
Proof.
  unfold verifyNoDS. cbv zeta. destruct (_ && _); [apply costs_fail_any|].
  destruct (hasType _ _); [apply costs_fail_any|]. destruct (_ || _); [apply costs_fail_any|].
  eapply (costs_bind 3 0); [apply costs_wrap, costs_query|]. intros ks _.
  destruct (negb _); [apply costs_fail|]. eapply (costs_bind 0 0); [apply costs_lift|]. intros keys _.
  destruct (Nat.eqb _ _); [apply costs_fail|]. eapply (costs_bind 0 0); [apply costs_NetNow|]. intros now _.
  apply costs_lift.
Qed.

(** ** Rounds *)
(** Asking one server of a round. *)
Definition step_cost : nat := 6 + 6 * m.
Definition grows (i : nat) (r : Round.t) : Prop := (length (Round.referrals r) <= i * branching)%nat.

Lemma grows_refer i l r : grows i r -> (length l <= branching)%nat -> grows (i + 1) (Round.refer l r).
Proof. unfold grows, Round.refer. cbn. rewrite length_app. nia. Qed.
Lemma grows_same i r r' : grows i r -> Round.referrals r' = Round.referrals r -> grows (i + 1) r'.
Proof. unfold grows. intros H ->. nia. Qed.

Ltac round_ret := apply costs_ret_any; by eapply grows_same.

Lemma costs_ds_step name want i acc server :
  grows i acc -> costs step_cost (ds_step p name want acc server) (grows (i + 1)).
Proof.
  intros Ha. unfold ds_step, step_cost. eapply (costs_bind 6); [eapply costs_more; [apply costs_try, costs_query|lia]|].
  intros [r|e] Hr; [|round_ret]. destruct (hasType _ _).
  { destruct (exactDS _ _ _ _); round_ret. }
  eapply costs_more; [eapply (costs_bind _ 0); [by apply costs_referralServers|]|lia].
  intros next Hn. destruct (Nat.ltb _ _); [by apply costs_ret, grows_refer|].
  destruct (hasType _ _); [apply costs_fail|round_ret].
Qed.

Lemma costs_delegation_step name want i acc server :
  grows i acc -> costs step_cost (delegation_step p name want acc server) (grows (i + 1)).
Proof.
  intros Ha. unfold delegation_step, step_cost. eapply (costs_bind 6); [eapply costs_more; [apply costs_try, costs_query|lia]|].
  intros [r|e] Hr; [|round_ret]. cbv zeta. destruct (Nat.ltb _ _).
  { destruct (_ != _); [apply costs_fail_any|round_ret]. }
  eapply costs_more; [eapply (costs_bind _ 0); [by apply costs_referralServers|]|lia].
  intros next Hn. by apply costs_ret, grows_refer.
Qed.

Lemma costs_no_ds_step name first i acc server :
  grows i acc -> costs step_cost (no_ds_step p name first acc server) (grows (i + 1)).
Proof.
  intros Ha. unfold no_ds_step, step_cost. eapply costs_more; [eapply (costs_bind 3 (3 + 6 * m)); [apply costs_try, costs_query|]|lia].
  intros [r|e] Hr; [|round_ret]. destruct (hasType _ _); [apply costs_fail_any|]. destruct (hasType _ _).
  { eapply (costs_bind 3); [apply costs_try, costs_verifyNoDS|]. intros [[]|e] _; round_ret. }
  eapply costs_more; [eapply (costs_bind _ 0); [by apply costs_referralServers|]|lia].
  intros next Hn. by apply costs_ret, grows_refer.
Qed.

(** The most exchanges of a lookup that may still go [depth] levels down from [servers]
    servers. *)
Fixpoint lookup_bound (depth servers : nat) : nat :=
  match depth with
  | O => 0
  | S depth' => servers * step_cost + lookup_bound depth' (servers * branching)
  end.
Lemma lookup_bound_mono depth a b : (a <= b)%nat -> (lookup_bound depth a <= lookup_bound depth b)%nat.
Proof.
  revert a b. induction depth as [|depth IH]; intros a b H; cbn [lookup_bound]; [lia|].
  specialize (IH (a * branching)%nat (b * branching)%nat ltac:(nia)). nia.
Qed.

(** One round of any of the lookups. *)
Lemma costs_round (step : Round.t -> string -> NetM Round.t) servers depth {A} (next : Round.t -> NetM A) R :
  (forall i acc server, grows i acc -> costs step_cost (step acc server) (grows (i + 1))) ->
  (forall r, grows (length servers) r -> costs (lookup_bound depth (length servers * branching)) (next r) R) ->
  costs (lookup_bound (S depth) (length servers)) (bind (for_fold servers Round.initial step) next) R.
Proof.
  intros Hs Hn. cbn [lookup_bound]. eapply costs_bind; [|exact Hn].
  apply (costs_for_fold _ _ _ _ grows 0); [done|]. unfold grows. cbn. lia.
Qed.

(** The round after this one. *)
Lemma costs_next {A} depth n r (next : list string -> NetM A) R :
  grows n r -> (forall l, costs (lookup_bound depth (length l)) (next l) R) ->
  costs (lookup_bound depth (n * branching)) (next (unique (Round.referrals r))) R.
Proof.
  intros Hg H. eapply costs_more; [apply H|]. apply lookup_bound_mono. etrans; [apply unique_length|exact Hg].
Qed.

Lemma costs_ds_rounds depth name want servers :
  costs (lookup_bound depth (length servers)) (ds_rounds p depth name want servers) (fun _ => True).
Proof.
  revert servers. induction depth as [|depth IH]; intros servers; [apply costs_fail|]. cbn [ds_rounds].
  apply costs_round; [apply costs_ds_step|]. intros r Hr.
  destruct (_ && _); [by apply costs_ret_any|]. destruct (0 <? _); [apply costs_fail_any|].
  destruct (Round.last r); [apply costs_fail_any|]. pose proof (costs_next depth _ r _ _ Hr IH) as H.
  destruct (unique _); [apply costs_fail_any|exact H].
Qed.
Lemma costs_delegation_rounds depth name want servers :
  costs (lookup_bound depth (length servers)) (delegation_rounds p depth name want servers) (fun _ => True).
Proof.
  revert servers. induction depth as [|depth IH]; intros servers; [apply costs_fail|]. cbn [delegation_rounds].
  apply costs_round; [apply costs_delegation_step|]. intros r Hr.
  destruct (2 <=? _); [by apply costs_ret_any|]. destruct (0 <? _); [apply costs_fail_any|].
  pose proof (costs_next depth _ r _ _ Hr IH) as H.
  destruct (unique _); [destruct (Round.last r); apply costs_fail_any|exact H].
Qed.
Lemma costs_no_ds_rounds depth name first servers :
  costs (lookup_bound depth (length servers)) (no_ds_rounds p depth name first servers) (fun _ => True).
Proof.
  revert servers. induction depth as [|depth IH]; intros servers; [apply costs_fail|]. cbn [no_ds_rounds].
  apply costs_round; [apply costs_no_ds_step|]. intros r Hr.
  destruct (2 <=? _); [by apply costs_ret_any|]. destruct (0 <? _); [apply costs_fail_any|].
  pose proof (costs_next depth _ r _ _ Hr IH) as H.
  destruct (unique _); [destruct (Round.last r); apply costs_fail_any|exact H].
Qed.

(** ** The operations of the observer *)
Definition ask_all : nat := 3 * (1 + length p.(authoritative) + length p.(resolvers)).

Lemma costs_dnskeyEvidence zone b keys : costs ask_all (dnskeyEvidence p zone b keys) (fun _ => True).
Proof.
  unfold dnskeyEvidence, ask_all. cbv zeta.
  eapply costs_more; [|instantiate (1 := (0 + (3 + (length p.(authoritative) * 3 + (length p.(resolvers) * 3 + 0))))%nat); lia].
  eapply (costs_bind 0); [apply costs_lift|]. intros expected _.
  eapply (costs_bind 3).
  { apply costs_wrap. eapply (costs_bind 3 0); [apply costs_query|]. intros r Hr.
    eapply (costs_bind 0 0); [apply costs_lift|]. intros _ _. by apply costs_ret. }
  intros local _. eapply costs_bind.
  { apply (costs_for_fold 3 _ _ _ (fun _ _ => True) 0); [|done]. intros i ttl server _.
    eapply (costs_bind 3 0); [|intros; by apply costs_ret]. apply costs_wrap.
    eapply (costs_bind 3 0); [apply costs_query|]. intros r Hr.
    eapply (costs_bind 0 0); [apply costs_lift|]. intros _ _. by apply costs_ret. }
  intros ttl _. eapply (costs_bind _ 0 _ _ (fun _ => True)); [|intros _ _; destruct (_ =? _); [apply costs_fail|by apply costs_ret]].
  destruct b; [|by apply costs_ret_any]. apply costs_for_each. intros resolver. apply costs_wrap.
  eapply (costs_bind 3 0); [apply costs_query|]. intros r _. apply costs_lift.
Qed.

Lemma costs_verifySignature name typ key b : costs ask_all (verifySignature p name typ key b) (fun _ => True).
Proof.
  unfold verifySignature, ask_all.
  eapply costs_more; [|instantiate (1 := (0 + (3 + (length p.(authoritative) * 3 + length p.(resolvers) * 3)))%nat); lia].
  assert (Hq : forall server rr rec f (check : Msg.t -> DNSKEY.t -> time -> result unit), costs 3
    (let* r := query server name typ rec in let* now := NetNow in wrap f (lift (check r rr now))) (fun _ => True)).
  { intros. eapply (costs_bind 3 0); [apply costs_query|]. intros r _.
    eapply (costs_bind 0 0); [apply costs_NetNow|]. intros now _. apply costs_wrap, costs_lift. }
  eapply (costs_bind 0); [apply costs_lift|]. intros rr _. eapply (costs_bind 3).
  { apply costs_wrap. eapply (costs_bind 3 0); [apply costs_query|]. intros r _.
    eapply (costs_bind 0 0); [apply costs_NetNow|]. intros now _. apply costs_lift. }
  intros _ _. eapply costs_bind; [apply costs_for_each; intros server; apply (Hq server rr _ _ (fun r rr now =>
    verifySignatureIn r typ rr false true name now))|]. intros _ _.
  destruct b; [|by apply costs_ret_any].
  apply costs_for_each. intros server. apply (Hq server rr _ _ (fun r rr now => verifySignatureIn r typ rr true false name now)).
Qed.

Lemma costs_DSEvidence zone keys : costs ask_all (probe_DSEvidence p zone keys) (fun _ => True).
Proof.
  unfold probe_DSEvidence, ask_all. cbv zeta.
  eapply costs_more; [|instantiate (1 := (0 + length p.(resolvers) * 3)%nat); lia].
  eapply (costs_bind 0); [apply costs_lift|]. intros want _. apply costs_for_each. intros resolver.
  eapply (costs_bind 3 0); [apply costs_wrap, costs_query|]. intros r _.
  destruct (negb _); [apply costs_fail|apply costs_wrap, costs_lift].
Qed.

Lemma costs_NoDSEvidence zone :
  costs (6 * length p.(resolvers) + lookup_bound 12 2) (probe_NoDSEvidence p zone) (fun _ => True).
Proof.
  unfold probe_NoDSEvidence. cbv zeta. pose proof (costs_no_ds_rounds 12 (Fqdn zone)) as H.
  destruct (resolvers p) as [|first [|second rest]] eqn:Er; [apply costs_fail_any..|].
  rewrite (Nat.mul_comm 6). eapply costs_bind; [|intros _ _; apply (H first root_servers)].
  apply costs_for_each. intros resolver. apply costs_wrap.
  eapply (costs_bind 3 3); [apply costs_query|]. intros r _. apply costs_verifyNoDS.
Qed.
End Bounds.

(** ** The theorem *)
Section Claims.
Context {PL : ProbeLib} {NW : Network} {NR : NetRangeOk} (p : Probe) (m : nat).

(** [m] exchanges at most [n] messages and ends. *)
Definition ends_within {A} (n : nat) (op : NetM A) : Prop := forall w, exists new,
  (op w).2.(log) = new ++ w.(log) /\ (asked new <= n)%nat.

(** C25: every evidence operation ends after boundedly many exchanges, whatever
    the servers answer, referral loops and growing referrals included, as long as no section of
    an answer holds more than [m] records (5957 fit into a message).  The checks of the
    configured servers take three exchanges per server; an iterated lookup is cut off twelve
    levels below the two root servers ([lookup_bound]), where each server costs at most
    [6 + 6 m] exchanges and adds at most [m + 2 m^2] servers to the next level. *)
Theorem lookups_terminate zone keys key expected :
  small_answers m ->
  ends_within (ask_all p) (probe_DNSKEYEvidence p zone keys) /\
  ends_within (ask_all p) (probe_AuthoritativeDNSKEYEvidence p zone keys) /\
  ends_within (ask_all p) (probe_DSEvidence p zone keys) /\
  ends_within (ask_all p) (probe_RRSIGBy p zone key) /\
  ends_within (ask_all p) (probe_AuthoritativeRRSIGBy p zone key) /\
  ends_within (ask_all p) (probe_DNSKEYRRSIGBy p zone key) /\
  ends_within (ask_all p) (probe_AuthoritativeDNSKEYRRSIGBy p zone key) /\
  ends_within (6 * length p.(resolvers) + lookup_bound m 12 2) (probe_NoDSEvidence p zone) /\
  ends_within (lookup_bound m 12 2) (probe_AuthoritativeDSEvidence p zone keys) /\
  ends_within (lookup_bound m 12 2) (probe_DelegationEvidence p zone expected).
Proof.
  intros Hm. assert (He : forall A n (op : NetM A), costs n op (fun _ => True) -> ends_within n op).
  { intros A n op H w. destruct (H w) as (new & E & Hl & _). by exists new. }
  split_and!; apply He; try (by apply (costs_verifySignature p m Hm)).
  - by apply (costs_dnskeyEvidence p m Hm).
  - by apply (costs_dnskeyEvidence p m Hm).
  - by apply (costs_DSEvidence p m Hm).
  - by apply costs_NoDSEvidence.
  - unfold probe_AuthoritativeDSEvidence. cbv zeta. eapply (costs_bind 0); [apply costs_lift|].
    intros want _. by apply (costs_ds_rounds p m Hm 12 _ _ root_servers).
  - unfold probe_DelegationEvidence. cbv zeta. destruct (Nat.ltb _ _); [apply costs_fail_any|].
    by apply (costs_delegation_rounds p m Hm 12 _ _ root_servers).
Qed.
End Claims.
