(* ===== verification/EndToEnd.v ===== *)
(** * The controller on the network: the observer of the service interface implemented
    by the probe.

    [probed p B] is the service interface whose operations of dnsprobe.Observer are those of the
    probe [p] and whose other operations are the [Backends] [B].  An evidence event of a controller run
    is then backed by exchanges in the network's log ([backed]). *)
From S2P Require Import Prelude GoStrings GoTime Model Config Dns Keys Effects Wp Core.
From S2P Require Import Rollover Parent Enroll Reconcile Safety TickSafety Steps.
From S2P Require Import Probe ProbeFacts Evidence.

(** ** The services besides the observer *)
Class Backends := {
  Back : Type;
  back_ListZones : Back -> result (list Zone.t) * Back;
  back_GetZone : string -> Back -> result Zone.t * Back;
  back_ListKeys : string -> Back -> result (list Key.t) * Back;
  back_CreateKey : string -> string -> string -> bool -> Back -> result Key.t * Back;
  back_SetKey : string -> Key.t -> bool -> bool -> Back -> result unit * Back;
  back_DeleteKey : string -> Z -> Back -> result unit * Back;
  back_DomainDNSSEC : string -> Back -> result DomainDNSSECState.t * Back;
  back_UpdateDNSSEC : string -> list DNSSECData.t -> string -> Back -> result Job.t * Back;
  back_JobStatus : Z -> Back -> result string * Back;
  back_Send : Notification.t -> Back -> result unit * Back;
  back_Now : Back -> time * Back;
  back_writeAtomic : State.t -> Back -> result unit * Back;
  back_range_workflows : gmap string Workflow.t -> Back -> list (string * Workflow.t) * Back;
  back_range_notifications :
    gmap string Notification.t -> Back -> list (string * Notification.t) * Back;
}.

(** Those of a given service interface. *)
Definition backends (SV : Services) : Backends := {|
  Back := Env;
  back_ListZones := svc_ListZones; back_GetZone := svc_GetZone; back_ListKeys := svc_ListKeys;
  back_CreateKey := svc_CreateKey; back_SetKey := svc_SetKey; back_DeleteKey := svc_DeleteKey;
  back_DomainDNSSEC := svc_DomainDNSSEC; back_UpdateDNSSEC := svc_UpdateDNSSEC;
  back_JobStatus := svc_JobStatus; back_Send := svc_Send; back_Now := svc_Now;
  back_writeAtomic := svc_writeAtomic; back_range_workflows := svc_range_workflows;
  back_range_notifications := svc_range_notifications;
|}.

(** What a Go caller gets.  A panic ends the process and has no answer; no client panics, and
    the probe does not with a resolver configured. *)
Definition returned {A} (o : Outcome A) : result A :=
  match o with
  | Val a => Ok a
  | Fail_ err => Err err
  | Panic => Err (errors_New "runtime error: index out of range")
  end.

(** ** The implementation of the observer interface *)
Section Probed.
Context {PL : ProbeLib} {NW : Network} (p : Probe) (B : Backends).

Definition observe {A} (m : NetM A) (e : Back * NetWorld) : result A * (Back * NetWorld) :=
  let '(o, n) := m e.2 in (returned o, (e.1, n)).

Definition apart {A} (op : Back -> A * Back) (e : Back * NetWorld) : A * (Back * NetWorld) :=
  let '(a, e') := op e.1 in (a, (e', e.2)).

Definition probed : Services := {|
  Env := Back * NetWorld;
  svc_ListZones := apart back_ListZones;
  svc_GetZone z := apart (back_GetZone z);
  svc_ListKeys z := apart (back_ListKeys z);
  svc_CreateKey z t a b := apart (back_CreateKey z t a b);
  svc_SetKey z k a b := apart (back_SetKey z k a b);
  svc_DeleteKey z i := apart (back_DeleteKey z i);
  svc_DomainDNSSEC z := apart (back_DomainDNSSEC z);
  svc_UpdateDNSSEC z d i := apart (back_UpdateDNSSEC z d i);
  svc_JobStatus i := apart (back_JobStatus i);
  svc_DNSKEYEvidence z ks := observe (probe_DNSKEYEvidence p z ks);
  svc_AuthoritativeDNSKEYEvidence z ks := observe (probe_AuthoritativeDNSKEYEvidence p z ks);
  svc_NoDSEvidence z := observe (probe_NoDSEvidence p z);
  svc_DSEvidence z ks := observe (probe_DSEvidence p z ks);
  svc_AuthoritativeDSEvidence z ks := observe (probe_AuthoritativeDSEvidence p z ks);
  svc_RRSIGBy z k := observe (probe_RRSIGBy p z k);
  svc_AuthoritativeRRSIGBy z k := observe (probe_AuthoritativeRRSIGBy p z k);
  svc_DNSKEYRRSIGBy z k := observe (probe_DNSKEYRRSIGBy p z k);
  svc_AuthoritativeDNSKEYRRSIGBy z k := observe (probe_AuthoritativeDNSKEYRRSIGBy p z k);
  svc_DelegationEvidence z l := observe (probe_DelegationEvidence p z l);
  svc_Send n := apart (back_Send n);
  svc_Now := apart back_Now;
  svc_writeAtomic s := apart (back_writeAtomic s);
  svc_range_workflows m := apart (back_range_workflows m);
  svc_range_notifications m := apart (back_range_notifications m);
|}.

(** ** What an evidence event says of the network *)
Definition event_backed (ev : Event) (l : list NetEvent) : Prop :=
  match ev with
  | EvDNSKEYEvidence z ks (Ok d) => dnskey_evidence p z true ks d l
  | EvAuthoritativeDNSKEYEvidence z ks (Ok d) => dnskey_evidence p z false ks d l
  | EvNoDSEvidence z (Ok _) => no_ds_evidence p z l
  | EvDSEvidence z ks (Ok _) => ds_evidence p z ks l
  | EvAuthoritativeDSEvidence z ks (Ok d) => parent_ds_evidence z ks d l
  | EvRRSIGBy z k (Ok _) => signature_evidence p (Fqdn z) TypeSOA true k l
  | EvAuthoritativeRRSIGBy z k (Ok _) => signature_evidence p (Fqdn z) TypeSOA false k l
  | EvDNSKEYRRSIGBy z k (Ok _) => signature_evidence p (Fqdn z) TypeDNSKEY true k l
  | EvAuthoritativeDNSKEYRRSIGBy z k (Ok _) => signature_evidence p (Fqdn z) TypeDNSKEY false k l
  | EvDelegationEvidence z ns (Ok _) => delegation_evidence z ns l
  | _ => True
  end.

Lemma dnskey_evidence_persistent zone b ks d : persistent (dnskey_evidence p zone b ks d).
Proof.
  intros new new' Hs (want & ttl & HF & HA & HR & (s & r & Hin & Ha & Ht) & H).
  exists want, ttl. split_and!; [done| | | |apply H..].
  - eapply Forall_impl; [exact HA|]. intros x. by apply path_dnskeys_persistent.
  - intros Hb. eapply Forall_impl; [exact (HR Hb)|]. intros x. by apply path_dnskeys_persistent.
  - exists s, r. split_and!; [done|by eapply answered_persistent|done].
Qed.
Lemma signature_evidence_persistent name typ b k : persistent (signature_evidence p name typ b k).
Proof.
  intros new new' Hs (rr & Hrr & HA & HR). exists rr. split_and!; [done| |].
  - eapply Forall_impl; [exact HA|]. intros x. by apply path_signed_persistent.
  - intros Hb. eapply Forall_impl; [exact (HR Hb)|]. intros x. by apply path_signed_persistent.
Qed.
Lemma event_backed_persistent ev : persistent (event_backed ev).
Proof.
  destruct ev; cbn; try done; destruct r; cbn; try done;
    try apply dnskey_evidence_persistent; try apply signature_evidence_persistent;
    intros new new' Hs.
  - intros (HF & first & rest & Hr & Hn & HT). split.
    + eapply Forall_impl; [exact HF|]. intros x. by apply path_no_ds_persistent.
    + exists first, rest. split_and!; [done..|].
      eapply two_servers_persistent; [apply parent_no_ds_persistent|exact Hs|done].
  - intros (want & Hw & HF). exists want. split; [done|].
    eapply Forall_impl; [exact HF|]. intros x. by apply path_ds_persistent.
  - intros (want & ttl & Hw & HT & H). exists want, ttl. split_and!; [done| |apply H..].
    eapply two_servers_persistent; [apply parent_ds_persistent|exact Hs|done].
  - eapply two_servers_persistent; [apply parent_ns_persistent|exact Hs].
Qed.
End Probed.

Section Backed.
Context {PL : ProbeLib} {NW : Network} (p : Probe) (B : Backends).
#[local] Existing Instance probed.

(** The log has grown from [base], and what it has gained backs every event. *)
Definition backed (base : list NetEvent) (e : @Env (probed p B)) (tr : list Event) : Prop :=
  exists new, e.2.(log) = new ++ base /\ Forall (fun ev => event_backed p ev new) tr.

Lemma backed_more base e tr n new ev :
  backed base e tr -> n.(log) = new ++ e.2.(log) ->
  (event_backed p ev new) -> backed base (e.1, n) (ev :: tr).
Proof.
  intros (new0 & E & HF) En Hev. exists (new ++ new0). split; [by cbn; rewrite En, E, app_assoc|].
  constructor.
  - eapply event_backed_persistent; [|exact Hev]. apply prefix_sub.
  - eapply Forall_impl; [exact HF|]. intros x. apply event_backed_persistent, suffix_sub.
Qed.

(** A call of the observer. *)
Lemma backed_observe P base {A} (m : NetM A) S (ev : result A -> Event) e tr :
  collects P m S ->
  (forall a new, S a new -> event_backed p (ev (Ok a)) new) ->
  (forall err new, event_backed p (ev (Err err)) new) ->
  backed base e tr -> backed base (observe B m e).2 (ev (observe B m e).1 :: tr).
Proof.
  intros Hm Hok Herr Hb. unfold observe. destruct (Hm e.2) as (new & E & H).
  destruct (m e.2) as [[a|err|] n]; cbn in *; eapply backed_more; eauto.
Qed.

(** A call of any other service. *)
Lemma backed_apart base {A} (op : Back -> result A * Back) (ev : result A -> Event) e tr :
  (forall r new, event_backed p (ev r) new) ->
  backed base e tr -> backed base (apart B op e).2 (ev (apart B op e).1 :: tr).
Proof.
  intros Hev (new & E & HF). unfold apart. destruct (op e.1) as [r e']. cbn.
  exists new. split; [done|]. by constructor.
Qed.

Lemma backed_step base e tr e' tr' :
  svc_step (e, tr) (e', tr') -> backed base e tr -> backed base e' tr'.
Proof.
  intros H Hb. inversion H as [A op ev ? ? Hc| | |]; subst; cbn in *.
  - destruct Hc; cbn [svc_ListZones svc_GetZone svc_ListKeys svc_CreateKey svc_SetKey svc_DeleteKey
      svc_DomainDNSSEC svc_UpdateDNSSEC svc_JobStatus svc_Send svc_writeAtomic probed];
      first [apply backed_apart; [by intros|done] |
             eapply (backed_observe (no_resolvers p)); [| | |exact Hb]; [eauto using collects_dnskeyEvidence,
               collects_NoDSEvidence, collects_DSEvidence, collects_AuthoritativeDSEvidence,
               collects_verifySignature, collects_DelegationEvidence| |]; by intros].
  - unfold apart. destruct Hb as (new & E & HF). destruct (back_Now _). exists new.
    split; [done|]. by constructor.
  - unfold apart. by destruct (back_range_workflows _ _).
  - unfold apart. by destruct (back_range_notifications _ _).
Qed.

(** At every moment of a run the log backs every event so far. *)
Lemma backed_moment (e e1 : @Env (probed p B)) past :
  e.2.(log) = [] -> rtc svc_step (e, []) (e1, past) ->
  Forall (fun ev => event_backed p ev e1.2.(log)) past.
Proof.
  intros Hl. assert (Hall : forall y, rtc svc_step (e, []) y -> backed [] y.1 y.2).
  { apply (rtc_ind_r (fun y => backed [] y.1 y.2)); [exists []; by split|].
    intros [e2 tr] [e' tr'] _ Hst. by eapply backed_step. }
  intros Hr. destruct (Hall _ Hr) as (new & El & HF). cbn [fst snd] in *. rewrite app_nil_r in El. by rewrite El.
Qed.
End Backed.

(** ** The theorems *)
Section Claims.
Context {PL : ProbeLib} {NW : Network} (p : Probe) (B : Backends).


End Claims.
