(* ===== verification/App.v ===== *)
(** * internal/app/app.go: the providers, and the controller's services as the program wires
    them: the PowerDNS and registrar clients over HTTP, the probe over the network, the LMTP
    client and the state file. *)
From S2P Require Import Prelude GoStrings GoTime Model Config Dns Validate Effects Core Reconcile.
From S2P Require Import Json Http Probe StateFile StateJson AutoDns Pdns Lmtp EndToEnd.

(** The order in which a map is visited. *)
Class MapOrder := {
  Order : Type;
  order_workflows : gmap string Workflow.t -> Order -> list (string * Workflow.t) * Order;
  order_notifications :
    gmap string Notification.t -> Order -> list (string * Notification.t) * Order;
}.

(** The mail server: the connection it is reached on, and the end of that connection. *)
Class MailPeer := {
  Post : Type;
  post_open : string -> Post -> Conn * Post;
  post_close : Conn -> Post -> Post;
}.

(** What the providers make. *)
Record Components := mkComponents {
  pdns : Pdns.Client;
  registrar : AutoDns.Client;
  observer : Probe;
  notifier : LMTP.t;
  state_path : string;
}.

(** ** Providers *)
Section Providers.
Context (lstat : string -> result SecretFile) (cfg : Config.t).

Definition newPDNS : result Pdns.Client :=
  let p := cfg.(Config.PowerDNS) in
  let? key := map_err (fun e => Errorf "powerdns credential: %w" [AWrap e])
                (ReadSecret lstat p.(PowerDNS.APIKeyFile)) in
  Ok (Pdns.New p.(PowerDNS.URL) p.(PowerDNS.ServerID) key).

Definition newAutoDNS : result AutoDns.Client :=
  let a := cfg.(Config.AutoDNS) in
  let? password := map_err (fun e => Errorf "autodns credential: %w" [AWrap e])
                     (ReadSecret lstat a.(AutoDNS.PasswordFile)) in
  Ok (AutoDns.New a.(AutoDNS.URL) a.(AutoDNS.Username) password a.(AutoDNS.Context_)
        a.(AutoDNS.MinimumRequestInterval)).

Definition newObserver : Probe :=
  let d := cfg.(Config.DNS) in
  NewWithClient d.(DNSCfg.Resolvers) d.(DNSCfg.AuthoritativeServers) d.(DNSCfg.LocalAuthoritative).

(** [lmtp.New] keeps the configuration. *)
Definition newNotifier : LMTP.t := cfg.(Config.LMTP).

(** The components of the controller, or the first provider's error. *)
Definition components : result Components :=
  let? p := newPDNS in
  let? r := newAutoDNS in
  Ok (mkComponents p r newObserver newNotifier cfg.(Config.Controller).(ControllerCfg.StateFile)).
End Providers.

(** ** The services of the wired controller *)
(** The state file holds the state as encoding/json writes it. *)
#[local] Existing Instance state_codec.

Section Wiring.
Context {HS : HttpStack} {JE : JsonErrors} {PL : ProbeLib} {NW : Network} {DL : DnsLib}.
Context {PA : Parsers} {KN : Kernel} {MO : MapOrder} {MP : MailPeer}.

(** The process's world but for DNS: the clock and the HTTP servers, shared by both clients,
    what each client has sent, newest first, the registrar client's [last], the mail server,
    the disk. *)
Record AppWorld := mkApp {
  os : Web;
  pdns_sent : list (Http.Request.t * result Response.t);
  registrar_last : time;
  registrar_sent : list (time * Http.Request.t * result Response.t);
  mail : Post;
  disk : Disk;
  order : Order;
}.

Definition with_pdns (w : PdnsWorld) (e : AppWorld) : AppWorld :=
  mkApp w.(Pdns.web) w.(Pdns.exchanges) e.(registrar_last) e.(registrar_sent) e.(mail) e.(disk) e.(order).
Definition with_registrar (w : AutoWorld) (e : AppWorld) : AppWorld :=
  mkApp w.(AutoDns.web) e.(pdns_sent) w.(last) w.(AutoDns.exchanges) e.(mail) e.(disk) e.(order).
Definition with_os (os : Web) (e : AppWorld) : AppWorld :=
  mkApp os e.(pdns_sent) e.(registrar_last) e.(registrar_sent) e.(mail) e.(disk) e.(order).
Definition with_mail (mail : Post) (e : AppWorld) : AppWorld :=
  mkApp e.(os) e.(pdns_sent) e.(registrar_last) e.(registrar_sent) mail e.(disk) e.(order).
Definition with_disk (disk : Disk) (e : AppWorld) : AppWorld :=
  mkApp e.(os) e.(pdns_sent) e.(registrar_last) e.(registrar_sent) e.(mail) disk e.(order).
Definition with_order (order : Order) (e : AppWorld) : AppWorld :=
  mkApp e.(os) e.(pdns_sent) e.(registrar_last) e.(registrar_sent) e.(mail) e.(disk) order.

Definition on_pdns {A} (m : D_ A) (e : AppWorld) : result A * AppWorld :=
  let '(o, w) := m (mkPdns e.(os) e.(pdns_sent)) in (returned o, with_pdns w e).
Definition on_registrar {A} (m : A_ A) (e : AppWorld) : result A * AppWorld :=
  let '(o, w) := m (mkAuto e.(os) e.(registrar_last) e.(registrar_sent)) in
  (returned o, with_registrar w e).
Definition on_disk {A} (m : D A) (e : AppWorld) : result A * AppWorld :=
  let '(o, d) := m e.(disk) in (returned o, with_disk d e).
Definition on_mail {A} (address : string) (m : T_ A) (e : AppWorld) : result A * AppWorld :=
  let '(conn, post) := post_open address e.(mail) in
  let '(o, conn') := m conn in (returned o, with_mail (post_close conn' post) e).

Context (k : Components).

Definition clients : Backends := {|
  Back := AppWorld;
  back_ListZones := on_pdns (Pdns.ListZones k.(pdns));
  back_GetZone z := on_pdns (Pdns.GetZone k.(pdns) z);
  back_ListKeys z := on_pdns (Pdns.ListKeys k.(pdns) z);
  back_CreateKey z t a b := on_pdns (Pdns.CreateKey k.(pdns) z t a b);
  back_SetKey z key a b := on_pdns (Pdns.SetKey k.(pdns) z key a b);
  back_DeleteKey z i := on_pdns (Pdns.DeleteKey k.(pdns) z i);
  back_DomainDNSSEC z := on_registrar (AutoDns.DomainDNSSEC k.(registrar) z);
  back_UpdateDNSSEC z d i := on_registrar (AutoDns.UpdateDNSSEC k.(registrar) z d i);
  back_JobStatus i := on_registrar (AutoDns.JobStatus k.(registrar) i);
  back_Send n := on_mail k.(notifier).(LMTP.Address) (Lmtp.Send k.(notifier) n);
  back_Now e := let '(t, os) := web_Now e.(os) in (t, with_os os e);
  back_writeAtomic s := on_disk (writeAtomic k.(state_path) s);
  back_range_workflows m e :=
    let '(l, o) := order_workflows m e.(order) in (l, with_order o e);
  back_range_notifications m e :=
    let '(l, o) := order_notifications m e.(order) in (l, with_order o e);
|}.

(** [newController]: the interface every function of the controller runs on. *)
Definition newController : Services := probed k.(observer) clients.
End Wiring.
