(* ===== verification/Wire.v ===== *)
(** * The controller on the wire: every service call of the wired controller is the HTTP request
    its client stands for, and what is proved of the trace of calls holds of the requests the
    PowerDNS server and the registrar receive. *)
From S2P Require Import Prelude GoStrings GoTime Model Config Dns Validate Keys Effects Wp Core.
From S2P Require Import Rollover Parent Enroll Reconcile Operator Safety TickSafety Steps.
From S2P Require Import Json JsonCodec Http Probe ProbeFacts Evidence StateFile EndToEnd.
From S2P Require Import AutoDns AutoDnsFacts Pdns PdnsFacts Lmtp App.

(** ** What a registrar call sends *)
Section RegistrarCalls.
Context {HS : HttpStack} {JE : JsonErrors} (c : AutoDns.Client).

(** A response the registrar client accepts, read. *)
Definition accepted (resp : Response.t) (a : ApiResponse.t) : Prop :=
  successful (Response.StatusCode resp) = true /\
  json_Decode_into into_response (limited (1024 * 1024) (Response.Body resp)) zero_response = Ok a /\
  EqualFold (ResponseStatus.Type_ (ApiResponse.Status a)) "ERROR" = false.

(** The exchanges of one call that stands for the request [q], with its result. *)
Definition registrar_called {A} (q : Http.Request.t) (reads : ApiResponse.t -> A -> Prop)
    (r : result A) (l : list (time * Http.Request.t * result Response.t)) : Prop :=
  match r with
  | Ok x => exists t resp a, l = [(t, q, Ok resp)] /\ accepted resp a /\ reads a x
  | Err _ => l = [] \/ exists t a, l = [(t, q, a)]
  end.

(** [m] makes that one call, and does not panic. *)
Definition asks {A} (q : Http.Request.t) (reads : ApiResponse.t -> A -> Prop) (m : A_ A) : Prop :=
  forall w, exists l, (m w).2.(AutoDns.exchanges) = l ++ w.(AutoDns.exchanges) /\
    (m w).1 <> Panic /\ registrar_called q reads (returned (m w).1) l.

(** The code after the answer sends nothing. *)
Definition tail_reads {A B} (k : A -> A_ B) (a : A) (S : B -> Prop) : Prop :=
  forall w, (k a w).2 = w /\ (k a w).1 <> Panic /\ forall x, (k a w).1 = Val x -> S x.

Lemma do_asks {A} method path body ctid (k : do_error + ApiResponse.t -> A_ A) reads :
  (forall e, tail_reads k (inl e) (fun _ => False)) -> (forall a, tail_reads k (inr a) (reads a)) ->
  asks (AutoDns.request c method path body ctid) reads (bind (AutoDns.do c method path body ctid) k).
Proof.
  intros Hl Hr w. set (q := AutoDns.request c method path body ctid).
  assert (H : exists l r w1, AutoDns.do c method path body ctid w = (Val r, w1) /\
    w1.(AutoDns.exchanges) = l ++ w.(AutoDns.exchanges) /\
    match r with
    | inr a => exists t resp, l = [(t, q, Ok resp)] /\ accepted resp a
    | inl _ => l = [] \/ exists t a, l = [(t, q, a)]
    end).
  { unfold AutoDns.do, bind, try. pose proof (pace_exchanges c w) as Hx.
    destruct (pace c w) as [[[]|e|] w1] eqn:Ep; cbn in Hx |- *.
    - destruct (web_url_error _) as [e|]; [exists [], (inl (OtherError e)), w1; by split_and!; [| |left]|].
      unfold AutoDo. destruct (web_Do _ _) as [[resp|e] n]; cbn; (eexists [_], _, _; split; [done|]); cbn;
        (split; [by rewrite Hx|]); [|by right; eexists _, _].
      destruct (interpret method path resp) as [e|a] eqn:Hi; [by right; eexists _, _|].
      apply interpret_Ok in Hi. by eexists _, _.
    - exists [], (inl (OtherError e)), w1. by split_and!; [| |left].
    - exfalso. by eapply pace_no_panic. }
  destruct H as (l & r & w1 & E & Hx & H). exists l. unfold bind. rewrite E. destruct r as [e|a].
  - destruct (Hl e w1) as (E1 & Hp & Hv). rewrite E1. split_and!; [done..|].
    destruct (k (inl e) w1).1 as [x|e'|]; [by destruct (Hv x)|exact H|done].
  - destruct (Hr a w1) as (E1 & Hp & Hv). rewrite E1. split_and!; [done..|].
    destruct H as (t & resp & -> & Ha).
    destruct (k (inr a) w1).1 as [x|e'|]; [|by right; eexists _, _|done].
    exists t, resp, a. auto.
Qed.

Lemma do__asks {A} method path body ctid (k : ApiResponse.t -> A_ A) reads :
  (forall a, tail_reads k a (reads a)) ->
  asks (AutoDns.request c method path body ctid) reads (bind (do_ c method path body ctid) k).
Proof.
  intros Hk w. destruct (do_asks method path body ctid (fun r => match r with
    | inl e => fail (do_error_error e) | inr a => k a end) reads) with (w := w) as (l & Hl); [done|done|].
  exists l. replace (bind (do_ c method path body ctid) k w) with (bind (AutoDns.do c method path body ctid)
    (fun r => match r with inl e => fail (do_error_error e) | inr a => k a end) w); [exact Hl|].
  unfold do_, bind. by destruct (AutoDns.do c method path body ctid w) as [[[e|a]|e|] w1].
Qed.

(** What the results are read from. *)
Definition domain_reads (a : ApiResponse.t) (st : DomainDNSSECState.t) : Prop :=
  exists v d, ApiResponse.Data a = [v] /\
    into_struct false domain_fields v (DomainInfo.mk "" None None) = Some d /\ classify d = Ok st.
Definition update_reads (a : ApiResponse.t) (j : Job.t) : Prop := j.(Job.STID) = ApiResponse.STID a.
Definition job_reads (id : Z) (a : ApiResponse.t) (st : string) : Prop :=
  exists v data, ApiResponse.Data a = [v] /\
    into_struct false job_record_fields v (JobRecord.mk zero_job) = Some data /\
    JobInfo.ID (JobRecord.Job data) = id /\ st = ToUpper (JobInfo.Status (JobRecord.Job data)).

Lemma asks_DomainDNSSEC zone :
  asks (AutoDns.request c "GET" (domain_path zone) None "") domain_reads (AutoDns.DomainDNSSEC c zone).
Proof.
  apply do__asks. intros a w. destruct (ApiResponse.Data a) as [|v [|? ?]] eqn:Hd; [done| |done].
  destruct (into_struct _ _ _ _) as [d|] eqn:Hs; [|done]. destruct (_ != _); [done|].
  unfold lift. cbn. destruct (classify d) as [st|e] eqn:Hc; [|done]. split_and!; [done..|].
  intros x [= <-]. by exists v, d.
Qed.

Lemma asks_UpdateDNSSEC zone keys ctid :
  asks (AutoDns.request c "PUT" (domain_path zone) (Some (update_json zone keys)) ctid) update_reads
    (AutoDns.UpdateDNSSEC c zone keys ctid).
Proof.
  apply do__asks. intros a w. cbv zeta. unfold bind, update_reads. destruct (ApiResponse.Data a) as [|v ?].
  - cbn [ret]. destruct (_ && _); cbn; split_and!; try done. by intros x [= <-].
  - destruct (into_struct _ _ _ _) as [d|]; [|done]. cbn [ret].
    destruct (_ && _); cbn; split_and!; try done. by intros x [= <-].
Qed.

Lemma asks_JobStatus id :
  asks (AutoDns.request c "GET" ("/job/" +:+ pretty id) None "") (job_reads id) (AutoDns.JobStatus c id).
Proof.
  unfold AutoDns.JobStatus. destruct (id <=? 0). { intros w. exists []. by split_and!; [| |left]. }
  apply do_asks.
  - intros e w. cbv zeta. destruct e; [destruct (_ && _)|]; done.
  - intros a w. destruct (ApiResponse.Data a) as [|v [|? ?]] eqn:Hd; [done| |done].
    destruct (into_struct _ _ _ _) as [d|] eqn:Hs; [|done]. cbv zeta.
    destruct (negb (JobInfo.ID (JobRecord.Job d) =? id) || _) eqn:Hb; [done|]. split_and!; [done..|].
    intros x [= <-]. apply orb_false_elim in Hb as [Hb _]. apply negb_false_iff, Z.eqb_eq in Hb.
    by exists v, d.
Qed.
End RegistrarCalls.

(** ** Events and exchanges *)
Section Wire.
Context {HS : HttpStack} {JE : JsonErrors} {PL : ProbeLib} {NW : Network} {DL : DnsLib}.
Context {PA : Parsers} {KN : Kernel} {MO : MapOrder} {MP : MailPeer}.
Context (k : Components).

#[local] Instance wired : Services := newController k.

Definition pdns_exchange : Type := Http.Request.t * result Response.t.
Definition registrar_exchange : Type := time * Http.Request.t * result Response.t.
Definition exchanged : Type := list pdns_exchange * list registrar_exchange.

(** The exchanges of one PowerDNS call, with its result. *)
Definition pdns_called {T} (call : PdnsFacts.api_call T) (r : result T) (l : list pdns_exchange) : Prop :=
  let q := call_request k.(pdns) call in
  match r with
  | Ok x => exists resp, l = [(q, Ok resp)] /\ successful (Response.StatusCode resp) = true /\
      means call resp x
  | Err _ =>
      (l = [] /\ web_url_error (Http.Request.URL q) <> None) \/ (exists e, l = [(q, Err e)]) \/
      (exists resp, l = [(q, Ok resp)] /\
         (successful (Response.StatusCode resp) = true -> forall x, ~ means call resp x))
  end.

(** The exchanges behind an event: none, or those of the call it stands for. *)
Definition on_wire (ev : Event) (l : exchanged) : Prop :=
  let P {T} (call : PdnsFacts.api_call T) r := pdns_called call r l.1 /\ l.2 = [] in
  let R {A} method path body ctid (reads : ApiResponse.t -> A -> Prop) r :=
    l.1 = [] /\ registrar_called (AutoDns.request k.(registrar) method path body ctid) reads r l.2 in
  match ev with
  | EvListZones r => P CallListZones r
  | EvGetZone z r => P (CallGetZone z) r
  | EvListKeys z r => P (CallListKeys z) r
  | EvCreateKey z typ algorithm active r => P (CallCreateKey z typ algorithm active) r
  | EvSetKey z key active published r => P (CallSetKey z key active published) r
  | EvDeleteKey z id r => P (CallDeleteKey z id) r
  | EvDomainDNSSEC z r => R "GET" (domain_path z) None "" domain_reads r
  | EvUpdateDNSSEC z keys ctid r => R "PUT" (domain_path z) (Some (update_json z keys)) ctid update_reads r
  | EvJobStatus id r => R "GET" ("/job/" +:+ pretty id) None "" (job_reads id) r
  | _ => l = ([], [])
  end.

(** The world of the wired controller. *)
Definition WiredEnv : Type := AppWorld * NetWorld.

(** From [base] on, exactly the events of the trace were exchanged, in their order. *)
Definition exchanges_of (base : AppWorld) (e : WiredEnv) (tr : list Event) (ls : list exchanged) : Prop :=
  Forall2 on_wire tr ls /\
  e.1.(pdns_sent) = List.concat (map fst ls) ++ base.(pdns_sent) /\
  e.1.(registrar_sent) = List.concat (map snd ls) ++ base.(registrar_sent).

Lemma exchanges_more base e tr ls (e' : WiredEnv) ev l :
  exchanges_of base e tr ls -> on_wire ev l ->
  e'.1.(pdns_sent) = l.1 ++ e.1.(pdns_sent) -> e'.1.(registrar_sent) = l.2 ++ e.1.(registrar_sent) ->
  exchanges_of base e' (ev :: tr) (l :: ls).
Proof.
  intros (HF & Hp & Hr) Hev Hp' Hr'. split; [by constructor|]. cbn in *. by rewrite Hp', Hr', Hp, Hr, !app_assoc.
Qed.

Lemma pdns_step {T} (call : PdnsFacts.api_call T) (e : WiredEnv) :
  let r := apart (clients k) (on_pdns (run_call k.(pdns) call)) e in
  exists l, pdns_called call r.1 l /\ r.2.1.(pdns_sent) = l ++ e.1.(pdns_sent) /\
    r.2.1.(registrar_sent) = e.1.(registrar_sent).
Proof.
  unfold apart, on_pdns. pose proof (pdns_calls_exact k.(pdns) call (mkPdns e.1.(os) e.1.(pdns_sent))) as H.
  destruct (run_call _ call _) as [o w]. cbn in H |- *. unfold pdns_called, done_by in *.
  destruct o as [x|e'|]; cbn [returned]; [| |done].
  - destruct H as (resp & E & H). exists [(call_request k.(pdns) call, Ok resp)].
    split_and!; [by exists resp|exact E|done].
  - destruct H as [[E H]|[(e2 & E)|(resp & E & H)]].
    + exists []. split_and!; [by left|exact E|done].
    + eexists [_]. split_and!; [right; left; by exists e2|exact E|done].
    + eexists [_]. split_and!; [right; right; by exists resp|exact E|done].
Qed.

Lemma registrar_step {A} q reads (m : A_ A) (e : WiredEnv) :
  asks q reads m ->
  let r := apart (clients k) (on_registrar m) e in
  exists l, registrar_called q reads r.1 l /\ r.2.1.(registrar_sent) = l ++ e.1.(registrar_sent) /\
    r.2.1.(pdns_sent) = e.1.(pdns_sent).
Proof.
  intros Hm. unfold apart, on_registrar.
  destruct (Hm (mkAuto e.1.(os) e.1.(registrar_last) e.1.(registrar_sent))) as (l & E & _ & H).
  destruct (m _) as [o w]. cbn in E, H |- *. by exists l.
Qed.

(** A call that is not HTTP. *)
Definition silent_step (e e' : WiredEnv) : Prop :=
  e'.1.(pdns_sent) = e.1.(pdns_sent) /\ e'.1.(registrar_sent) = e.1.(registrar_sent).
Lemma silent_observe {A} (m : NetM A) (e : WiredEnv) : silent_step e (observe (clients k) m e).2.
Proof. destruct e as [e n]. unfold observe. cbn. by destruct (m n). Qed.
Lemma silent_disk {A} (m : D A) (e : WiredEnv) : silent_step e (apart (clients k) (on_disk m) e).2.
Proof. unfold apart, on_disk. by destruct (m _). Qed.
Lemma silent_mail {A} address (m : T_ A) (e : WiredEnv) :
  silent_step e (apart (clients k) (on_mail address m) e).2.
Proof. unfold apart, on_mail. destruct (post_open _ _) as [conn post]. by destruct (m conn). Qed.

(** What an HTTP call adds. *)
Lemma pdns_event base e tr ls {T} (call : PdnsFacts.api_call T) (ev : result T -> Event) :
  exchanges_of base e tr ls -> (forall r l, pdns_called call r l -> on_wire (ev r) (l, [])) ->
  let r := apart (clients k) (on_pdns (run_call k.(pdns) call)) e in
  exists ev' l, ev r.1 :: tr = ev' :: tr /\ on_wire ev' l /\ exchanges_of base r.2 (ev r.1 :: tr) (l :: ls).
Proof.
  intros HI Hev r. destruct (pdns_step call e) as (l & Hl & E1 & E2).
  exists (ev r.1), (l, []). split_and!; [done|by apply Hev|].
  eapply exchanges_more; [done|by apply Hev|done..].
Qed.
Lemma registrar_event base e tr ls {A} q reads (m : A_ A) (ev : result A -> Event) :
  exchanges_of base e tr ls -> asks q reads m ->
  (forall r l, registrar_called q reads r l -> on_wire (ev r) ([], l)) ->
  let r := apart (clients k) (on_registrar m) e in
  exists ev' l, ev r.1 :: tr = ev' :: tr /\ on_wire ev' l /\ exchanges_of base r.2 (ev r.1 :: tr) (l :: ls).
Proof.
  intros HI Hm Hev r. destruct (registrar_step q reads m e Hm) as (l & Hl & E1 & E2).
  exists (ev r.1), ([], l). split_and!; [done|by apply Hev|].
  eapply exchanges_more; [done|by apply Hev|done..].
Qed.

Lemma exchanges_step base e tr e' tr' ls :
  svc_step (e, tr) (e', tr') -> exchanges_of base e tr ls ->
  (tr' = tr /\ silent_step e e' /\ exchanges_of base e' tr' ls) \/
  exists ev l, tr' = ev :: tr /\ on_wire ev l /\ exchanges_of base e' tr' (l :: ls).
Proof.
  intros H HI.
  assert (Hsilent : forall ev e1, on_wire ev ([], []) -> silent_step e e1 -> exists ev' l,
    ev :: tr = ev' :: tr /\ on_wire ev' l /\ exchanges_of base e1 (ev :: tr) (l :: ls)).
  { intros ev e1 Hev [H1 H2]. exists ev, ([], []). split_and!; [done..|]. by eapply exchanges_more. }
  assert (Hsame : forall e1, silent_step e e1 -> exchanges_of base e1 tr ls).
  { intros e1 [H1 H2]. destruct HI as (HF & Hp & Hr). split; [done|]. by rewrite H1, H2. }
  inversion H as [A op ev ? ? Hc| | |]; subst; cbn in *; [right|right|left|left].
  - destruct Hc; cbn.
    all: first [ by apply Hsilent; [|apply silent_observe] | by apply Hsilent; [|apply silent_disk]
               | by apply Hsilent; [|apply silent_mail] | idtac ].
    + by eapply (pdns_event base e tr ls CallListZones).
    + by eapply (pdns_event base e tr ls (CallGetZone z)).
    + by eapply (pdns_event base e tr ls (CallListKeys z)).
    + by eapply (pdns_event base e tr ls (CallCreateKey z t a b)).
    + by eapply (pdns_event base e tr ls (CallSetKey z k0 a b)).
    + by eapply (pdns_event base e tr ls (CallDeleteKey z i)).
    + by eapply registrar_event; [exact HI|apply asks_DomainDNSSEC|].
    + by eapply registrar_event; [exact HI|apply asks_UpdateDNSSEC|].
    + by eapply registrar_event; [exact HI|apply asks_JobStatus|].
  - apply Hsilent; [done|]. unfold apart. cbn. by destruct (web_Now _).
  - assert (silent_step e (apart (clients k) (back_range_workflows m) e).2); [|by auto].
    unfold apart. cbn. by destruct (order_workflows _ _).
  - assert (silent_step e (apart (clients k) (back_range_notifications m) e).2); [|by auto].
    unfold apart. cbn. by destruct (order_notifications _ _).
Qed.

(** The same for a whole run, at each of its moments. *)
Definition wire_history (start : WiredEnv) (tr : list Event) (ls : list exchanged) : Prop :=
  forall n1 ev past n l old, tr = n1 ++ ev :: past -> ls = n ++ l :: old -> length n = length n1 ->
  exists e1, rtc svc_step (start, []) (e1, past) /\ exchanges_of start.1 e1 past old /\ on_wire ev l.

Lemma run_exchanges (start e : WiredEnv) tr :
  rtc svc_step (start, []) (e, tr) ->
  exists ls, exchanges_of start.1 e tr ls /\ wire_history start tr ls.
Proof.
  intros Hr. assert (Hall : forall y, rtc (@svc_step wired) (start, []) y ->
    exists ls, exchanges_of start.1 y.1 y.2 ls /\ wire_history start y.2 ls); [|exact (Hall _ Hr)].
  clear. apply (rtc_ind_r (fun y => exists ls, exchanges_of start.1 y.1 y.2 ls /\ wire_history start y.2 ls)).
  - exists []. split; [by split|]. by intros [|? ?].
  - intros [e1 tr1] [e2 tr2] Hr Hs (ls & HI & HH). cbn [fst snd] in *.
    destruct (exchanges_step _ _ _ _ _ _ Hs HI) as [(-> & _ & HI')|(ev & l & -> & Hev & HI')]; [by exists ls|].
    exists (l :: ls). split; [done|]. intros [|ev' n1] ev0 past [|l' n] l0 old Etr Els Hn; simplify_eq/=.
    + by exists e1.
    + by apply (HH n1 ev0 past n l0 old).
Qed.

(** An exchange found in a log is that of one event. *)
Lemma concat_moment {X} (f : exchanged -> list X) ls newer x older :
  Forall (fun l => (length (f l) <= 1)%nat) ls -> List.concat (map f ls) = newer ++ x :: older ->
  exists n l old, ls = n ++ l :: old /\ f l = [x] /\ List.concat (map f old) = older.
Proof.
  intros H. revert newer. induction H as [|l ls Hl H IH]; intros newer; cbn; [by destruct newer|].
  destruct (f l) as [|y [|? ?]] eqn:Ef; cbn in *; [|destruct newer as [|z newer]; intros [= -> E]|lia].
  - intros E. destruct (IH _ E) as (n & l' & old & -> & ? & ?). by exists (l :: n), l', old.
  - by exists [], l, ls.
  - destruct (IH _ E) as (n & l' & old & -> & ? & ?). by exists (l :: n), l', old.
Qed.

Lemma pdns_called_single {T} (call : PdnsFacts.api_call T) r l : pdns_called call r l -> (length l <= 1)%nat.
Proof. unfold pdns_called. destruct r; [|intros [[-> _]|[(? & ->)|(? & -> & _)]]; cbn; lia]. intros (? & -> & _). cbn. lia. Qed.
Lemma registrar_called_single {A} q reads (r : result A) l : registrar_called q reads r l -> (length l <= 1)%nat.
Proof. unfold registrar_called. destruct r; [intros (? & ? & ? & -> & _)|intros [->|(? & ? & ->)]]; cbn; lia. Qed.

Lemma on_wire_single ev l : on_wire ev l -> (length l.1 <= 1)%nat /\ (length l.2 <= 1)%nat.
Proof.
  destruct l as [l1 l2]. destruct ev; cbn; try (intros [= -> ->]; cbn; lia).
  all: intros [H1 H2]; first [ apply pdns_called_single in H1 | apply registrar_called_single in H2 ];
    subst; cbn; split; (assumption || lia).
Qed.

(** Only writes send something other than a GET. *)
Lemma pdns_write ev l1 l2 q a :
  on_wire ev (l1, l2) -> l1 = [(q, a)] -> Http.Request.Method q <> "GET" ->
  is_external_write ev = true /\ l2 = [].
Proof.
  intros H -> Hq.
  assert (HP : forall T (call : PdnsFacts.api_call T) r, pdns_called call r [(q, a)] -> q = call_request k.(pdns) call).
  { intros T call r. unfold pdns_called. destruct r; naive_solver. }
  destruct ev; cbn in H; try done; destruct H as [H1 H2]; try done; by apply HP in H1 as ->.
Qed.
Lemma registrar_write ev l1 l2 t q a :
  on_wire ev (l1, l2) -> l2 = [(t, q, a)] -> Http.Request.Method q <> "GET" ->
  is_external_write ev = true /\ l1 = [].
Proof.
  intros H -> Hq.
  assert (HR : forall A q' reads (r : result A), registrar_called q' reads r [(t, q, a)] -> q = q').
  { intros A q' reads r. unfold registrar_called. destruct r; naive_solver. }
  destruct ev; cbn in H; try done; destruct H as [H1 H2]; try done; by apply HR in H2 as ->.
Qed.

(** ** The theorems *)
(** Everything the controller does: a tick, and the requests of the control API. *)
Inductive operation (c : Config.t) : M unit -> Prop :=
| op_tick : operation c (Tick c)
| op_arm idem : operation c (ArmEnrollment c idem)
| op_trigger kind zones idem : operation c (Trigger c kind zones idem)
| op_resume kind zones phase idem : operation c (Resume c kind zones phase idem)
| op_reconcile zone idem : operation c (ReconcileSplitSignerTransition c zone idem).

Lemma runs_operation c m : operation c m -> runs m.
Proof.
  destruct 1; [apply runs_Tick|apply runs_ArmEnrollment|apply runs_Trigger|apply runs_Resume
              |apply runs_ReconcileSplitSignerTransition].
Qed.


(** A moment of a tick at which the event [ev], exchanged as [l], is justified by what came
    before it, as [before] describes it. *)
Definition justified_exchange (c : Config.t) (start : WiredEnv) (before : WiredEnv -> Prop) (l : exchanged) : Prop :=
  exists e1 past ev, rtc svc_step (start, []) (e1, past) /\ before e1 /\ on_wire ev l /\
    is_external_write ev = true /\ tick_evidence c past ev /\
    Forall (fun ev => event_backed k.(observer) ev e1.2.(log)) past.

Lemma moment_justified c (w : World) ls n l old :
  w.(trace) = [] -> (w.(env) : WiredEnv).2.(log) = [] ->
  wire_history w.(env) (Tick c w).2.(trace) ls -> Forall2 on_wire (Tick c w).2.(trace) ls ->
  ls = n ++ l :: old -> (forall ev, on_wire ev l -> is_external_write ev = true) ->
  justified_exchange c w.(env) (fun e1 => exists past, exchanges_of (w.(env) : WiredEnv).1 e1 past old) l.
Proof.
  intros Hw Hl HH HF -> Hev. apply Forall2_app_inv_r in HF as (n1 & [|ev past] & Hn & HF' & Etr);
    [by apply Forall2_nil_cons_inv in HF'|].
  destruct (HH n1 ev past n l old Etr eq_refl (eq_sym (Forall2_length _ _ _ Hn))) as (e1 & Hr & HI & Hl').
  exists e1, past, ev. split_and!; [exact Hr|by exists past|exact Hl'|by apply Hev| |].
  - pose proof (Tick_evidence c w) as H. rewrite Hw, Etr in H. by apply extends_nil_inv in H.
  - by apply backed_moment in Hr.
Qed.

End Wire.
