(* ===== verification/Durable.v ===== *)
(** * The state across restarts: the wired controller, its state file and the life of the
    process together.

    The process is booted by [Open], lives any life [Lifecycle.steps] allows on the services
    of App.v, is cut off by a crash at any moment and booted again. *)
From S2P Require Import Prelude GoStrings GoTime Model Config Dns Validate Effects Wp Core.
From S2P Require Import Rollover Parent Enroll Reconcile Operator Report Json Http Control.
From S2P Require Import Probe StateFile StateFileFacts StateJson StateJsonFacts AutoDns Pdns Lmtp.
From S2P Require Import Lifecycle LifecycleFacts Steps EndToEnd App Wire.

(** ** Every life of the process is a sequence of calls *)
Section ProcessRuns.
Context {SV : Services} {DL : DnsLib} {JE : JsonErrors} {FX : Fx} (c : Config.t).
Context (umask_mode : Z) (in_use not_directory deadline_exceeded start_cancelled : error).
Import Process.
#[local] Notation steps := (steps c umask_mode in_use not_directory deadline_exceeded start_cancelled).

Lemma runs_zone_status st z : runs (zone_status st z).
Proof. unfold zone_status. runs_auto. Qed.
#[local] Hint Resolve runs_zone_status : runs.
Lemma runs_zone_statuses st zones : runs (zone_statuses c st zones).
Proof. induction zones as [|z zones IH]; cbn; runs_auto. Qed.
#[local] Hint Resolve runs_zone_statuses : runs.
Lemma runs_audit_zone z : runs (audit_zone z).
Proof. unfold audit_zone. runs_auto. Qed.
#[local] Hint Resolve runs_audit_zone : runs.
Lemma runs_audit_zones zones : runs (audit_zones c zones).
Proof. induction zones as [|z zones IH]; cbn; runs_auto. Qed.
#[local] Hint Resolve runs_audit_zones runs_Trigger runs_Resume runs_ReconcileSplitSignerTransition
  runs_ArmEnrollment : runs.

Lemma runs_respond {A} (m : M A) bad good : runs m -> runs (respond m bad good).
Proof. intros H. unfold respond. apply runs_bind; [by apply runs_try|]. intros []; runs_auto. Qed.

Lemma runs_serve r : runs (serve c r).
Proof.
  unfold serve. apply runs_bind; [|intros; apply runs_ret]. unfold mux.
  destruct (List.find _ _) as [[[m p] h]|] eqn:Hf; [|apply runs_ret].
  apply List.find_some in Hf as [Hin _]. destruct (method_matches _ _); [|apply runs_ret].
  cbn in Hin. repeat (destruct Hin as [Hin|Hin]; [simplify_eq|]); try done.
  all: unfold healthz, ready, status, zones, audit, plan, trigger, resume, reconcileSplitSigner, armEnrollment;
    cbv zeta; repeat case_match; try apply runs_ret; apply runs_respond.
  all: unfold Status_, Zones, Audit; runs_auto.
Qed.

Lemma steps_run p l p' : steps p l p' -> rtc world_step p.(world) p'.(world).
Proof.
  induction 1 as [|p a p' l p'' [_ Ha] Hl IH]; [done|]. etrans; [|exact IH]. clear IH Hl.
  destruct Ha as [p a p' Ha|p a p' Ha|p a p' Ha|p]; [..|done]; destruct Ha; try done.
  - destruct o; done.
  - apply runs_serve.
  - unfold after_tick. pose proof (runs_Tick c (world p)) as HT. by destruct (Tick c (world p)) as [[] w].
Qed.
End ProcessRuns.

(** ** The file and the state *)
(** The event of a write that failed: its state may be in the file all the same. *)
Fixpoint refused (tr : list Event) : list State.t :=
  match tr with
  | [] => []
  | EvPersist s (Err _) :: tr' => s :: refused tr'
  | EvPersist _ (Ok _) :: _ => []
  | _ :: tr' => refused tr'
  end.

#[local] Existing Instance state_codec.

Section Durable.
Context {HS : HttpStack} {JE : JsonErrors} {PL : ProbeLib} {NW : Network} {DL : DnsLib}.
Context {PA : Parsers} {KN : Kernel} {MO : MapOrder} {MP : MailPeer}.
Context (k : Components) {KO : KernelOk k.(state_path)}.
#[local] Instance wired : Services := newController k.

(** The disk in a world of the wired controller. *)
Definition disk_of (w : World) : Disk := (w.(env) : WiredEnv).1.(disk).

(** A content of the state file that stands for [s]: what the first [Open] decoded [s] from,
    or the text of [s]. *)
Definition stands_for (s : State.t) (c : option string) : Prop :=
  decode_state (default "" c) = Ok s \/ exists b, json_MarshalIndent s = Ok b /\ c = Some b.
Definition one_of (l : list State.t) (c : option string) : Prop := exists s, s ∈ l /\ stands_for s c.

(** The states a crash may leave: the published one, and those whose write failed since. *)
Definition survivors (w : World) : list State.t := w.(data) :: refused w.(trace).
Definition safe (w : World) : Prop := holds k.(state_path) (one_of (survivors w)) (disk_of w).(fs).

(** The call from [w] to [w'] wrote [s]. *)
Definition writes (s : State.t) (w w' : World) : Prop :=
  world_step w w' /\ exists r, w'.(trace) = EvPersist s r :: w.(trace).

(** A state of the file system passed on the way from [w0] to [w], within the write of a state. *)
Definition passed (w0 w : World) (f : FS.t) : Prop :=
  exists w1 s w2, rtc world_step w0 w1 /\ writes s w1 w2 /\ rtc world_step w2 w /\
    holds k.(state_path) (one_of (s :: survivors w1)) f.

Lemma disk_observe {A} (m : NetM A) (e : WiredEnv) : (observe (clients k) m e).2.1.(disk) = e.1.(disk).
Proof. destruct e as [e n]. unfold observe. cbn. by destruct (m n). Qed.
Lemma disk_pdns {A} (m : D_ A) (e : WiredEnv) : (apart (clients k) (on_pdns m) e).2.1.(disk) = e.1.(disk).
Proof. unfold apart, on_pdns. by destruct (m _). Qed.
Lemma disk_registrar {A} (m : A_ A) (e : WiredEnv) :
  (apart (clients k) (on_registrar m) e).2.1.(disk) = e.1.(disk).
Proof. unfold apart, on_registrar. by destruct (m _). Qed.
Lemma disk_mail {A} address (m : T_ A) (e : WiredEnv) :
  (apart (clients k) (on_mail address m) e).2.1.(disk) = e.1.(disk).
Proof. unfold apart, on_mail. destruct (post_open _ _). by destruct (m _). Qed.

(** A call is the write of a state, or leaves the disk alone. *)
Lemma svc_step_disk (e e' : WiredEnv) tr tr' :
  svc_step (e, tr) (e', tr') ->
  (e'.1.(disk) = e.1.(disk) /\ (tr' = tr \/ exists ev, tr' = ev :: tr /\ is_persist ev = false)) \/
  exists s, let r := writeAtomic k.(state_path) s e.1.(disk) in
    tr' = EvPersist s (returned r.1) :: tr /\ e'.1.(disk) = r.2.
Proof.
  intros H. inversion H as [A op ev ? ? Hc| | |]; subst; [|left..].
  - destruct Hc; cbn; [left..|right].
    all: try (split; [|right; by eexists]).
    all: first [apply disk_pdns|apply disk_registrar|apply disk_observe|apply disk_mail|idtac].
    exists s. unfold apart, on_disk. cbn. by destruct (writeAtomic _ s _).
  - split; [|right; by eexists]. unfold apart. cbn. by destruct (web_Now _).
  - split; [|by left]. unfold apart. cbn. by destruct (order_workflows _ _).
  - split; [|by left]. unfold apart. cbn. by destruct (order_notifications _ _).
Qed.

Lemma one_of_mono l l' c : (forall s, s ∈ l -> s ∈ l') -> one_of l c -> one_of l' c.
Proof. intros Hl (s & Hs & Hc). exists s. auto. Qed.

(** One call keeps the file safe, and every state of the file system it passes is within its write. *)
Lemma step_safe w w' :
  safe w -> world_step w w' ->
  safe w' /\ exists new, (disk_of w').(history) = new ++ (disk_of w).(history) /\
    Forall (fun f => exists s, writes s w w' /\ holds k.(state_path) (one_of (s :: survivors w)) f) new.
Proof.
  intros Hs Hw. pose proof (svc_step_disk _ _ _ _ (world_step_outside _ _ Hw)) as Hd.
  change (disk ((env w : WiredEnv).1)) with (disk_of w) in Hd.
  change (disk ((env w' : WiredEnv).1)) with (disk_of w') in Hd.
  destruct Hd as [[Hd Ht]|(s & Ht & Hd)].
  - assert (Hsv : survivors w' = survivors w).
    { unfold survivors. destruct Hw as [e' _|e' ev _ _]; [done|]. cbn in *.
      destruct Ht as [Ht|(ev' & [= <-] & Hev)]; [by apply (f_equal length) in Ht; cbn in Ht; lia|by destruct ev]. }
    unfold safe. rewrite Hsv, Hd. split; [exact Hs|]. exists []. by split.
  - destruct (does_write k.(state_path) _ s _ Hs (disk_of w) eq_refl) as [[(new & Hn & HF) _] HQ].
    rewrite <- Hd in Hn, HQ.
    assert (Hdata : data w' = committed (EvPersist s (returned (writeAtomic k.(state_path) s (disk_of w)).1)) (data w)).
    { destruct Hw as [e' _|e' ev _ _]; cbn in *; [by apply (f_equal length) in Ht; cbn in Ht; lia|by injection Ht as ->]. }
    assert (Htext : forall c l, (exists b, json_MarshalIndent s = Ok b /\ c = Some b) -> one_of (s :: l) c).
    { intros c l Hb. exists s. split; [constructor|by right]. }
    split.
    + unfold safe, survivors. rewrite Ht, Hdata.
      destruct (writeAtomic _ s _).1 as [[]|e|]; cbn; [| |done]; (eapply holds_mono; [|exact HQ]).
      * intros c. apply Htext.
      * intros c [Hc|Hc]; [revert Hc; apply one_of_mono; set_solver|].
        destruct (Htext c [] Hc) as (x & Hx & Hx'). exists x. split; [set_solver|done].
    + exists new. split; [exact Hn|]. eapply Forall_impl; [exact HF|]. intros f Hf. exists s.
      split; [by split; [|by eexists]|]. revert Hf. apply holds_mono.
      intros c [Hc|Hc]; [revert Hc; apply one_of_mono; set_solver|by apply Htext].
Qed.

Lemma run_safe w w' :
  rtc world_step w w' -> safe w ->
  safe w' /\ exists new, (disk_of w').(history) = new ++ (disk_of w).(history) /\ Forall (passed w w') new.
Proof.
  induction 1 as [w|w w1 w2 Hw Hr IH]; intros Hs; [split; [done|]; by exists []|].
  destruct (step_safe w w1 Hs Hw) as [H1 (new1 & E1 & F1)]. destruct (IH H1) as [H2 (new2 & E2 & F2)].
  split; [done|]. exists (new2 ++ new1). rewrite E2, E1, app_assoc. split; [done|]. apply Forall_app. split.
  - eapply Forall_impl; [exact F2|]. intros f (x & s & y & Hx & Hs' & Hy & Hf). exists x, s, y.
    split_and!; [by eapply rtc_l|done..].
  - eapply Forall_impl; [exact F1|]. intros f (s & Hs' & Hf). exists w, s, w1. by split_and!.
Qed.

(** Every state ever written has the current version. *)
Definition current (s : State.t) : Prop := s.(State.Version) = currentVersion.
Lemma refused_current w w' :
  rtc world_step w w' -> Forall current (survivors w) -> Forall current (survivors w').
Proof.
  induction 1 as [|w1 w2 w3 H _ IH]; [done|]. intros Hw. apply IH. clear IH.
  apply Forall_cons in Hw as [Hd Hr]. unfold survivors, current in *.
  destruct H as [e' _|e' ev _ Hv]; [by constructor|]. cbn.
  destruct ev; cbn in *; try (by constructor). unfold same_version in Hv.
  case_match; repeat constructor; try done; congruence.
Qed.
Lemma written_current s w w' : writes s w w' -> current w.(data) -> current s.
Proof.
  unfold current. intros [H (r & E)] Hd. destruct H as [e' _|e' ev _ Hv]; cbn in E.
  - by apply (f_equal length) in E; cbn in E; lia.
  - injection E as ->. cbn in Hv. unfold same_version in Hv. congruence.
Qed.

(** The process opened on this file starts with [s]. *)
Definition restarts (f : FS.t) (s : State.t) : Prop :=
  storable s -> forall d : Disk, d.(fs) = f ->
  match (Open k.(state_path) d).1 with
  | Val st => st = Store.mk k.(state_path) s true /\ k.(state_path) ∉ d.(locked)
  | Fail_ _ => (Open k.(state_path) d).2.(locked) = d.(locked)
  | Panic => False
  end.

Lemma stands_for_decodes s c : stands_for s c -> storable s -> current s -> decode_state (default "" c) = Ok s.
Proof.
  intros [H|(b & Hb & ->)] Hs Hv; [done|]. destruct (state_round_trip s b Hs Hb) as [Hne Hun].
  by apply decode_current.
Qed.

(** A file of some of the states [l], after a crash or as it stands. *)
Lemma holds_restarts l f f' :
  Forall current l -> holds k.(state_path) (one_of l) f -> f' = f \/ crash f f' ->
  exists s, s ∈ l /\ restarts f' s.
Proof.
  intros Hl Hh Hf. assert (Hh' : holds k.(state_path) (one_of l) f').
  { destruct Hf as [->|Hc]; [done|by eapply holds_after_crash]. }
  destruct (holds_read _ _ _ Hh') as (s & Hin & Hc). exists s. split; [done|]. intros Hs d Hd.
  rewrite Forall_forall in Hl. specialize (Hl s Hin). pose proof (stands_for_decodes s _ Hc Hs Hl) as Hdec.
  rewrite <- Hd in Hh', Hdec. pose proof (Open_spec k.(state_path) _ d Hh') as HO. unfold wp in HO.
  destruct (Open _ d) as [[st|e|] d']; cbn in *; [|done..]. destruct HO as (Hlk & _ & st' & Hst & -> & _).
  rewrite Hdec in Hst. injection Hst as <-. rewrite Hl. by split.
Qed.

(** The start: the file [Open] found, settled, or the one it migrated. *)
Lemma decoded_version b s : decode_state b = Ok s -> 1 <= s.(State.Version) <= currentVersion.
Proof.
  unfold decode_state, currentVersion. destruct (b == ""); [intros [= <-]; cbn; unfold currentVersion; lia|]. intros H. ok_inv H. simplify_eq. cbn.
  apply orb_false_iff in Hguard as [H1%Z.ltb_ge H2%Z.ltb_ge]. unfold currentVersion in H2. lia.
Qed.

Lemma opened content d s :
  holds k.(state_path) (fun c => c = content) d.(fs) -> (Open k.(state_path) d).1 = Val s ->
  holds k.(state_path) (stands_for s.(Store.data)) (Open k.(state_path) d).2.(fs) /\ current s.(Store.data).
Proof.
  intros Hh Ho. pose proof (Open_spec k.(state_path) _ d Hh) as HO. unfold wp in HO. rewrite Ho in HO.
  destruct HO as (_ & _ & st & Hst & -> & Hf). rewrite (holds_read _ _ _ Hh) in Hst.
  pose proof (decoded_version _ _ Hst) as Hv. unfold current. cbn [Store.data].
  destruct (State.Version st <? currentVersion) eqn:E.
  - split; [|done]. revert Hf. apply holds_mono. by right.
  - apply Z.ltb_ge in E. split; [|lia]. revert Hf. apply holds_mono. intros c ->. by left.
Qed.

(** ** The theorem *)
Context {FX : Fx} (c : Config.t).
Context (umask_mode : Z) (in_use not_directory deadline_exceeded start_cancelled : error).

(** C20: the program keeps its state.  Boot the process on any state file (or
    none), whatever its age and whichever system calls fail; let it live any life: ticks, requests of
    any bytes, signals, deadlines, answers of the servers.  If it is killed or the machine crashes
    after any of its actions, the next [Open] that succeeds has exactly the state the process had
    published, or one whose write had been reported as failed since; if it happens inside an action,
    during a write of the state, one of these or the state being written.  Any such state is restored
    with every member, provided its texts are ASCII and its numbers in the range of their Go type;
    an [Open] that fails leaves the lock alone, and none panics. *)
Theorem state_survives_crashes content d s (w : World) ns l p :
  holds k.(state_path) (fun x => x = content) d.(fs) ->
  (Open k.(state_path) d).1 = Val s ->
  disk_of w = (Open k.(state_path) d).2 -> w.(data) = s.(Store.data) -> w.(trace) = [] ->
  steps c umask_mode in_use not_directory deadline_exceeded start_cancelled (launched w ns) l p ->
  let final := p.(Process.world) in
  (forall f', f' = (disk_of final).(fs) \/ crash (disk_of final).(fs) f' ->
     exists s', s' ∈ final.(data) :: refused final.(trace) /\ restarts f' s') /\
  exists new, (disk_of final).(history) = new ++ (disk_of w).(history) /\
    forall f f', f ∈ new -> f' = f \/ crash f f' ->
      exists w1 writing w2 s', rtc world_step w w1 /\ writes writing w1 w2 /\ rtc world_step w2 final /\
        s' ∈ writing :: w1.(data) :: refused w1.(trace) /\ restarts f' s'.
Proof.
  intros Hh Ho Hd Hs Ht Hl final. destruct (opened content d s Hh Ho) as [Hf Hv]. rewrite <- Hd in Hf. rewrite <- Hs in Hf, Hv.
  assert (Hsafe : safe w).
  { revert Hf. apply holds_mono. intros x Hx. exists (data w). split; [constructor|done]. }
  assert (Hcur : Forall current (survivors w)) by (unfold survivors; rewrite Ht; by repeat constructor).
  apply steps_run in Hl. destruct (run_safe _ _ Hl Hsafe) as [Hsafe' (new & Hn & HF)]. split.
  - intros f' Hf'. refine (holds_restarts _ _ _ _ Hsafe' Hf'). by eapply refused_current.
  - exists new. split; [done|]. intros f f' Hin Hf'. rewrite Forall_forall in HF.
    destruct (HF f Hin) as (w1 & x & w2 & H1 & Hx & H2 & Hxf). pose proof (refused_current _ _ H1 Hcur) as Hc1.
    destruct (holds_restarts _ _ _ ltac:(constructor; [eapply written_current; [exact Hx|by apply Forall_cons in Hc1 as [? _]]|exact Hc1]) Hxf Hf')
      as (s' & Hs' & Hr). by exists w1, x, w2, s'.
Qed.
End Durable.
