(* ===== verification/Progress.v ===== *)
(** * Liveness of a ZSK rollover: while the services answer and the inventory is in order,
    every due round brings the rotation nearer to its end, so it ends. *)
From S2P Require Import Prelude GoStrings GoTime Model Config Dns Keys KeysFacts Effects.
From S2P Require Import Wp Core Rollover Parent Enroll Reconcile Safety Phases.

(** ** How far a rollover has come *)
Definition stage (p : Phase) : nat :=
  match p with
  | PhasePrepublish => 7
  | PhaseWaitPublish => 6
  | PhaseActivateNew => 5
  | PhaseWaitNewSignature => 4
  | PhaseDeactivateOld => 3
  | PhaseWaitRetire => 2
  | PhaseDeleteOld => 1
  | _ => 0
  end.

(** The phases that take a first round to record something before they are left. *)
Definition pending_in (p : Phase) (w : Workflow.t) : bool :=
  match p with
  | PhasePrepublish => w.(Workflow.OldKeyID) == 0
  | PhaseWaitPublish => IsZero w.(Workflow.EvidenceAt)
  | PhaseWaitNewSignature => w.(Workflow.ZoneTTL) == 0
  | _ => false
  end.

Definition pending (w : Workflow.t) : bool := pending_in w.(Workflow.Phase) w.

(** The number of rounds a rollover has at most before it. *)
Definition rank (w : Workflow.t) : nat :=
  2 * stage w.(Workflow.Phase) + (if pending w then 1 else 0).

Lemma rank_bound w : (rank w <= 15)%nat.
Proof. unfold rank. destruct (pending w), (Workflow.Phase w); cbn; lia. Qed.

Section Round.
Context {SV : Services} {DL : DnsLib} (c : Config.t) (zone : Zone.t).

Definition zsk_key : string := WorkflowKey zone.(Zone.Name) KindZSK.
Definition rollover (wd : World) : Workflow.t := workflow_at wd.(data) zsk_key.

(** The entry is the zone's ZSK rollover, in a phase of its chain. *)
Record rolling (w : Workflow.t) : Prop := {
  rolling_zone : w.(Workflow.Zone) = zone.(Zone.Name);
  rolling_kind : w.(Workflow.Kind) = KindZSK;
  rolling_phase : w.(Workflow.Phase) ∈ zsk_chain;
}.

Lemma rank_zero w : rolling w -> rank w = 0%nat <-> w.(Workflow.Phase) = PhaseIdle.
Proof.
  intros [_ _ Hp]. unfold rank, pending. unfold zsk_chain in Hp.
  repeat (apply elem_of_cons in Hp as [Hp|Hp]); [..|by apply elem_of_nil in Hp].
  all: rewrite Hp; cbn; split; intros; try done; try lia.
Qed.

(** ** What a round needs *)
Definition wanted_algorithm (old : Key.t) : string :=
  if old.(Key.Algorithm) == "" then c.(Config.Rotation).(Rotation.Algorithm)
  else old.(Key.Algorithm).

Definition live_key (k : Key.t) : bool := k.(Key.Active) && k.(Key.Published).

Definition prepublish_healthy (keys : list Key.t) (w : Workflow.t) : bool :=
  if w.(Workflow.OldKeyID) == 0 then
    match exactlyOneActive keys "zsk" with
    | Ok old => old.(Key.ID) != 0
    | Err _ => false
    end
  else
  match byID keys w.(Workflow.OldKeyID) with
  | None => false
  | Some old =>
      (w.(Workflow.NewKeyID) != 0)
      || match adoptCandidates zone w "zsk" (wanted_algorithm old) old.(Key.ID) false false false
                 keys with
         | Ok [k] => true
         | Ok [] => IsZero w.(Workflow.NewKeyCreateAttemptedAt)
         | _ => false
         end
  end.

(** The keys listed for the zone are the ones the phase expects. *)
Definition healthy (keys : list Key.t) (w : Workflow.t) : bool :=
  let recorded := recordedKeys keys w.(Workflow.OldKeyID) w.(Workflow.NewKeyID) in
  match w.(Workflow.Phase) with
  | PhasePrepublish => prepublish_healthy keys w
  | PhaseWaitPublish =>
      is_ok recorded && is_ok (validatePrepublishInventory zone.(Zone.Name) keys w)
  | PhaseActivateNew => bool_decide (is_Some (byID keys w.(Workflow.NewKeyID)))
  | PhaseWaitNewSignature | PhaseDeactivateOld =>
      match recorded with
      | Ok (_, new) => live_key new
      | Err _ => false
      end
  | PhaseWaitRetire => is_ok recorded
  | PhaseDeleteOld =>
      match byID keys w.(Workflow.NewKeyID) with
      | Some new => live_key new && is_ok (retirementInventory zone.(Zone.Name) keys w)
      | None => false
      end
      && match byID keys w.(Workflow.OldKeyID) with
         | Some old => negb old.(Key.Active)
         | None => true
         end
  | _ => false
  end.

(** The response to a create request is the key that was asked for. *)
Definition as_requested (keys : list Key.t) (w : Workflow.t) (k : Key.t) : bool :=
  match byID keys w.(Workflow.OldKeyID) with
  | None => false
  | Some old =>
      (0 <? k.(Key.ID)) && (k.(Key.ID) != old.(Key.ID))
      && negb (reuses_other_slot w false k.(Key.ID))
      && negb k.(Key.Active) && k.(Key.Published)
      && negb (algorithm_mismatch k.(Key.Algorithm) (wanted_algorithm old))
      && match validatedKeyRole zone.(Zone.Name) k "zsk" false with
         | Ok data => is_ok (validateAlgorithmLabel k.(Key.Algorithm) data.(DNSSECData.Algorithm))
         | Err _ => false
         end
  end.

(** The service answered, and as a working one does: the clock has reached the recorded next
    action, the zone has a TTL, and the TTL did not grow while the old key was retired. *)
Definition answered (keys : list Key.t) (w : Workflow.t) (ev : Event) : bool :=
  match ev with
  | EvNow t => (w.(Workflow.NextActionAt) <=? t) && negb (IsZero t)
  | EvGetZone _ (Ok detail) =>
      let ttl := dur_div (maxTTL detail) Second in
      (0 <? ttl) && ((w.(Workflow.Phase) != PhaseDeactivateOld) || (ttl <=? w.(Workflow.ZoneTTL)))
  | EvGetZone _ (Err _) => false
  | EvCreateKey _ _ _ _ (Ok k) => as_requested keys w k
  | EvCreateKey _ _ _ _ (Err _) => false
  | EvSetKey _ _ _ _ r | EvDeleteKey _ _ r | EvRRSIGBy _ _ r | EvPersist _ r => is_ok r
  | EvDNSKEYEvidence _ _ r => is_ok r
  | _ => true
  end.

(** One round: [advance] on the stored rollover with the keys listed for the zone. *)
Definition round (keys : list Key.t) (wd : World) : Outcome unit * World :=
  advance c zone keys (rollover wd) (mkWorld wd.(env) wd.(data) []).

Definition good_round (keys : list Key.t) (wd : World) : bool :=
  healthy keys (rollover wd)
  && forallb (answered keys (rollover wd)) (round keys wd).2.(trace).

(** ** One round *)
Section Step.
Variables (keys : list Key.t) (w : Workflow.t).
Hypothesis Hrolling : rolling w.

Definition progress (o : Outcome unit) (wd' : World) : Prop :=
  forallb (answered keys w) wd'.(trace) = true ->
  o = Val tt /\ rolling (rollover wd') /\ (rank (rollover wd') < rank w)%nat.

(** The worlds a handler starts from hold [w] as the entry. *)
Definition started (wd : World) : Prop := wd.(data).(State.Workflows) !! zsk_key = Some w.

(** The program blocks the rollover only after an answer no working service gives. *)
Lemma wp_block_progress name kind reason wd :
  forallb (answered keys w) wd.(trace) = false ->
  wp (block c name kind reason) progress wd.
Proof.
  intros H. apply (wp_block c (fun _ _ => True) wd.(trace)); [done|constructor|].
  intros w' [new E]%extends_suffix Ht. rewrite E, forallb_app, H, andb_false_r in Ht. done.
Qed.

Lemma zero_ttl_unanswered zid detail :
  dur_div (maxTTL detail) Second <= 0 -> answered keys w (EvGetZone zid (Ok detail)) = false.
Proof. intros H. cbn -[dur_div Second]. by rewrite (proj2 (Z.ltb_ge _ _) H). Qed.

Lemma dur_div_nonpos d : d <= 0 -> dur_div d Second <= 0.
Proof. unfold dur_div. intros H. by apply Z.quot_le_upper_bound; unfold Second; lia. Qed.

Lemma rolling_key : WorkflowKey w.(Workflow.Zone) w.(Workflow.Kind) = zsk_key.
Proof using Hrolling. destruct Hrolling as [-> -> _]. done. Qed.

(** The entry a transition hands to its mutation. *)
Definition entered (phase : Phase) (next now : time) (x : Workflow.t) : Workflow.t :=
  x <| Workflow.Phase := phase |> <| Workflow.PhaseStartedAt := now |>
    <| Workflow.NextActionAt := next |> <| Workflow.LastError := "" |>
    <| Workflow.Attempts := 0 |>.

(** What the mutation of a transition to [phase] is known to get. *)
Definition entering (phase : Phase) (y : Workflow.t) : Prop :=
  y.(Workflow.Zone) = w.(Workflow.Zone) /\ y.(Workflow.Kind) = w.(Workflow.Kind) /\
  y.(Workflow.Phase) = phase.

Lemma entered_entering phase next t x :
  rolling x -> entering phase (entered phase next t x).
Proof using Hrolling.
  destruct Hrolling as [Hz Hk _]. intros [Hz' Hk' _]. split_and!; [..|done].
  - change (x.(Workflow.Zone) = w.(Workflow.Zone)). congruence.
  - change (x.(Workflow.Kind) = w.(Workflow.Kind)). congruence.
Qed.

Definition nearer (y : Workflow.t) : Prop := rolling y /\ (rank y < rank w)%nat.

Lemma nearer_next y p :
  y.(Workflow.Zone) = w.(Workflow.Zone) -> y.(Workflow.Kind) = w.(Workflow.Kind) ->
  y.(Workflow.Phase) = p -> p ∈ zsk_chain -> (stage p < stage w.(Workflow.Phase))%nat -> nearer y.
Proof using Hrolling.
  destruct Hrolling as [Hz Hk _]. intros Hz' Hk' <- Hp Hs. split; [split; congruence|].
  unfold rank. destruct (pending y), (pending w); lia.
Qed.

Lemma nearer_same y :
  y.(Workflow.Zone) = w.(Workflow.Zone) -> y.(Workflow.Kind) = w.(Workflow.Kind) ->
  y.(Workflow.Phase) = w.(Workflow.Phase) -> pending w = true ->
  pending_in w.(Workflow.Phase) y = false -> nearer y.
Proof using Hrolling.
  destruct Hrolling as [Hz Hk Hp]. intros Hz' Hk' Hp' H1 H2. split; [split; congruence|].
  unfold rank. rewrite H1, Hp'. unfold pending. rewrite Hp', H2. lia.
Qed.

(** A transition whose result is nearer to the end is progress. *)
Lemma wp_transition_progress x phase next f wd :
  wd.(data).(State.Workflows) !! zsk_key = Some x -> rolling x ->
  (forallb (answered keys w) wd.(trace) = true -> forall y, entering phase y -> nearer (f y)) ->
  wp (transition w phase next (fun y => ret (f y))) progress wd.
Proof using Hrolling.
  intros Hx Hr Hf. unfold transition. rewrite rolling_key. unfold workflow_at.
  repeat wp_step. rewrite Hx. cbn [default].
  split; intros; unfold progress; cbn [trace forallb answered is_ok andb]; [|done].
  intros H. unfold rollover. cbn [data]. rewrite workflow_at_put. split; [done|].
  apply Hf; [by bool_prop|]. by apply entered_entering.
Qed.

Lemma wp_transition_now_progress x phase next f wd :
  wd.(data).(State.Workflows) !! zsk_key = Some x -> rolling x ->
  (forallb (answered keys w) wd.(trace) = true ->
   forall y t, IsZero t = false -> entering phase y -> nearer (f t y)) ->
  wp (transition w phase next (fun y => let* t := Now in ret (f t y))) progress wd.
Proof using Hrolling.
  intros Hx Hr Hf. unfold transition. rewrite rolling_key. unfold workflow_at.
  repeat wp_step. rewrite Hx. cbn [default].
  split; intros; unfold progress; cbn [trace forallb answered is_ok andb]; [|done].
  intros H. unfold rollover. cbn [data]. rewrite workflow_at_put. split; [done|].
  apply Hf; [by bool_prop..|]. by apply entered_entering.
Qed.

End Step.
End Round.

#[local] Opaque byID retirementInventory validatePrepublishInventory recordedKeys dur_div
  exactlyOneActive adoptCandidates.

(** Rewrite with what the inventory is known to hold, or refute the branch. *)
Ltac known :=
  repeat match goal with
  | H : recordedKeys _ _ _ = _, H' : context [recordedKeys _ _ _] |- _ =>
      lazymatch H' with H => fail | _ => rewrite H in H' end
  | H : validatePrepublishInventory _ _ _ = _, H' : context [validatePrepublishInventory _ _ _] |- _ =>
      lazymatch H' with H => fail | _ => rewrite H in H' end
  | H : retirementInventory _ _ _ = _, H' : context [retirementInventory _ _ _] |- _ =>
      lazymatch H' with H => fail | _ => rewrite H in H' end
  | H : byID _ _ = _, H' : context [byID _ _] |- _ =>
      lazymatch H' with H => fail | _ => rewrite H in H' end
  end.
(** Close a branch in which a service failed to answer. *)
Ltac unanswered :=
  let H := fresh "H" in
  intros H; known; cbn -[dur_div Second] in H; bool_prop; first [discriminate | congruence | lia].
(** Show that the entry a transition leaves is nearer to the end. *)
Ltac advanced :=
  let Ht := fresh "Ht" in let Hz := fresh "Hz" in let Hk := fresh "Hk" in let Hq := fresh "Hq" in
  intros Ht; intros;
  lazymatch goal with
  | Hr : rolling _ ?w, Hp : Workflow.Phase ?w = ?p, He : entering _ ?q _ |- nearer _ ?w _ =>
      destruct He as (Hz & Hk & Hq);
      lazymatch q with
      | p =>
          apply (nearer_same _ _ Hr); rewrite ?Hp; unfold pending; rewrite ?Hp; cbn [pending_in];
          record_simpl; first [assumption | idtac]
      | _ => apply (nearer_next _ _ Hr _ q); record_simpl; [assumption..|in_trace|rewrite Hp; cbn; lia]
      end
  end.
(** One step of a symbolic execution towards a transition that is progress. *)
Ltac progress_step :=
  lazymatch goal with
  | |- wp (transition _ _ _ no_change) _ _ => unfold no_change
  | |- wp (transition _ _ _ clear_evidence) _ _ => unfold clear_evidence
  | Hr : rolling _ ?w
    |- wp (transition ?w _ _ (fun y => ret (@?g y))) (progress ?c ?zone ?keys ?w) _ =>
      eapply (wp_transition_progress c zone keys w Hr) with (f := g); [eassumption|assumption|]
  | Hr : rolling _ ?w
    |- wp (transition ?w _ _ (fun y => bind Now (fun t => ret (@?g y t))))
         (progress ?c ?zone ?keys ?w) _ =>
      eapply (wp_transition_now_progress c zone keys w Hr) with (f := fun t y => g y t);
      [eassumption|assumption|]
  | |- progress _ _ _ _ _ _ => unanswered
  | |- wp (block _ _ _ _) (progress _ _ _ _) _ =>
      apply wp_block_progress; cbn [trace forallb]; rewrite zero_ttl_unanswered;
      [reflexivity|bool_prop; first [assumption|apply dur_div_nonpos; assumption]]
  | H : live_key ?k = true |- _ => unfold live_key in H; bool_prop
  | H : Key.Active ?k = _ |- context [Key.Active ?k] => rewrite H; cbn [negb orb andb]; wp_simpl
  | H : Key.Published ?k = _ |- context [Key.Published ?k] => rewrite H; cbn [negb orb andb]; wp_simpl
  | |- wp (lift (Ok _)) _ _ => apply wp_lift; [intros ? [= <-]|done]; wp_simpl
  | |- _ => wp_step
  end.
Ltac run := repeat progress_step.
(** Begin the proof for the handler [h] of the phase of [w]. *)
Ltac start h :=
  let Hp := fresh "Hp" in let Hh := fresh "Hh" in let Hs := fresh "Hs" in
  let Hk := fresh "Hk" in
  intros Hp Hh Hs;
  match goal with H : rolling _ ?w |- _ => pose proof (rolling_kind _ _ H) as Hk end;
  unfold healthy in Hh; rewrite Hp in Hh; cbv zeta in Hh;
  unfold h, transition_after, transition_now, is_initial_split, is_ksk_or_split, is_split;
  rewrite ?Hk; decide_kinds; unfold_api; wp_simpl.

(** ** The handlers *)
Section Handlers.
Context {SV : Services} {DL : DnsLib} (c : Config.t) (zone : Zone.t).
Context (keys : list Key.t) (w : Workflow.t).
Hypothesis Hrolling : rolling zone w.

(** From a healthy inventory and the entry [w], [h] makes progress. *)
Definition handles (p : Phase) (h : Zone.t -> list Key.t -> Workflow.t -> M unit) : Prop :=
  forall wd, w.(Workflow.Phase) = p -> healthy c zone keys w = true -> started zone w wd ->
    wp (h zone keys w) (progress c zone keys w) wd.


Lemma waitRetire_progress : handles PhaseWaitRetire (waitRetire c).
Proof using Hrolling.
  intros wd. start @waitRetire. destruct (recordedKeys keys _ _) as [[old new]|] eqn:Hrec; [|done].
  run; advanced.
Qed.

Lemma activateNew_progress : handles PhaseActivateNew (activateNew c).
Proof using Hrolling.
  intros wd. start @activateNew. destruct (byID _ _) as [k|]; [|done].
  run; advanced.
Qed.

Lemma waitPublish_progress : handles PhaseWaitPublish (waitPublish c).
Proof using Hrolling.
  intros wd. start @waitPublish. destruct (recordedKeys keys _ _) as [[old new]|] eqn:Hrec; [|done].
  destruct (validatePrepublishInventory _ _ _) eqn:Hv; [|by destruct (is_ok _)].
  run; advanced.
Qed.

Lemma waitNewSignature_progress : handles PhaseWaitNewSignature (waitNewSignature c).
Proof using Hrolling.
  intros wd. start @waitNewSignature. destruct (recordedKeys keys _ _) as [[old new]|] eqn:Hrec; [|done].
  pose proof (proj1 (recordedKeys_Ok _ _ _ _ _) Hrec) as [Ho Hn]. rewrite Hn.
  run; advanced. cbn -[dur_div Second] in Ht. apply eqb_false. bool_prop. lia.
Qed.

Lemma deactivateOld_progress : handles PhaseDeactivateOld (deactivateOld c).
Proof using Hrolling.
  intros wd. start @deactivateOld. destruct (recordedKeys keys _ _) as [[old new]|] eqn:Hrec; [|done].
  run; advanced; try reflexivity. cbn -[dur_div Second] in Ht. rewrite Hp in Ht.
  bool_prop. destruct_or!; [done|lia].
Qed.
Lemma workflow_at_notification n e s k :
  workflow_at (put_notification n e s) k = workflow_at s k.
Proof. done. Qed.

Lemma complete_progress wd :
  w.(Workflow.Phase) = PhaseDeleteOld -> wp (complete c w) (progress c zone keys w) wd.
Proof using Hrolling.
  intros Hp. unfold complete. wp_simpl.
  rewrite (rolling_key _ _ Hrolling), (rolling_kind _ _ Hrolling). decide_kinds. repeat wp_step.
  all: split; intros; [intros _|unanswered].
  all: split; [done|]; apply (nearer_next _ _ Hrolling _ PhaseIdle); [..|in_trace|rewrite Hp; cbn; lia].
  all: unfold rollover; cbn [data]; destruct (LMTP.Enabled _), (Before _ _).
  all: rewrite ?workflow_at_notification, workflow_at_put; record_simpl.
  all: first [done|by rewrite (rolling_kind _ _ Hrolling)].
Qed.

Lemma deleteOld_progress : handles PhaseDeleteOld (deleteOld c).
Proof using Hrolling.
  intros wd. start @deleteOld. destruct (byID keys (Workflow.NewKeyID w)) as [new|] eqn:Hnew; [|done].
  destruct (retirementInventory _ _ _) eqn:Hret; [|by rewrite andb_false_r in Hh].
  destruct (byID keys (Workflow.OldKeyID w)) as [old|] eqn:Hold; unfold live_key in Hh; bool_prop.
  all: run; by apply complete_progress.
Qed.

(** The durable intent to create a key, recorded. *)
Definition intended (t : time) : Workflow.t := w <| Workflow.NewKeyCreateAttemptedAt := t |>.

Lemma rolling_intended t : rolling zone (intended t).
Proof using Hrolling. destruct Hrolling as [? ? ?]. by split. Qed.

Lemma wp_recordCreateAttempt Q wd :
  w.(Workflow.Phase) = PhasePrepublish -> started zone w wd ->
  IsZero w.(Workflow.NewKeyCreateAttemptedAt) = true ->
  (forall e' s' t, s'.(State.Workflows) !! zsk_key zone = Some (intended t) ->
     Q (Val tt) (mkWorld e' s' (EvPersist s' (Ok tt) :: EvNow t :: wd.(trace)))) ->
  (forall e wd', forallb (answered c zone keys w) wd'.(trace) = false -> Q (Fail_ e) wd') ->
  wp (recordCreateAttempt w false) Q wd.
Proof using Hrolling.
  intros Hp Hs Hz HV HF. unfold recordCreateAttempt. do 3 wp_step.
  rewrite (rolling_key _ _ Hrolling), Hs, Hp, !eqb_refl, Hz. cbn [orb negb]. wp_step.
  split; intros.
  - apply HV. unfold put_workflow. record_simpl. by rewrite lookup_insert_eq.
  - by apply HF.
Qed.

Lemma as_requested_spec old k :
  byID keys w.(Workflow.OldKeyID) = Some old -> as_requested c zone keys w k = true ->
  (k.(Key.ID) <=? 0) || (k.(Key.ID) == old.(Key.ID)) || reuses_other_slot w false k.(Key.ID)
  || (k.(Key.Active) != false) || negb k.(Key.Published) = false /\
  algorithm_mismatch k.(Key.Algorithm) (wanted_algorithm c old) = false /\
  exists data, validatedKeyRole zone.(Zone.Name) k "zsk" false = Ok data /\
    exists u, validateAlgorithmLabel k.(Key.Algorithm) data.(DNSSECData.Algorithm) = Ok u.
Proof.
  intros Hold. unfold as_requested. rewrite Hold. intros H.
  destruct (validatedKeyRole _ _ _ _) as [data|]; [|by rewrite andb_false_r in H].
  destruct (validateAlgorithmLabel _ _) as [u|] eqn:Hu; [|by rewrite andb_false_r in H].
  bool_prop. split_and!; [|done|by exists data; split; [|exists u]].
  rewrite !orb_false_iff, negb_false_iff. split_and!; try done.
  - by apply Z.leb_gt.
  - by apply eqb_false.
  - by apply eqb_true.
  - by apply negb_false_iff.
Qed.


Lemma prepublish_progress : handles PhasePrepublish (prepublish c).
Proof using Hrolling.
  intros wd. start @prepublish. unfold prepublish_healthy in Hh. change (Kind_string KindZSK) with "zsk".
  destruct (Workflow.OldKeyID w == 0) eqn:Hold0.
  - destruct (exactlyOneActive _ _) as [old|]; [|done]. run; advanced.
    bool_prop. by apply eqb_false.
  - destruct (byID _ _) as [old|] eqn:Hold; [|done]. cbn [andb].
    destruct (Workflow.NewKeyID w == 0) eqn:Hnew0; cbn [negb orb] in Hh; [|run; advanced].
    unfold adoptOrCreate. fold (wanted_algorithm c old).
    destruct (adoptCandidates _ _ _ _ _ _ _ _ _) as [[|k [|]]|]; try done; [|run; advanced].
    rewrite Hh. cbn [negb]. do 4 progress_step.
    apply wp_recordCreateAttempt; [done|done|done| |intros ? ? Hf H; congruence].
    intros e' s' t Hs'. pose proof (rolling_intended t) as Hr'. wp_step. unfold CreateKey.
    apply wp_call; intros [k|e] ?; wp_simpl; [|unanswered].
    destruct (as_requested c zone keys w k) eqn:Ha.
    + destruct (as_requested_spec _ _ Hold Ha) as (-> & -> & data & Hd & u & Hu).
      rewrite Hd. run; advanced.
    + run; first [unanswered|intros H; exfalso; revert H; unanswered].
Qed.

Lemma handler_progress wd h :
  phase_handler c zone keys w = Some h -> healthy c zone keys w = true -> started zone w wd ->
  wp h (progress c zone keys w) wd.
Proof using Hrolling.
  unfold phase_handler. intros Hh Hi Hs. destruct (Workflow.Phase w) eqn:Hp; simplify_eq.
  all: first [ by apply prepublish_progress | by apply waitPublish_progress
             | by apply activateNew_progress | by apply waitNewSignature_progress
             | by apply deactivateOld_progress | by apply waitRetire_progress
             | by apply deleteOld_progress | by unfold healthy in Hi; rewrite Hp in Hi ].
Qed.

Lemma healthy_handled :
  healthy c zone keys w = true -> exists h, phase_handler c zone keys w = Some h.
Proof. unfold healthy, phase_handler. destruct (Workflow.Phase w); try done; eauto. Qed.

(** A due round with a healthy inventory makes progress. *)
Lemma advance_progress wd :
  healthy c zone keys w = true -> started zone w wd ->
  wp (advance c zone keys w) (progress c zone keys w) wd.
Proof using Hrolling.
  intros Hi Hs. destruct (healthy_handled Hi) as [h Hh]. unfold advance, not_due. rewrite Hh.
  assert (Hrun : forall wd', started zone w wd' ->
    wp (let* r := try h in
        match r with
        | Ok _ => ret tt
        | Err e => let* _ := try (recordRetry w e) in fail e
        end) (progress c zone keys w) wd').
  { intros wd' Hs'. wp_step. wp_step. eapply wp_mono; [by eapply handler_progress|].
    intros [[]|e|] wd1 HP; wp_simpl; [wp_step; exact HP| |intros H; by destruct (HP H)].
    wp_step. eapply (wp_emits (fun _ => True)); [emits_auto|].
    intros o wd2 new E _. destruct o; wp_simpl; try wp_step; intros Ht.
    all: rewrite E, forallb_app in Ht; apply andb_true_iff in Ht as [_ Ht]; by destruct (HP Ht). }
  wp_step. destruct (IsZero _); [wp_step; by apply Hrun|].
  do 3 wp_step. destruct (Before _ _) eqn:Hb; [|by apply Hrun].
  wp_step. unfold Before in Hb. unanswered.
Qed.
End Handlers.

(** ** A whole rollover *)
Section Journey.
Context {SV : Services} {DL : DnsLib} (c : Config.t) (zone : Zone.t).
(** The keys listed in a world, and what happens between two rounds: time passes, services
    change, operators act. *)
Variables (listing : World -> list Key.t) (between : World -> World).

Definition next_round (wd : World) : World := between (round c zone (listing wd) wd).2.
Definition after (n : nat) (wd : World) : World := Nat.iter n next_round wd.

Lemma after_S n wd : after (S n) wd = after n (next_round wd).
Proof. unfold after. by rewrite Nat.iter_succ_r. Qed.

Lemma rolling_started w wd : rolling zone w -> rollover zone wd = w -> started zone w wd.
Proof.
  unfold rollover, started, workflow_at. intros [_ _ Hp] <-.
  destruct (_ !! _) as [x|]; [done|]. cbn in Hp. unfold zsk_chain in Hp.
  repeat (apply elem_of_cons in Hp as [Hp|Hp]; [done|]). by apply elem_of_nil in Hp.
Qed.

Lemma good_round_progress keys wd :
  rolling zone (rollover zone wd) -> good_round c zone keys wd = true ->
  (round c zone keys wd).1 = Val tt /\ rolling zone (rollover zone (round c zone keys wd).2) /\
  (rank (rollover zone (round c zone keys wd).2) < rank (rollover zone wd))%nat.
Proof.
  intros Hr [Hh Ht]%andb_true_iff. unfold round in *.
  set (start := mkWorld _ _ _) in *.
  assert (Hs : started zone (rollover zone wd) start) by (by apply (rolling_started _ _ Hr)).
  exact (advance_progress c zone keys _ Hr _ Hh Hs Ht).
Qed.

Lemma active_rank w : rolling zone w -> Active w = true \/ (rank w = 0%nat /\ Active w = false).
Proof.
  intros Hr. destruct (decide (w.(Workflow.Phase) = PhaseIdle)) as [Hi|Hi].
  - right. split; [by apply (rank_zero zone)|]. unfold Active. by rewrite Hi.
  - left. destruct Hr as [_ _ Hp]. unfold Active.
    rewrite (bool_decide_eq_true_2 _ Hi), andb_true_r. apply bool_decide_eq_true.
    intros E. rewrite E in Hp. unfold zsk_chain in Hp.
    repeat (apply elem_of_cons in Hp as [Hp|Hp]; [done|]). by apply elem_of_nil in Hp.
Qed.

(** C13: a ZSK rollover ends.  If nothing but [advance] writes its entry, and in every
    round it is still active the inventory is in order, the services answer and the clock has
    reached the recorded time, then every round succeeds and the workflow is idle after at
    most [rank] of them, which is never more than fifteen. *)
Theorem rollover_terminates wd :
  (forall wd', rollover zone (between wd') = rollover zone wd') ->
  rolling zone (rollover zone wd) ->
  (forall n, (n < rank (rollover zone wd))%nat -> Active (rollover zone (after n wd)) = true ->
     good_round c zone (listing (after n wd)) (after n wd) = true) ->
  exists n, (n <= rank (rollover zone wd) <= 15)%nat /\
    (rollover zone (after n wd)).(Workflow.Phase) = PhaseIdle /\
    forall m, (m < n)%nat -> (round c zone (listing (after m wd)) (after m wd)).1 = Val tt.
Proof.
  intros Hb. pose proof (rank_bound (rollover zone wd)) as Hle. revert Hle.
  remember (rank (rollover zone wd)) as r eqn:Er. revert wd Er.
  induction r as [r IH] using lt_wf_ind. intros wd Er Hle Hr Hg.
  destruct (active_rank _ Hr) as [Ha|[Hz _]].
  2: { exists 0%nat. split; [lia|]. split; [by apply (rank_zero zone)|lia]. }
  assert (Hpos : (0 < r)%nat).
  { destruct r; [|lia]. symmetry in Er. apply (rank_zero zone) in Er; [|done].
    unfold Active in Ha. by rewrite Er in Ha. }
  destruct (good_round_progress _ _ Hr (Hg 0%nat Hpos Ha)) as (Hv & Hr' & Hlt).
  change (after 0 wd) with wd in Hv, Hr', Hlt. rewrite <- Hb in Hr', Hlt.
  fold (next_round wd) in Hr', Hlt.
  destruct (IH (rank (rollover zone (next_round wd)))) with (wd := next_round wd)
    as (n & Hn & Hi & Hvs); [lia|done|lia|done| |].
  { intros n Hn. rewrite <- after_S. apply Hg. lia. }
  exists (S n). rewrite after_S. split; [lia|]. split; [done|].
  intros [|m] Hm; [done|]. rewrite after_S. apply Hvs. lia.
Qed.
End Journey.
