(* ===== verification/Sim.v ===== *)
(** * A concrete instance of every parameter: a single-zone PowerDNS server, registrar,
    parent and clock, used to evaluate the model and to instantiate the theorems. *)
From S2P Require Import Prelude GoStrings GoTime Model Config Dns Keys Effects Core.
From S2P Require Import Reconcile.

(** ** DNSKEY presentation format: the last four fields, decimal numbers. *)
Definition digit (a : ascii) : option Z :=
  let n := byte_code a in
  if (48 <=? n) && (n <=? 57) then Some (n - 48) else None.
Fixpoint decimal (acc : Z) (l : list ascii) : option Z :=
  match l with
  | [] => Some acc
  | a :: l' => match digit a with
               | Some d => decimal (10 * acc + d) l'
               | None => None
               end
  end.

Definition sim_NewRR (s : string) : result (option RR) :=
  match rev (Fields s) with
  | pk :: alg :: proto :: flags :: _ =>
      match decimal 0 (bytes flags), decimal 0 (bytes proto), decimal 0 (bytes alg) with
      | Some f, Some p, Some a =>
          Ok (Some (RR_DNSKEY (DNSKEY.mk (RR_Header.mk "example.org." 48 1 300) f p a pk)))
      | _, _, _ => Err (errors_New "dns: bad DNSKEY")
      end
  | _ => Err (errors_New "dns: bad DNSKEY")
  end.

Definition sim_dns : DnsLib := {| NewRR := sim_NewRR; IsDomainName := fun s => s != "" |}.

(** ** The simulated world *)
Record SimEnv := mkSim {
  clock : time;
  zone : Zone.t;
  keys : list Key.t;
  registrar : DomainDNSSECState.t;
  jobs : Z;
  write_ok : bool;   (* does the state file accept writes? *)
  dns_ok : bool;     (* does DNS show what is configured? *)
}.

Definition flags_of (typ : string) : string := if typ == "zsk" then "256" else "257".
Definition sim_key (id : Z) (typ : string) (active : bool) : Key.t :=
  Key.mk id typ active true (flags_of typ +:+ " 3 13 key" +:+ pretty id) []
    "ECDSAP256SHA256" 256.

Definition sim_fail {A} (what : string) : result A := Err (errors_New what).
Definition observed {A} (a : A) (ok : bool) (e : SimEnv) : result A * SimEnv :=
  (if e.(dns_ok) && ok then Ok a else sim_fail "evidence missing", e).

Definition next_id (ks : list Key.t) : Z :=
  1 + fold_left (fun m k => Z.max m k.(Key.ID)) ks 0.

Definition active_in (ks : list Key.t) (k : Key.t) : bool :=
  existsb (fun x => (x.(Key.ID) == k.(Key.ID)) && x.(Key.Active)) ks.

(** The registrar's material is the parent's DS set. *)
Definition parent_has (e : SimEnv) (name : string) (ks : list Key.t) : bool :=
  e.(registrar).(DomainDNSSECState.Enabled)
  && match ks with
     | [k] => match DNSSECDataForKey (DL := sim_dns) name k with
              | Ok d => sameMaterial e.(registrar).(DomainDNSSECState.Data) [d]
              | Err _ => false
              end
     | _ => false
     end.

Definition with_keys (ks : list Key.t) (e : SimEnv) : SimEnv :=
  mkSim e.(clock) e.(zone) ks e.(registrar) e.(jobs) e.(write_ok) e.(dns_ok).
Definition at_time (t : time) (e : SimEnv) : SimEnv :=
  mkSim t e.(zone) e.(keys) e.(registrar) e.(jobs) e.(write_ok) e.(dns_ok).

Definition hour_ttl : duration := 3600 * 1000000000.

Definition sim : Services := {|
  Env := SimEnv;
  svc_ListZones e := (Ok [e.(zone)], e);
  svc_GetZone _ e := (Ok e.(zone), e);
  svc_ListKeys _ e := (Ok e.(keys), e);
  svc_CreateKey _ typ _ active e :=
    let k := sim_key (next_id e.(keys)) typ active in (Ok k, with_keys (e.(keys) ++ [k]) e);
  svc_SetKey _ k active published e :=
    (Ok tt, with_keys (map (fun x => if x.(Key.ID) == k.(Key.ID)
                                     then x <| Key.Active := active |> <| Key.Published := published |>
                                     else x) e.(keys)) e);
  svc_DeleteKey _ id e :=
    (Ok tt, with_keys (List.filter (fun x => x.(Key.ID) != id) e.(keys)) e);
  svc_DomainDNSSEC _ e := (Ok e.(registrar), e);
  svc_UpdateDNSSEC _ data _ e :=
    (Ok (Job.mk (e.(jobs) + 1) "stid" "RUNNING"),
     mkSim e.(clock) e.(zone) e.(keys) (DomainDNSSECState.mk true data false) (e.(jobs) + 1)
       e.(write_ok) e.(dns_ok));
  svc_JobStatus _ e := (Ok "SUCCESS", e);
  svc_DNSKEYEvidence _ _ e := observed hour_ttl true e;
  svc_AuthoritativeDNSKEYEvidence _ _ e := observed hour_ttl true e;
  svc_NoDSEvidence _ e := observed tt (negb e.(registrar).(DomainDNSSECState.Enabled)) e;
  svc_DSEvidence name ks e := observed tt (parent_has e name ks) e;
  svc_AuthoritativeDSEvidence name ks e := observed hour_ttl (parent_has e name ks) e;
  svc_RRSIGBy _ k e := observed tt (active_in e.(keys) k) e;
  svc_AuthoritativeRRSIGBy _ k e := observed tt (active_in e.(keys) k) e;
  svc_DNSKEYRRSIGBy _ k e := observed tt (active_in e.(keys) k) e;
  svc_AuthoritativeDNSKEYRRSIGBy _ k e := observed tt (active_in e.(keys) k) e;
  svc_DelegationEvidence _ _ e := observed tt true e;
  svc_Send _ e := (Ok tt, e);
  svc_Now e := (e.(clock), e);
  svc_writeAtomic _ e := (if e.(write_ok) then Ok tt else sim_fail "disk full", e);
  svc_range_workflows m e := (map_to_list m, e);
  svc_range_notifications m e := (map_to_list m, e);
|}.
#[export] Existing Instance sim_dns.
#[export] Existing Instance sim.

#[export] Instance sim_range : RangeOk (H := sim).
Proof. split; intros; reflexivity. Qed.

(** ** A configuration and starting points *)
Definition day : duration := 24 * Hour.
Definition sim_config : Config.t :=
  Config.mk "enforce" (Log.mk "info")
    (ControllerCfg.mk Minute Hour "state.json" "control.sock" (30 * day))
    (PowerDNS.mk "http://127.0.0.1" "localhost" "key" Second)
    (AutoDNS.mk "https://api" "user" "pw" 4 Second Second)
    (DNSCfg.mk ["192.0.2.1:53"] ["192.0.2.2:53"] ["ns1.example.net."] "127.0.0.1:53" Second)
    (Rotation.mk "ECDSAP256SHA256" (30 * day) (365 * day) false (1 * Hour) (1 * Hour) [] [])
    (Enrollment.mk true "all_selected" Hour 5 10 ["ECDSAP256SHA256"] [] [])
    (LMTP.mk true "127.0.0.1:24" "host" "from@example.org" ["to@example.org"] Second).

Definition sim_zone : Zone.t :=
  Zone.mk "example.org." "example.org." "Native" true
    [RRSet.mk "example.org." "SOA" 3600 [mk_rr_content "soa" false]].

Definition empty_state : State.t := State.mk 1 time_zero ∅ ∅ ∅.

Definition t0 : time := 63800000000 * Second.
Definition split_keys : list Key.t := [sim_key 1 "ksk" true; sim_key 2 "zsk" true].
Definition ksk_data : DNSSECData.t := DNSSECData.mk 257 3 13 "key1".
Definition split_env : SimEnv :=
  mkSim t0 sim_zone split_keys (DomainDNSSECState.mk true [ksk_data] false) 0 true true.

Definition start_world (e : SimEnv) (s : State.t) : World := mkWorld (e : Env) s [].

(** Run [n] ticks, the clock moving [step] between two of them. *)
Fixpoint run_ticks (n : nat) (step : duration) (w : World) : World :=
  match n with
  | O => w
  | S n' =>
      let w := (Tick sim_config w).2 in
      run_ticks n' step (mkWorld (at_time (w.(env).(clock) + step) w.(env) : Env) w.(data) w.(trace))
  end.

Definition phases_of (w : World) : list (string * string) :=
  map (fun kw => (kw.1, Phase_string kw.2.(Workflow.Phase))) (map_to_list w.(data).(State.Workflows)).
Definition writes_of (w : World) : list Event := rev (List.filter is_external_write w.(trace)).

(** ** Scenarios: worlds reached by ticking, with an empty trace *)
Definition fresh (w : World) : World := mkWorld w.(env) w.(data) [].

(** A split zone whose ZSK interval expires after 30 days. *)
Definition zsk_rollover (n : nat) : World :=
  fresh (run_ticks n day (start_world split_env empty_state)).

(** The same zone with a KSK rollover started on the second day. *)
Definition ksk_rollover (n : nat) : World :=
  fresh (run_ticks n day
    (start "example.org." KindKSK false "" (zsk_rollover 1)).2).

(** A CSK zone without delegation, with a split migration started on the second day. *)
Definition csk_env : SimEnv :=
  mkSim t0 sim_zone [sim_key 1 "csk" true] (DomainDNSSECState.mk false [] false) 0 true true.
Definition split_migration (n : nat) : World :=
  fresh (run_ticks n day
    (start "example.org." KindSplit true ""
       (run_ticks 1 day (start_world csk_env empty_state))).2).

(** An armed controller that discovers a signed split zone without delegation. *)
Definition enroll_env : SimEnv :=
  mkSim t0 sim_zone split_keys (DomainDNSSECState.mk false [] false) 0 true true.
Definition enrollment (n : nat) : World :=
  fresh (run_ticks n day
    (start_world enroll_env (empty_state <| State.EnrollmentArmedAt := t0 |>))).

Definition sim_workflow (w : World) (kind : Kind) : Workflow.t :=
  workflow_at w.(data) (WorkflowKey "example.org." kind).
