(* ===== verification/Instances.v ===== *)
(** * Instances of the theorems at concrete inputs: the simulated worlds of Sim.v show that their
    hypotheses can hold, on runs in which the events they speak of occur; inventories, waits, the
    single-active invariant, operator requests and the outbox. *)
From S2P Require Import Prelude GoStrings GoTime Model Config Dns Keys KeysFacts Inventory Effects Wp Core Rollover Parent.
From S2P Require Import Enroll Reconcile Waits Operator Safety TickSafety Phases Single OperatorFacts RequestEffects Boundaries Once Reach Reachable.
From S2P Require Import Sim.

(** One [advance] of a workflow of the simulated zone, and its trace. *)
Definition sim_advance (w : World) (kind : Kind) : World :=
  (advance sim_config sim_zone w.(env).(keys) (sim_workflow w kind) w).2.
Definition sim_trace (w : World) (kind : Kind) : list Event := (sim_advance w kind).(trace).

Definition deletes (ev : Event) : bool := match ev with EvDeleteKey _ _ _ => true | _ => false end.
Definition sets (ev : Event) : bool := match ev with EvSetKey _ _ _ _ _ => true | _ => false end.
Definition updates (ev : Event) : bool :=
  match ev with EvUpdateDNSSEC _ _ _ _ => true | _ => false end.
Definition creates (ev : Event) : bool :=
  match ev with EvCreateKey _ _ _ _ _ => true | _ => false end.

(** The events before the newest one that satisfies [p]. *)
Fixpoint before_event (p : Event -> bool) (tr : list Event) : list Event :=
  match tr with
  | [] => []
  | ev :: tr' => if p ev then tr' else before_event p tr'
  end.
Fixpoint after_event (p : Event -> bool) (tr : list Event) : list Event :=
  match tr with
  | [] => []
  | ev :: tr' => if p ev then [] else ev :: after_event p tr'
  end.

Definition tick_trace : list Event := (Tick sim_config (zsk_rollover 41)).2.(trace).


Definition delete_trace : list Event := sim_trace (zsk_rollover 41) KindZSK.
Lemma delete_only_after_replacement_witness :
  "example.org." = sim_zone.(Zone.ID) /\
  deletion_evidence sim_zone (zsk_rollover 41).(env).(keys) (sim_workflow (zsk_rollover 41) KindZSK)
    (before_event deletes delete_trace) 2.
Proof.
  apply (delete_only_after_replacement sim_config _ _ _ (zsk_rollover 41)
           (after_event deletes delete_trace) _ _ (Ok tt)); vm_compute; reflexivity.
Defined.

Definition deactivate_trace : list Event := sim_trace (ksk_rollover 9) KindKSK.
Lemma deactivate_only_after_proof_witness :
  "example.org." = sim_zone.(Zone.ID) /\ true = true /\
  deactivation_evidence sim_zone (ksk_rollover 9).(env).(keys) (sim_workflow (ksk_rollover 9) KindKSK)
    (before_event sets deactivate_trace) (sim_key 1 "ksk" true).
Proof.
  apply (deactivate_only_after_proof sim_config _ _ _ (ksk_rollover 9)
           (after_event sets deactivate_trace) _ _ _ (Ok tt)); vm_compute; reflexivity.
Defined.

Definition activate_trace : list Event := sim_trace (split_migration 11) KindSplit.
Lemma activate_only_recorded_signer_witness :
  "example.org." = sim_zone.(Zone.ID) /\ true = true /\
  activation_evidence (split_migration 11).(env).(keys)
    (sim_workflow (split_migration 11) KindSplit) "example.org." (sim_key 3 "zsk" false).
Proof.
  apply (activate_only_recorded_signer sim_config sim_zone _ _ (split_migration 11)
           (after_event sets activate_trace) _ _ _ (Ok tt) (before_event sets activate_trace));
    vm_compute; reflexivity.
Defined.

Definition update_trace : list Event := sim_trace (enrollment 5) KindEnroll.
Lemma registrar_write_follows_intent_witness :
  registrar_evidence sim_config sim_zone (enrollment 5).(env).(keys)
    (sim_workflow (enrollment 5) KindEnroll)
    (before_event updates update_trace) "example.org." [ksk_data]
    (sim_workflow (enrollment 5) KindEnroll).(Workflow.RegistrarCTID).
Proof.
  apply (registrar_write_follows_intent sim_config _ _ _ (enrollment 5)
           (after_event updates update_trace) _ _ _ (Ok (Job.mk 1 "stid" "RUNNING")));
    vm_compute; reflexivity.
Defined.

Definition create_trace : list Event := sim_trace (split_migration 3) KindSplit.

Lemma advance_refines_spec_witness :
  let w := sim_workflow (zsk_rollover 41) KindZSK in
  let s' := (sim_advance (zsk_rollover 41) KindZSK).(data) in
  (stored_phase w s' = w.(Workflow.Phase) \/
   spec_step w.(Workflow.Kind) w.(Workflow.Phase) (stored_phase w s')) /\
  (forall k, k <> own_key w -> k ∉ role_keys w ->
     s'.(State.Workflows) !! k = (zsk_rollover 41).(data).(State.Workflows) !! k) /\
  s'.(State.Idempotency) = (zsk_rollover 41).(data).(State.Idempotency) /\
  s'.(State.EnrollmentArmedAt) = (zsk_rollover 41).(data).(State.EnrollmentArmedAt).
Proof.
  apply (advance_refines_spec sim_config sim_zone).
  - vm_compute; reflexivity.
  - apply (bool_decide_unpack _). vm_compute. exact I.
  - vm_compute; reflexivity.
Defined.

(** ** Deciding the invariants of a concrete state *)
Definition keyed_check (kw : string * Workflow.t) : bool :=
  bool_decide (kw.1 = WorkflowKey kw.2.(Workflow.Zone) kw.2.(Workflow.Kind)) &&
  bool_decide (kw.2.(Workflow.Kind) ∈ named_kinds).
Definition exclusive_check (a b : string * Workflow.t) : bool :=
  (a.1 == b.1) || (a.2.(Workflow.Zone) != b.2.(Workflow.Zone))
  || negb (Active a.2 && Active b.2).
Definition consistent_check (s : State.t) : bool :=
  let l := map_to_list s.(State.Workflows) in
  forallb keyed_check l && forallb (fun a => forallb (exclusive_check a) l) l.
Definition quiet_check (zone : string) (s : State.t) : bool :=
  forallb (fun kw => (kw.2.(Workflow.Zone) != zone) || negb (Active kw.2))
    (map_to_list s.(State.Workflows)).

Lemma forallb_lookup (p : string * Workflow.t -> bool) (m : gmap string Workflow.t) k x :
  forallb p (map_to_list m) = true -> m !! k = Some x -> p (k, x) = true.
Proof.
  intros H Hk. rewrite forallb_forall in H. apply H. apply list_elem_of_In.
  by apply elem_of_map_to_list.
Qed.

Lemma consistent_check_sound s : consistent_check s = true -> consistent s.
Proof.
  unfold consistent_check. intros [H1 H2]%andb_true_iff. split.
  - intros k x Hk. pose proof (forallb_lookup _ _ _ _ H1 Hk) as H. unfold keyed_check in H.
    cbn in H. apply andb_true_iff in H as [?%bool_decide_eq_true ?%bool_decide_eq_true]. done.
  - intros k1 k2 x1 x2 L1 L2 Hz A1 A2. pose proof (forallb_lookup _ _ _ _ H2 L1) as H. cbn in H.
    pose proof (forallb_lookup _ _ _ _ H L2) as Hx. unfold exclusive_check in Hx. cbn in Hx.
    rewrite A1, A2, Hz, eqb_refl in Hx. cbn in Hx. rewrite !orb_false_r in Hx.
    by apply eqb_true.
Qed.

Lemma quiet_check_sound zone s : quiet_check zone s = true -> quiet zone s.
Proof.
  intros H k x Hk Hz. pose proof (forallb_lookup _ _ _ _ H Hk) as Hx. cbn in Hx.
  rewrite Hz, eqb_refl in Hx. by apply negb_true_iff.
Qed.

(** ** Inventories *)
Definition split_names : list Key.t := [sim_key 1 "ksk" true; sim_key 2 "zsk" true].

Lemma enrollment_inventory_stable_witness : exists ksk zsk fp,
  validateEnrollmentInventory "example.org." split_names ksk.(Key.ID) zsk.(Key.ID) fp
    ["ECDSAP256SHA256"] = Ok (ksk, zsk, fp) /\
  (forall keys' ksk' zsk' fp',
     validateEnrollmentInventory "example.org." keys' ksk.(Key.ID) zsk.(Key.ID) fp
       ["ECDSAP256SHA256"] = Ok (ksk', zsk', fp') ->
     (ksk.(Key.ID) <> 0 -> ksk'.(Key.ID) = ksk.(Key.ID)) /\
     (zsk.(Key.ID) <> 0 -> zsk'.(Key.ID) = zsk.(Key.ID)) /\ fp' = fp /\
     ksk'.(Key.Active) = true /\ ksk'.(Key.Published) = true /\
     zsk'.(Key.Active) = true /\ zsk'.(Key.Published) = true).
Proof.
  do 3 eexists. apply (enrollment_inventory_stable "example.org." split_names). vm_compute. reflexivity.
Defined.

Definition retiring : World := zsk_rollover 41.
Definition retiring_keys : list Key.t :=
  [sim_key 3 "zsk" true; sim_key 1 "ksk" true; sim_key 2 "zsk" false].
Lemma retirement_inventory_exact_witness :
  let keys := retiring.(env).(keys) in
  let w := sim_workflow retiring KindZSK in
  exists l, retirementInventory "example.org." keys w = Ok l /\
  l ⊆ keys /\ NoDup (map Key.ID keys) /\
  Forall (fun k => k.(Key.Active) || k.(Key.Published) = true -> k ∈ l) keys /\
  (exists new data, byID keys w.(Workflow.NewKeyID) = Some new /\ new ∈ l /\
     new.(Key.Active) = true /\ new.(Key.Published) = true /\
     has_role "example.org." new (Kind_string w.(Workflow.Kind)) false data) /\
  (forall old, byID keys w.(Workflow.OldKeyID) = Some old ->
     old ∈ l /\ old.(Key.Active) = false /\ old.(Key.Published) = true).
Proof.
  intros keys w.
  assert (retirementInventory "example.org." keys w = Ok retiring_keys) as Hl
    by (vm_compute; reflexivity).
  exists retiring_keys. split; [exact Hl|].
  exact (retirement_inventory_exact "example.org." keys w retiring_keys Hl).
Defined.

(** ** Waits *)
Lemma waits_cover_ttl_witness :
  evidence_wait sim_config (7200 * Second) (1 * Hour) =
    Z.max (7200 * Second) (1 * Hour) + Margin sim_config /\
  ttl_wait sim_config 7200 =
    7200 * Second + Margin sim_config /\
  7200 * Second <= evidence_wait sim_config (7200 * Second) (1 * Hour) /\
  1 * Hour <= evidence_wait sim_config (7200 * Second) (1 * Hour).
Proof. exact (waits_cover_ttl sim_config 7200 (1 * Hour) ltac:(split; [done|vm_compute; done])
  ltac:(split; vm_compute; done) ltac:(split; vm_compute; done)). Defined.

Lemma max_ttl_bound_witness :
  let ttl := dur_div (maxTTL sim_zone) Second in
  86400 <= ttl /\ ttl32 ttl /\
  Forall (fun r => r.(RRSet.TTL) <= ttl) sim_zone.(Zone.RRsets) /\
  (ttl = 86400 \/ exists r, r ∈ sim_zone.(Zone.RRsets) /\ r.(RRSet.TTL) = ttl).
Proof.
  apply (max_ttl_bound sim_zone). apply List.Forall_cons; [|apply List.Forall_nil].
  split; vm_compute; done.
Defined.

Definition power_cut : error := errors_New "power cut".
Lemma retry_backoff_witness :
  let w := sim_workflow retiring KindZSK in
  let k := WorkflowKey w.(Workflow.Zone) w.(Workflow.Kind) in
  let x := workflow_at retiring.(data) k in
  let n := x.(Workflow.Attempts) + 1 in
  let wd' := (recordRetry w power_cut retiring).2 in
  x.(Workflow.Attempts) = 0 /\
  Minute * 2 <= 2 ^ Z.min n 8 * Minute <= 256 * Minute /\
  ((exists now, (recordRetry w power_cut retiring).1 = Val tt /\ EvNow now ∈ wd'.(trace) /\
      wd'.(data) = put_workflow k
        (x <| Workflow.Attempts := n |> <| Workflow.LastError := Error power_cut |>
           <| Workflow.NextActionAt := Add now (2 ^ Z.min n 8 * Minute) |>) retiring.(data)) \/
   (exists e, (recordRetry w power_cut retiring).1 = Fail_ e /\ wd'.(data) = retiring.(data))).
Proof.
  intros w k x n wd'. split; [vm_compute; reflexivity|].
  apply (retry_backoff w power_cut retiring). split; vm_compute; done.
Defined.

(** ** The single-active invariant *)
Lemma zsk_rollover_consistent : consistent (zsk_rollover 41).(data).
Proof. apply consistent_check_sound. vm_compute. reflexivity. Qed.

Lemma advance_keeps_single_active_witness :
  consistent (advance sim_config sim_zone retiring.(env).(keys) (sim_workflow retiring KindZSK)
                retiring).2.(data).
Proof.
  apply (advance_keeps_single_active sim_config).
  - exact zsk_rollover_consistent.
  - vm_compute. reflexivity.
  - vm_compute. reflexivity.
  - apply (bool_decide_unpack _). vm_compute. exact I.
  - vm_compute. reflexivity.
Defined.

Lemma requests_keep_single_active_witness :
  (forall zone manual idem, consistent (start zone KindKSK manual idem retiring).2.(data)) /\
  (forall zones idem, consistent (Trigger sim_config KindKSK zones idem retiring).2.(data)) /\
  (forall fp canonical now idem,
     consistent (Update (trigger_commit KindKSK fp canonical now idem) retiring).2.(data)) /\
  (forall zones phase idem, consistent (Resume sim_config KindKSK zones phase idem retiring).2.(data)) /\
  (forall zone idem, consistent (ReconcileSplitSignerTransition sim_config zone idem retiring).2.(data)) /\
  (forall idem, consistent (ArmEnrollment sim_config idem retiring).2.(data)).
Proof.
  apply (requests_keep_single_active sim_config retiring KindKSK).
  - exact zsk_rollover_consistent.
  - apply (bool_decide_unpack _). vm_compute. exact I.
Defined.

Definition discovered : World := start_world enroll_env (empty_state <| State.EnrollmentArmedAt := t0 |>).
Lemma bootstrap_keeps_single_active_witness :
  consistent (bootstrap sim_config sim_zone "split" split_keys discovered).2.(data).
Proof.
  apply (bootstrap_keeps_single_active sim_config sim_zone "split" split_keys discovered).
  - apply consistent_check_sound. vm_compute. reflexivity.
  - apply quiet_check_sound. vm_compute. reflexivity.
Defined.

(** ** Operator requests *)
Definition day_two : World := zsk_rollover 1.
Definition request : string := "rotate-example-org-0001".
Definition trigger_ksk : Outcome unit * World :=
  Trigger sim_config KindKSK ["Example.org."] request day_two.

Lemma trigger_ksk_ok :
  Trigger sim_config KindKSK ["Example.org."] request day_two = (Val tt, trigger_ksk.2).
Proof.
  rewrite (surjective_pairing (Trigger _ _ _ _ _)). apply (f_equal2 pair); [|reflexivity].
  vm_compute. reflexivity.
Qed.

(** [reconcileZone] decides from the state it read before; when [Trigger] commits in between,
    its last step, blocking the ZSK workflow of a zone whose inventory is not split, leaves two
    active workflows. *)
Example trigger_races_block :
  let blocked := block sim_config sim_zone.(Zone.Name) KindZSK
                   "expected exactly one active KSK and one active ZSK" in
  (consistent_check (blocked day_two : Outcome unit * World).2.(data),
   consistent_check trigger_ksk.2.(data),
   consistent_check (blocked trigger_ksk.2 : Outcome unit * World).2.(data)) = (true, true, false).
Proof. vm_compute. reflexivity. Qed.

Lemma requests_idempotent_witness :
  Trigger sim_config KindKSK ["Example.org."] request trigger_ksk.2 = (Val tt, trigger_ksk.2).
Proof.
  destruct (requests_idempotent sim_config KindKSK ["Example.org."] PhaseBlocked "example.org."
    request trigger_ksk.2 trigger_ksk.2 (eq_refl _)) as [H _].
  exact (H day_two trigger_ksk_ok).
Defined.

Lemma trigger_effect_witness :
  let fp := trigger_fingerprint KindKSK (normalize_zones ["Example.org."]) in
  sim_config.(Config.Mode) = "enforce" /\ valid_idempotency_key request = true /\
  exists available zs now,
    EvListZones (Ok available) ∈ trigger_ksk.2.(trace) /\ EvNow now ∈ trigger_ksk.2.(trace) /\
    Forall2 (triggers sim_config KindKSK (zones_by_name identity_spelling available) trigger_ksk.2.(trace))
      (normalize_zones ["Example.org."]) zs /\
    Forall (fun z => z ∈ available /\ quiet z.(Zone.Name) day_two.(data)) zs /\
    trigger_ksk.2.(data) = put_idempotency request fp
      (fold_left (trigger_zone KindKSK now request) (map Zone.Name zs) day_two.(data)).
Proof.
  apply (trigger_effect sim_config KindKSK ["Example.org."] request day_two trigger_ksk.2).
  - exact trigger_ksk_ok.
  - vm_compute. reflexivity.
Defined.

(** A split migration that drifted during its publication wait. *)
Definition drifted : World :=
  fresh (block (A := unit) sim_config "example.org." KindSplit "inventory drifted" (split_migration 5)).2.
Definition resume_split : Outcome unit * World :=
  Resume sim_config KindSplit ["example.org"] PhaseWaitPublish request drifted.

Lemma resume_split_ok :
  Resume sim_config KindSplit ["example.org"] PhaseWaitPublish request drifted
  = (Val tt, resume_split.2).
Proof.
  rewrite (surjective_pairing (Resume _ _ _ _ _ _)). apply (f_equal2 pair); [|reflexivity].
  vm_compute. reflexivity.
Qed.


(** ** Boundaries *)
Definition observing : Config.t :=
  Config.mk "observe" (Config.Log sim_config) (Config.Controller sim_config)
    (Config.PowerDNS sim_config) (Config.AutoDNS sim_config) (Config.DNS sim_config)
    (Config.Rotation sim_config) (Config.Enrollment sim_config) (Config.LMTP sim_config).
Lemma observe_mode_read_only_witness : emits silent (Tick observing) /\ keeps eq (Tick observing).
Proof. apply (observe_mode_read_only observing). reflexivity. Defined.

Lemma enrollment_never_touches_keys_witness :
  emits no_key_write (advance sim_config sim_zone split_keys (sim_workflow (enrollment 5) KindEnroll)).
Proof.
  apply (enrollment_never_touches_keys sim_config).
  - vm_compute. reflexivity.
  - apply (bool_decide_unpack _). vm_compute. exact I.
Defined.

(** The day after the ZSK rollover completed its event is due. *)
Definition done_world : World := zsk_rollover 42.
Definition done_id : string := "dnssec-84e08603ee861811fc13c469a98b39bc".
Definition done_event : Notification.t :=
  default zero_Notification (done_world.(data).(State.Notifications) !! done_id).
Lemma outbox_loses_nothing_witness :
  let wd' := (deliverNotifications sim_config done_world).2 in
  exists n', wd'.(data).(State.Notifications) !! done_id = Some n' /\ same_event done_event n' /\
    (IsZero n'.(Notification.DeliveredAt) = true \/
     exists m, same_event done_event m /\ EvSend m (Ok tt) ∈ wd'.(trace)).
Proof. apply (outbox_loses_nothing sim_config); vm_compute; reflexivity. Defined.

(** ** One registrar write: the enrollment writes on its sixth day and no later. *)
Definition enroll_key : string := WorkflowKey "example.org." KindEnroll.
Definition enroll_advance (w : World) : World :=
  (advance sim_config sim_zone w.(env).(keys) (workflow_at w.(data) enroll_key)
     (mkWorld (at_time (w.(env).(clock) + day) w.(env) : Env) w.(data) [])).2.
Fixpoint enroll_writes (n : nat) (w : World) : nat :=
  match n with
  | O => O
  | S n' => let w' := enroll_advance w in (Once.updates w'.(trace) + enroll_writes n' w')%nat
  end.
Fixpoint enroll_final (n : nat) (w : World) : World :=
  match n with O => w | S n' => enroll_final n' (enroll_advance w) end.

Definition clock_set_check (ev : Event) : bool :=
  match ev with EvNow t => negb (IsZero t) | _ => true end.
Fixpoint rounds_check (n : nat) (w : World) : bool :=
  match n with
  | O => true
  | S n' =>
      let x := workflow_at w.(data) enroll_key in
      let w' := enroll_advance w in
      Active x && (WorkflowKey x.(Workflow.Zone) x.(Workflow.Kind) == enroll_key)
      && (sim_zone.(Zone.Name) == x.(Workflow.Zone)) && forallb clock_set_check w'.(trace)
      && rounds_check n' w'
  end.

Lemma rounds_check_sound n w :
  rounds_check n w = true ->
  rounds enroll_key w.(data) (enroll_writes n w) (enroll_final n w).(data).
Proof.
  revert w. induction n as [|n IH]; intros w H; [constructor|]. cbn [rounds_check] in H.
  rewrite !andb_true_iff, !eqb_true in H. destruct H as [[[[H1 H2] H3] H4] H5].
  cbn [enroll_writes enroll_final]. apply rounds_advance; [done..| |by apply IH].
  apply List.Forall_forall. intros ev Hev. rewrite forallb_forall in H4. specialize (H4 ev Hev).
  destruct ev; try done. by apply negb_true_iff.
Qed.

Lemma registrar_written_at_most_once_witness :
  enroll_writes 2 (enrollment 4) = 1%nat /\ (enroll_writes 2 (enrollment 4) <= 1)%nat.
Proof.
  split; [vm_compute; reflexivity|].
  apply (registrar_written_at_most_once enroll_key (enrollment 4).(data) _
           (enroll_final 2 (enrollment 4)).(data)).
  apply rounds_check_sound. vm_compute. reflexivity.
Defined.

(** ** Reachable states *)
(** A zone that is signed after the controller was armed, and a rotation the operator
    starts before the next tick discovers the zone. *)
Definition unsigned_env : SimEnv :=
  mkSim t0 (Zone.mk "example.org." "example.org." "Native" false []) split_keys
    (DomainDNSSECState.mk false [] false) 0 true true.
Definition armed_state : State.t :=
  after (ArmEnrollment sim_config "arm-enrollment-0001") (unsigned_env : Env) initial_state.
Definition rotating_state : State.t :=
  after (Trigger sim_config KindKSK ["example.org"] request) (enroll_env : Env) armed_state.
Definition collided_state : State.t := after (Tick sim_config) (enroll_env : Env) rotating_state.

Lemma collided_reachable : reachable (fun c => c = sim_config) collided_state.
Proof.
  apply reachable_tick; [done|]. apply reachable_trigger; [done| |].
  - apply (bool_decide_unpack _). vm_compute. exact I.
  - apply reachable_arm; [done|constructor].
Qed.

(** With automatic enrollment "at most one active workflow per zone" fails: the tick
    registers the zone's enrollment although a rotation of it is running. *)
Theorem enrollment_starts_second_workflow : exists s x1 x2,
  reachable (fun c => c = sim_config) s /\
  s.(State.Workflows) !! WorkflowKey "example.org." KindKSK = Some x1 /\
  s.(State.Workflows) !! WorkflowKey "example.org." KindEnroll = Some x2 /\
  x1.(Workflow.Zone) = x2.(Workflow.Zone) /\ Active x1 = true /\ Active x2 = true.
Proof.
  exists collided_state, (workflow_at collided_state (WorkflowKey "example.org." KindKSK)),
    (workflow_at collided_state (WorkflowKey "example.org." KindEnroll)).
  split; [exact collided_reachable|]. vm_compute. auto 6.
Qed.

Lemma reachable_states_well_formed_witness :
  let k := WorkflowKey "example.org." KindEnroll in
  let x := workflow_at collided_state k in
  k = WorkflowKey x.(Workflow.Zone) x.(Workflow.Kind) /\ x.(Workflow.Kind) ∈ named_kinds /\
  (x.(Workflow.Phase) = PhaseBlocked \/ x.(Workflow.Phase) ∈ chain x.(Workflow.Kind)).
Proof.
  apply (reachable_states_well_formed (fun c => c = sim_config) collided_state).
  - exact collided_reachable.
  - vm_compute. reflexivity.
Defined.

Definition no_enrollment : Config.t :=
  Config.mk "enforce" (Config.Log sim_config) (Config.Controller sim_config)
    (Config.PowerDNS sim_config) (Config.AutoDNS sim_config) (Config.DNS sim_config)
    (Config.Rotation sim_config)
    (Enrollment.mk false "all_selected" Hour 5 10 ["ECDSAP256SHA256"] [] []) (Config.LMTP sim_config).
Definition lone_state : State.t :=
  after (Tick no_enrollment) (split_env : Env)
    (after (Trigger no_enrollment KindKSK ["example.org"] request) (split_env : Env) initial_state).
Definition lone_key : string := WorkflowKey "example.org." KindKSK.

Lemma reachable_single_active_witness : lone_key = lone_key.
Proof.
  apply (reachable_single_active lone_state lone_key lone_key (workflow_at lone_state lone_key)
           (workflow_at lone_state lone_key)).
  - apply reachable_tick; [reflexivity|]. apply reachable_trigger; [reflexivity| |constructor].
    apply (bool_decide_unpack _). vm_compute. exact I.
  - vm_compute. reflexivity.
  - vm_compute. reflexivity.
  - reflexivity.
  - vm_compute. reflexivity.
  - vm_compute. reflexivity.
Defined.
