(* ===== verification/ProbeSim.v ===== *)
(** * A concrete network and DNS library: instances of the theorems about the probe. *)
From S2P Require Import Prelude GoStrings GoTime Model Config Dns Keys Effects Core.
From S2P Require Import Rollover Parent Enroll Reconcile Safety Steps Sim Instances.
From S2P Require Import Probe ProbeFacts Evidence ProbeBounds EndToEnd.

(** ** The library: suffixes for zones, tags and digests that identify a key *)
Definition is_suffix (s suffix : string) : bool :=
  match has_prefix (rev (bytes suffix)) (rev (bytes s)) with Some _ => true | None => false end.

Definition net_tag (k : DNSKEY.t) : Z :=
  fold_left (fun n a => n + byte_code a) (bytes k.(DNSKEY.PublicKey)) k.(DNSKEY.Flags).

Definition net_lib : ProbeLib := {|
  probe_dns := sim_dns;
  IsSubDomain parent child := is_suffix child parent;
  SplitDomainName s := List.filter (fun l => l != "") (Split s "."%char);
  KeyTag := net_tag;
  ToDS_SHA256 k := Some (DSRR.mk (k.(DNSKEY.Hdr)) (net_tag k) k.(DNSKEY.Algorithm) 2 k.(DNSKEY.PublicKey));
  ValidityPeriod _ _ := true;
  Verify sig k rrset := (RRSIG.Rdata sig == k.(DNSKEY.PublicKey)) && Nat.ltb 0 (length rrset);
  Match n name := NSEC3.Rdata n == name;
  Cover n name := NSEC3.Rdata n == name;
  RcodeToString _ := "REFUSED";
|}.
#[export] Existing Instance net_lib.

(** ** The network: every server gives the scripted answer to a question *)
Record SimNet := mkSimNet {
  script : string -> Request.t -> result Msg.t;
  net_clock : time;
}.
Definition sim_net : Network := {|
  Net := SimNet;
  net_ExchangeContext q server n := (n.(script) server q, n);
  net_Err _ := None;
  net_Now n := (n.(net_clock), n);
  net_range m n := (map_to_list m, n);
|}.
#[export] Existing Instance sim_net.
#[export] Instance sim_net_range : NetRangeOk.
Proof. split; intros; reflexivity. Qed.

Definition sim_probe : Probe :=
  NewWithClient ["192.0.2.1:53"; "192.0.2.3:53"] ["192.0.2.2:53"] "127.0.0.1:53".

Definition header (typ : Z) (name : string) (ttl : Z) : RR_Header.t := RR_Header.mk name typ 1 ttl.
Definition reply (answer ns extra : list RR) : result Msg.t := Ok (Msg.mk true true 0 answer ns extra).

(** ** The zone example.org with a set of published keys *)
Definition published_rrs (ks : list Key.t) : list DNSKEY.t :=
  omap (fun k => match keyRR "example.org." k with Ok rr => Some rr | Err _ => None end)
    (List.filter Key.Published ks).
Definition signatures (typ : Z) (ks : list Key.t) : list RR :=
  map (fun rr => RR_RRSIG (RRSIG.mk (header 46 "example.org." 300) typ rr.(DNSKEY.Algorithm)
                             (net_tag rr) "example.org." rr.(DNSKEY.PublicKey)))
    (published_rrs (List.filter Key.Active ks)).

(** The parent's DS set is that of [ds_keys]. *)
Definition zone_script (ks ds_keys : list Key.t) (_ : string) (q : Request.t) : result Msg.t :=
  if q.(Request.Qtype) =? TypeDNSKEY
  then reply (map RR_DNSKEY (published_rrs ks) ++ signatures TypeDNSKEY ks) [] [] else
  if q.(Request.Qtype) =? TypeSOA
  then reply (RR_SOA (header TypeSOA "example.org." 300) "soa" :: signatures TypeSOA ks) [] [] else
  if q.(Request.Qtype) =? TypeDS
  then reply (map (fun rr => RR_DS (DSRR.mk (header TypeDS "example.org." 3600) (net_tag rr)
                               rr.(DNSKEY.Algorithm) 2 rr.(DNSKEY.PublicKey)))
                (published_rrs ds_keys)) [] []
  else reply [] [] [].

Definition net_world (f : string -> Request.t -> result Msg.t) : NetWorld :=
  mkNetWorld (NW := sim_net) (mkSimNet f t0) [].

Definition probed_sim : Services := probed sim_probe (backends sim).

(** A simulated world whose observer is the probe on the network of its own keys. *)
Definition on_network (ds_keys : list Key.t) (w : @World sim) : @World probed_sim :=
  @mkWorld probed_sim
    (w.(env), net_world (zone_script w.(env).(keys) ds_keys)) w.(data) [].


Definition removal_world : @World probed_sim := on_network [sim_key 3 "ksk" true] (ksk_rollover 10).
Definition removal_trace : list Event := (@Tick probed_sim _ sim_config removal_world).2.(trace).


(** ** What the iterated lookups do not tell apart *)

(** A root that delegates to one nameserver with two addresses, both below the zone. *)
Definition dual_stack_referral : result Msg.t :=
  reply [] [RR_NS (header TypeNS "org." 300) "ns.org."]
    [RR_A (header TypeA "ns.org." 300) "192.0.2.10"; RR_AAAA (header TypeAAAA "ns.org." 300) "2001:db8::10"].

Definition ds_network (second_root : result Msg.t) (server : string) (q : Request.t) : result Msg.t :=
  if server == "198.41.0.4:53" then dual_stack_referral else
  if server == "[2001:503:ba3e::2:30]:53" then second_root else
  zone_script split_keys [sim_key 1 "ksk" true] server q.
Definition ds_lookup (second_root : result Msg.t) : Outcome duration :=
  (probe_AuthoritativeDSEvidence sim_probe "example.org" [sim_key 1 "ksk" true]
     (net_world (ds_network second_root))).1.

(** The two addresses of one dual-stack nameserver count as the two parent servers. *)
Lemma dual_stack_counts_twice : ds_lookup dual_stack_referral = Val (3600 * Second).
Proof. vm_compute. reflexivity. Qed.

(** One root server out of reach, as on a host without IPv6, and the lookup fails although the
    other root's referral leads to the same two answers. *)
Lemma unreachable_root_stops_ds_lookup :
  ds_lookup (Err (errors_New "network is unreachable")) = Fail_ (errors_New "network is unreachable").
Proof. vm_compute. reflexivity. Qed.

(** The delegation lookup in the same situation goes on with the referral it has. *)
Lemma unreachable_root_keeps_delegation_lookup :
  (probe_DelegationEvidence sim_probe "example.org" ["ns1.example.net."; "ns2.example.net."]
     (net_world (fun server q =>
        if server == "198.41.0.4:53" then dual_stack_referral else
        if server == "[2001:503:ba3e::2:30]:53" then Err (errors_New "network is unreachable") else
        reply [] [RR_NS (header TypeNS "example.org." 300) "ns1.example.net.";
                  RR_NS (header TypeNS "example.org." 300) "ns2.example.net."] []))).1 = Val tt.
Proof. vm_compute. reflexivity. Qed.

(** ** Servers that refer to themselves *)
Definition loop_net : Network := {|
  Net := unit;
  net_ExchangeContext _ _ n := (reply [] [RR_NS (header TypeNS "org." 300) "ns.org."] [RR_A (header TypeA "ns.org." 300) "192.0.2.10"], n);
  net_Err _ := None;
  net_Now n := (t0, n);
  net_range m n := (map_to_list m, n);
|}.
#[local] Instance loop_range : NetRangeOk (H := loop_net).
Proof. split; intros; reflexivity. Qed.

(** Twelve levels: two root servers, then eleven times the one server. *)
Example referral_loop_ends :
  let r := probe_AuthoritativeDSEvidence (NW := loop_net) sim_probe "example.org" [sim_key 1 "ksk" true]
             (mkNetWorld (NW := loop_net) (tt : @Net loop_net) []) in
  r.1 = Fail_ (errors_New "iterative DS lookup exceeded referral depth") /\ asked r.2.(log) = 13%nat.
Proof. vm_compute. split; reflexivity. Qed.

Lemma lookups_terminate_witness :
  ends_within (NW := loop_net) (lookup_bound 1 12 2)
    (probe_AuthoritativeDSEvidence (NW := loop_net) sim_probe "example.org" [sim_key 1 "ksk" true]).
Proof.
  destruct (lookups_terminate (NW := loop_net) sim_probe 1 "example.org" [sim_key 1 "ksk" true]
    (sim_key 1 "ksk" true) []) as (_ & _ & _ & _ & _ & _ & _ & _ & H & _); [|exact H].
  intros q s n r H. cbn in H. injection H as <-. repeat split; apply Nat.leb_le; reflexivity.
Defined.
