(* ===== verification/ValidateSim.v ===== *)
(** * A concrete configuration: an instance of the theorem on [Validate], and two
    configurations it accepts although they do not mean what its messages say. *)
From S2P Require Import Prelude GoStrings GoTime GoNet Dns Config Validate ValidateFacts.
From S2P Require Import Effects Core Rollover Sim.

(** Parsers that cut the text at the obvious places. *)
Definition sim_url (s : string) : result URL.t :=
  match Split s "/"%char with
  | [scheme; _; host] =>
      Ok (URL.mk (TrimSuffix scheme ":") host
            (match SplitHostPort host with Ok (h, _) => h | Err _ => host end))
  | _ => Err (errors_New "parse")
  end.
Definition sim_parsers : Parsers := {| url_Parse := sim_url; mail_ParseAddress s := Ok s |}.
#[export] Existing Instance sim_parsers.

Definition accepted_config (margin : duration) (servers : list string) : Config.t :=
  Config.mk "enforce" (Log.mk "info")
    (ControllerCfg.mk Minute margin "/var/lib/dnssec-keyrotation/state.json"
       "/run/dnssec-keyrotation/control.sock" (365 * 24 * Hour))
    (PowerDNS.mk "http://127.0.0.1:8081" "localhost" "/run/secrets/pdns" (10 * Second))
    (AutoDNS.mk "https://api.autodns.com" "user" "/run/secrets/autodns" 4 (20 * Second)
       (500 * Millisecond))
    (DNSCfg.mk ["192.0.2.1:53"; "192.0.2.3:53"] servers ["ns1.example.net"; "ns2.example.net"]
       "127.0.0.1:53" (5 * Second))
    (Rotation.mk "ECDSAP256SHA256" (720 * Hour) (4368 * Hour) false (24 * Hour) (48 * Hour) [] [])
    (Enrollment.mk true "all_selected" (24 * Hour) 10 5 ["ECDSAP256SHA256"] [] [])
    (LMTP.mk true "127.0.0.1:24" "host" "from@example.org" ["to@example.org"] (10 * Second)).

Definition both_servers : list string := ["ns1.example.net:53"; "ns2.example.net:53"].


(** The defaults pass every section they determine: what is missing are the credentials, the
    PowerDNS address and the servers to ask. *)
Lemma defaults_within_policy :
  validateController setDefaults.(Config.Controller) = Ok tt /\
  validateRotation setDefaults.(Config.Rotation) = Ok tt /\
  validateEnrollment setDefaults.(Config.Enrollment) = Ok tt /\
  Validate setDefaults = Err (errors_New "powerdns.url must be a valid loopback http URL").
Proof. split_and!; vm_compute; reflexivity. Qed.

(** The check that the authoritative servers match the expected nameservers exactly counts
    them and looks each one up: one nameserver named twice passes, the other is never asked. *)
Lemma repeated_server_accepted :
  Validate (accepted_config (2 * Hour) ["ns1.example.net:53"; "ns1.example.net:53"]) = Ok tt.
Proof. vm_compute. reflexivity. Qed.

(** No duration has an upper bound: a margin near the largest duration is accepted, and the
    wait after an observation, the minimum plus the margin, wraps to a time in the past. *)
Lemma accepted_margin_overflows :
  let c := accepted_config max_int64 both_servers in
  Validate c = Ok tt /\
  evidence_wait c (3600 * Second) c.(Config.Rotation).(Rotation.MinimumParentWait) < 0.
Proof. split; vm_compute; reflexivity. Qed.
