(* ===== verification/ProgressSim.v ===== *)
(** * A whole ZSK rollover on the simulated world: the liveness theorem at a concrete input. *)
From S2P Require Import Prelude GoStrings GoTime Model Config Dns Keys Effects Core.
From S2P Require Import Rollover Reconcile Phases Progress Sim.

(** The keys a round lists, and the two days that pass before the next one. *)
Definition sim_listing (wd : World) : list Key.t := keys (wd.(env) : SimEnv).
Definition two_days (wd : World) : World :=
  mkWorld (at_time (clock (wd.(env) : SimEnv) + 2 * day) wd.(env) : Env) wd.(data) wd.(trace).

(** The ZSK interval has just expired and the rollover was started. *)
Definition started_rollover : World := Eval vm_compute in zsk_rollover 31.


Definition sim_after (n : nat) : World :=
  after sim_config sim_zone sim_listing two_days n started_rollover.

(** Ten rounds take the rollover to its end. *)
Example rollover_takes_ten_rounds :
  map (fun n => Phase_string (rollover sim_zone (sim_after n)).(Workflow.Phase)) (seq 0 12)
  = ["prepublish"; "prepublish"; "wait_publish"; "wait_publish"; "activate_new";
     "wait_new_signature"; "wait_new_signature"; "deactivate_old"; "wait_retire"; "delete_old";
     "idle"; "idle"].
Proof. vm_compute. reflexivity. Qed.

Lemma started_rollover_rolling : rolling sim_zone (rollover sim_zone started_rollover).
Proof.
  split; [vm_compute; reflexivity..|]. apply (bool_decide_eq_true_1 _). vm_compute. reflexivity.
Qed.

Lemma rounds_good n :
  (n < 16)%nat -> Active (rollover sim_zone (sim_after n)) = true ->
  good_round sim_config sim_zone (sim_listing (sim_after n)) (sim_after n) = true.
Proof.
  intros Hn. do 16 (destruct n as [|n]; [vm_compute; congruence|]). lia.
Qed.

Lemma rollover_terminates_witness :
  exists n, (n <= 15)%nat /\
    (rollover sim_zone (sim_after n)).(Workflow.Phase) = PhaseIdle.
Proof.
  destruct (rollover_terminates sim_config sim_zone sim_listing two_days started_rollover)
    as (n & Hn & Hi & _).
  - reflexivity.
  - apply started_rollover_rolling.
  - intros n Hn. apply rounds_good. pose proof (rank_bound (rollover sim_zone started_rollover)). lia.
  - exists n. split; [lia|exact Hi].
Defined.
