(* ===== verification/HttpSim.v ===== *)
(** * A simulated HTTP stack: a clock that only timers move, and scripted answers. *)
From S2P Require Import Prelude GoStrings GoTime Json JsonCodec Http.

#[export] Instance sim_json_errors : JsonErrors := {| json_error := fun _ => errors_New "invalid JSON" |}.

Record SimWeb := mkSimWeb { clock : time; reply : Request.t -> option Response.t }.

#[export] Instance sim_stack : HttpStack := {|
  Web := SimWeb;
  web_Do r w := (match w.(reply) r with Some a => Ok a | None => Err (errors_New "refused") end, w);
  web_Now w := (w.(clock), w);
  web_Timer d w := (Ok tt, mkSimWeb (w.(clock) + Z.max 0 d) w.(reply));
  web_url_error _ := None;
|}.
#[export] Instance sim_clock_ok : ClockOk (H := sim_stack).
Proof. by refine (Build_ClockOk sim_stack clock _ _ _ _); intros; cbn in *; lia. Defined.

(** Every request gets the same answer. *)
Definition always (status : Z) (v : json) : Request.t -> option Response.t :=
  fun _ => Some (Response.mk status [] (json_Encode v)).
