(* ===== verification/StateFileSim.v ===== *)
(** * A concrete kernel and encoding: instances of the theorems about the state file. *)
From S2P Require Import Prelude GoStrings GoTime Model Effects Sim HttpSim StateFile StateFileFacts StateJson StateJsonFacts.

(** System calls fail as scheduled: one entry per call, no fault when the list is used up. *)
Definition scheduled (k : list bool) : option error * list bool :=
  match k with
  | true :: k' => (Some (errors_New "input/output error"), k')
  | false :: k' => (None, k')
  | [] => (None, [])
  end.

Definition sim_kernel : Kernel := {|
  K := list bool;
  fault := scheduled;
  short_write b k := ("", k);
  fresh_temp path fs := base.fresh (dom (directory fs) ∪ {[path]} : gset string);
|}.
#[export] Existing Instance sim_kernel.

#[export] Instance sim_kernel_ok path : KernelOk path.
Proof.
  assert (H : forall fs, fresh_temp path fs ∉ (dom (directory fs) ∪ {[path]} : gset string))
    by (intros fs; apply is_fresh).
  split; intros fs; specialize (H fs).
  - apply (not_elem_of_dom (D := gset string)). set_solver.
  - set_solver.
Qed.

#[export] Existing Instance state_codec.

Definition sim_path : string := "state.json".
Definition blank_state : State.t := State.mk currentVersion 0 ∅ ∅ ∅.
Definition sim_store : Store.t := Store.mk sim_path blank_state true.
(** The update: a rollover starts, with its idempotency key, and a notification waits. *)
Definition now : time := 738000 * ns_per_day + 5 * Second + 250000000.
Definition started_zsk : Workflow.t :=
  zero_Workflow <| Workflow.Zone := "example.com." |> <| Workflow.Kind := KindZSK |>
    <| Workflow.Phase := PhasePrepublish |> <| Workflow.OldKeyID := 7 |> <| Workflow.Attempts := -1 |>
    <| Workflow.PhaseStartedAt := now |> <| Workflow.Manual := true |>
    <| Workflow.LastError := "<lookup> & retry" |>.
Definition waiting : Notification.t :=
  Notification.mk "id" "completed" "example.org." KindKSK now 1 2 0 "" 0 now "" time_zero.
Definition start_update (s : State.t) : result State.t :=
  Ok (put_notification "id" waiting (put_idempotency "zsk|example.com." "request"
       (put_workflow "example.com.|zsk" started_zsk s))).
Definition started : State.t := Eval cbv [start_update put_notification put_idempotency put_workflow blank_state] in
  match start_update blank_state with Ok s => s | Err _ => blank_state end.
Definition started_text : string := Eval vm_compute in
  match marshal_state started with Ok b => b | Err _ => "" end.

(** The state file does not exist yet. *)
Definition empty_disk (faults : list bool) : Disk :=
  mkDisk (faults : K) (FS.mk ∅ [] ∅) [] {[sim_path]}.
Definition absent (c : option string) : Prop := c = None.
Lemma empty_disk_absent faults : holds sim_path absent (empty_disk faults).(fs).
Proof. intros k. cbn. by rewrite take_nil. Qed.

Definition updated (faults : list bool) : Outcome Store.t * Disk :=
  Update_ sim_store start_update (empty_disk faults).

(** The call after the rename fails: the update reports an error, the store keeps its state,
    and the file has the new one. *)
Definition fails_after_rename : list bool := [false; false; false; false; false; false; false; true].
Lemma failed_update_is_on_disk :
  is_ok (match (updated fails_after_rename).1 with Val _ => Ok tt | _ => Err (errors_New "") end) = false /\
  read (updated fails_after_rename).2.(fs) sim_path = Some started_text.
Proof. split; vm_compute; reflexivity. Qed.

Lemma update_is_atomic_witness :
  exists new, (updated fails_after_rename).2.(history) = new ++ [] /\
    (forall f f', f ∈ new -> crash f f' -> absent (read f' sim_path) \/ read f' sim_path = Some started_text) /\
    ((forall f', crash (updated fails_after_rename).2.(fs) f' -> absent (read f' sim_path)) \/
     (read (updated fails_after_rename).2.(fs) sim_path = Some started_text /\
      forall f', crash (updated fails_after_rename).2.(fs) f' ->
        absent (read f' sim_path) \/ read f' sim_path = Some started_text)).
Proof.
  destruct (update_is_atomic sim_path absent sim_store start_update (empty_disk fails_after_rename)
    eq_refl (empty_disk_absent _)) as (_ & _ & H).
  destruct (H started_text ltac:(vm_compute; reflexivity)) as (new & E & Hn & Ho). exists new. split; [exact E|]. split; [exact Hn|].
  revert Ho. unfold updated. assert (E' : exists e, (Update_ sim_store start_update (empty_disk fails_after_rename)).1 = Fail_ e)
    by (eexists; vm_compute; reflexivity). destruct E' as [e ->]. intros Ho. exact Ho.
Defined.

(** The disk after the update, and after a crash that loses nothing. *)
Definition after_update : FS.t := Eval vm_compute in (updated []).2.(fs).
Definition crashed : FS.t := FS.mk (directory after_update) [] after_update.(FS.inodes).
Definition restarted : Disk := mkDisk ([] : K) crashed [] ∅.

Lemma state_survives_restart_witness :
  (updated []).1 = Val (Store.mk sim_path started true) /\
  match (Open sim_path restarted).1 with
  | Val s2 => s2 = Store.mk sim_path started true /\
              sim_path ∉ restarted.(locked) /\
              (Open sim_path restarted).2.(locked) = {[sim_path]} ∪ restarted.(locked)
  | Fail_ _ => (Open sim_path restarted).2.(locked) = restarted.(locked)
  | Panic => False
  end.
Proof.
  assert (Hu : (Update_ sim_store start_update (empty_disk [])).1 =
    Val (Store.mk sim_path started true))
    by (vm_compute; reflexivity).
  assert (Hf : (Update_ sim_store start_update (empty_disk [])).2.(fs) = after_update)
    by (vm_compute; reflexivity).
  assert (Hc : crash (Update_ sim_store start_update (empty_disk [])).2.(fs) crashed)
    by (rewrite Hf; apply crash_complete).
  split; [exact Hu|].
  apply (state_survives_restart sim_path absent sim_store start_update (empty_disk [])
    (Store.mk sim_path started true) crashed restarted
    eq_refl (empty_disk_absent []) Hu eq_refl ltac:(apply (bool_decide_eq_true_1 _); vm_compute; reflexivity) Hc eq_refl).
Defined.

(** And that restart does find the file and the lock free. *)
Example restart_succeeds :
  (Open sim_path restarted).1 =
  Val (Store.mk sim_path started true).
Proof. vm_compute. reflexivity. Qed.
