(* ===== verification/ControlSim.v ===== *)
(** * A trigger request and a trigger command on the simulated services: instances of the
    theorems about the control API and the command line. *)
From S2P Require Import Prelude GoStrings GoTime Model Config Dns Keys Effects Core.
From S2P Require Import Rollover Reconcile Operator Report Sim Instances.
From S2P Require Import Json JsonCodec Http Control ControlFacts Cli CliFacts HttpSim.

Definition trigger_request : Request.t :=
  Request.mk "POST" "/v1/rotations/trigger" [("Idempotency-Key", request)]
    (Some (json_Marshal (rotation_json (RotationRequest.mk KindKSK ["Example.org."] true)))).
Definition trigger_served : Outcome Response.t * World := serve sim_config trigger_request day_two.
Definition trigger_response : Response.t :=
  match trigger_served.1 with Val resp => resp | _ => Response.mk 0 [] "" end.

Lemma trigger_served_ok : serve sim_config trigger_request day_two = (Val trigger_response, trigger_served.2).
Proof.
  assert (H : trigger_served.1 = Val trigger_response) by (vm_compute; reflexivity).
  rewrite <- H. apply surjective_pairing.
Qed.

Example trigger_answered :
  (Response.StatusCode trigger_response, Response.Body trigger_response)
  = (202, json_Encode (JObj [("status", JStr "accepted")])).
Proof. vm_compute. reflexivity. Qed.

Lemma accepted_request_repeats_witness :
  serve sim_config trigger_request trigger_served.2 = (Val trigger_response, trigger_served.2).
Proof.
  apply (accepted_request_repeats sim_config trigger_request day_two trigger_response trigger_served.2
           trigger_served.2); [exact trigger_served_ok|vm_compute; reflexivity|reflexivity].
Defined.

#[local] Instance sim_socket : Transport :=
  socket_transport sim_config (errors_New "invalid header") (errors_New "EOF").
Definition trigger_ksk_command : command := TriggerCommand "KSK" ["Example.org., "].
Definition trigger_printed : Outcome unit * Process :=
  run_command trigger_ksk_command request (mkProcess (day_two : Wire) "").

Example trigger_printed_text :
  (trigger_printed.1, String.length (stdout trigger_printed.2)) = (Val tt, 27%nat).
Proof. vm_compute. reflexivity. Qed.

Lemma commands_reach_controller_witness :
  reported sim_config (errors_New "invalid header") (errors_New "EOF") (asked sim_config trigger_ksk_command request) (refusal trigger_ksk_command) day_two ""
    trigger_printed.1 trigger_printed.2.
Proof.
  refine (commands_reach_controller sim_config (errors_New "invalid header") (errors_New "EOF")
            trigger_ksk_command request day_two "" trigger_printed _ _ _ _).
  - split; [vm_compute; reflexivity|]. split; [|by vm_compute]. split; [vm_compute; lia|].
    vm_compute. repeat constructor.
  - vm_compute. reflexivity.
  - vm_compute. reflexivity.
  - reflexivity.
Defined.

(** The zones report of the client is the one of the controller. *)
Definition zones_printed : Outcome unit * Process := run_command ZonesCommand "" (mkProcess (day_two : Wire) "").
Example zones_printed_text :
  zones_printed.1 = Val tt /\ String.length (stdout zones_printed.2) <> 0%nat /\
  match (asked sim_config ZonesCommand "" day_two).1 with
  | Val r => stdout zones_printed.2 = of_bytes (indent_bytes 0 (report_json r) ++ [line_feed])
  | _ => False
  end.
Proof. vm_compute. split_and!; [reflexivity|discriminate|reflexivity]. Qed.

(** ** The socket *)
Definition socket_path : string := "/run/dnssec/control.sock".
Definition stale_socket : SocketWorld := mkSocketWorld {[socket_path := Socket 511]} [].
Definition prepare_sim : S_ unit := Prepare 493 (errors_New "in use") (errors_New "not a directory") socket_path.

(** A stale socket is replaced by a protected one; another file is not touched. *)
Example stale_socket_replaced :
  ((prepare_sim stale_socket).1, (prepare_sim stale_socket).2.(nodes) !! socket_path,
   (prepare_sim stale_socket).2.(nodes) !! "/run/dnssec") = (Val tt, Some (Socket 384), Some (Directory 448)).
Proof. vm_compute. reflexivity. Qed.
Example file_refused :
  prepare_sim (mkSocketWorld {[socket_path := OtherFile]} []) =
  (Fail_ (errors_New "refusing to replace non-socket /run/dnssec/control.sock"),
   mkSocketWorld {[socket_path := OtherFile; "/run/dnssec" := Directory 448]} []).
Proof. vm_compute. reflexivity. Qed.

(** A request without confirmation, with an unknown member, or by another method is refused. *)
Definition request_status (r : Request.t) : Z :=
  match (serve sim_config r day_two).1 with Val resp => Response.StatusCode resp | _ => 0 end.
Example refused_requests :
  map request_status
    [Request.mk "POST" "/v1/rotations/trigger" [("Idempotency-Key", request)]
       (Some (json_Marshal (rotation_json (RotationRequest.mk KindKSK ["example.org."] false))));
     Request.mk "POST" "/v1/enrollment/arm" [("Idempotency-Key", request)]
       (Some (json_Marshal (JObj [("confirm", JBool true); ("force", JBool true)])));
     Request.mk "GET" "/v1/enrollment/arm" [] None; Request.mk "GET" "/v2/status" [] None;
     Request.mk "GET" "/v1/status" [] None]
  = [400; 400; 405; 404; 200].
Proof. vm_compute. reflexivity. Qed.
