(* ===== verification/LifecycleSim.v ===== *)
(** * One life of the process on the simulated services: instances of the theorems about it. *)
From S2P Require Import Prelude GoStrings GoTime Model Config Dns Keys Effects Core.
From S2P Require Import Rollover Reconcile Operator Report Single Reach Reachable Sim Instances.
From S2P Require Import Json JsonCodec Http Control Cli HttpSim ControlSim Lifecycle LifecycleFacts.
Import Process.

#[export] Instance fx : Fx := {| on_start_order l := l; on_stop_order l := reverse l |}.
#[export] Instance fx_ok : FxOk.
Proof. by split. Qed.

Definition kernel_error : error := errors_New "kernel".
Notation sim_steps := (steps no_enrollment 493 kernel_error kernel_error kernel_error kernel_error).
Notation sim_step := (step no_enrollment 493 kernel_error kernel_error kernel_error kernel_error).

Definition first_world : World := mkWorld (split_env : Env) initial_state [].
Definition newborn : t := launched first_world ∅.

(** The worlds after the first tick and after the request. *)
Definition ticked : World := (Tick no_enrollment first_world).2.
Definition served : World := (serve no_enrollment trigger_request ticked).2.
Lemma first_tick : Tick no_enrollment first_world = (Val tt, ticked).
Proof.
  assert (H : (Tick no_enrollment first_world).1 = Val tt) by (vm_compute; reflexivity).
  rewrite <- H. apply surjective_pairing.
Qed.

(** The process while the request is handled and the first tick runs, after both, and told to stop. *)
Definition busy : t :=
  mk first_world {["." := Directory 448; "control.sock" := Socket 384]} Selecting Serving None Ticking
     false false [] [trigger_request] true false.
Definition waiting : t := busy <| world := ticked |> <| controller := Waiting |>.
Definition told : t := waiting <| in_flight := [] |> <| world := served |> <| signalled := true |>.

Tactic Notation "main_step" uconstr(rule) :=
  eapply steps_step; [split; [reflexivity|eapply main_acts, rule; try reflexivity]|].
Tactic Notation "server_step" uconstr(rule) :=
  eapply steps_step; [split; [reflexivity|eapply server_acts, rule; try reflexivity]|].
Tactic Notation "controller_step" uconstr(rule) :=
  eapply steps_step; [split; [reflexivity|eapply controller_acts, rule; try reflexivity]|].
Ltac signal_step := eapply steps_step; [split; [reflexivity|apply signal]|].

Definition start_up : list Action := [Internal; Internal; Internal; Arrive trigger_request].
Lemma socket_prepared :
  Prepare 493 kernel_error kernel_error (socket_path no_enrollment) (mkSocketWorld ∅ []) =
  (Val tt, mkSocketWorld {["." := Directory 448; "control.sock" := Socket 384]} []).
Proof. vm_compute. reflexivity. Qed.
Lemma starts : sim_steps newborn start_up busy.
Proof.
  main_step start_state.
  eapply steps_step; [split; [reflexivity|eapply main_acts, (start_run _ _ _ _ _ _ _ _ _ []); [reflexivity|apply socket_prepared]]|].
  main_step start_done. server_step request_arrives. apply steps_refl.
Qed.
Lemma tick_ends_with p o w :
  p.(controller) = Ticking -> Tick no_enrollment p.(world) = (o, w) ->
  controller_act no_enrollment p RunTick (after_tick o (p <| world := w |>)).
Proof. intros H E. pose proof (tick_ends no_enrollment p H) as A. by rewrite E in A. Qed.
Lemma ticks : sim_step busy RunTick waiting.
Proof. split; [reflexivity|]. apply controller_acts. exact (tick_ends_with busy (Val tt) ticked eq_refl first_tick). Qed.
Lemma works : sim_steps busy [RunTick; RunRequest trigger_request; Signal] told.
Proof.
  eapply steps_step; [apply ticks|]. server_step (request_handled _ _ [] _ []). signal_step. apply steps_refl.
Qed.

(** Stopped in order. *)
Definition in_order : list Action := replicate 8 Internal.
Lemma stops : exists p, sim_steps told in_order p /\ p.(main) = Returned None /\ p.(held) = false.
Proof.
  eexists. split.
  - main_step select_done. main_step stop_cancel. server_step serve_stopped. controller_step controller_stops.
    server_step shutdown_complete. main_step stop_joined. main_step (stop_close _ _ _ _ _ _ _ _ _ None). main_step stop_done.
    apply steps_refl.
  - by split.
Qed.

Lemma steps_app p l1 q l2 r : sim_steps p l1 q -> sim_steps q l2 r -> sim_steps p (l1 ++ l2) r.
Proof. intros H1 H2. induction H1 as [|p a p' l q Hs H1 IH]; [done|]. eapply steps_step; [exact Hs|by apply IH]. Qed.

Lemma lock_covers_work_witness :
  (RunTick = RunTick -> busy.(held) = true) /\
  (forall r, RunTick = Arrive r -> busy.(held) = true /\ busy.(nodes) !! socket_path no_enrollment = Some (Socket 384)) /\
  (forall r, RunTick = RunRequest r -> busy.(held) = true \/ busy.(abandoned) = true) /\
  (length busy.(errCh) < 2)%nat /\
  (waiting.(main) = Returned None ->
   waiting.(signalled) = true /\ joined waiting.(server) waiting.(controller) /\ waiting.(held) = false).
Proof.
  apply (lock_covers_work no_enrollment 493 kernel_error kernel_error kernel_error kernel_error
           ltac:(apply (bool_decide_unpack _); vm_compute; exact I)
           first_world ∅ start_up busy RunTick waiting starts ticks).
Defined.

Lemma shutdown_bounded_witness :
  (length ([] : list Action) <= 15 + 0)%nat /\
  (ended told = true \/ exists a p'', environment a = false /\ sim_step told a p'').
Proof.
  apply (shutdown_bounded no_enrollment 493 kernel_error kernel_error kernel_error kernel_error
           ltac:(apply (bool_decide_unpack _); vm_compute; exact I)
           first_world ∅ (start_up ++ [RunTick; RunRequest trigger_request; Signal]) told [] told).
  - exact (steps_app _ _ _ _ _ starts works).
  - reflexivity.
  - apply steps_refl.
  - constructor.
Defined.


(** The request has started a rotation. *)
Example request_started :
  map (fun kw => (kw.1, kw.2.(Workflow.Phase))) (map_to_list told.(world).(data).(State.Workflows))
  = [("example.org.|ksk", PhasePrepublish); ("example.org.|zsk", PhaseIdle)].
Proof. vm_compute. reflexivity. Qed.

(** When Shutdown gives up on a handler that still runs, the store is closed around it: the handler
    then changes the state, and writes its file, without the lock. *)
Definition abandoning : list Action :=
  [Signal; Internal; Internal; Internal; Internal; DrainDeadline; Internal; Internal].
Example request_outlives_lock :
  exists p p', sim_steps newborn (start_up ++ [RunTick] ++ abandoning) p /\
    sim_step p (RunRequest trigger_request) p' /\ p.(held) = false /\
    p.(world) = ticked /\ p'.(world) = served.
Proof.
  eexists _, _. split_and!.
  - eapply steps_app; [exact starts|]. eapply steps_step; [apply ticks|]. unfold abandoning.
    signal_step. main_step select_done. main_step stop_cancel. server_step serve_stopped. controller_step controller_stops.
    server_step shutdown_deadline. main_step stop_joined. main_step (stop_close _ _ _ _ _ _ _ _ _ None). apply steps_refl.
  - split; [reflexivity|]. eapply server_acts, (request_handled _ _ [] _ []). reflexivity.
  - reflexivity.
  - reflexivity.
  - reflexivity.
Qed.
