(* ===== verification/AutoDnsSim.v ===== *)
(** * A registrar on the simulated HTTP stack: instances of the theorems about its client. *)
From S2P Require Import Prelude GoStrings GoTime Model Effects Json JsonCodec JsonFacts.
From S2P Require Import Http HttpSim AutoDns AutoDnsFacts.

Definition sim_client : Client := New "https://api.example/v1/" "user" "secret" 4 (2 * Second).
Definition registrar_world (v : json) (status : Z) : AutoWorld :=
  mkAuto (mkSimWeb (100 * Second) (always status v) : Web) time_zero [].

(** The times of three calls: two seconds apart, and the first without a pause. *)
Example paced_times :
  times (fold_left (fun w call => after sim_client call w)
           [CallJobStatus 5; CallJobStatus 0; CallJobStatus 6; CallDomainDNSSEC "example.org."]
           (registrar_world JNull 200))
  = [104 * Second; 102 * Second; 100 * Second].
Proof. vm_compute. reflexivity. Qed.

Lemma requests_are_paced_witness :
  spaced (2 * Second) (times (fold_left (fun w call => after sim_client call w)
    [CallJobStatus 5; CallDomainDNSSEC "example.org."] (registrar_world JNull 200))).
Proof.
  apply (requests_are_paced (CO := sim_clock_ok) sim_client); [by vm_compute|reflexivity|by vm_compute].
Defined.

Definition omitted_record : json := JObj [("data", JArr [JObj [("name", JStr "Example.org")]])].
Definition omitted_world : AutoWorld := registrar_world omitted_record 200.

Lemma domain_state_explicit_witness :
  let w' := (DomainDNSSEC sim_client "example.org." omitted_world).2 in
  exists r ms d, answered sim_client "GET" (domain_path "example.org.") None "" r omitted_world w' /\
    ApiResponse.Data r = [JObj ms] /\
    into_struct false domain_fields (JObj ms) (DomainInfo.mk "" None None) = Some d /\
    ToLower (TrimSuffix (TrimSpace (DomainInfo.Name d)) ".") = ToLower (TrimSuffix "example.org." ".") /\
    ((member "dnssec" ms = None /\ member "dnssecData" ms = None /\
      DomainDNSSECState.mk false [] true = DomainDNSSECState.mk false [] true) \/
     exists enabled vs, member "dnssec" ms = Some (JBool enabled) /\
       member "dnssecData" ms = Some (JArr vs) /\
       Forall2 (fun v k => into_struct false dnssec_fields v zero_DNSSECData = Some k)
         vs (DomainDNSSECState.mk false [] true).(DomainDNSSECState.Data) /\
       (DomainDNSSECState.mk false [] true).(DomainDNSSECState.Enabled) = enabled /\
       (DomainDNSSECState.mk false [] true).(DomainDNSSECState.Omitted) = false).
Proof.
  apply (domain_state_explicit sim_client); [by vm_compute|vm_compute; reflexivity].
Defined.

Definition sim_material : DNSSECData.t := DNSSECData.mk 257 3 13 "AQID+/==".
Definition acknowledged : json :=
  JObj [("stid", JStr "tx-1"); ("status", JObj [("type", JStr "NOTIFY")]);
        ("data", JArr [JObj [("id", jint 4297543151); ("status", JStr "running")]])].
Definition update_world : AutoWorld := registrar_world acknowledged 200.
Definition updated : Outcome Job.t * AutoWorld :=
  UpdateDNSSEC sim_client "example.org." [sim_material] "ctid-0001" update_world.

Lemma updated_ok :
  UpdateDNSSEC sim_client "example.org." [sim_material] "ctid-0001" update_world
  = (Val (Job.mk 4297543151 "tx-1" "RUNNING"), updated.2).
Proof.
  assert (H : updated.1 = Val (Job.mk 4297543151 "tx-1" "RUNNING")) by (vm_compute; reflexivity).
  rewrite <- H. unfold updated. apply surjective_pairing.
Qed.

(** The registrar stores the record and answers a query with it. *)
Definition stored : AutoWorld :=
  mkAuto (mkSimWeb (200 * Second) (always 200 (JObj [("data", JArr [update_json "example.org." [sim_material]])])) : Web)
    (last updated.2) [].

Lemma registrar_round_trip_witness :
  exists t record resp, updated.2.(exchanges) =
      (t, request sim_client "PUT" (domain_path "example.org.")
            (Some (update_json "example.org." [sim_material])) "ctid-0001", Ok resp) :: update_world.(exchanges) /\
    Request.Body (request sim_client "PUT" (domain_path "example.org.")
      (Some (update_json "example.org." [sim_material])) "ctid-0001") = Some record /\
    forall w2 header,
      let answer := domain_answer record in
      len answer <= 1024 * 1024 -> (pace sim_client w2).1 = Val tt ->
      web_url_error (base sim_client +:+ domain_path "example.org.") = None ->
      (forall n, (web_Do (request sim_client "GET" (domain_path "example.org.") None "") n).1
         = Ok (Response.mk StatusOK header answer)) ->
      (DomainDNSSEC sim_client "example.org." w2).1 = Val (DomainDNSSECState.mk true [sim_material] false).
Proof.
  apply (registrar_round_trip sim_client "example.org." [sim_material] "ctid-0001" update_world
           (Job.mk 4297543151 "tx-1" "RUNNING") updated.2).
  - split_and!; [vm_compute; repeat constructor|vm_compute; reflexivity|vm_compute; reflexivity].
  - constructor; [|constructor]. split_and!; try (vm_compute; congruence). vm_compute. repeat constructor.
  - done.
  - exact updated_ok.
Defined.

(** The stored record read back, up to the line feed of the encoder. *)
Example stored_read_back :
  (DomainDNSSEC sim_client "example.org." stored).1 = Val (DomainDNSSECState.mk true [sim_material] false).
Proof. vm_compute. reflexivity. Qed.

Definition unavailable_world : AutoWorld :=
  registrar_world (JObj [("status", JObj [("code", JStr "E300114"); ("type", JStr "ERROR")])]) 404.
Definition unavailable : Outcome string * AutoWorld := JobStatus sim_client 71378422 unavailable_world.
Definition unavailable_error : error :=
  match unavailable.1 with Fail_ e => e | _ => errors_New "" end.

Lemma unavailable_ok : JobStatus sim_client 71378422 unavailable_world = (Fail_ unavailable_error, unavailable.2).
Proof.
  assert (H : unavailable.1 = Fail_ unavailable_error) by (vm_compute; reflexivity).
  rewrite <- H. apply surjective_pairing.
Qed.

Lemma job_unavailable_exact_witness :
  is_job_unavailable unavailable_error = true <->
  0 < 71378422 /\ exists resp msg,
    received (request sim_client "GET" ("/job/" +:+ pretty 71378422) None "") resp unavailable_world unavailable.2 /\
    interpret "GET" ("/job/" +:+ pretty 71378422) resp =
      inl (RequestError "GET" ("/job/" +:+ pretty 71378422) StatusNotFound "E300114" msg).
Proof.
  apply (job_unavailable_exact sim_client).
  - split; [|done|done|done]. intros r n e. cbn. destruct (reply n r); [done|]. by intros [= <-].
  - exact unavailable_ok.
Defined.
