(* ===== verification/ClientSim.v ===== *)
(** * Conversations with simulated PowerDNS and LMTP servers: instances of the theorems about the
    clients. *)
From S2P Require Import Prelude GoStrings GoTime Model Config Dns Validate Effects Sim ValidateSim.
From S2P Require Import Json JsonCodec Http HttpSim Pdns PdnsFacts Lmtp LmtpFacts.

(** ** PowerDNS *)
Definition pdns_client : Pdns.Client := Pdns.New "http://pdns/api/v1/" "localhost" "key".
Definition pdns_world (status : Z) (body : string) : PdnsWorld :=
  mkPdns (mkSimWeb 0 (fun _ => Some (Response.mk status [] body)) : Web) [].

(** An empty answer to a read is an empty inventory. *)
Example empty_answer_is_empty_inventory :
  (Pdns.ListKeys pdns_client "example.org." (pdns_world 200 "")).1 = Val [] /\
  (Pdns.ListZones pdns_client (pdns_world 204 "")).1 = Val [].
Proof. split; vm_compute; reflexivity. Qed.

Example keys_are_read :
  (Pdns.ListKeys pdns_client "example.org." (pdns_world 200
     (json_Encode (JArr [JObj [("id", jint 7); ("keytype", JStr "ksk"); ("active", JBool true)]])))).1
  = Val [Key.mk 7 "ksk" true false "" [] "" 0].
Proof. vm_compute. reflexivity. Qed.

Example rejected_change :
  is_ok (match (Pdns.DeleteKey pdns_client "a/b" 7 (pdns_world 422 "")).1 with Val _ => Ok tt | _ => Err (errors_New "") end)
  = false.
Proof. vm_compute. reflexivity. Qed.

(** ** LMTP *)
Definition lmtp_config : LMTP.t :=
  LMTP.mk true "127.0.0.1:24" "mx.example.org" "dnssec@example.org" ["a@example.org"; "b@example.org"] Second.
Definition lmtp_event : Notification.t :=
  Notification.mk "event-1" "" "example.org." KindKSK (719162 * ns_per_day) 1 2 0 "tx-1" 0 time_zero "" time_zero.
Definition lmtp_peer (lines : list string) : Conn := mkConn lines (errors_New "EOF") [] [].
Definition lmtp_lines : list string :=
  ["220 ready"; "250-mx.example.org"; "250-PIPELINING"; "250 8BITMIME"; "250 ok"; "250 ok"; "250 ok";
   "354 go ahead"; "250 a"; "250 b"; "221 bye"].
Definition sent : Outcome unit * Conn := Lmtp.Send lmtp_config lmtp_event (lmtp_peer lmtp_lines).

Lemma sent_ok : Lmtp.Send lmtp_config lmtp_event (lmtp_peer lmtp_lines) = (Val tt, sent.2).
Proof.
  assert (H : sent.1 = Val tt) by (vm_compute; reflexivity).
  rewrite <- H. unfold sent. apply surjective_pairing.
Qed.

(** One recipient less accepted, and the event is not delivered. *)
Example one_refused :
  (Lmtp.Send lmtp_config lmtp_event (lmtp_peer (take 9 lmtp_lines ++ ["452 full"]))).1
  = Fail_ (errors_New "LMTP delivery response: 452 full").
Proof. vm_compute. reflexivity. Qed.

Example commands_written :
  rev (List.filter (fun l => Nat.ltb (String.length l) 40) (outbound sent.2))
  = map (fun l => l +:+ crlf)
      ["LHLO mx.example.org"; "MAIL FROM:<dnssec@example.org>"; "RCPT TO:<a@example.org>";
       "RCPT TO:<b@example.org>"; "DATA"; "QUIT"].
Proof. vm_compute. reflexivity. Qed.

Lemma delivery_confirmed_witness :
  lmtp_config.(LMTP.Enabled) = true /\ validateEvent lmtp_config lmtp_event = Ok tt /\
  exists from recipients after quit,
    mailbox lmtp_config.(LMTP.From_) = Ok from /\ mailboxes lmtp_config.(LMTP.To_) = Ok recipients /\
    replies (dialogue_codes recipients) lmtp_lines after /\
    sent.2.(outbound) = quit ++ rev (dialogue_texts lmtp_config lmtp_event from recipients) ++ [] /\
    (quit = [] \/ quit = ["QUIT" +:+ crlf]).
Proof. apply (delivery_confirmed lmtp_config lmtp_event (lmtp_peer lmtp_lines) sent.2). exact sent_ok. Defined.

Lemma no_injection_witness :
  exists new, (Lmtp.Send lmtp_config lmtp_event (lmtp_peer lmtp_lines)).2.(outbound) = new ++ [] /\
    Forall (intended lmtp_config lmtp_event) new.
Proof.
  apply (no_injection lmtp_config lmtp_event (lmtp_peer lmtp_lines)).
  intros v a Hv. cbn. by intros [= <-].
Defined.
