(* ===== verification/WireSim.v ===== *)
(** * The wired controller on simulated servers: instances of the theorems about the wire. *)
From S2P Require Import Prelude GoStrings GoTime Model Config Dns Validate Keys Effects Core.
From S2P Require Import Rollover Parent Enroll Reconcile Operator Safety TickSafety Steps Sim Instances.
From S2P Require Import Json JsonCodec Http HttpSim Probe ProbeFacts Evidence EndToEnd ProbeSim.
From S2P Require Import StateFile StateFileFacts StateJson StateFileSim ValidateSim AutoDns AutoDnsFacts Pdns PdnsFacts Lmtp App Wire.
From S2P Require Import Control Lifecycle Durable.
From S2P Require LifecycleSim.

(** ** The components, from the configuration *)
Definition secret_files (path : string) : result SecretFile :=
  Ok (mkSecretFile true 384 (Ok (path +:+ "-secret" +:+ of_bytes [byte_of_code 10]))).
Definition wire_components : Components :=
  mkComponents (Pdns.New "http://127.0.0.1" "localhost" "key-secret")
    (AutoDns.New "https://api" "user" "pw-secret" 4 Second) (newObserver sim_config)
    sim_config.(Config.LMTP) "state.json".

Example components_provided : components secret_files sim_config = Ok wire_components.
Proof. vm_compute. reflexivity. Qed.

(** A secret file others can read stops the program. *)
Example exposed_secret :
  newPDNS (fun _ => Ok (mkSecretFile true 420 (Ok "secret"))) sim_config
  = Err (errors_New "powerdns credential: secret key must not be group/world accessible").
Proof. vm_compute. reflexivity. Qed.

(** ** The world *)
#[export] Instance sim_order : MapOrder := {|
  Order := unit;
  order_workflows m o := (map_to_list m, o);
  order_notifications m o := (map_to_list m, o);
|}.
#[export] Instance sim_mail : MailPeer := {|
  Post := list Conn;
  post_open _ p := (mkConn [] (errors_New "EOF") [] [], p);
  post_close conn p := conn :: p;
|}.

Definition key_json (k : Key.t) : json :=
  JObj [("id", jint k.(Key.ID)); ("keytype", JStr k.(Key.KeyType)); ("active", JBool k.(Key.Active));
        ("published", JBool k.(Key.Published)); ("dnskey", JStr k.(Key.DNSKEY));
        ("algorithm", JStr k.(Key.Algorithm)); ("bits", jint k.(Key.Bits))].
Definition content_json (x : rr_content) : json :=
  JObj [("content", JStr (Content x)); ("disabled", JBool (Disabled x))].
Definition rrset_json (s : RRSet.t) : json :=
  JObj [("name", JStr s.(RRSet.Name)); ("type", JStr s.(RRSet.Type_)); ("ttl", jint s.(RRSet.TTL));
        ("records", JArr (map content_json s.(RRSet.Records)))].
Definition zone_json (z : Zone.t) : json :=
  JObj [("id", JStr z.(Zone.ID)); ("name", JStr z.(Zone.Name)); ("kind", JStr z.(Zone.Kind));
        ("dnssec", JBool z.(Zone.DNSSEC)); ("rrsets", JArr (map rrset_json z.(Zone.RRsets)))].

(** A PowerDNS server of one zone: its zones, the zone and its keys; every write is accepted. *)
Definition pdns_server (zone : Zone.t) (keys : list Key.t) (q : Http.Request.t) : option Response.t :=
  let answer v := Some (Response.mk 200 [] (json_Encode v)) in
  let path := Http.Request.URL q in
  if Http.Request.Method q != "GET" then Some (Response.mk 204 [] "")
  else if path == "http://127.0.0.1/servers/localhost/zones" then answer (JArr [zone_json zone])
  else if path == "http://127.0.0.1/servers/localhost/zones/example.org./cryptokeys"
  then answer (JArr (map key_json keys))
  else answer (zone_json zone).

#[export] Instance wired_sim : Services := newController wire_components.

Definition on_wires (ds_keys : list Key.t) (w : @World sim) : @World wired_sim :=
  let e : SimEnv := w.(env) in
  @mkWorld wired_sim
    (mkApp (HS := sim_stack) (MO := sim_order) (MP := sim_mail)
       (mkSimWeb e.(Sim.clock) (pdns_server e.(zone) e.(keys)) : Web) [] time_zero [] ([] : Post)
       (empty_disk []) tt,
     net_world (zone_script e.(keys) ds_keys)) w.(data) [].

(** A KSK rollover whose old key is due for deletion. *)
Definition wire_world : @World wired_sim := on_wires [sim_key 3 "ksk" true] (ksk_rollover 10).
Definition wire_final : AppWorld := (((@Tick wired_sim _ sim_config wire_world).2.(env)) : WiredEnv).1.

(** What the PowerDNS server receives in the tick: two reads and one deletion. *)
Example wire_requests :
  map (fun x : pdns_exchange => (Http.Request.Method x.1, Http.Request.URL x.1)) wire_final.(pdns_sent)
  = [("DELETE", "http://127.0.0.1/servers/localhost/zones/example.org./cryptokeys/1");
     ("GET", "http://127.0.0.1/servers/localhost/zones/example.org./cryptokeys");
     ("GET", "http://127.0.0.1/servers/localhost/zones")].
Proof. vm_compute. reflexivity. Qed.



(** ** Boot, one tick, crash, boot *)
#[local] Existing Instance LifecycleSim.fx.
Definition blank_disk : Disk := mkDisk ([] : K) (FS.mk ∅ [] ∅) [] ∅.
Definition booted : Outcome Store.t * Disk := Open "state.json" blank_disk.
Lemma boots : booted.1 = Val (Store.mk "state.json" blank_state true).
Proof. vm_compute. reflexivity. Qed.

(** The wired controller on the opened store, and after its first tick. *)
Definition boot_world : @World wired_sim :=
  let e : SimEnv := (ksk_rollover 0).(env) in
  @mkWorld wired_sim
    (mkApp (HS := sim_stack) (MO := sim_order) (MP := sim_mail)
       (mkSimWeb e.(Sim.clock) (pdns_server e.(zone) e.(keys)) : Web) [] time_zero [] ([] : Post)
       booted.2 tt,
     net_world (zone_script e.(keys) [])) blank_state [].
Definition ticked_world : @World wired_sim := (@Tick wired_sim _ sim_config boot_world).2.

(** The tick files the zone's workflows, in one write. *)
Example tick_persists :
  (map is_persist ticked_world.(trace), map fst (map_to_list ticked_world.(data).(State.Workflows)),
   refused ticked_world.(trace)) = ([false; true; false; false; false; false], ["example.org.|ksk"; "example.org.|zsk"], []).
Proof. vm_compute. reflexivity. Qed.

Notation life := (steps (SV := wired_sim) sim_config 493 LifecycleSim.kernel_error LifecycleSim.kernel_error
  LifecycleSim.kernel_error LifecycleSim.kernel_error (launched (SV := wired_sim) boot_world ∅)
  [Internal; Internal; Internal; RunTick]).
Definition prepared : SocketWorld := Eval vm_compute in
  (Prepare 493 LifecycleSim.kernel_error LifecycleSim.kernel_error (socket_path sim_config) (mkSocketWorld ∅ [])).2.
Lemma first_life : exists p, life p /\ p.(Process.world) = ticked_world.
Proof.
  eexists. split.
  - eapply steps_step; [split; [reflexivity|eapply main_acts, start_state; reflexivity]|].
    eapply steps_step; [split; [reflexivity|eapply main_acts, (start_run _ _ _ _ _ _ _ _ _ [] (Val tt) prepared);
      [reflexivity|vm_compute; reflexivity]]|].
    eapply steps_step; [split; [reflexivity|eapply main_acts, start_done; reflexivity]|].
    eapply steps_step; [split; [reflexivity|eapply controller_acts, tick_ends; reflexivity]|]. apply steps_refl.
  - assert (E : (@Tick wired_sim _ sim_config boot_world).1 = Val tt) by (vm_compute; reflexivity).
    unfold after_tick. cbn -[Tick boot_world]. rewrite E. reflexivity.
Qed.

Lemma state_survives_crashes_witness :
  refused ticked_world.(trace) = [] /\
  forall f', crash (disk_of wire_components ticked_world).(fs) f' ->
    exists s', s' ∈ ticked_world.(data) :: refused ticked_world.(trace) /\ restarts wire_components f' s'.
Proof.
  split; [vm_compute; reflexivity|]. destruct first_life as (p & Hl & <-). intros f' Hc.
  destruct (state_survives_crashes wire_components sim_config 493 LifecycleSim.kernel_error LifecycleSim.kernel_error
    LifecycleSim.kernel_error LifecycleSim.kernel_error None blank_disk (Store.mk "state.json" blank_state true)
    boot_world ∅ [Internal; Internal; Internal; RunTick] p) as [H _]; [|exact boots|reflexivity|reflexivity|reflexivity|exact Hl|].
  - intros n. cbn. rewrite take_nil. reflexivity.
  - apply H. by right.
Defined.

(** The state is one that can be read back, so a restart without faults has it. *)
Example restart_has_it :
  bool_decide (storable ticked_world.(data)) = true /\
  (Open "state.json" (mkDisk ([] : K) (disk_of wire_components ticked_world).(fs) [] ∅)).1
  = Val (Store.mk "state.json" ticked_world.(data) true).
Proof. split; vm_compute; reflexivity. Qed.
